(** * Bracelet-code deck search: a shallow embedding and its properties

    The development follows the C sources of the repository:
    - [bit_utilities.c]      the 52-bit bracelet validator and bit helpers,
    - [dbn_de_bruijn.c]      the depth-first primitive sequence generator,
    - [dbn_file_creator.c]   the writer of the primitive cache files,
    - [f64_seq.c]            the cached sequence reader,
    - [ultimate_search.c]    the compound search and the 8K / 4T solvers,
    - [deck_utilities.c]     deck scoring helpers,
    - [umake_decks.c]        the deck realizer and its reading loop.

    Unsigned 64-bit values are modelled as [Z] with the wrap-around written
    out ([u64]); C [int] values that provably stay small are plain [Z];
    arrays are lists read and written by index. *)

From Stdlib Require Import ZArith List Lia Bool String Ascii Permutation DecimalString.
From stdpp Require Import base list.
From coqutil Require Import Z.bitblast.

Local Open Scope Z_scope.

(** ** Machine integers *)

Definition u64 (x : Z) : Z := x mod 2 ^ 64.
Definition u32 (x : Z) : Z := x mod 2 ^ 32.

(** [~x] on a [uint64_t]. *)
Definition not64 (x : Z) : Z := u64 (Z.lnot x).

(** C truth value of an integer expression. *)
Definition nonzero (x : Z) : bool := negb (x =? 0).

(** ** bit_utilities.c *)

Module Bit.

Definition SEQUENCE_LENGTH : Z := 52.
Definition SUBSEQUENCE_MASK : Z := 63.

(** The [for (i = 0; is_valid && (i < SEQUENCE_LENGTH); ++i)] loop of
    [bit_has_unique_subsequences]; [n] is the number of iterations left. *)
Fixpoint unique_loop (n : nat) (is_valid : bool) (seq subsequence_bit_store : Z) : bool :=
  match n with
  | O => is_valid
  | S n' =>
      if is_valid then
        let subsequence_index := Z.land seq SUBSEQUENCE_MASK in
        let subseq_bit := u64 (Z.shiftl 1 subsequence_index) in
        unique_loop n'
          (Z.land subsequence_bit_store subseq_bit =? 0)
          (Z.shiftr seq 1)
          (Z.lor subsequence_bit_store subseq_bit)
      else is_valid
  end.

Definition bit_has_unique_subsequences (sequence : Z) : bool :=
  let seq := Z.lor sequence (u64 (Z.shiftl (Z.land sequence 31) SEQUENCE_LENGTH)) in
  unique_loop (Z.to_nat SEQUENCE_LENGTH) true seq 0.

(** [bit_get_integer_seq]: the C string ends at its first NUL or newline;
    blanks and tabs are skipped; every other character shifts the
    accumulator and only ['1'] sets the new low bit. *)
Fixpoint bit_get_integer_seq_from (seq : Z) (text : list ascii) : Z :=
  match text with
  | [] => seq
  | digit :: rest =>
      if (Ascii.eqb digit " " || Ascii.eqb digit "009")%bool then
        bit_get_integer_seq_from seq rest
      else if (Ascii.eqb digit "000" || Ascii.eqb digit "010")%bool then seq
      else
        let seq := u64 (Z.shiftl seq 1) in
        bit_get_integer_seq_from (if Ascii.eqb digit "1" then Z.lor seq 1 else seq) rest
  end.

Definition bit_get_integer_seq (sequence : string) : Z :=
  bit_get_integer_seq_from 0 (list_ascii_of_string sequence).

(** [bit_count_set_bits]: [value = value & (value - 1)] clears the lowest
    set bit; a 32-bit [unsigned int] needs at most 32 rounds. *)
Fixpoint count_loop (fuel : nat) (value count : Z) : Z :=
  match fuel with
  | O => count
  | S fuel' =>
      if value =? 0 then count
      else count_loop fuel' (Z.land value (value - 1)) (count + 1)
  end.

Definition bit_count_set_bits (value : Z) : Z := count_loop 32 (u32 value) 0.

End Bit.

(** ** Arrays *)

(** C arrays are lists; an index outside the list is undefined behaviour in
    C, and here reads 0 and drops the write. *)
Definition aget (a : list Z) (i : Z) : Z :=
  if i <? 0 then 0 else nth (Z.to_nat i) a 0.

Definition aset (a : list Z) (i v : Z) : list Z :=
  if i <? 0 then a else <[Z.to_nat i := v]> a.

(** The index range of [for (i = 0; i < n; ++i)]. *)
Definition upto (n : Z) : list Z := map Z.of_nat (seq 0 (Z.to_nat n)).

(** ** sequence_utilities.h *)

Module Seq.
Definition SEQ_A6 : Z := 0x1.
Definition SEQ_A7 : Z := 0x2.
Definition SEQ_27 : Z := 0x4.
Definition SEQ_28 : Z := 0x8.
Definition SEQ_38 : Z := 0x10.
Definition SEQ_39 : Z := 0x20.
Definition SEQ_49 : Z := 0x40.
Definition SEQ_4T : Z := 0x80.
Definition SEQ_5T : Z := 0x100.
Definition SEQ_5J : Z := 0x200.
Definition SEQ_6J : Z := 0x400.
Definition SEQ_6Q : Z := 0x800.
Definition SEQ_7Q : Z := 0x1000.
Definition SEQ_EV : Z := 0x2000.
Definition SEQ_HD : Z := 0x4000.
Definition SEQ_CD : Z := 0x8000.
Definition SEQ_HC : Z := 0x10000.
Definition SEQ_M34 : Z := 0x20000.
Definition SEQ_M46 : Z := 0x40000.
Definition SEQ_M47 : Z := 0x80000.
Definition SEQ_M58 : Z := 0x100000.
Definition SEQ_M59 : Z := 0x200000.
Definition SEQ_M6Q : Z := 0x400000.
Definition SEQ_PR : Z := 0x800000.
Definition SEQ_FI : Z := 0x1000000.
Definition SEQ_LU : Z := 0x2000000.
End Seq.

(** ** deck_utilities.c *)

Module Deck.

Record deck_info_t := {
  deck_array : list Z;
  temp_deck_array : list Z;
  deck_length : Z;
  deck_score : Z;
  sequence_count : Z;
  sequence_type_bits : Z;
  find_all_sequences_flag : bool
}.

Definition SUIT_SPADE : Z := 0.
Definition SUIT_CLUB : Z := 1.
Definition SUIT_HEART : Z := 2.
Definition SUIT_DIAMOND : Z := 3.
Definition N_BITS_MAX : Z := 52.
Definition NUMBER_OF_CARDS_IN_A_SUIT : Z := 13.

(** [deck_is_value_in_array]. *)
Definition deck_is_value_in_array (value : Z) (array : list Z) (array_length : Z) : bool :=
  existsb (Z.eqb value) (take (Z.to_nat array_length) array).

(** [deck_get_sequence_from_deck]. *)
Definition deck_get_sequence_from_deck
    (value_array : list Z) (value_length : Z) (d : deck_info_t) : Z :=
  fold_left
    (fun sequence i =>
       let sequence := u64 (Z.shiftl sequence 1) in
       let card := aget (temp_deck_array d) i in
       let card_value := Z.land card 0xFF in
       if deck_is_value_in_array card_value value_array value_length
       then Z.lor sequence 1 else sequence)
    (upto (deck_length d)) 0.

(** The two [switch (value_position_diff)] blocks of
    [deck_get_dup_count_score]. *)
Definition penalty (value_position_diff : Z) : Z :=
  match value_position_diff with
  | 1 => 32 | 2 => 16 | 3 => 8 | 4 => 4 | 5 => 2 | 6 => 1 | _ => 0
  end.

Record dup_state := {
  last_value_position_array : list Z;
  value_position_diff : Z;
  dup_count : Z
}.

(** Body of the loop over all cards in the deck. *)
Definition dup_all_cards (temp : list Z) (st : dup_state) (i : Z) : dup_state :=
  let card := aget temp i in
  let card_value := Z.land card 0xF in
  let last_value_position := aget (last_value_position_array st) (card_value - 1) in
  let array := aset (last_value_position_array st) (card_value - 1) i in
  if 0 <=? last_value_position then
    let diff := i - last_value_position in
    {| last_value_position_array := array;
       value_position_diff := diff;
       dup_count := dup_count st + penalty diff |}
  else
    {| last_value_position_array := array;
       value_position_diff := value_position_diff st;
       dup_count := dup_count st |}.

(** Body of the loop over the first five cards: [value_position_diff] is only
    assigned when [last_value_position > 5], and the [switch] runs on
    whatever it holds. *)
Definition dup_first_five (temp : list Z) (st : dup_state) (i : Z) : dup_state :=
  let card := aget temp i in
  let card_value := Z.land card 0xF in
  let last_value_position := aget (last_value_position_array st) (card_value - 1) in
  let array := aset (last_value_position_array st) (card_value - 1) i in
  let diff :=
    if 5 <? last_value_position then
      if 46 <? last_value_position then i - (last_value_position - 52)
      else last_value_position - i
    else value_position_diff st in
  {| last_value_position_array := array;
     value_position_diff := diff;
     dup_count := dup_count st + penalty diff |}.

Definition dup_count_of (d : deck_info_t) : Z :=
  let st0 := {| last_value_position_array := replicate 13 (-1);
                value_position_diff := 0;
                dup_count := 0 |} in
  let st1 := fold_left (dup_all_cards (temp_deck_array d)) (upto (deck_length d)) st0 in
  let st2 := fold_left (dup_first_five (temp_deck_array d)) (upto 5) st1 in
  dup_count st2.

Definition deck_get_dup_count_score (d : deck_info_t) : Z := 65535 - dup_count_of d.

End Deck.

(** ** umake_decks.c *)

Module Umake.
Import Deck.

Definition VALUE_ACE_OR_THREE : Z := 103.
Definition VALUE_FOUR_OR_SIX : Z := 46.
Definition VALUE_EIGHT_OR_TEN : Z := 81.
Definition VALUE_JACK_OR_KING : Z := 113.
Definition TINY_DECK_SCORE : Z := 0.

Record seq_info_t := {
  red_seq : Z;
  cd_seq : Z;
  hc_seq : Z;
  odd_seq : Z;
  c7k_seq : Z;
  c8k_seq : Z;
  c4t_seq : Z;
  subsequence_mask : Z;
  n_bits_max : Z
}.

Definition value_lookup_array : list Z :=
  [2; VALUE_FOUR_OR_SIX; 0; 0; 0; 0; 12; VALUE_EIGHT_OR_TEN;
   VALUE_ACE_OR_THREE; 5; 0; 0; 0; 7; VALUE_JACK_OR_KING; 9].

(** The cell written at position [i] by [get_deck_possibilities]: after
    [n_bits_max - 1 - i] right shifts the low bit of each sequence is its
    bit [n_bits_max - 1 - i]. *)
Definition possibility (q : seq_info_t) (shift : Z) : Z :=
  let low (x : Z) := Z.land (Z.shiftr x shift) 1 in
  let suit := Z.lor (Z.shiftl (low (red_seq q)) 1) (low (cd_seq q)) in
  let value_code :=
    Z.lor (Z.lor (Z.lor (Z.shiftl (low (odd_seq q)) 3) (Z.shiftl (low (c7k_seq q)) 2))
                 (Z.shiftl (low (c8k_seq q)) 1))
          (low (c4t_seq q)) in
  let value := aget value_lookup_array value_code in
  Z.lor (Z.shiftl suit 8) value.

(** [get_deck_possibilities]: [for (i = n_bits_max - 1; i >= 0; --i)], each
    round storing a cell and shifting the six sequences right by one. *)
Definition get_deck_possibilities (deck_array : list Z) (q : seq_info_t) : list Z :=
  fold_left
    (fun deck shift => aset deck (n_bits_max q - 1 - shift) (possibility q shift))
    (upto (n_bits_max q)) deck_array.

Definition c27_value_array : list Z := [2; 3; 4; 5; 6; 7].
Definition c28_value_array : list Z := [2; 3; 4; 5; 6; 7; 8].
Definition c38_value_array : list Z := [3; 4; 5; 6; 7; 8].
Definition c39_value_array : list Z := [3; 4; 5; 6; 7; 8; 9].
Definition c49_value_array : list Z := [4; 5; 6; 7; 8; 9].
Definition c5T_value_array : list Z := [5; 6; 7; 8; 9; 10].
Definition c5J_value_array : list Z := [5; 6; 7; 8; 9; 10; 11].
Definition c6J_value_array : list Z := [6; 7; 8; 9; 10; 11].
Definition c6Q_value_array : list Z := [6; 7; 8; 9; 10; 11; 12].
Definition c7Q_value_array : list Z := [7; 8; 9; 10; 11; 12].
Definition cM34_value_array : list Z := [3; 4; 6; 8; 9; 12].
Definition cM46_value_array : list Z := [4; 5; 6; 8; 10; 12].
Definition cM47_value_array : list Z := [4; 5; 6; 7; 8; 10; 12].
Definition cM58_value_array : list Z := [5; 6; 7; 8; 10; 12].
Definition cM59_value_array : list Z := [5; 6; 7; 8; 9; 10; 12].
Definition cM6Q_value_array : list Z := [6; 7; 8; 9; 10; 12].
Definition cPR_value_array : list Z := [2; 3; 5; 7; 11; 13].
Definition cFI_value_array : list Z := [1; 2; 3; 5; 8; 13].
Definition cLU_value_array : list Z := [1; 2; 3; 4; 7; 11].

(** The macro [CHECK_FOR_BRACELET_SEQUENCE(ARRAY_NAME, SEQ_BIT)], acting on
    the locals [(sequence_type_bits, sequence_count)]. *)
Definition CHECK_FOR_BRACELET_SEQUENCE (d : deck_info_t)
    (acc : Z * Z) (check : list Z * Z) : Z * Z :=
  let '(sequence_type_bits, sequence_count) := acc in
  let '(value_array, SEQ_BIT) := check in
  let sequence := deck_get_sequence_from_deck value_array (Z.of_nat (length value_array)) d in
  if Bit.bit_has_unique_subsequences sequence
  then (Z.lor sequence_type_bits SEQ_BIT, sequence_count + 1)
  else (sequence_type_bits, sequence_count).

(** The checks in the order the source expands them. *)
Definition consecutive_checks : list (list Z * Z) :=
  [ (c27_value_array, Seq.SEQ_27); (c28_value_array, Seq.SEQ_28);
    (c38_value_array, Seq.SEQ_38); (c39_value_array, Seq.SEQ_39);
    (c49_value_array, Seq.SEQ_49); (c5T_value_array, Seq.SEQ_5T);
    (c5J_value_array, Seq.SEQ_5J); (c6J_value_array, Seq.SEQ_6J);
    (c6Q_value_array, Seq.SEQ_6Q); (c7Q_value_array, Seq.SEQ_7Q) ].

Definition special_checks : list (list Z * Z) :=
  [ (cM34_value_array, Seq.SEQ_M34); (cM46_value_array, Seq.SEQ_M46);
    (cM47_value_array, Seq.SEQ_M47); (cM58_value_array, Seq.SEQ_M58);
    (cM59_value_array, Seq.SEQ_M59); (cM6Q_value_array, Seq.SEQ_M6Q);
    (cPR_value_array, Seq.SEQ_PR); (cFI_value_array, Seq.SEQ_FI);
    (cLU_value_array, Seq.SEQ_LU) ].

Definition input_sequence_bits : Z :=
  Z.lor (Z.lor (Z.lor (Z.lor (Z.lor (Z.lor Seq.SEQ_A6 Seq.SEQ_A7) Seq.SEQ_4T) Seq.SEQ_EV)
                      Seq.SEQ_HD) Seq.SEQ_CD) Seq.SEQ_HC.

Definition set_sequence_count (d : deck_info_t) (n : Z) : deck_info_t :=
  {| deck_array := deck_array d;
     temp_deck_array := temp_deck_array d;
     deck_length := deck_length d;
     deck_score := deck_score d;
     sequence_count := n;
     sequence_type_bits := sequence_type_bits d;
     find_all_sequences_flag := find_all_sequences_flag d |}.

(** [test_deck_for_special_sequences]: returns the mask and leaves the
    number of passed checks in [sequence_count]. *)
Definition test_deck_for_special_sequences (d : deck_info_t) : Z * deck_info_t :=
  let acc := (Z.lor 0 input_sequence_bits, 0) in
  let acc := fold_left (CHECK_FOR_BRACELET_SEQUENCE d) consecutive_checks acc in
  let acc :=
    if find_all_sequences_flag d
    then fold_left (CHECK_FOR_BRACELET_SEQUENCE d) special_checks acc
    else acc in
  (fst acc, set_sequence_count d (snd acc)).

(** [get_deck_score]. *)
Definition get_deck_score (d : deck_info_t) : Z * deck_info_t :=
  let '(sequence_type_bits, d) := test_deck_for_special_sequences d in
  let deck_score := Bit.bit_count_set_bits sequence_type_bits in
  let deck_score := Z.shiftl deck_score 16 in
  let deck_score := Z.lor deck_score (deck_get_dup_count_score d) in
  (deck_score, d).

(** *** find_best_deck_order *)

Definition set_temp_deck_array (d : deck_info_t) (temp : list Z) : deck_info_t :=
  {| deck_array := deck_array d;
     temp_deck_array := temp;
     deck_length := deck_length d;
     deck_score := deck_score d;
     sequence_count := sequence_count d;
     sequence_type_bits := sequence_type_bits d;
     find_all_sequences_flag := find_all_sequences_flag d |}.

Definition set_deck_array (d : deck_info_t) (deck : list Z) : deck_info_t :=
  {| deck_array := deck;
     temp_deck_array := temp_deck_array d;
     deck_length := deck_length d;
     deck_score := deck_score d;
     sequence_count := sequence_count d;
     sequence_type_bits := sequence_type_bits d;
     find_all_sequences_flag := find_all_sequences_flag d |}.

Definition set_results (d : deck_info_t) (score bits : Z) : deck_info_t :=
  {| deck_array := deck_array d;
     temp_deck_array := temp_deck_array d;
     deck_length := deck_length d;
     deck_score := score;
     sequence_count := sequence_count d;
     sequence_type_bits := bits;
     find_all_sequences_flag := find_all_sequences_flag d |}.

(** [memset(&array[0], 0, n)] on an array of 4-byte [int]: [n] bytes are
    [n / 4] cells. *)
Definition memset_zero (array : list Z) (n_bytes : Z) : list Z :=
  let cells := Z.to_nat (n_bytes / 4) in
  replicate (min cells (length array)) 0 ++ drop cells array.

(** The sixteen two-entry index arrays with their counters. The slot number
    of a (marker, suit) pair is the bit of the realization index that later
    chooses its order: [xa3s] is slot 0, [x46s] 1, [x8ts] 2, [xjks] 3, then
    the hearts 4..7, the clubs 8..11 and the diamonds 12..15. *)
Record ambiguity_t := {
  index_arrays : list (list Z);
  counters : list Z
}.

Definition no_ambiguity : ambiguity_t :=
  {| index_arrays := replicate 16 [0; 0]; counters := replicate 16 0 |}.

Definition value_class (value : Z) : option nat :=
  if value =? VALUE_ACE_OR_THREE then Some 0%nat
  else if value =? VALUE_FOUR_OR_SIX then Some 1%nat
  else if value =? VALUE_EIGHT_OR_TEN then Some 2%nat
  else if value =? VALUE_JACK_OR_KING then Some 3%nat
  else None.

(** [if (suit == SUIT_SPADE) .. else if (suit == SUIT_HEART) .. else if
    (suit == SUIT_CLUB) .. else ..]. *)
Definition suit_class (suit : Z) : nat :=
  if suit =? SUIT_SPADE then 0%nat
  else if suit =? SUIT_HEART then 1%nat
  else if suit =? SUIT_CLUB then 2%nat
  else 3%nat.

(** Body of the loop that gets the indices of the cards with two choices. *)
Definition index_step (temp : list Z) (a : ambiguity_t) (i : Z) : ambiguity_t :=
  let value := Z.land (aget temp i) 0xFF in
  let suit := Z.shiftr (aget temp i) 8 in
  match value_class value with
  | Some m =>
      let k := (4 * suit_class suit + m)%nat in
      let n := nth k (counters a) 0 in
      {| index_arrays := <[k := aset (nth k (index_arrays a) []) n i]> (index_arrays a);
         counters := <[k := n + 1]> (counters a) |}
  | None => a
  end.

(** The 32 stores of one realization, in source order:
    (slot, suit, lower value, higher value). *)
Definition fill_order : list (nat * Z * Z * Z) :=
  [ (0%nat, SUIT_SPADE, 1, 3); (4%nat, SUIT_HEART, 1, 3);
    (8%nat, SUIT_CLUB, 1, 3); (12%nat, SUIT_DIAMOND, 1, 3);
    (1%nat, SUIT_SPADE, 4, 6); (5%nat, SUIT_HEART, 4, 6);
    (9%nat, SUIT_CLUB, 4, 6); (13%nat, SUIT_DIAMOND, 4, 6);
    (2%nat, SUIT_SPADE, 8, 10); (6%nat, SUIT_HEART, 8, 10);
    (10%nat, SUIT_CLUB, 8, 10); (14%nat, SUIT_DIAMOND, 8, 10);
    (3%nat, SUIT_SPADE, 11, 13); (7%nat, SUIT_HEART, 11, 13);
    (11%nat, SUIT_CLUB, 11, 13); (15%nat, SUIT_DIAMOND, 11, 13) ].

Definition fill_one (a : ambiguity_t) (i : Z) (temp : list Z) (e : nat * Z * Z * Z) : list Z :=
  let '(k, suit, low, high) := e in
  let x := Z.land (Z.shiftr i (Z.of_nat k)) 1 in
  let array := nth k (index_arrays a) [] in
  let index0 := aget array x in
  let index1 := aget array (1 - x) in
  let temp := aset temp index0 (Z.lor (Z.shiftl suit 8) low) in
  aset temp index1 (Z.lor (Z.shiftl suit 8) high).

(** The deck built for realization index [i] (Step 3). *)
Definition fill_deck (a : ambiguity_t) (i : Z) (temp : list Z) : list Z :=
  fold_left (fill_one a i) fill_order temp.

Record search_state := {
  info : deck_info_t;
  best_score : Z;
  best_sequence_type_bits : Z;
  maximum_sequence_count : Z;
  first_sequence_found : bool
}.

(** [for (j = 0; j < n; ++j) deck_array[j] = temp_deck_array[j];]. *)
Definition copy_deck (d : deck_info_t) (n : Z) : deck_info_t :=
  set_deck_array d
    (fold_left (fun deck j => aset deck j (aget (temp_deck_array d) j)) (upto n) (deck_array d)).

(** Body of [for (i = 0; i < 65536; ++i)]. *)
Definition realization_step (a : ambiguity_t) (q : seq_info_t)
    (st : search_state) (i : Z) : search_state :=
  let d := set_temp_deck_array (info st) (fill_deck a i (temp_deck_array (info st))) in
  let '(sequence_type_bits, d) := test_deck_for_special_sequences d in
  if nonzero sequence_type_bits then
    if maximum_sequence_count st <=? sequence_count d then
      let maximum := sequence_count d in
      let best := if first_sequence_found st then TINY_DECK_SCORE else best_score st in
      let '(deck_score, d) := get_deck_score d in
      if best <? deck_score then
        {| info := copy_deck d (deck_length d);
           best_score := deck_score;
           best_sequence_type_bits := sequence_type_bits;
           maximum_sequence_count := maximum;
           first_sequence_found := false |}
      else
        {| info := d;
           best_score := best;
           best_sequence_type_bits := best_sequence_type_bits st;
           maximum_sequence_count := maximum;
           first_sequence_found := false |}
    else
      {| info := d;
         best_score := best_score st;
         best_sequence_type_bits := best_sequence_type_bits st;
         maximum_sequence_count := maximum_sequence_count st;
         first_sequence_found := first_sequence_found st |}
  else if aget (deck_array d) 0 =? 0 then
    let '(deck_score, d) := get_deck_score d in
    {| info := copy_deck d (n_bits_max q);
       best_score := deck_score;
       best_sequence_type_bits := best_sequence_type_bits st;
       maximum_sequence_count := maximum_sequence_count st;
       first_sequence_found := first_sequence_found st |}
  else
    {| info := d;
       best_score := best_score st;
       best_sequence_type_bits := best_sequence_type_bits st;
       maximum_sequence_count := maximum_sequence_count st;
       first_sequence_found := first_sequence_found st |}.

(** Steps 1 and 2: the partial deck and the ambiguity index, or [None] when
    the function leaves through one of its two [break]s. *)
Definition prepare (d : deck_info_t) (q : seq_info_t) : deck_info_t * option ambiguity_t :=
  let d := set_deck_array d (memset_zero (deck_array d) (n_bits_max q)) in
  let d := set_temp_deck_array d (memset_zero (temp_deck_array d) (n_bits_max q)) in
  let d := set_temp_deck_array d (get_deck_possibilities (temp_deck_array d) q) in
  if deck_is_value_in_array 0 (temp_deck_array d) (n_bits_max q) then (d, None)
  else
    let a := fold_left (index_step (temp_deck_array d)) (upto (n_bits_max q)) no_ambiguity in
    if existsb (fun n => negb (n =? 2)) (counters a) then (d, None)
    else (d, Some a).

Definition initial_search_state (d : deck_info_t) : search_state :=
  {| info := d;
     best_score := TINY_DECK_SCORE;
     best_sequence_type_bits := 0;
     maximum_sequence_count := 0;
     first_sequence_found := true |}.

Definition find_best_deck_order (d : deck_info_t) (q : seq_info_t) : deck_info_t :=
  let '(d, prepared) := prepare d q in
  let st :=
    match prepared with
    | None => initial_search_state d
    | Some a => fold_left (realization_step a q) (upto 65536) (initial_search_state d)
    end in
  set_results (info st) (best_score st) (best_sequence_type_bits st).

(** *** One block of the candidate file *)

(** What [umake_decks_main] does with a complete block once the skip count
    is passed: convert the seven texts, validate, realize. *)
Inductive block_outcome :=
| Exit (status : Z)
| Realized (d : deck_info_t).

Record block_text := {
  red_sequence_array : string;
  cd_sequence_array : string;
  hc_sequence_array : string;
  odd_sequence_array : string;
  c7k_sequence_array : string;
  c8k_sequence_array : string;
  c4t_sequence_array : string
}.

Definition convert_block (t : block_text) : seq_info_t :=
  {| red_seq := Bit.bit_get_integer_seq (red_sequence_array t);
     cd_seq := Bit.bit_get_integer_seq (cd_sequence_array t);
     hc_seq := Bit.bit_get_integer_seq (hc_sequence_array t);
     odd_seq := Bit.bit_get_integer_seq (odd_sequence_array t);
     c7k_seq := Bit.bit_get_integer_seq (c7k_sequence_array t);
     c8k_seq := Bit.bit_get_integer_seq (c8k_sequence_array t);
     c4t_seq := Bit.bit_get_integer_seq (c4t_sequence_array t);
     subsequence_mask := Bit.SUBSEQUENCE_MASK;
     n_bits_max := N_BITS_MAX |}.

Definition sequences_rejected (q : seq_info_t) : bool :=
  negb (Bit.bit_has_unique_subsequences (red_seq q))
  || negb (Bit.bit_has_unique_subsequences (cd_seq q))
  || negb (Bit.bit_has_unique_subsequences (odd_seq q))
  || negb (Bit.bit_has_unique_subsequences (c7k_seq q))
  || negb (Bit.bit_has_unique_subsequences (c8k_seq q))
  || negb (Bit.bit_has_unique_subsequences (c4t_seq q)).

Definition process_block (d : deck_info_t) (t : block_text) : block_outcome :=
  let q := convert_block t in
  if sequences_rejected q then Exit (-1)
  else Realized (find_best_deck_order d q).

(** The [deck_info] that [umake_decks_main] sets up before reading. *)
Definition initial_deck_info (find_all : bool) : deck_info_t :=
  {| deck_array := replicate 64 0;
     temp_deck_array := replicate 64 0;
     deck_length := N_BITS_MAX;
     deck_score := 0;
     sequence_count := 0;
     sequence_type_bits := 0;
     find_all_sequences_flag := find_all |}.

End Umake.

(** ** dbn_de_bruijn.c *)

Module Dbn.

Definition BIT_OBJECT_STACK_SIZE : Z := 8192.
Definition DBN_ALLOW_ALL_BITS_THE_SAME : bool := false.
Definition DBN_REQUIRE_BITS_NOT_ALL_THE_SAME : bool := true.

Record dbn_move_t := {
  subseq_bit_store : Z;
  value : Z;
  length : Z;
  set_bit_count : Z;
  bit : Z
}.

(** The generator. The move stack is a list with the top of the stack
    first: [bit_obj_stack_ptr[bit_obj_stack_index - 1]] is its head and
    [bit_obj_stack_index] its length (the C array has 8192 slots). *)
Record dbn_de_bruijn_s := {
  bit_obj_stack : list dbn_move_t;
  all_subseq_bits_are_zeros_bit : Z;
  all_subseq_bits_are_ones_bit : Z;
  subseq_mask : Z;
  n_sub_sequence_bit_count : Z;
  n_bits_max : Z;
  n_one_bits : Z;
  subseq_not_all_the_same_bits : bool
}.

Definition set_stack (d : dbn_de_bruijn_s) (stack : list dbn_move_t) : dbn_de_bruijn_s :=
  {| bit_obj_stack := stack;
     all_subseq_bits_are_zeros_bit := all_subseq_bits_are_zeros_bit d;
     all_subseq_bits_are_ones_bit := all_subseq_bits_are_ones_bit d;
     subseq_mask := subseq_mask d;
     n_sub_sequence_bit_count := n_sub_sequence_bit_count d;
     n_bits_max := n_bits_max d;
     n_one_bits := n_one_bits d;
     subseq_not_all_the_same_bits := subseq_not_all_the_same_bits d |}.

(** [dbn_get_next_power_of_two], on a 32-bit [unsigned int]. *)
Definition dbn_get_next_power_of_two (value : Z) : Z :=
  let value := u32 (value - 1) in
  let value := Z.lor value (Z.shiftr value 1) in
  let value := Z.lor value (Z.shiftr value 2) in
  let value := Z.lor value (Z.shiftr value 4) in
  let value := Z.lor value (Z.shiftr value 8) in
  let value := Z.lor value (Z.shiftr value 16) in
  u32 (value + 1).

Definition dbn_get_log_base_2_rounded_up (value : Z) : Z :=
  let power_of_two := dbn_get_next_power_of_two value in
  Bit.bit_count_set_bits (power_of_two - 1).

(** [dbn_reset]: a one-bit move is pushed, then a zero-bit move. *)
Definition dbn_reset (d : dbn_de_bruijn_s) : dbn_de_bruijn_s :=
  set_stack d
    [ {| subseq_bit_store := 0; value := 0; length := 0; set_bit_count := 0; bit := 0 |};
      {| subseq_bit_store := 0; value := 0; length := 0; set_bit_count := 0; bit := 1 |} ].

(** [dbn_make]; [None] is [DBN_BAD_ARGUMENT]. *)
Definition dbn_make (n_bits_max n_one_bits : Z) (subseq_not_all_the_same_bits : bool)
  : option dbn_de_bruijn_s :=
  if 64 <? n_bits_max then None
  else
    let n_sub := dbn_get_log_base_2_rounded_up n_bits_max in
    let mask := u64 (Z.shiftl 1 n_sub) - 1 in
    Some (dbn_reset
      {| bit_obj_stack := [];
         all_subseq_bits_are_zeros_bit := 1;
         all_subseq_bits_are_ones_bit := u64 (Z.shiftl 1 mask);
         subseq_mask := mask;
         n_sub_sequence_bit_count := n_sub;
         n_bits_max := n_bits_max;
         n_one_bits := n_one_bits;
         subseq_not_all_the_same_bits := subseq_not_all_the_same_bits |}).

(** The test of one sub-sequence against the presence vector: the new flag
    and the updated vector. *)
Definition test_subsequence (d : dbn_de_bruijn_s) (word subseq_bit_store : Z) : bool * Z :=
  let subseq_index := Z.land word (subseq_mask d) in
  let subseq_bit := u64 (Z.shiftl 1 subseq_index) in
  let is_valid_sequence_flag := Z.land subseq_bit_store subseq_bit =? 0 in
  let is_valid_sequence_flag :=
    if subseq_not_all_the_same_bits d && is_valid_sequence_flag then
      negb (subseq_bit =? all_subseq_bits_are_zeros_bit d)
      && negb (subseq_bit =? all_subseq_bits_are_ones_bit d)
    else is_valid_sequence_flag in
  (is_valid_sequence_flag, Z.lor subseq_bit_store subseq_bit).

(** The loop over the wrapped sub-sequences,
    [for (i = 0; is_valid_sequence_flag && (i < n_sub_sequence_bit_count - 1); ++i)]. *)
Fixpoint wrap_loop (n : nat) (d : dbn_de_bruijn_s) (is_valid_sequence_flag : bool)
    (temp subseq_bit_store : Z) : bool :=
  match n with
  | O => is_valid_sequence_flag
  | S n' =>
      if is_valid_sequence_flag then
        let '(flag, store) := test_subsequence d temp subseq_bit_store in
        wrap_loop n' d flag (Z.shiftr temp 1) store
      else is_valid_sequence_flag
  end.

Inductive step_result :=
| Emitted (result_sequence : Z) (d : dbn_de_bruijn_s)
| Stepped (d : dbn_de_bruijn_s).

(** One round of the depth-first search loop, on the move popped off the
    stack and the stack below it. *)
Definition dbn_step (d : dbn_de_bruijn_s) (bit_obj : dbn_move_t) (rest : list dbn_move_t)
  : step_result :=
  let d := set_stack d rest in
  let set_bit_count := set_bit_count bit_obj + bit bit_obj in
  if negb (n_one_bits d =? 0) && (n_one_bits d <? set_bit_count) then Stepped d
  else
    let value := u64 (u64 (Z.shiftl (value bit_obj) 1) + bit bit_obj) in
    let length := length bit_obj + 1 in
    let subseq_bit_store := subseq_bit_store bit_obj in
    let '(is_valid_sequence_flag, subseq_bit_store) :=
      if n_sub_sequence_bit_count d <=? length
      then test_subsequence d value subseq_bit_store
      else (true, subseq_bit_store) in
    if negb is_valid_sequence_flag then Stepped d
    else if (length =? n_bits_max d)
            && ((n_one_bits d =? 0) || (set_bit_count =? n_one_bits d)) then
      let temp :=
        Z.lor (u64 (Z.shiftl value (n_sub_sequence_bit_count d - 1)))
              (Z.shiftr value (n_bits_max d - (n_sub_sequence_bit_count d - 1))) in
      if wrap_loop (Z.to_nat (n_sub_sequence_bit_count d - 1)) d true temp subseq_bit_store
      then Emitted value d
      else Stepped d
    else
      let bit := if length <? n_sub_sequence_bit_count d then 1 else 0 in
      let first :=
        {| subseq_bit_store := subseq_bit_store; value := value; length := length;
           set_bit_count := set_bit_count; bit := bit |} in
      let second :=
        {| subseq_bit_store := subseq_bit_store; value := value; length := length;
           set_bit_count := set_bit_count; bit := 1 - bit |} in
      Stepped (set_stack d (second :: first :: rest)).

(** [dbn_next]: rounds until a sequence is found or the stack is empty, when
    0 is returned; [None] when [fuel] rounds do not suffice. *)
Fixpoint dbn_next (fuel : nat) (d : dbn_de_bruijn_s) : option (Z * dbn_de_bruijn_s) :=
  match bit_obj_stack d with
  | [] => Some (0, d)
  | bit_obj :: rest =>
      match fuel with
      | O => None
      | S fuel' =>
          match dbn_step d bit_obj rest with
          | Emitted result_sequence d' => Some (result_sequence, d')
          | Stepped d' => dbn_next fuel' d'
          end
      end
  end.

(** The generator after some calls of [dbn_next]. *)
Inductive after_calls (d0 : dbn_de_bruijn_s) : dbn_de_bruijn_s -> Prop :=
| after_none : after_calls d0 d0
| after_call d fuel result d' :
    after_calls d0 d -> dbn_next fuel d = Some (result, d') -> after_calls d0 d'.

End Dbn.

(** ** f64_seq.c *)

Module F64.

(** A handle: the array loaded from the cache file (shared by all handles
    of that file), its length in 64-bit words, and the handle's own cursor. *)
Record f64_seq_s := {
  sequence : list Z;
  count : Z;
  seq_index : Z
}.

(** [f64_make] on a file that holds the words [contents]. *)
Definition f64_make (contents : list Z) : f64_seq_s :=
  {| sequence := contents; count := Z.of_nat (length contents); seq_index := 0 |}.

Definition f64_reset (h : f64_seq_s) : f64_seq_s :=
  {| sequence := sequence h; count := count h; seq_index := 0 |}.

Definition f64_next (h : f64_seq_s) : Z * f64_seq_s :=
  if seq_index h <? count h then
    (aget (sequence h) (seq_index h),
     {| sequence := sequence h; count := count h; seq_index := seq_index h + 1 |})
  else (0, h).

(** [for (k = 0; k < n; ++k) value = f64_next(h);], the skip loops. *)
Fixpoint f64_skip (n : nat) (h : f64_seq_s) : f64_seq_s :=
  match n with
  | O => h
  | S n' => f64_skip n' (snd (f64_next h))
  end.

End F64.

(** ** ultimate_search.c *)

Module Usearch.
Import F64.

Definition N_BITS_MAX : Z := 52.
Definition NUMBER_OF_CARDS_IN_A_SUIT : Z := 13.
Definition NUMBER_OF_CARDS_IN_TWO_SUITS : Z := 26.

Record ProgramArgument_T := {
  red_start_count : Z;
  cd_start_count : Z;
  odd_start_count : Z;
  c7k_start_count : Z;
  value_sequence_modifier_flag : bool;
  suit_sequence_modifier_flag : bool;
  c8k_sequence_flag : bool;
  arg_sevens_apart_flag : bool;
  c4t_sequence_flag : bool
}.

Record ultimate_struct_t := {
  red_sequence : Z;
  cd_sequence : Z;
  hc_sequence : Z;
  spade_bits : Z;
  heart_bits : Z;
  club_bits : Z;
  diamond_bits : Z;
  odd_sequence : Z;
  c7k_sequence : Z;
  c8k_sequence : Z;
  c4t_sequence : Z;
  c7k_c8k_diff : Z;
  sequence_mask : Z;
  subsequence_mask : Z;
  subsequence_length : Z;
  n_bits_max : Z;
  sevens_apart_flag : bool
}.

(** The suit fields, the value fields and the constant fields of the
    structure, so that an assignment names only what it changes. *)
Definition with_suits (s : ultimate_struct_t)
    (red cd hc spade heart club diamond : Z) : ultimate_struct_t :=
  {| red_sequence := red; cd_sequence := cd; hc_sequence := hc;
     spade_bits := spade; heart_bits := heart; club_bits := club; diamond_bits := diamond;
     odd_sequence := odd_sequence s; c7k_sequence := c7k_sequence s;
     c8k_sequence := c8k_sequence s; c4t_sequence := c4t_sequence s;
     c7k_c8k_diff := c7k_c8k_diff s;
     sequence_mask := sequence_mask s; subsequence_mask := subsequence_mask s;
     subsequence_length := subsequence_length s; n_bits_max := n_bits_max s;
     sevens_apart_flag := sevens_apart_flag s |}.

Definition with_values (s : ultimate_struct_t)
    (odd c7k c8k c4t diff : Z) : ultimate_struct_t :=
  {| red_sequence := red_sequence s; cd_sequence := cd_sequence s;
     hc_sequence := hc_sequence s;
     spade_bits := spade_bits s; heart_bits := heart_bits s;
     club_bits := club_bits s; diamond_bits := diamond_bits s;
     odd_sequence := odd; c7k_sequence := c7k;
     c8k_sequence := c8k; c4t_sequence := c4t;
     c7k_c8k_diff := diff;
     sequence_mask := sequence_mask s; subsequence_mask := subsequence_mask s;
     subsequence_length := subsequence_length s; n_bits_max := n_bits_max s;
     sevens_apart_flag := sevens_apart_flag s |}.

Definition set_red_sequence s v :=
  with_suits s v (cd_sequence s) (hc_sequence s) (spade_bits s) (heart_bits s)
    (club_bits s) (diamond_bits s).
Definition set_cd_sequence s v :=
  with_suits s (red_sequence s) v (hc_sequence s) (spade_bits s) (heart_bits s)
    (club_bits s) (diamond_bits s).
Definition set_hc_sequence s v :=
  with_suits s (red_sequence s) (cd_sequence s) v (spade_bits s) (heart_bits s)
    (club_bits s) (diamond_bits s).
Definition set_spade_bits s v :=
  with_suits s (red_sequence s) (cd_sequence s) (hc_sequence s) v (heart_bits s)
    (club_bits s) (diamond_bits s).
Definition set_heart_bits s v :=
  with_suits s (red_sequence s) (cd_sequence s) (hc_sequence s) (spade_bits s) v
    (club_bits s) (diamond_bits s).
Definition set_club_bits s v :=
  with_suits s (red_sequence s) (cd_sequence s) (hc_sequence s) (spade_bits s)
    (heart_bits s) v (diamond_bits s).
Definition set_diamond_bits s v :=
  with_suits s (red_sequence s) (cd_sequence s) (hc_sequence s) (spade_bits s)
    (heart_bits s) (club_bits s) v.
Definition set_odd_sequence s v :=
  with_values s v (c7k_sequence s) (c8k_sequence s) (c4t_sequence s) (c7k_c8k_diff s).
Definition set_c7k_sequence s v :=
  with_values s (odd_sequence s) v (c8k_sequence s) (c4t_sequence s) (c7k_c8k_diff s).
Definition set_c8k_sequence s v :=
  with_values s (odd_sequence s) (c7k_sequence s) v (c4t_sequence s) (c7k_c8k_diff s).
Definition set_c4t_sequence s v :=
  with_values s (odd_sequence s) (c7k_sequence s) (c8k_sequence s) v (c7k_c8k_diff s).
Definition set_c7k_c8k_diff s v :=
  with_values s (odd_sequence s) (c7k_sequence s) (c8k_sequence s) (c4t_sequence s) v.

(** [count_set_bits_64]: stops counting once [count > max_bit_count]. *)
Fixpoint count_set_bits_64_loop (fuel : nat) (value count max_bit_count : Z) : Z :=
  match fuel with
  | O => count
  | S fuel' =>
      if value =? 0 then count
      else
        let value := Z.land value (value - 1) in
        let count := count + 1 in
        if max_bit_count <? count then count
        else count_set_bits_64_loop fuel' value count max_bit_count
  end.

Definition count_set_bits_64 (value max_bit_count : Z) : Z :=
  count_set_bits_64_loop 64 (u64 value) 0 max_bit_count.

Definition is_valid_suit_seq_overlap (seq0 seq1 sequence_mask : Z) : bool :=
  let common_one_bits := Z.land seq0 seq1 in
  let common_ones_count := count_set_bits_64 common_one_bits NUMBER_OF_CARDS_IN_A_SUIT in
  if (common_ones_count =? 13) && negb (seq0 =? seq1) then
    let inv_seq0 := Z.land (not64 seq0) sequence_mask in
    let inv_seq1 := Z.land (not64 seq1) sequence_mask in
    let common_zero_bits := Z.land inv_seq0 inv_seq1 in
    let common_zeros_count := count_set_bits_64 common_zero_bits NUMBER_OF_CARDS_IN_A_SUIT in
    if common_zeros_count =? 13 then
      let common_zero_one_bits := Z.land inv_seq0 seq1 in
      let common_zero_one_count :=
        count_set_bits_64 common_zero_one_bits NUMBER_OF_CARDS_IN_A_SUIT in
      if common_zero_one_count =? 13 then
        let common_one_zero_bits := Z.land seq0 inv_seq1 in
        let common_one_zero_count :=
          count_set_bits_64 common_one_zero_bits NUMBER_OF_CARDS_IN_A_SUIT in
        common_one_zero_count =? 13
      else false
    else false
  else false.

Definition is_valid_odd_sequence (s : ultimate_struct_t) : bool :=
  let inv_odd_sequence := Z.land (not64 (odd_sequence s)) (sequence_mask s) in
  let suit_ok (suit_bits : Z) : bool :=
    let even_count := count_set_bits_64 (Z.land suit_bits inv_odd_sequence) 6 in
    let odd_count := count_set_bits_64 (Z.land suit_bits (odd_sequence s)) 7 in
    negb (negb (even_count =? 6) || negb (odd_count =? 7)) in
  if negb (suit_ok (spade_bits s)) then false
  else if negb (suit_ok (heart_bits s)) then false
  else if negb (suit_ok (club_bits s)) then false
  else if negb (suit_ok (diamond_bits s)) then false
  else true.

(** [get_overlap_counts]: only the zero-zero count is computed. *)
Definition get_overlap_counts (seq0 seq1 sequence_mask : Z) : Z :=
  let inv_seq0 := Z.land (not64 seq0) sequence_mask in
  let inv_seq1 := Z.land (not64 seq1) sequence_mask in
  let zero_zero_bits := Z.land inv_seq0 inv_seq1 in
  count_set_bits_64 zero_zero_bits NUMBER_OF_CARDS_IN_A_SUIT.

Definition is_valid_c7k_sequence (s : ultimate_struct_t) : bool :=
  let zz (seq0 : Z) := get_overlap_counts seq0 (c7k_sequence s) (sequence_mask s) in
  if negb (zz (odd_sequence s) =? 12) then false
  else if negb (zz (red_sequence s) =? 12) then false
  else if negb (zz (cd_sequence s) =? 12) then false
  else if negb (zz (hc_sequence s) =? 12) then false
  else true.

(** [is_valid_deck_sequence]: the 16-bin histogram of the (red, cd, odd, 7k)
    bits over the positions. *)
Definition hit_count_array_of (s : ultimate_struct_t) : list Z :=
  fold_left
    (fun hit_count_array shift =>
       let low (x : Z) := Z.land (Z.shiftr x shift) 1 in
       let index := 0 + low (red_sequence s) in
       let index := Z.shiftl index 1 in
       let index := index + low (cd_sequence s) in
       let index := Z.shiftl index 1 in
       let index := index + low (odd_sequence s) in
       let index := Z.shiftl index 1 in
       let index := index + low (c7k_sequence s) in
       aset hit_count_array index (aget hit_count_array index + 1))
    (upto (n_bits_max s)) (replicate 16 0).

Definition is_valid_deck_sequence (s : ultimate_struct_t) : bool :=
  let h := hit_count_array_of s in
  (aget h 0 =? 3) && (aget h 1 =? 3) && (aget h 2 =? 3) && (aget h 3 =? 4)
  && (aget h 4 =? 3) && (aget h 5 =? 3) && (aget h 6 =? 3) && (aget h 7 =? 4)
  && (aget h 8 =? 3) && (aget h 9 =? 3) && (aget h 10 =? 3) && (aget h 11 =? 4)
  && (aget h 12 =? 3) && (aget h 13 =? 3) && (aget h 14 =? 3) && (aget h 15 =? 4).

(** [has_long_uniform_subsequence]. *)
Fixpoint uniform_loop (n : nat) (wseq : Z) : bool :=
  match n with
  | O => false
  | S n' =>
      if (Z.land wseq 0x3F =? 0x3F) || (Z.land (not64 wseq) 0x3F =? 0x3F) then true
      else uniform_loop n' (Z.shiftr wseq 1)
  end.

Definition has_long_uniform_subsequence (seq : Z) : bool :=
  let wseq := Z.lor seq (u64 (Z.shiftl seq 52)) in
  uniform_loop 52 wseq.

(** Control flow of a loop body that may leave the function. *)
Inductive flow (S R : Type) :=
| Continue (s : S)
| Return (r : R).
Arguments Continue {S R} s.
Arguments Return {S R} r.

(** [for (k = from; k < from + n; ++k) body], the state threaded through
    the rounds and a [Return] ending the loop at once. *)
Fixpoint for_loop {S R : Type} (n : nat) (from : Z) (body : Z -> S -> flow S R) (s : S)
  : flow S R :=
  match n with
  | O => Continue s
  | S n' =>
      match body from s with
      | Continue s' => for_loop n' (from + 1) body s'
      | Return r => Return r
      end
  end.

(** The masks [bit = 1, 2, 4, ...] that the sorting loops walk through. *)
Definition position_bits (s : ultimate_struct_t) : list Z :=
  map (fun i => u64 (Z.shiftl 1 i)) (upto (n_bits_max s)).

Definition suit_of (s : ultimate_struct_t) (bit : Z) : Z :=
  let red := if Z.land (red_sequence s) bit =? 0 then 0 else 1 in
  let cd := if Z.land (cd_sequence s) bit =? 0 then 0 else 1 in
  Z.lor (Z.shiftl red 1) cd.

(** *** The 8K solver *)

(** One of [spade_bit_array], [heart_bit_array], [club_bit_array] and
    [diamond_bit_array]: the odd cards of the 7K sequence in one suit, in
    position order. The C arrays have 13 entries. *)
Definition odd_high_bit_array (s : ultimate_struct_t) (suit : Z) : list Z :=
  List.filter
    (fun bit =>
       nonzero (Z.land (c7k_sequence s) bit) && nonzero (Z.land (odd_sequence s) bit)
       && (suit_of s bit =? suit))
    (position_bits s).

Inductive scan_result :=
| ScanFail
| ScanAt (diff i found : Z).

(** The innermost loop of [c7k_c8k_diff_valid], one bit at a time. *)
Fixpoint scan_bits (fuel : nat) (s : ultimate_struct_t) (diff i found : Z) : scan_result :=
  match fuel with
  | O => ScanAt diff i found
  | S fuel' =>
      if i <? n_bits_max s then
        if Z.land diff 1 =? 1 then
          let found := found + 1 in
          let diff := u64 (diff - 1) in
          if nonzero (Z.land diff (subsequence_mask s)) then ScanFail
          else ScanAt (Z.shiftr diff 1) (i + 1) found
        else scan_bits fuel' s (Z.shiftr diff 1) (i + 1) found
      else ScanAt diff i found
  end.

(** The loop that finds the next group with a set bit. *)
Fixpoint scan_groups (fuel : nat) (s : ultimate_struct_t) (diff i found : Z) : scan_result :=
  match fuel with
  | O => ScanAt diff i found
  | S fuel' =>
      if i <? n_bits_max s then
        if nonzero (Z.land diff (subsequence_mask s)) then scan_bits 64 s diff i found
        else scan_groups fuel' s (Z.shiftr diff (subsequence_length s))
               (i + subsequence_length s) found
      else ScanAt diff i found
  end.

Definition first_last_apart (s : ultimate_struct_t) (first last : Z) : bool :=
  negb (n_bits_max s + first - last <? subsequence_length s).

(** The loop [while (found_bit_count < 4)]. *)
Fixpoint diff_loop (fuel : nat) (s : ultimate_struct_t)
    (diff i found first last : Z) : bool :=
  match fuel with
  | O => first_last_apart s first last
  | S fuel' =>
      if found <? 4 then
        match scan_groups 64 s diff i found with
        | ScanFail => false
        | ScanAt diff i found =>
            if n_bits_max s <=? i then first_last_apart s first last
            else
              let set_bit_position := i - 1 in
              let first := if first =? -1 then set_bit_position else first in
              let diff_position := set_bit_position - last in
              if diff_position <? subsequence_length s then false
              else diff_loop fuel' s diff i found first set_bit_position
        end
      else first_last_apart s first last
  end.

Definition c7k_c8k_diff_valid (s : ultimate_struct_t) : bool :=
  diff_loop 5 s (Z.lxor (c7k_sequence s) (c8k_sequence s)) 0 0 (-1) (-1000).

Definition search_for_c8k_sequence (s : ultimate_struct_t) : bool * ultimate_struct_t :=
  let spade_bit_array := odd_high_bit_array s 0 in
  let club_bit_array := odd_high_bit_array s 1 in
  let heart_bit_array := odd_high_bit_array s 2 in
  let diamond_bit_array := odd_high_bit_array s 3 in
  let body (spade_bit heart_bit club_bit diamond_bit : Z) (s : ultimate_struct_t)
      : flow ultimate_struct_t ultimate_struct_t :=
    let temp := c7k_sequence s in
    let temp := u64 (temp - spade_bit) in
    let temp := u64 (temp - heart_bit) in
    let temp := u64 (temp - club_bit) in
    let temp := u64 (temp - diamond_bit) in
    if Bit.bit_has_unique_subsequences temp then
      let s := set_c8k_sequence s temp in
      if sevens_apart_flag s && negb (c7k_c8k_diff_valid s) then Continue s
      else Return (set_c7k_c8k_diff s (Z.lxor (c7k_sequence s) (c8k_sequence s)))
    else Continue s in
  let r :=
    for_loop (length spade_bit_array) 0 (fun si =>
    for_loop (length heart_bit_array) 0 (fun h =>
    for_loop (length club_bit_array) 0 (fun c =>
    for_loop (length diamond_bit_array) 0 (fun d =>
      body (aget spade_bit_array si) (aget heart_bit_array h)
           (aget club_bit_array c) (aget diamond_bit_array d))))) s in
  match r with
  | Return s => (true, s)
  | Continue s => (false, s)
  end.

(** *** The 4T solver *)

(** One of the sixteen sorted arrays of [search_for_c4t_sequence]: the
    positions of one suit, high (7K bit set) or low, odd or even, that
    [c7k_c8k_diff] leaves free, in position order. The C arrays have 13
    entries. *)
Definition c4t_bit_array (s : ultimate_struct_t) (suit : Z) (high odd : bool) : list Z :=
  List.filter
    (fun bit =>
       (Z.land (c7k_c8k_diff s) bit =? 0)
       && (suit_of s bit =? suit)
       && Bool.eqb (nonzero (Z.land (c7k_sequence s) bit)) high
       && Bool.eqb (nonzero (Z.land (odd_sequence s) bit)) odd)
    (position_bits s).

(** The choice made for one suit by its four loop counters. *)
Record suit_choice := {
  el_bits0 : Z; el_bits1 : Z; eh_bits : Z; ol_bits : Z; oh_bits0 : Z; oh_bits1 : Z
}.

(** The six statements that rewrite one suit in [temp]. *)
Definition apply_suit_choice (temp : Z) (c : suit_choice) : Z :=
  let temp := u64 (temp - oh_bits0 c) in
  let temp := u64 (temp - oh_bits1 c) in
  let temp := Z.lor temp (el_bits0 c) in
  let temp := Z.lor temp (el_bits1 c) in
  let temp := u64 (temp - eh_bits c) in
  Z.lor temp (ol_bits c).

(** The candidate of one round of the innermost loop. *)
Definition c4t_candidate (c7k : Z) (spades hearts clubs diamonds : suit_choice) : Z :=
  apply_suit_choice
    (apply_suit_choice (apply_suit_choice (apply_suit_choice c7k spades) hearts) clubs)
    diamonds.

(** What the counters [el], [eh], [ol], [oh] of one suit select: the pairs
    are the entries [k] and [(k + 1) % count]. *)
Definition choose (even_low even_high odd_low odd_high : list Z) (el eh ol oh : Z)
  : suit_choice :=
  {| el_bits0 := aget even_low el;
     el_bits1 := aget even_low ((el + 1) mod Z.of_nat (length even_low));
     eh_bits := aget even_high eh;
     ol_bits := aget odd_low ol;
     oh_bits0 := aget odd_high oh;
     oh_bits1 := aget odd_high ((oh + 1) mod Z.of_nat (length odd_high)) |}.

Definition search_for_c4t_sequence (s : ultimate_struct_t) : bool * ultimate_struct_t :=
  let odd_low_spade := c4t_bit_array s 0 false true in
  let even_low_spade := c4t_bit_array s 0 false false in
  let odd_high_spade := c4t_bit_array s 0 true true in
  let even_high_spade := c4t_bit_array s 0 true false in
  let odd_low_club := c4t_bit_array s 1 false true in
  let even_low_club := c4t_bit_array s 1 false false in
  let odd_high_club := c4t_bit_array s 1 true true in
  let even_high_club := c4t_bit_array s 1 true false in
  let odd_low_heart := c4t_bit_array s 2 false true in
  let even_low_heart := c4t_bit_array s 2 false false in
  let odd_high_heart := c4t_bit_array s 2 true true in
  let even_high_heart := c4t_bit_array s 2 true false in
  let odd_low_diamond := c4t_bit_array s 3 false true in
  let even_low_diamond := c4t_bit_array s 3 false false in
  let odd_high_diamond := c4t_bit_array s 3 true true in
  let even_high_diamond := c4t_bit_array s 3 true false in
  let r :=
    for_loop (length even_low_spade) 0 (fun els =>
    for_loop (length even_high_spade) 0 (fun ehs =>
    for_loop (length odd_low_spade) 0 (fun ols =>
    for_loop (length odd_high_spade) 0 (fun ohs =>
    for_loop (length even_low_heart) 0 (fun elh =>
    for_loop (length even_high_heart) 0 (fun ehh =>
    for_loop (length odd_low_heart) 0 (fun olh =>
    for_loop (length odd_high_heart) 0 (fun ohh =>
    for_loop (length even_low_club) 0 (fun elc =>
    for_loop (length even_high_club) 0 (fun ehc =>
    for_loop (length odd_low_club) 0 (fun olc =>
    for_loop (length odd_high_club) 0 (fun ohc =>
    for_loop (length even_low_diamond) 0 (fun eld =>
    for_loop (length even_high_diamond) 0 (fun ehd =>
    for_loop (length odd_low_diamond) 0 (fun old =>
    for_loop (length odd_high_diamond) 0 (fun ohd (s : ultimate_struct_t) =>
      let temp :=
        c4t_candidate (c7k_sequence s)
          (choose even_low_spade even_high_spade odd_low_spade odd_high_spade els ehs ols ohs)
          (choose even_low_heart even_high_heart odd_low_heart odd_high_heart elh ehh olh ohh)
          (choose even_low_club even_high_club odd_low_club odd_high_club elc ehc olc ohc)
          (choose even_low_diamond even_high_diamond odd_low_diamond odd_high_diamond
                  eld ehd old ohd) in
      if Bit.bit_has_unique_subsequences temp
      then Return (set_c4t_sequence s temp)
      else Continue s)))))))))))))))) s in
  match r with
  | Return s => (true, s)
  | Continue s => (false, s)
  end.

(** *** The main search loop *)

(** The cache file names (relative to the DBNPATH directory). *)
Definition dbn_suit_file_name (args : ProgramArgument_T) : string :=
  ("dbn_52_26" ++ (if suit_sequence_modifier_flag args then "_short" else "") ++ ".bin")%string.

Definition dbn_value_file_name (args : ProgramArgument_T) : string :=
  ("dbn_52_28" ++ (if value_sequence_modifier_flag args then "_short" else "") ++ ".bin")%string.

(** The locals of [ultimate_search_main] that the loops change, and the
    blocks written to the output so far (each block shows the structure as
    it is when the [display_sequence] calls run). *)
Record search_t := {
  seq_set : ultimate_struct_t;
  dbn_red_handle : f64_seq_s;
  dbn_cd_handle : f64_seq_s;
  dbn_odd_handle : f64_seq_s;
  dbn_c7k_handle : f64_seq_s;
  cd_start : Z;
  odd_start : Z;
  c7k_start : Z;
  output : list ultimate_struct_t
}.

Definition with_seq_set (t : search_t) (s : ultimate_struct_t) : search_t :=
  {| seq_set := s; dbn_red_handle := dbn_red_handle t; dbn_cd_handle := dbn_cd_handle t;
     dbn_odd_handle := dbn_odd_handle t; dbn_c7k_handle := dbn_c7k_handle t;
     cd_start := cd_start t; odd_start := odd_start t; c7k_start := c7k_start t;
     output := output t |}.

Definition with_handles (t : search_t) (red cd odd c7k : f64_seq_s) : search_t :=
  {| seq_set := seq_set t; dbn_red_handle := red; dbn_cd_handle := cd;
     dbn_odd_handle := odd; dbn_c7k_handle := c7k;
     cd_start := cd_start t; odd_start := odd_start t; c7k_start := c7k_start t;
     output := output t |}.

Definition with_starts (t : search_t) (cd odd c7k : Z) : search_t :=
  {| seq_set := seq_set t; dbn_red_handle := dbn_red_handle t;
     dbn_cd_handle := dbn_cd_handle t; dbn_odd_handle := dbn_odd_handle t;
     dbn_c7k_handle := dbn_c7k_handle t;
     cd_start := cd; odd_start := odd; c7k_start := c7k;
     output := output t |}.

Definition emit (t : search_t) : search_t :=
  {| seq_set := seq_set t; dbn_red_handle := dbn_red_handle t;
     dbn_cd_handle := dbn_cd_handle t; dbn_odd_handle := dbn_odd_handle t;
     dbn_c7k_handle := dbn_c7k_handle t;
     cd_start := cd_start t; odd_start := odd_start t; c7k_start := c7k_start t;
     output := output t ++ [seq_set t] |}.

(** A reading loop makes at most one round per word of its file and one
    more for the final 0. *)
Definition rounds (h : f64_seq_s) : nat := S (length (sequence h)).

(** The loop that creates 7k sequences. *)
Fixpoint c7k_loop (n : nat) (args : ProgramArgument_T) (t : search_t) : search_t :=
  match n with
  | O => t
  | S n' =>
      let '(v, h) := f64_next (dbn_c7k_handle t) in
      let t := with_handles t (dbn_red_handle t) (dbn_cd_handle t) (dbn_odd_handle t) h in
      let t := with_seq_set t (set_c7k_sequence (seq_set t) v) in
      if v =? 0 then t
      else if negb (is_valid_c7k_sequence (seq_set t)) then c7k_loop n' args t
      else if negb (is_valid_deck_sequence (seq_set t)) then c7k_loop n' args t
      else
        let '(ok8, s) :=
          if c8k_sequence_flag args then search_for_c8k_sequence (seq_set t)
          else (true, seq_set t) in
        let t := with_seq_set t s in
        if negb ok8 then c7k_loop n' args t
        else
          let '(ok4, s) :=
            if c4t_sequence_flag args then search_for_c4t_sequence (seq_set t)
            else (true, seq_set t) in
          let t := with_seq_set t s in
          if negb ok4 then c7k_loop n' args t
          else c7k_loop n' args (emit t)
  end.

(** The loop that searches for an odd sequence. *)
Fixpoint odd_loop (n : nat) (args : ProgramArgument_T) (t : search_t) : search_t :=
  match n with
  | O => t
  | S n' =>
      let '(v, h) := f64_next (dbn_odd_handle t) in
      let t := with_handles t (dbn_red_handle t) (dbn_cd_handle t) h (dbn_c7k_handle t) in
      let t := with_seq_set t (set_odd_sequence (seq_set t) v) in
      if v =? 0 then t
      else if negb (is_valid_odd_sequence (seq_set t)) then odd_loop n' args t
      else
        let h7 := f64_reset (dbn_c7k_handle t) in
        let h7 := if 0 <? c7k_start t then f64_skip (Z.to_nat (c7k_start t)) h7 else h7 in
        let t := with_handles t (dbn_red_handle t) (dbn_cd_handle t) (dbn_odd_handle t) h7 in
        let t := with_starts t (cd_start t) (odd_start t) 0 in
        odd_loop n' args (c7k_loop (rounds h7) args t)
  end.

(** What one round of the cd loop does with the suit fields once the
    overlap test has passed: [None] stands for one of the [continue]s, with
    the structure as the round leaves it. *)
Definition make_suit_sequences (s : ultimate_struct_t) : ultimate_struct_t * bool :=
  let s := set_diamond_bits s (Z.land (red_sequence s) (cd_sequence s)) in
  if negb (count_set_bits_64 (diamond_bits s) NUMBER_OF_CARDS_IN_A_SUIT =? 13) then (s, false)
  else
    let inv_red_sequence := Z.land (not64 (red_sequence s)) (sequence_mask s) in
    let inv_cd_sequence := Z.land (not64 (cd_sequence s)) (sequence_mask s) in
    let s := set_spade_bits s (Z.land inv_red_sequence inv_cd_sequence) in
    if negb (count_set_bits_64 (spade_bits s) NUMBER_OF_CARDS_IN_A_SUIT
             =? NUMBER_OF_CARDS_IN_A_SUIT) then (s, false)
    else
      let s := set_club_bits s (Z.land inv_red_sequence (cd_sequence s)) in
      if negb (count_set_bits_64 (club_bits s) NUMBER_OF_CARDS_IN_A_SUIT
               =? NUMBER_OF_CARDS_IN_A_SUIT) then (s, false)
      else
        let s := set_heart_bits s (Z.land (red_sequence s) inv_cd_sequence) in
        if negb (count_set_bits_64 (heart_bits s) NUMBER_OF_CARDS_IN_A_SUIT
                 =? NUMBER_OF_CARDS_IN_A_SUIT) then (s, false)
        else
          let s := set_hc_sequence s (Z.lor (club_bits s) (heart_bits s)) in
          if negb (count_set_bits_64 (hc_sequence s) NUMBER_OF_CARDS_IN_TWO_SUITS =? 26)
          then (s, false)
          else if negb (Bit.bit_has_unique_subsequences (hc_sequence s)) then (s, false)
          else
            let s := set_diamond_bits s
                       (Z.lor (Z.lor (spade_bits s) (heart_bits s)) (club_bits s)) in
            let s := set_diamond_bits s (Z.land (not64 (diamond_bits s)) (sequence_mask s)) in
            let s := set_red_sequence s (Z.lor (heart_bits s) (diamond_bits s)) in
            let s := set_cd_sequence s (Z.lor (club_bits s) (diamond_bits s)) in
            let s := set_hc_sequence s (Z.lor (club_bits s) (heart_bits s)) in
            (s, true).

(** The loop over the cd sequences. *)
Fixpoint cd_loop (n : nat) (args : ProgramArgument_T) (t : search_t) : search_t :=
  match n with
  | O => t
  | S n' =>
      let '(v, h) := f64_next (dbn_cd_handle t) in
      let t := with_handles t (dbn_red_handle t) h (dbn_odd_handle t) (dbn_c7k_handle t) in
      let t := with_seq_set t (set_cd_sequence (seq_set t) v) in
      if v =? 0 then t
      else if negb (is_valid_suit_seq_overlap (red_sequence (seq_set t))
                      (cd_sequence (seq_set t)) (sequence_mask (seq_set t)))
      then cd_loop n' args t
      else
        let '(s, found) := make_suit_sequences (seq_set t) in
        let t := with_seq_set t s in
        if negb found then cd_loop n' args t
        else
          let ho := f64_reset (dbn_odd_handle t) in
          let ho := if 0 <? odd_start t then f64_skip (Z.to_nat (odd_start t)) ho else ho in
          let t := with_handles t (dbn_red_handle t) (dbn_cd_handle t) ho (dbn_c7k_handle t) in
          let t := with_starts t (cd_start t) 0 (c7k_start t) in
          cd_loop n' args (odd_loop (rounds ho) args t)
  end.

(** The [do .. while (has_long_uniform_subsequence(red) || red == 0)] that
    fetches the next red sequence; [None] when the fuel does not suffice to
    leave the loop. *)
Fixpoint next_red (fuel : nat) (h : f64_seq_s) : option (Z * f64_seq_s) :=
  match fuel with
  | O => None
  | S fuel' =>
      let '(red, h) := f64_next h in
      if has_long_uniform_subsequence red || (red =? 0) then next_red fuel' h
      else Some (red, h)
  end.

Inductive run_status :=
| Exited      (** left the main loop: "Processed all HD sequences. Exiting" *)
| Running.    (** still inside the main loop when the fuel ran out *)

(** [while (not_done)]: [fuel] bounds both the rounds of the loop and the
    rounds of each inner do-while. *)
Fixpoint main_loop (fuel : nat) (args : ProgramArgument_T) (t : search_t)
  : search_t * run_status :=
  match fuel with
  | O => (t, Running)
  | S fuel' =>
      let t := with_seq_set t (set_red_sequence (seq_set t) 0) in
      match next_red fuel (dbn_red_handle t) with
      | None => (t, Running)
      | Some (red, h) =>
          let t := with_handles t h (dbn_cd_handle t) (dbn_odd_handle t) (dbn_c7k_handle t) in
          let t := with_seq_set t (set_red_sequence (seq_set t) red) in
          if red =? 0 then (t, Exited)
          else
            let hc := f64_reset (dbn_cd_handle t) in
            let hc := if 0 <? cd_start t then f64_skip (Z.to_nat (cd_start t)) hc else hc in
            let t := with_handles t (dbn_red_handle t) hc (dbn_odd_handle t) (dbn_c7k_handle t) in
            let t := with_starts t 0 (odd_start t) (c7k_start t) in
            main_loop fuel' args (cd_loop (rounds hc) args t)
      end
  end.

Definition initial_seq_set (args : ProgramArgument_T) : ultimate_struct_t :=
  {| red_sequence := 0; cd_sequence := 0; hc_sequence := 0;
     spade_bits := 0; heart_bits := 0; club_bits := 0; diamond_bits := 0;
     odd_sequence := 0; c7k_sequence := 0; c8k_sequence := 0; c4t_sequence := 0;
     c7k_c8k_diff := 0;
     sequence_mask := u64 (Z.shiftl 1 N_BITS_MAX) - 1;
     subsequence_mask := Bit.SUBSEQUENCE_MASK;
     subsequence_length := 6;
     n_bits_max := N_BITS_MAX;
     sevens_apart_flag := arg_sevens_apart_flag args |}.

(** [ultimate_search_main] over a cache directory [files]; [None] is the
    [_exit(-1)] taken when a cache file cannot be loaded. *)
Definition ultimate_search_main (fuel : nat) (args : ProgramArgument_T)
    (files : string -> option (list Z)) : option (list ultimate_struct_t * run_status) :=
  match files (dbn_suit_file_name args), files (dbn_value_file_name args) with
  | Some suit_words, Some value_words =>
      let red_h := f64_make suit_words in
      let red_h :=
        if 0 <? red_start_count args then f64_skip (Z.to_nat (red_start_count args)) red_h
        else red_h in
      let t :=
        {| seq_set := initial_seq_set args;
           dbn_red_handle := red_h;
           dbn_cd_handle := f64_make suit_words;
           dbn_odd_handle := f64_make value_words;
           dbn_c7k_handle := f64_make value_words;
           cd_start := cd_start_count args;
           odd_start := odd_start_count args;
           c7k_start := c7k_start_count args;
           output := [] |} in
      let '(t, status) := main_loop fuel args t in
      Some (output t, status)
  | _, _ => None
  end.

End Usearch.

(** ** The spread score as the specification words it *)

Module SpreadSpec.

Definition value_at (deck : list Z) (i : Z) : Z := Z.land (aget deck i) 0xF.

(** Positions of the cards of value [v], in increasing order. *)
Definition occurrences (deck : list Z) (v : Z) : list Z :=
  List.filter (fun i => value_at deck i =? v) (upto 52).

(** Consecutive occurrences, measured linearly. *)
Fixpoint linear_penalty (positions : list Z) : Z :=
  match positions with
  | a :: ((b :: _) as rest) => Deck.penalty (b - a) + linear_penalty rest
  | _ => 0
  end.

(** The pair that closes the cycle: the last occurrence and the first one,
    when the first lies among the first five positions; its distance is
    measured around the end of the deck. *)
Definition wrap_penalty (positions : list Z) : Z :=
  match positions with
  | a :: _ :: _ => if a <? 5 then Deck.penalty (a + 52 - List.last positions a) else 0
  | _ => 0
  end.

Definition spec_dup_penalty (deck : list Z) : Z :=
  fold_left
    (fun total v => total + linear_penalty (occurrences deck v) + wrap_penalty (occurrences deck v))
    (map (fun v => v + 1) (upto 13)) 0.

Definition spec_dup_count_score (deck : list Z) : Z := 65535 - spec_dup_penalty deck.

End SpreadSpec.

(** ** A candidate block found by the compound search

    The seven sequences below are bracelet-valid, the suit pair splits the
    deck 13/13/13/13 and every realization of the block is a full deck. *)

Module Sample.
Import Deck Umake.

Definition red_text : string := "0100011010010100000111011001100010011111010101101110".
Definition cd_text  : string := "1000111000100000110000101010010111011110011111010110".
Definition hc_text  : string := "1100100010110100110111110011110101000001001010111000".
Definition odd_text : string := "1110010010101111101110101000001011010011011001110001".
Definition c7k_text : string := "1100011100111111000000110111011010010101111010100010".
Definition c8k_text : string := "1100011100111111000000110111010010000100110010100010".
Definition c4t_text : string := "1000000111001000110001011011101100110101111110100111".

Definition block : block_text :=
  {| red_sequence_array := red_text;
     cd_sequence_array := cd_text;
     hc_sequence_array := hc_text;
     odd_sequence_array := odd_text;
     c7k_sequence_array := c7k_text;
     c8k_sequence_array := c8k_text;
     c4t_sequence_array := c4t_text |}.

(** The same block with its HC line damaged: 52 zeros. *)
Definition block_bad_hc : block_text :=
  {| red_sequence_array := red_text;
     cd_sequence_array := cd_text;
     hc_sequence_array := "0000000000000000000000000000000000000000000000000000";
     odd_sequence_array := odd_text;
     c7k_sequence_array := c7k_text;
     c8k_sequence_array := c8k_text;
     c4t_sequence_array := c4t_text |}.

Definition red : Z := 1241631450330478.
Definition cd  : Z := 2500341691967446.
Definition hc  : Z := 3530866640032440.
Definition odd : Z := 4023094392731249.
Definition c7k : Z := 3505175279525538.
Definition c8k : Z := 3505175277358242.
Definition c4t : Z := 2283188973166503.

Definition bundle : seq_info_t :=
  {| red_seq := red; cd_seq := cd; hc_seq := hc; odd_seq := odd;
     c7k_seq := c7k; c8k_seq := c8k; c4t_seq := c4t;
     subsequence_mask := 63; n_bits_max := 52 |}.

(** The deck of realization index 0 of the block. *)
Definition deck_0 : list Z :=
  [265; 523; 1; 2; 258; 779; 780; 8; 517; 4; 267; 524; 9; 525; 11; 13; 261; 260;
   3; 513; 515; 516; 269; 520; 773; 12; 264; 522; 518; 268; 7; 262; 781; 257; 6;
   775; 770; 776; 769; 519; 10; 777; 263; 772; 266; 771; 521; 259; 514; 774; 778; 5].

Definition deck_info_0 : deck_info_t :=
  set_temp_deck_array (initial_deck_info false) (deck_0 ++ replicate 12 0).

(** The search structure holding the five sequences of the block that the
    8K solver starts from. *)
Definition search_args : Usearch.ProgramArgument_T :=
  {| Usearch.red_start_count := 0; Usearch.cd_start_count := 0;
     Usearch.odd_start_count := 0; Usearch.c7k_start_count := 0;
     Usearch.value_sequence_modifier_flag := false;
     Usearch.suit_sequence_modifier_flag := false;
     Usearch.c8k_sequence_flag := false;
     Usearch.arg_sevens_apart_flag := false;
     Usearch.c4t_sequence_flag := false |}.

Definition seq_set : Usearch.ultimate_struct_t :=
  Usearch.with_values
    (Usearch.with_suits (Usearch.initial_seq_set search_args) red cd hc 0 0 0 0)
    odd c7k 0 0 0.

Definition seq_set_8k : Usearch.ultimate_struct_t :=
  Eval vm_compute in snd (Usearch.search_for_c8k_sequence seq_set).

(** A cache directory with two small files, and what one round of the main
    loop writes from it. *)
Definition search_files (name : string) : option (list Z) :=
  if String.eqb name "dbn_52_26.bin" then Some [red; cd; 0]
  else if String.eqb name "dbn_52_28.bin" then Some [odd; c7k; 0]
  else None.

Definition search_output : list Usearch.ultimate_struct_t :=
  Eval vm_compute in
    match Usearch.ultimate_search_main 1 search_args search_files with
    | Some (out, _) => out
    | None => []
    end.

Definition search_bundle : Usearch.ultimate_struct_t :=
  Eval vm_compute in nth 0 search_output seq_set.

(** The generator of the density-26 sequences, as [dbn_make] builds it. *)
Definition generator : Dbn.dbn_de_bruijn_s :=
  match Dbn.dbn_make 52 26 false with
  | Some d => d
  | None => Dbn.dbn_reset
              {| Dbn.bit_obj_stack := []; Dbn.all_subseq_bits_are_zeros_bit := 0;
                 Dbn.all_subseq_bits_are_ones_bit := 0; Dbn.subseq_mask := 0;
                 Dbn.n_sub_sequence_bit_count := 0; Dbn.n_bits_max := 0;
                 Dbn.n_one_bits := 0; Dbn.subseq_not_all_the_same_bits := false |}
  end.

(** Steps 1 and 2 on the block: the partial deck and the ambiguity index. *)
Definition prepared : deck_info_t * option ambiguity_t :=
  Eval vm_compute in prepare (initial_deck_info false) bundle.

Definition partial_deck : deck_info_t := fst prepared.

Definition ambiguity : ambiguity_t :=
  match snd prepared with
  | Some a => a
  | None => no_ambiguity
  end.

End Sample.

(** ** Cyclic windows of a 52-bit sequence (the vocabulary of the claims) *)

(** Bit [p] of the cyclic word: positions are taken modulo 52. *)
Definition seq_bit (s : Z) (p : nat) : bool := Z.testbit s (Z.of_nat (p mod 52)).

Fixpoint bits_to_Z (bs : list bool) : Z :=
  match bs with
  | [] => 0
  | b :: bs' => Z.b2z b + 2 * bits_to_Z bs'
  end.

(** The 6-bit code of the window that starts at position [i]: bit [j] of the
    code is the sequence bit at position [i + j], cyclically. *)
Definition cyclic_window (s : Z) (i : nat) : Z :=
  bits_to_Z (map (fun j => seq_bit s (i + j)) (seq 0 6)).

Definition windows_distinct (s : Z) : Prop :=
  forall i j : nat, (i < 52)%nat -> (j < 52)%nat -> i <> j ->
    cyclic_window s i <> cyclic_window s j.

Definition no_uniform_window (s : Z) : Prop :=
  forall i : nat, (i < 52)%nat -> cyclic_window s i <> 0 /\ cyclic_window s i <> 63.

(** Number of one bits among the low [n] positions. *)
Fixpoint popcount (n : nat) (s : Z) : Z :=
  match n with
  | O => 0
  | S n' => popcount n' s + Z.b2z (Z.testbit s (Z.of_nat n'))
  end.

(** The windows that a sliding 6-bit mask reads off a word [q]. *)
Definition slid_windows (q : Z) (n : nat) : list Z :=
  map (fun k => Z.land (Z.shiftr q (Z.of_nat k)) 63) (seq 0 n).

(** A list of checks whose masks are distinct single bits, none of them set
    in the accumulator yet. *)
Definition fresh_masks (cs : list (list Z * Z)) (bits : Z) : Prop :=
  List.NoDup (map snd cs) /\
  Forall (fun c => exists k, 0 <= k < 32 /\ snd c = 2 ^ k /\ Z.testbit bits k = false) cs.


(** ** Invariants of the compound search *)

(** A red sequence as the main loop admits it: a 52-bit word on which the
    long-uniform-run filter answers no. *)
Definition red_admitted (red : Z) : Prop :=
  0 <= red < 2 ^ 52 /\ Usearch.has_long_uniform_subsequence red = false.

(** The parts of the structure that the inner loops leave alone. *)
Definition same_red (s s' : Usearch.ultimate_struct_t) : Prop :=
  Usearch.red_sequence s' = Usearch.red_sequence s /\
  Usearch.sequence_mask s' = Usearch.sequence_mask s.

Definition words_in_range (h : F64.f64_seq_s) : Prop :=
  Forall (fun v => 0 <= v < 2 ^ 52) (F64.sequence h).

Definition all_red_admitted (out : list Usearch.ultimate_struct_t) : Prop :=
  Forall (fun b => red_admitted (Usearch.red_sequence b)) out.

Definition search_inv (t : Usearch.search_t) : Prop :=
  red_admitted (Usearch.red_sequence (Usearch.seq_set t)) /\
  Usearch.sequence_mask (Usearch.seq_set t) = 2 ^ 52 - 1 /\
  all_red_admitted (Usearch.output t) /\
  words_in_range (Usearch.dbn_red_handle t).

(** ** Invariants of the primitive generator *)

(** The sub-sequences already read off a move's partial value. *)
Definition prefix_windows (m : Dbn.dbn_move_t) : list Z :=
  slid_windows (Dbn.value m) (Z.to_nat (Dbn.length m - 5)).

(** The presence vector holds exactly the codes of [ws]. *)
Definition store_marks (store : Z) (ws : list Z) : Prop :=
  forall w, 0 <= w -> (Z.testbit store w = true <-> w ∈ ws).

Definition not_uniform (strict : bool) (ws : list Z) : Prop :=
  strict = true -> forall w, w ∈ ws -> w <> 0 /\ w <> 63.

(** A move that can still lead to a sequence of length 52 describes its
    partial value faithfully; longer moves are never completed. *)
Definition move_ok (strict : bool) (m : Dbn.dbn_move_t) : Prop :=
  52 <= Dbn.length m \/
  (0 <= Dbn.length m < 52 /\
   0 <= Dbn.value m < 2 ^ Dbn.length m /\
   (Dbn.bit m = 0 \/ Dbn.bit m = 1) /\
   Dbn.set_bit_count m = popcount (Z.to_nat (Dbn.length m)) (Dbn.value m) /\
   store_marks (Dbn.subseq_bit_store m) (prefix_windows m) /\
   NoDup (prefix_windows m) /\
   not_uniform strict (prefix_windows m)).

Definition dbn_ok (k : Z) (strict : bool) (d : Dbn.dbn_de_bruijn_s) : Prop :=
  Dbn.n_bits_max d = 52 /\
  Dbn.n_sub_sequence_bit_count d = 6 /\
  Dbn.subseq_mask d = 63 /\
  Dbn.all_subseq_bits_are_zeros_bit d = 1 /\
  Dbn.all_subseq_bits_are_ones_bit d = 2 ^ 63 /\
  Dbn.n_one_bits d = k /\
  Dbn.subseq_not_all_the_same_bits d = strict /\
  Forall (move_ok strict) (Dbn.bit_obj_stack d).

(** What the claim promises of an emitted primitive. *)
Definition primitive_ok (k : Z) (strict : bool) (v : Z) : Prop :=
  0 <= v < 2 ^ 52 /\
  windows_distinct v /\
  (k <> 0 -> popcount 52 v = k) /\
  (strict = true -> no_uniform_window v).

(** The move that, when popped, extends its partial value to the top
    [length + 1] bits of [v]. *)
Definition covers (m : Dbn.dbn_move_t) (v : Z) : Prop :=
  Z.shiftr v (51 - Dbn.length m) = 2 * Dbn.value m + Dbn.bit m.

(** With no population target every pending move is shorter than a
    sequence. *)
Definition short_stack (d : Dbn.dbn_de_bruijn_s) : Prop :=
  Forall (fun m => 0 <= Dbn.length m < 52) (Dbn.bit_obj_stack d).

(** A measure of the work left: a move of length [l] can spawn at most
    [2 ^ (52 - l) - 1] rounds. *)
Definition move_weight (m : Dbn.dbn_move_t) : Z := 2 ^ (52 - Dbn.length m) - 1.

Fixpoint stack_weight (stack : list Dbn.dbn_move_t) : Z :=
  match stack with
  | [] => 0
  | m :: rest => move_weight m + stack_weight rest
  end.

(** ** Realizations *)

(** The stores of one realization as (position, cell) pairs, and the
    positions of the sixteen index arrays. *)
Definition entry_writes (a : Umake.ambiguity_t) (i : Z) (e : nat * Z * Z * Z) : list (Z * Z) :=
  let '(k, suit, low, high) := e in
  let x := Z.land (Z.shiftr i (Z.of_nat k)) 1 in
  let array := nth k (Umake.index_arrays a) [] in
  [ (aget array x, Z.lor (Z.shiftl suit 8) low);
    (aget array (1 - x), Z.lor (Z.shiftl suit 8) high) ].

Definition fill_writes (a : Umake.ambiguity_t) (i : Z) : list (Z * Z) :=
  flat_map (entry_writes a i) Umake.fill_order.

Definition apply_writes (ws : list (Z * Z)) (t : list Z) : list Z :=
  fold_left (fun t w => aset t (fst w) (snd w)) ws t.

Definition entry_positions (a : Umake.ambiguity_t) (e : nat * Z * Z * Z) : list Z :=
  let array := nth (fst (fst (fst e))) (Umake.index_arrays a) [] in
  [aget array 0; aget array 1].

Definition agree_outside (P : Z -> Prop) (t t' : list Z) : Prop :=
  length t = length t' /\
  forall n, (n < length t)%nat -> ~ P (Z.of_nat n) -> nth n t 0 = nth n t' 0.

(** Two deck states that the scoring functions cannot tell apart. *)
Definition same_view (d d' : Deck.deck_info_t) : Prop :=
  Deck.temp_deck_array d = Deck.temp_deck_array d' /\
  Deck.deck_length d = Deck.deck_length d' /\
  Deck.find_all_sequences_flag d = Deck.find_all_sequences_flag d'.

(** The deck state whose temporary deck holds realization [i] of the partial
    deck of [d], with its mask, number of passed checks and score. *)
Definition realization_view (d : Deck.deck_info_t) (a : Umake.ambiguity_t) (i : Z) :
    Deck.deck_info_t :=
  Umake.set_temp_deck_array d (Umake.fill_deck a i (Deck.temp_deck_array d)).

Definition realization_bits (d : Deck.deck_info_t) (a : Umake.ambiguity_t) (i : Z) : Z :=
  fst (Umake.test_deck_for_special_sequences (realization_view d a i)).

Definition realization_count (d : Deck.deck_info_t) (a : Umake.ambiguity_t) (i : Z) : Z :=
  Deck.sequence_count (snd (Umake.test_deck_for_special_sequences (realization_view d a i))).

Definition realization_score (d : Deck.deck_info_t) (a : Umake.ambiguity_t) (i : Z) : Z :=
  fst (Umake.get_deck_score (realization_view d a i)).

(** State of the realization loop after the indices below [n]: the stored
    best is the first index of maximal score. *)
Definition best_so_far (d : Deck.deck_info_t) (a : Umake.ambiguity_t)
    (n : nat) (st : Umake.search_state) (best : nat) : Prop :=
  (best < n)%nat /\
  Umake.best_score st = realization_score d a (Z.of_nat best) /\
  Umake.best_sequence_type_bits st = realization_bits d a (Z.of_nat best) /\
  Umake.maximum_sequence_count st = realization_count d a (Z.of_nat best) /\
  (forall j, 0 <= j < 52 ->
     aget (Deck.deck_array (Umake.info st)) j
     = aget (Umake.fill_deck a (Z.of_nat best) (Deck.temp_deck_array d)) j) /\
  (forall j, (j < n)%nat ->
     realization_score d a (Z.of_nat j) <= realization_score d a (Z.of_nat best)) /\
  (forall j, (j < best)%nat ->
     realization_score d a (Z.of_nat j) < realization_score d a (Z.of_nat best)).

Definition loop_inv (d : Deck.deck_info_t) (a : Umake.ambiguity_t)
    (n : nat) (st : Umake.search_state) : Prop :=
  (forall i, Umake.fill_deck a i (Deck.temp_deck_array (Umake.info st))
             = Umake.fill_deck a i (Deck.temp_deck_array d)) /\
  Deck.deck_length (Umake.info st) = Deck.deck_length d /\
  Deck.find_all_sequences_flag (Umake.info st) = Deck.find_all_sequences_flag d /\
  length (Deck.deck_array (Umake.info st)) = length (Deck.deck_array d) /\
  if Umake.first_sequence_found st
  then n = 0%nat /\ Umake.maximum_sequence_count st = 0
  else exists best, best_so_far d a n st best.

(** ** Cards *)

Definition card (suit value : Z) : Z := Z.lor (Z.shiftl suit 8) value.

(** The standard deck: the values 1..13 in each of the four suits. *)
Definition standard_deck : list Z :=
  flat_map (fun s => map (card s) (map Z.of_nat (seq 1 13))) [0; 1; 2; 3].

(** The twenty cards whose value code is unambiguous. *)
Definition fixed_cards : list Z :=
  flat_map (fun s => map (card s) [2; 5; 7; 9; 12]) [0; 1; 2; 3].

(** The two cards stored for an entry of [fill_order]. *)
Definition entry_cards (e : nat * Z * Z * Z) : list Z :=
  let '(k, suit, low, high) := e in [card suit low; card suit high].

(** The slot of the index arrays a cell is filed under. *)
Definition cell_class (cell : Z) : option nat :=
  match Umake.value_class (Z.land cell 0xFF) with
  | Some m => Some (4 * Umake.suit_class (Z.shiftr cell 8) + m)%nat
  | None => None
  end.

(** The 52 cells of realization [i]. *)
Definition realized_deck (d : Deck.deck_info_t) (a : Umake.ambiguity_t) (i : Z) : list Z :=
  take 52 (Umake.fill_deck a i (Deck.temp_deck_array d)).

(** What the scan of the first [n] positions has filed in slot [k]. *)
Definition slot_ok (temp : list Z) (n : Z) (a : Umake.ambiguity_t) (k : nat) : Prop :=
  let arr := nth k (Umake.index_arrays a) [] in
  let cnt := nth k (Umake.counters a) 0 in
  length arr = 2%nat /\ 0 <= cnt /\
  (0 < cnt -> 0 <= aget arr 0 < n /\ cell_class (aget temp (aget arr 0)) = Some k) /\
  (1 < cnt -> 0 <= aget arr 1 < n /\ cell_class (aget temp (aget arr 1)) = Some k
              /\ aget arr 0 < aget arr 1).

Definition scan_inv (temp : list Z) (n : Z) (a : Umake.ambiguity_t) : Prop :=
  length (Umake.index_arrays a) = 16%nat /\
  length (Umake.counters a) = 16%nat /\
  forall k, (k < 16)%nat -> slot_ok temp n a k.

(** A slot that holds the two positions of its class. *)
Definition slot_filled (temp : list Z) (a : Umake.ambiguity_t) (k : nat) : Prop :=
  let arr := nth k (Umake.index_arrays a) [] in
  0 <= aget arr 0 < 52 /\ 0 <= aget arr 1 < 52 /\ aget arr 0 <> aget arr 1 /\
  cell_class (aget temp (aget arr 0)) = Some k /\
  cell_class (aget temp (aget arr 1)) = Some k.

(** ** Sequences as text *)

(** [bit_display_integer_sequence] of bit_utilities.c: the line it prints.
    The digits come from two loops, the first starting at the bit of
    [first_bit_index], the second at bit 51. *)
Module BitText.

Fixpoint digit_loop (n : nat) (bit_mask sequence : Z) : list ascii :=
  match n with
  | O => []
  | S n' =>
      (if Z.land bit_mask sequence =? 0 then "0"%char else "1"%char)
      :: digit_loop n' (Z.shiftr bit_mask 1) sequence
  end.

Definition display_digits (sequence first_bit_index n_bits_max : Z) : list ascii :=
  let bit_mask := u64 (Z.shiftl 1 (n_bits_max - (first_bit_index + 1))) in
  let start_length := n_bits_max - first_bit_index in
  let first := digit_loop (Z.to_nat start_length) bit_mask sequence in
  let bit_mask := u64 (Z.shiftl 1 51) in
  let end_length := n_bits_max - start_length in
  first ++ digit_loop (Z.to_nat end_length) bit_mask sequence.

Definition bit_display_integer_sequence
    (sequence_name : string) (sequence first_bit_index n_bits_max : Z) : string :=
  (sequence_name ++ " sequence:  "
   ++ string_of_list_ascii (display_digits sequence first_bit_index n_bits_max)
   ++ String "010" EmptyString)%string.

End BitText.

(** [display_sequence] of ultimate_search.c: [text_array] and the line
    printed from it. *)
Module UsearchText.

Fixpoint text_loop (n : nat) (sequence high_bit_mask : Z) : list ascii :=
  match n with
  | O => []
  | S n' =>
      (if Z.land sequence high_bit_mask =? 0 then "0"%char else "1"%char)
      :: text_loop n' (u64 (Z.shiftl sequence 1)) high_bit_mask
  end.

Definition text_array (sequence length : Z) : list ascii :=
  text_loop (Z.to_nat length) sequence (u64 (Z.shiftl 1 (length - 1))).

Definition display_sequence (text : string) (sequence length : Z) : string :=
  (text ++ " sequence:  " ++ string_of_list_ascii (text_array sequence length)
   ++ String "010" EmptyString)%string.

End UsearchText.

(** ** deck_utilities.c: cutting and showing the deck *)

Module DeckCut.
Import Deck.

(** [deck_get_top_card_index]: the index after the last Nine of Diamonds. *)
Definition deck_get_top_card_index (d : deck_info_t) : Z :=
  fold_left
    (fun top_card_index i =>
       let card := aget (deck_array d) i in
       if card =? Z.shiftl SUIT_DIAMOND 8 + 9
       then (i + 1) mod deck_length d
       else top_card_index)
    (upto (deck_length d)) 0.

Definition card_value_lookup_array : list string :=
  ["X"; "A"; "2"; "3"; "4"; "5"; "6"; "7"; "8"; "9"; "10"; "J"; "Q"; "K"; "X"; "X"]%string.

Definition card_suit_lookup_array : list string := ["S"; "C"; "H"; "D"]%string.

(** The card shown in round [i] of the loop of [deck_display_stack]. *)
Definition displayed_card (d : deck_info_t) (top_card_index i : Z) : Z :=
  aget (deck_array d) ((i + top_card_index) mod deck_length d).

(** What one round of the loop prints. *)
Definition displayed_text (d : deck_info_t) (top_card_index i : Z) : string :=
  let card := displayed_card d top_card_index i in
  let suit := nth (Z.to_nat (Z.land (Z.shiftr card 8) 3)) card_suit_lookup_array ""%string in
  let value := nth (Z.to_nat (Z.land card 0xF)) card_value_lookup_array ""%string in
  ((value ++ suit ++ (if (i =? deck_length d - 1)%Z then "" else ", "))
   ++ (if (Z.land (i + 1) 7 =? 0)%Z then String "010" EmptyString else ""))%string.

(** [deck_display_stack]: everything it prints. *)
Definition deck_display_stack (d : deck_info_t) (top_card_index : Z) : string :=
  (fold_left (fun out i => out ++ displayed_text d top_card_index i)
     (upto (deck_length d)) ""
   ++ String "010" (String "010" EmptyString))%string.

End DeckCut.

(** ** Bit smearing (the vocabulary of [dbn_get_next_power_of_two]) *)

(** Bit [i] of [y] is set when one of the [m] bits of [x] from [i] on is. *)
Definition smeared (x m y : Z) : Prop :=
  forall i, 0 <= i ->
    (Z.testbit y i = true <-> exists d, 0 <= d < m /\ Z.testbit x (i + d) = true).

(** ** The move stack of the primitive generator *)

(** The generator after some rounds of the search loop of [dbn_next],
    whichever calls they belong to. *)
Inductive after_rounds (d0 : Dbn.dbn_de_bruijn_s) : Dbn.dbn_de_bruijn_s -> Prop :=
| rounds_none : after_rounds d0 d0
| rounds_emitted d m rest v d' :
    after_rounds d0 d -> Dbn.bit_obj_stack d = m :: rest ->
    Dbn.dbn_step d m rest = Dbn.Emitted v d' -> after_rounds d0 d'
| rounds_stepped d m rest d' :
    after_rounds d0 d -> Dbn.bit_obj_stack d = m :: rest ->
    Dbn.dbn_step d m rest = Dbn.Stepped d' -> after_rounds d0 d'.

(** Every move is at most two slots deeper than it is long, and no longer
    than the sub-sequences it has marked allow. *)
Fixpoint stack_shape (n_sub : Z) (stack : list Dbn.dbn_move_t) : Prop :=
  match stack with
  | [] => True
  | m :: rest =>
      Z.of_nat (S (length rest)) <= Dbn.length m + 2 /\
      0 <= Dbn.length m <= n_sub + popcount 64 (Dbn.subseq_bit_store m) /\
      stack_shape n_sub rest
  end.

Definition depth_ok (d : Dbn.dbn_de_bruijn_s) : Prop :=
  0 <= Dbn.n_sub_sequence_bit_count d <= 6 /\
  Dbn.subseq_mask d = Z.ones (Dbn.n_sub_sequence_bit_count d) /\
  stack_shape (Dbn.n_sub_sequence_bit_count d) (Dbn.bit_obj_stack d).

(** A measure of the rounds a stack can still cause, whatever the
    population target: no move grows past 70 bits. *)
Definition round_weight (m : Dbn.dbn_move_t) : Z := 2 ^ (71 - Dbn.length m) - 1.

Fixpoint rounds_left (stack : list Dbn.dbn_move_t) : Z :=
  match stack with
  | [] => 0
  | m :: rest => round_weight m + rounds_left rest
  end.

(** ** Position codes (the vocabulary of [is_valid_deck_sequence]) *)

(** The four-bit code of position [i]: its red, cd, odd and 7K bits, the
    red bit highest. *)
Definition position_code (s : Usearch.ultimate_struct_t) (i : Z) : Z :=
  8 * Z.b2z (Z.testbit (Usearch.red_sequence s) i)
  + 4 * Z.b2z (Z.testbit (Usearch.cd_sequence s) i)
  + 2 * Z.b2z (Z.testbit (Usearch.odd_sequence s) i)
  + Z.b2z (Z.testbit (Usearch.c7k_sequence s) i).

(** The number of positions below [n_bits_max] with code [c]. *)
Definition code_count (s : Usearch.ultimate_struct_t) (c : Z) : Z :=
  Z.of_nat (length (List.filter (fun i => position_code s i =? c)
                      (upto (Usearch.n_bits_max s)))).

(** ** Candidates of the 8K solver *)

(** The word tested for one choice of a bit per suit: the four
    subtractions of [search_for_c8k_sequence]. *)
Definition c8k_candidate (s : Usearch.ultimate_struct_t)
    (spade_bit heart_bit club_bit diamond_bit : Z) : Z :=
  u64 (u64 (u64 (u64 (Usearch.c7k_sequence s - spade_bit) - heart_bit) - club_bit)
       - diamond_bit).

(** The tests a candidate has to pass. *)
Definition c8k_accepted (s : Usearch.ultimate_struct_t) (temp : Z) : Prop :=
  Bit.bit_has_unique_subsequences temp = true /\
  (Usearch.sevens_apart_flag s = true ->
   Usearch.c7k_c8k_diff_valid (Usearch.set_c8k_sequence s temp) = true).

(** A structure that differs from [s] in its [c8k_sequence] at most. *)
Definition same_but_c8k (s s1 : Usearch.ultimate_struct_t) : Prop :=
  exists x, s1 = Usearch.set_c8k_sequence s x.

(** ** What the compound search has tested of a bundle *)

(** The suit fields as [make_suit_sequences] leaves them. *)
Definition suits_tested (s : Usearch.ultimate_struct_t) : Prop :=
  Bit.bit_has_unique_subsequences (Usearch.hc_sequence s) = true /\
  Usearch.hc_sequence s = Z.lor (Usearch.club_bits s) (Usearch.heart_bits s) /\
  Usearch.red_sequence s = Z.lor (Usearch.heart_bits s) (Usearch.diamond_bits s) /\
  Usearch.cd_sequence s = Z.lor (Usearch.club_bits s) (Usearch.diamond_bits s).

Definition odd_tested (s : Usearch.ultimate_struct_t) : Prop :=
  suits_tested s /\ Usearch.is_valid_odd_sequence s = true.

(** Every test that stands between a bundle and the output. *)
Definition bundle_tested (args : Usearch.ProgramArgument_T)
    (b : Usearch.ultimate_struct_t) : Prop :=
  odd_tested b /\
  Usearch.is_valid_c7k_sequence b = true /\
  Usearch.is_valid_deck_sequence b = true /\
  (Usearch.c8k_sequence_flag args = true ->
   Bit.bit_has_unique_subsequences (Usearch.c8k_sequence b) = true /\
   Usearch.c7k_c8k_diff b = Z.lxor (Usearch.c7k_sequence b) (Usearch.c8k_sequence b)) /\
  (Usearch.c4t_sequence_flag args = true ->
   Bit.bit_has_unique_subsequences (Usearch.c4t_sequence b) = true).

(** Structures that agree on the suit fields, and on the odd and the 7K
    sequence as well. *)
Definition same_suits (s s' : Usearch.ultimate_struct_t) : Prop :=
  exists odd c7k c8k c4t diff, s' = Usearch.with_values s odd c7k c8k c4t diff.

Definition same_odd (s s' : Usearch.ultimate_struct_t) : Prop :=
  exists c7k c8k c4t diff,
    s' = Usearch.with_values s (Usearch.odd_sequence s) c7k c8k c4t diff.

Definition same_c7k (s s' : Usearch.ultimate_struct_t) : Prop :=
  exists c8k c4t diff,
    s' = Usearch.with_values s (Usearch.odd_sequence s) (Usearch.c7k_sequence s)
           c8k c4t diff.

Definition output_tested (args : Usearch.ProgramArgument_T) (t : Usearch.search_t) : Prop :=
  Forall (bundle_tested args) (Usearch.output t).

(** ** dbn_file_creator.c *)

Module Creator.

Record program_arguments_t := {
  bit_count : Z;
  one_count : Z;
  not_all_bits_the_same : bool
}.

(** [%u] applied to an [int] argument. *)
Definition unsigned_decimal (x : Z) : string :=
  NilZero.string_of_uint (N.to_uint (Z.to_N (u32 x))).

(** The name built by [sprintf] with the format [dbn_%u_%u%s]. *)
Definition dbn_file_name (args : program_arguments_t) : string :=
  ("dbn_" ++ unsigned_decimal (bit_count args) ++ "_" ++ unsigned_decimal (one_count args)
   ++ (if not_all_bits_the_same args then "_short.bin" else ".bin"))%string.

(** [while (seq_value != 0L) { seq_value = dbn_next(dbn_handle); fwrite(..); }]:
    the words written after those of [file]; [None] when [calls] rounds of
    the loop, or [fuel] rounds inside one call of [dbn_next], do not
    suffice. *)
Fixpoint write_loop (calls fuel : nat) (d : Dbn.dbn_de_bruijn_s) (file : list Z)
  : option (list Z) :=
  match calls with
  | O => None
  | S calls' =>
      match Dbn.dbn_next fuel d with
      | None => None
      | Some (seq_value, d') =>
          let file := file ++ [seq_value] in
          if seq_value =? 0 then Some file else write_loop calls' fuel d' file
      end
  end.

(** [dbn_file_creator_main]: the status returned and the file written, if
    one is; [can_create] tells whether the file can be opened for writing.
    When [dbn_make] rejects the length it leaves the handle unset, and the
    calls on it that follow have no defined behaviour: [None]. *)
Definition dbn_file_creator_main (calls fuel : nat) (can_create : bool)
    (args : program_arguments_t) : option (Z * option (string * list Z)) :=
  let sequence_modifier :=
    if not_all_bits_the_same args then Dbn.DBN_REQUIRE_BITS_NOT_ALL_THE_SAME
    else Dbn.DBN_ALLOW_ALL_BITS_THE_SAME in
  match Dbn.dbn_make (u32 (bit_count args)) (u32 (one_count args)) sequence_modifier with
  | None => None
  | Some d =>
      if can_create then
        match write_loop calls fuel d [] with
        | Some file => Some (0, Some (dbn_file_name args, file))
        | None => None
        end
      else Some (-1, None)
  end.

End Creator.

(** A sequence [v] that some move of the stack still leads to. *)
Definition pending (v : Z) (d : Dbn.dbn_de_bruijn_s) : Prop :=
  exists c, c ∈ Dbn.bit_obj_stack d /\ covers c v.

(** ** The bundles the realizer accepts *)

(** Whether a cell is filed under slot [k]. *)
Definition in_class (k : nat) (cell : Z) : bool :=
  match cell_class cell with
  | Some k' => Nat.eqb k' k
  | None => false
  end.

(** The positions below [n] whose cell is filed under slot [k], in
    increasing order. *)
Definition class_positions (temp : list Z) (n : Z) (k : nat) : list Z :=
  List.filter (fun p => in_class k (aget temp p)) (upto n).

(** The scan of the first [n] positions has counted the cells of every slot
    and stored the first two positions of each. *)
Definition count_inv (temp : list Z) (n : Z) (a : Umake.ambiguity_t) : Prop :=
  length (Umake.index_arrays a) = 16%nat /\
  length (Umake.counters a) = 16%nat /\
  forall k, (k < 16)%nat ->
    let arr := nth k (Umake.index_arrays a) [] in
    let ps := class_positions temp n k in
    length arr = 2%nat /\
    nth k (Umake.counters a) 0 = Z.of_nat (length ps) /\
    forall j, (j < 2)%nat -> (j < length ps)%nat -> aget arr (Z.of_nat j) = nth j ps 0.

(** ** umake_decks.c: the loop that reads the candidate file *)

Module UmakeMain.

Definition MAX_CHARACTER_READ_COUNT : nat := 256.

(** [fgets] with a buffer of [n + 1] characters: the characters read, up
    to and including the first newline or until [n] are read, and the rest
    of the stream. *)
Fixpoint fgets_from (n : nat) (stream : list ascii) : list ascii * list ascii :=
  match n, stream with
  | S n', c :: rest =>
      if Ascii.eqb c "010" then ([c], rest)
      else let '(line, rest') := fgets_from n' rest in (c :: line, rest')
  | _, _ => ([], stream)
  end.

(** The buffers that the calls of [fgets] return until the end of the file. *)
Fixpoint file_lines (fuel : nat) (stream : list ascii) : list (list ascii) :=
  match fuel, stream with
  | S fuel', _ :: _ =>
      let '(line, rest) := fgets_from (MAX_CHARACTER_READ_COUNT - 1) stream in
      line :: file_lines fuel' rest
  | _, _ => []
  end.

Definition lines_of (stream : list ascii) : list (list ascii) :=
  file_lines (length stream) stream.

(** The characters of [text] before the first [stop]. *)
Fixpoint before (stop : ascii) (text : list ascii) : list ascii :=
  match text with
  | [] => []
  | c :: rest => if Ascii.eqb c stop then [] else c :: before stop rest
  end.

Fixpoint starts_with (needle text : list ascii) : bool :=
  match needle, text with
  | [], _ => true
  | n :: needle', c :: text' => Ascii.eqb n c && starts_with needle' text'
  | _ :: _, [] => false
  end.

(** [strstr]: the text from the first occurrence of [needle] on. *)
Fixpoint strstr (text needle : list ascii) : option (list ascii) :=
  if starts_with needle text then Some text
  else
    match text with
    | [] => None
    | _ :: rest => strstr rest needle
    end.

(** The loops that step over blanks. *)
Fixpoint skip_spaces (text : list ascii) : list ascii :=
  match text with
  | c :: rest => if Ascii.eqb c " " then skip_spaces rest else text
  | [] => []
  end.

(** [isalpha] and [isdigit] in the C locale. *)
Definition isalpha (c : ascii) : bool :=
  let n := nat_of_ascii c in
  ((65 <=? n)%nat && (n <=? 90)%nat) || ((97 <=? n)%nat && (n <=? 122)%nat).

Definition isdigit (c : ascii) : bool :=
  let n := nat_of_ascii c in (48 <=? n)%nat && (n <=? 57)%nat.

(** The name: the letters and digits up to the first other character,
    where the loop over [ISALPHA] and [ISDIGIT] stops and a NUL is stored. *)
Fixpoint name_of (text : list ascii) : list ascii :=
  match text with
  | c :: rest => if isalpha c || isdigit c then c :: name_of rest else []
  | [] => []
  end.

(** The seven text arrays; [None] is an array that was never written. *)
Record text_arrays := {
  red_sequence_array : option string;
  cd_sequence_array : option string;
  hc_sequence_array : option string;
  odd_sequence_array : option string;
  c7k_sequence_array : option string;
  c8k_sequence_array : option string;
  c4t_sequence_array : option string
}.

Definition unwritten_arrays : text_arrays :=
  {| red_sequence_array := None; cd_sequence_array := None; hc_sequence_array := None;
     odd_sequence_array := None; c7k_sequence_array := None; c8k_sequence_array := None;
     c4t_sequence_array := None |}.

(** The arrays after [xxx_sequence_array[0] = 0] for all seven. *)
Definition cleared_arrays : text_arrays :=
  {| red_sequence_array := Some EmptyString; cd_sequence_array := Some EmptyString;
     hc_sequence_array := Some EmptyString; odd_sequence_array := Some EmptyString;
     c7k_sequence_array := Some EmptyString; c8k_sequence_array := Some EmptyString;
     c4t_sequence_array := Some EmptyString |}.

(** The texts handed to [bit_get_integer_seq], when all seven arrays hold
    one. *)
Definition written (a : text_arrays) : option Umake.block_text :=
  match red_sequence_array a, cd_sequence_array a, hc_sequence_array a,
        odd_sequence_array a, c7k_sequence_array a, c8k_sequence_array a,
        c4t_sequence_array a with
  | Some red, Some cd, Some hc, Some odd, Some c7k, Some c8k, Some c4t =>
      Some {| Umake.red_sequence_array := red; Umake.cd_sequence_array := cd;
              Umake.hc_sequence_array := hc; Umake.odd_sequence_array := odd;
              Umake.c7k_sequence_array := c7k; Umake.c8k_sequence_array := c8k;
              Umake.c4t_sequence_array := c4t |}
  | _, _, _, _, _, _, _ => None
  end.

(** The locals of [umake_decks_main] that the reading loop changes. *)
Record reader_t := {
  arrays : text_arrays;
  sequence_group_count : Z;
  deck_info : Deck.deck_info_t
}.

Inductive outcome :=
| Running (r : reader_t)
| Exited (status : Z)
| Undefined.

(** [_tcscmp(name_ptr, ..) == 0]. *)
Definition same_text (name : list ascii) (literal : string) : bool :=
  String.eqb (string_of_list_ascii name) literal.

(** [_tcscpy] into one of the arrays of 64 characters, chosen by the name;
    a text of 64 characters or more overruns the array. *)
Definition store (r : reader_t) (name seq : list ascii) : outcome :=
  let a := arrays r in
  let text := Some (string_of_list_ascii seq) in
  let stored (a' : text_arrays) : outcome :=
    if (64 <=? length seq)%nat then Undefined
    else Running {| arrays := a'; sequence_group_count := sequence_group_count r;
                    deck_info := deck_info r |} in
  if same_text name "RED" then
    stored {| red_sequence_array := text; cd_sequence_array := cd_sequence_array a;
              hc_sequence_array := hc_sequence_array a;
              odd_sequence_array := odd_sequence_array a;
              c7k_sequence_array := c7k_sequence_array a;
              c8k_sequence_array := c8k_sequence_array a;
              c4t_sequence_array := c4t_sequence_array a |}
  else if same_text name "CD" then
    stored {| red_sequence_array := red_sequence_array a; cd_sequence_array := text;
              hc_sequence_array := hc_sequence_array a;
              odd_sequence_array := odd_sequence_array a;
              c7k_sequence_array := c7k_sequence_array a;
              c8k_sequence_array := c8k_sequence_array a;
              c4t_sequence_array := c4t_sequence_array a |}
  else if same_text name "HC" then
    stored {| red_sequence_array := red_sequence_array a;
              cd_sequence_array := cd_sequence_array a; hc_sequence_array := text;
              odd_sequence_array := odd_sequence_array a;
              c7k_sequence_array := c7k_sequence_array a;
              c8k_sequence_array := c8k_sequence_array a;
              c4t_sequence_array := c4t_sequence_array a |}
  else if same_text name "ODD" then
    stored {| red_sequence_array := red_sequence_array a;
              cd_sequence_array := cd_sequence_array a;
              hc_sequence_array := hc_sequence_array a; odd_sequence_array := text;
              c7k_sequence_array := c7k_sequence_array a;
              c8k_sequence_array := c8k_sequence_array a;
              c4t_sequence_array := c4t_sequence_array a |}
  else if same_text name "7K" then
    stored {| red_sequence_array := red_sequence_array a;
              cd_sequence_array := cd_sequence_array a;
              hc_sequence_array := hc_sequence_array a;
              odd_sequence_array := odd_sequence_array a; c7k_sequence_array := text;
              c8k_sequence_array := c8k_sequence_array a;
              c4t_sequence_array := c4t_sequence_array a |}
  else if same_text name "8K" then
    stored {| red_sequence_array := red_sequence_array a;
              cd_sequence_array := cd_sequence_array a;
              hc_sequence_array := hc_sequence_array a;
              odd_sequence_array := odd_sequence_array a;
              c7k_sequence_array := c7k_sequence_array a; c8k_sequence_array := text;
              c4t_sequence_array := c4t_sequence_array a |}
  else if same_text name "4T" then
    stored {| red_sequence_array := red_sequence_array a;
              cd_sequence_array := cd_sequence_array a;
              hc_sequence_array := hc_sequence_array a;
              odd_sequence_array := odd_sequence_array a;
              c7k_sequence_array := c7k_sequence_array a;
              c8k_sequence_array := c8k_sequence_array a; c4t_sequence_array := text |}
  else Running r.

(** The body of the reading loop on one buffer filled by [fgets]. The NUL
    that ends the name is stored at or before the first colon, so the text
    after the colon is the one of the line. A line without colon ends a
    group: past the skip count the seven arrays are converted and the
    bundle is realized; reading an array that was never written has no
    defined behaviour. What the loop prints is left out. *)
Definition read_line (sequence_group_skip_count : Z) (r : reader_t) (buffer : list ascii)
  : outcome :=
  let line := before "010" (before "000" buffer) in
  match strstr line (list_ascii_of_string "Found") with
  | Some _ => Running r
  | None =>
      match strstr line (list_ascii_of_string ":") with
      | Some seq_ptr =>
          let name := name_of (skip_spaces line) in
          let seq := skip_spaces (tl seq_ptr) in
          store r name seq
      | None =>
          let count := u32 (sequence_group_count r + 1) in
          if sequence_group_skip_count <? count then
            match written (arrays r) with
            | None => Undefined
            | Some t =>
                match Umake.process_block (deck_info r) t with
                | Umake.Exit status => Exited status
                | Umake.Realized d =>
                    Running {| arrays := cleared_arrays; sequence_group_count := count;
                               deck_info := d |}
                end
            end
          else
            Running {| arrays := cleared_arrays; sequence_group_count := count;
                       deck_info := deck_info r |}
      end
  end.

(** [while (fgets(..) != NULL) { .. }]. *)
Fixpoint read_lines (sequence_group_skip_count : Z) (r : reader_t)
    (lines : list (list ascii)) : outcome :=
  match lines with
  | [] => Running r
  | buffer :: rest =>
      match read_line sequence_group_skip_count r buffer with
      | Running r' => read_lines sequence_group_skip_count r' rest
      | stopped => stopped
      end
  end.

Definition initial_reader (find_all_sequences_flag : bool) : reader_t :=
  {| arrays := unwritten_arrays; sequence_group_count := 0;
     deck_info := Umake.initial_deck_info find_all_sequences_flag |}.

(** [umake_decks_main] on the contents of the input file, [None] when it
    cannot be opened. *)
Definition umake_decks_main (sequence_group_skip_count : Z) (find_all_sequences_flag : bool)
    (file : option (list ascii)) : outcome :=
  match file with
  | None => Running (initial_reader find_all_sequences_flag)
  | Some stream =>
      read_lines sequence_group_skip_count (initial_reader find_all_sequences_flag)
        (lines_of stream)
  end.

End UmakeMain.

(** The block that [ultimate_search_main] prints for a bundle. *)
Definition display_bundle (args : Usearch.ProgramArgument_T) (s : Usearch.ultimate_struct_t)
  : string :=
  let n := Usearch.n_bits_max s in
  (UsearchText.display_sequence " 7K" (Usearch.c7k_sequence s) n
   ++ (if Usearch.c8k_sequence_flag args
       then UsearchText.display_sequence " 8K" (Usearch.c8k_sequence s) n else "")
   ++ (if Usearch.c4t_sequence_flag args
       then UsearchText.display_sequence " 4T" (Usearch.c4t_sequence s) n else "")
   ++ UsearchText.display_sequence "ODD" (Usearch.odd_sequence s) n
   ++ UsearchText.display_sequence "RED" (Usearch.red_sequence s) n
   ++ UsearchText.display_sequence " CD" (Usearch.cd_sequence s) n
   ++ UsearchText.display_sequence " HC" (Usearch.hc_sequence s) n
   ++ String "010" EmptyString)%string.

(** The sequences of a bundle as the realizer holds them. *)
Definition bundle_info (s : Usearch.ultimate_struct_t) : Umake.seq_info_t :=
  {| Umake.red_seq := Usearch.red_sequence s;
     Umake.cd_seq := Usearch.cd_sequence s;
     Umake.hc_seq := Usearch.hc_sequence s;
     Umake.odd_seq := Usearch.odd_sequence s;
     Umake.c7k_seq := Usearch.c7k_sequence s;
     Umake.c8k_seq := Usearch.c8k_sequence s;
     Umake.c4t_seq := Usearch.c4t_sequence s;
     Umake.subsequence_mask := Bit.SUBSEQUENCE_MASK;
     Umake.n_bits_max := Deck.N_BITS_MAX |}.

(** A text of binary digits. *)
Definition all_digits (text : list ascii) : Prop :=
  Forall (fun c => c = "0"%char \/ c = "1"%char) text.
(** * Properties *)

(** ** Bit-level helper lemmas *)

Lemma u64_small (x : Z) : 0 <= x < 2 ^ 64 -> u64 x = x.
Proof. intros H. unfold u64. apply Z.mod_small. exact H. Qed.

Lemma land_63_range (x : Z) : 0 <= Z.land x 63 < 64.
Proof.
  change 63 with (Z.ones 6). rewrite Z.land_ones by lia.
  change (2 ^ 6) with 64. apply Z.mod_pos_bound. lia.
Qed.

Lemma testbit_land_63 (x n : Z) :
  0 <= n -> Z.testbit (Z.land x 63) n = (Z.testbit x n && (n <? 6))%bool.
Proof.
  intros Hn. change 63 with (Z.ones 6). rewrite Z.land_spec.
  rewrite Z.testbit_ones_nonneg by lia. reflexivity.
Qed.

Lemma one_bit_u64 (w : Z) : 0 <= w < 64 -> u64 (Z.shiftl 1 w) = 2 ^ w.
Proof.
  intros Hw. rewrite Z.shiftl_1_l. apply u64_small. split.
  - apply Z.pow_nonneg. lia.
  - apply Z.pow_lt_mono_r; lia.
Qed.

Lemma land_pow2_eqb (store w : Z) :
  0 <= w -> (Z.land store (2 ^ w) =? 0) = negb (Z.testbit store w).
Proof.
  intros Hw. destruct (Z.testbit store w) eqn:Hb; simpl.
  - apply Z.eqb_neq. intros H0.
    assert (Hc : Z.testbit (Z.land store (2 ^ w)) w = false)
      by (rewrite H0; apply Z.bits_0).
    rewrite Z.land_spec, Hb, Z.pow2_bits_true in Hc by lia. discriminate.
  - apply Z.eqb_eq. apply Z.bits_inj'. intros n Hn.
    rewrite Z.land_spec, Z.bits_0, Z.pow2_bits_eqb by lia.
    destruct (Z.eqb_spec w n) as [->|Hne]; [rewrite Hb|]; simpl;
      [reflexivity | apply andb_false_r].
Qed.

Lemma testbit_lor_pow2 (store w n : Z) :
  0 <= w -> 0 <= n ->
  Z.testbit (Z.lor store (2 ^ w)) n = (Z.testbit store n || (w =? n))%bool.
Proof. intros Hw Hn. rewrite Z.lor_spec, Z.pow2_bits_eqb by lia. reflexivity. Qed.

Lemma testbit_bits_to_Z (bs : list bool) (n : nat) :
  Z.testbit (bits_to_Z bs) (Z.of_nat n) = nth n bs false.
Proof.
  revert n. induction bs as [|b bs IH]; intros n; simpl.
  - rewrite Z.bits_0. destruct n; reflexivity.
  - destruct n as [|n].
    + rewrite Z.add_comm. apply Z.testbit_0_r.
    + rewrite Nat2Z.inj_succ, Z.add_comm, Z.testbit_succ_r by lia. apply IH.
Qed.

Lemma bits_to_Z_range (bs : list bool) : 0 <= bits_to_Z bs < 2 ^ Z.of_nat (length bs).
Proof.
  induction bs as [|b bs IH]; simpl length; simpl bits_to_Z.
  - simpl. lia.
  - rewrite Nat2Z.inj_succ, Z.pow_succ_r by lia. destruct b; simpl Z.b2z; lia.
Qed.

Lemma cyclic_window_range (s : Z) (i : nat) : 0 <= cyclic_window s i < 64.
Proof.
  unfold cyclic_window.
  pose proof (bits_to_Z_range (map (fun j => seq_bit s (i + j)) (seq 0 6))) as H.
  rewrite length_map, length_seq in H. exact H.
Qed.

Lemma slid_windows_succ (q : Z) (n : nat) :
  slid_windows q (S n) = Z.land q 63 :: slid_windows (Z.shiftr q 1) n.
Proof.
  unfold slid_windows. simpl. f_equal.
  rewrite <- seq_shift, map_map. apply map_ext. intros k.
  rewrite Z.shiftr_shiftr by lia. do 2 f_equal. lia.
Qed.

Lemma unique_loop_false (n : nat) (q store : Z) : Bit.unique_loop n false q store = false.
Proof. destruct n; reflexivity. Qed.

Lemma slid_windows_range (q : Z) (n : nat) (w : Z) : w ∈ slid_windows q n -> 0 <= w < 64.
Proof.
  intros Hin. apply list_elem_of_In in Hin. unfold slid_windows in Hin.
  apply in_map_iff in Hin as (k & <- & _). apply land_63_range.
Qed.

(** The validator loop succeeds exactly when the windows it reads are new
    with respect to the presence vector and pairwise distinct. *)
Lemma unique_loop_spec (n : nat) :
  forall q store,
    Bit.unique_loop n true q store = true <->
    NoDup (slid_windows q n) /\
    (forall w, w ∈ slid_windows q n -> Z.testbit store w = false).
Proof.
  induction n as [|n IH]; intros q store.
  - simpl. split; [intros _; split; [constructor | intros w Hw; inversion Hw] | reflexivity].
  - rewrite slid_windows_succ. cbn [Bit.unique_loop].
    unfold Bit.SUBSEQUENCE_MASK.
    pose proof (land_63_range q) as Hr. set (w0 := Z.land q 63) in *.
    rewrite one_bit_u64 by lia. rewrite land_pow2_eqb by lia.
    rewrite NoDup_cons.
    destruct (Z.testbit store w0) eqn:Hb; simpl negb.
    + rewrite unique_loop_false. split; [discriminate|].
      intros [_ H]. rewrite (H w0) in Hb by (apply elem_of_cons; left; reflexivity).
      discriminate.
    + rewrite IH. split.
      * intros [Hnd Hfresh]. split; [split; [|exact Hnd]|].
        -- intros Hin. specialize (Hfresh _ Hin).
           rewrite testbit_lor_pow2, Z.eqb_refl, orb_true_r in Hfresh by lia.
           discriminate.
        -- intros w Hw. apply elem_of_cons in Hw as [->|Hin]; [exact Hb|].
           pose proof (slid_windows_range _ _ _ Hin).
           specialize (Hfresh _ Hin).
           rewrite testbit_lor_pow2 in Hfresh by lia.
           apply orb_false_iff in Hfresh. tauto.
      * intros [[Hnotin Hnd] Hfresh]. split; [exact Hnd|].
        intros w Hin. pose proof (slid_windows_range _ _ _ Hin).
        rewrite testbit_lor_pow2 by lia. apply orb_false_iff. split.
        -- apply Hfresh. apply elem_of_cons. right. exact Hin.
        -- apply Z.eqb_neq. intros ->. contradiction.
Qed.

Lemma testbit_above (p s k : Z) : 0 <= s < 2 ^ p -> 0 <= p <= k -> Z.testbit s k = false.
Proof.
  intros Hs Hk. rewrite <- (Z.mod_small s (2 ^ p)) by exact Hs.
  apply Z.mod_pow2_bits_high. lia.
Qed.

Lemma testbit_u64 (x k : Z) : 0 <= k < 64 -> Z.testbit (u64 x) k = Z.testbit x k.
Proof. intros Hk. unfold u64. apply Z.mod_pow2_bits_low. lia. Qed.

(** Bits of the validator's working word [seq | ((seq & 31) << 52)]. *)
Lemma testbit_wrap5 (s k : Z) :
  0 <= s < 2 ^ 52 -> 0 <= k < 57 ->
  Z.testbit (Z.lor s (u64 (Z.shiftl (Z.land s 31) 52))) k = Z.testbit s (k mod 52).
Proof.
  intros Hs Hk. rewrite Z.lor_spec, testbit_u64 by lia.
  rewrite Z.shiftl_spec by lia.
  destruct (Z.ltb_spec k 52) as [Hlt|Hge].
  - rewrite (Z.testbit_neg_r _ (k - 52)) by lia.
    rewrite Z.mod_small by lia. apply orb_false_r.
  - rewrite (testbit_above 52 s k) by lia.
    replace (k mod 52) with (k - 52)
      by (apply Z.mod_unique with (q := 1); lia).
    change 31 with (Z.ones 5). rewrite Z.land_spec, Z.testbit_ones_nonneg by lia.
    replace (k - 52 <? 5) with true by (symmetry; apply Z.ltb_lt; lia).
    simpl. apply andb_true_r.
Qed.

Lemma nat_mod_52 (p : nat) : Z.of_nat (p mod 52) = Z.of_nat p mod 52.
Proof. apply (Nat2Z.inj_mod p 52). Qed.

(** A word whose bits below 57 are the cyclic bits of [s] shows, under the
    sliding mask, the cyclic windows of [s]. *)
Lemma slid_window_cyclic (s q : Z) (i : nat) :
  (i < 52)%nat ->
  (forall k, 0 <= k < 57 -> Z.testbit q k = Z.testbit s (k mod 52)) ->
  Z.land (Z.shiftr q (Z.of_nat i)) 63 = cyclic_window s i.
Proof.
  intros Hi Hq. apply Z.bits_inj'. intros n Hn.
  rewrite testbit_land_63, Z.shiftr_spec by lia.
  rewrite <- (Z2Nat.id n) by lia. set (m := Z.to_nat n).
  unfold cyclic_window. rewrite testbit_bits_to_Z.
  destruct (Nat.lt_ge_cases m 6) as [Hm|Hm].
  - replace (Z.of_nat m <? 6) with true by (symmetry; apply Z.ltb_lt; lia).
    rewrite andb_true_r, Hq by lia.
    rewrite (nth_indep _ false (seq_bit s (i + 0))) by (rewrite length_map, length_seq; exact Hm).
    rewrite (map_nth (fun j => seq_bit s (i + j)) (seq 0 6) 0%nat).
    rewrite seq_nth by exact Hm. unfold seq_bit. rewrite nat_mod_52.
    do 2 f_equal. lia.
  - replace (Z.of_nat m <? 6) with false by (symmetry; apply Z.ltb_ge; lia).
    rewrite andb_false_r. symmetry. apply nth_overflow.
    rewrite length_map, length_seq. exact Hm.
Qed.

Lemma slid_windows_cyclic (s q : Z) :
  (forall k, 0 <= k < 57 -> Z.testbit q k = Z.testbit s (k mod 52)) ->
  slid_windows q 52 = map (cyclic_window s) (seq 0 52).
Proof.
  intros Hq. unfold slid_windows. apply map_ext_in. intros i Hi.
  apply in_seq in Hi. apply slid_window_cyclic; [lia | exact Hq].
Qed.

Lemma NoDup_map_seq_pairwise (f : nat -> Z) (n : nat) :
  NoDup (map f (seq 0 n)) <->
  (forall i j : nat, (i < n)%nat -> (j < n)%nat -> i <> j -> f i <> f j).
Proof.
  assert (Hf : forall k, (k < n)%nat -> nth k (map f (seq 0 n)) 0 = f k).
  { intros k Hk.
    rewrite (nth_indep _ 0 (f 0%nat)) by (rewrite length_map, length_seq; exact Hk).
    rewrite (map_nth f (seq 0 n) 0%nat), seq_nth by exact Hk. reflexivity. }
  rewrite NoDup_ListNoDup, (List.NoDup_nth _ 0), length_map, length_seq. split.
  - intros Hnd i j Hi Hj Hne Heq. apply Hne, Hnd; [exact Hi | exact Hj |].
    rewrite (Hf i Hi), (Hf j Hj). exact Heq.
  - intros Hpw i j Hi Hj Heq.
    destruct (Nat.eq_dec i j) as [|Hne]; [assumption | exfalso].
    apply (Hpw i j Hi Hj Hne). rewrite <- (Hf i Hi), <- (Hf j Hj). exact Heq.
Qed.

(** C1. For every 52-bit sequence, [bit_has_unique_subsequences] returns true
    exactly when the 52 cyclic length-6 windows (window [i] starting at bit
    position [i]) are pairwise distinct 6-bit codes. *)
Theorem bit_has_unique_subsequences_correct (s : Z) :
  0 <= s < 2 ^ 52 ->
  (Bit.bit_has_unique_subsequences s = true <-> windows_distinct s).
Proof.
  intros Hs. unfold Bit.bit_has_unique_subsequences, Bit.SEQUENCE_LENGTH.
  change (Z.to_nat 52) with 52%nat.
  rewrite unique_loop_spec.
  rewrite (slid_windows_cyclic s) by (intros k Hk; apply testbit_wrap5; assumption).
  unfold windows_distinct. rewrite <- NoDup_map_seq_pairwise. split.
  - intros [H _]. exact H.
  - intros H. split; [exact H | intros w _; apply Z.bits_0].
Qed.

(** ** Population count *)

Lemma popcount_succ (n : nat) (a : Z) (b : bool) :
  popcount (S n) (2 * a + Z.b2z b) = Z.b2z b + popcount n a.
Proof.
  induction n as [|n IH].
  - cbn [popcount]. change (Z.of_nat 0) with 0. rewrite Z.testbit_0_r. lia.
  - change (popcount (S (S n)) (2 * a + Z.b2z b))
      with (popcount (S n) (2 * a + Z.b2z b)
            + Z.b2z (Z.testbit (2 * a + Z.b2z b) (Z.of_nat (S n)))).
    rewrite IH. cbn [popcount]. rewrite Nat2Z.inj_succ, Z.testbit_succ_r by lia. lia.
Qed.

Lemma popcount_nonneg (n : nat) (s : Z) : 0 <= popcount n s <= Z.of_nat n.
Proof.
  induction n as [|n IH]; cbn [popcount]; [lia|].
  destruct (Z.testbit s (Z.of_nat n)); simpl Z.b2z; lia.
Qed.

Lemma popcount_ext (n : nat) (s t : Z) :
  (forall k, 0 <= k < Z.of_nat n -> Z.testbit s k = Z.testbit t k) ->
  popcount n s = popcount n t.
Proof.
  induction n as [|n IH]; intros H; cbn [popcount]; [reflexivity|].
  rewrite IH by (intros k Hk; apply H; lia). rewrite (H (Z.of_nat n)) by lia. reflexivity.
Qed.

Lemma popcount_mono (n : nat) (s t : Z) :
  (forall k, 0 <= k < Z.of_nat n -> Z.testbit s k = true -> Z.testbit t k = true) ->
  popcount n s <= popcount n t.
Proof.
  induction n as [|n IH]; intros H; cbn [popcount]; [lia|].
  assert (popcount n s <= popcount n t) by (apply IH; intros k Hk; apply H; lia).
  specialize (H (Z.of_nat n)).
  destruct (Z.testbit s (Z.of_nat n)); [rewrite H by (lia || reflexivity)|];
    destruct (Z.testbit t (Z.of_nat n)); simpl Z.b2z; lia.
Qed.

Lemma popcount_lor_pow2 (n : nat) (s k : Z) :
  0 <= k < Z.of_nat n -> Z.testbit s k = false ->
  popcount n (Z.lor s (2 ^ k)) = popcount n s + 1.
Proof.
  induction n as [|n IH]; intros Hk Hb; [lia|]. cbn [popcount].
  rewrite testbit_lor_pow2 by lia.
  destruct (Z.eq_dec k (Z.of_nat n)) as [->|Hne].
  - rewrite Z.eqb_refl, orb_true_r, Hb. simpl Z.b2z.
    rewrite (popcount_ext n (Z.lor s (2 ^ Z.of_nat n)) s); [lia|].
    intros j Hj. rewrite testbit_lor_pow2 by lia.
    replace (Z.of_nat n =? j) with false by (symmetry; apply Z.eqb_neq; lia).
    apply orb_false_r.
  - rewrite IH by (lia || assumption).
    replace (k =? Z.of_nat n) with false by (symmetry; apply Z.eqb_neq; lia).
    rewrite orb_false_r. lia.
Qed.

(** Clearing the lowest set bit removes exactly one bit. *)
Lemma popcount_clear_lowest (n : nat) :
  forall v, 0 < v < 2 ^ Z.of_nat n ->
    popcount n (Z.land v (v - 1)) + 1 = popcount n v /\ 0 <= Z.land v (v - 1) < v.
Proof.
  induction n as [|n IH]; intros v Hv; [simpl in Hv; lia|].
  rewrite Nat2Z.inj_succ, Z.pow_succ_r in Hv by lia.
  destruct (Z.even v) eqn:He.
  - apply Z.even_spec in He as [a ->].
    assert (Ha : 0 < a < 2 ^ Z.of_nat n) by lia.
    destruct (IH a Ha) as [IH1 IH2].
    assert (Hl : Z.land (2 * a) (2 * a - 1) = 2 * Z.land a (a - 1)).
    { replace (2 * a - 1) with (2 * (a - 1) + 1) by lia.
      apply Z.bits_inj'. intros k Hk. rewrite Z.land_spec.
      destruct (Z.eq_dec k 0) as [->|Hk0].
      - rewrite !Z.testbit_even_0. reflexivity.
      - replace k with (Z.succ (k - 1)) by lia.
        rewrite !Z.testbit_even_succ, Z.testbit_odd_succ, Z.land_spec by lia.
        reflexivity. }
    rewrite Hl. split; [|lia].
    pose proof (popcount_succ n (Z.land a (a - 1)) false) as H1.
    pose proof (popcount_succ n a false) as H2.
    simpl Z.b2z in H1, H2. rewrite Z.add_0_r in H1, H2. rewrite H1, H2. lia.
  - assert (Ho : Z.odd v = true) by (rewrite <- Z.negb_even, He; reflexivity).
    apply Z.odd_spec in Ho as [a ->].
    assert (Hl : Z.land (2 * a + 1) (2 * a + 1 - 1) = 2 * a).
    { replace (2 * a + 1 - 1) with (2 * a) by lia.
      apply Z.bits_inj'. intros k Hk. rewrite Z.land_spec.
      destruct (Z.eq_dec k 0) as [->|Hk0].
      - rewrite Z.testbit_odd_0, Z.testbit_even_0. reflexivity.
      - replace k with (Z.succ (k - 1)) by lia.
        rewrite Z.testbit_odd_succ, Z.testbit_even_succ by lia.
        apply andb_diag. }
    rewrite Hl. split; [|lia].
    pose proof (popcount_succ n a false) as H1.
    pose proof (popcount_succ n a true) as H2.
    simpl Z.b2z in H1, H2. rewrite Z.add_0_r in H1. rewrite H1, H2. lia.
Qed.

Lemma popcount_zero (n : nat) : popcount n 0 = 0.
Proof. induction n as [|n IH]; cbn [popcount]; [|rewrite IH, Z.bits_0]; reflexivity. Qed.

Lemma count_loop_popcount (n : nat) (fuel : nat) :
  forall v c, 0 <= v < 2 ^ Z.of_nat n -> (Z.to_nat (popcount n v) <= fuel)%nat ->
    Bit.count_loop fuel v c = c + popcount n v.
Proof.
  induction fuel as [|fuel IH]; intros v c Hv Hf.
  - cbn [Bit.count_loop].
    destruct (Z.eq_dec v 0) as [->|Hne]; [rewrite popcount_zero; lia|].
    destruct (popcount_clear_lowest n v ltac:(lia)) as [H1 _].
    pose proof (popcount_nonneg n (Z.land v (v - 1))). lia.
  - cbn [Bit.count_loop]. destruct (Z.eqb_spec v 0) as [->|Hne].
    + rewrite popcount_zero. lia.
    + destruct (popcount_clear_lowest n v ltac:(lia)) as [H1 H2].
      pose proof (popcount_nonneg n (Z.land v (v - 1))).
      rewrite IH by lia. lia.
Qed.

(** [bit_count_set_bits] counts the one bits of the low 32 bits. *)
Lemma bit_count_set_bits_popcount (v : Z) : Bit.bit_count_set_bits v = popcount 32 v.
Proof.
  unfold Bit.bit_count_set_bits.
  rewrite (count_loop_popcount 32).
  - rewrite Z.add_0_l. apply popcount_ext. intros k Hk.
    unfold u32. apply Z.mod_pow2_bits_low. lia.
  - unfold u32. apply Z.mod_pos_bound. lia.
  - pose proof (popcount_nonneg 32 (u32 v)). lia.
Qed.

(** ** The predicate mask of the realizer *)

(** Finds the bit index of a single-bit mask by trying 0, 1, 2, ... *)
Ltac find_mask_bit k :=
  first [ solve [exists k; cbn; repeat split; (lia || reflexivity)]
        | let k' := eval cbv in (k + 1) in
          let stop := eval cbv in (32 <=? k') in
          match stop with false => find_mask_bit k' end ].

Ltac find_fresh_bit Hk k :=
  first [ solve [exists k; split; [lia | split; [reflexivity | apply Hk; lia]]]
        | let k' := eval cbv in (k + 1) in
          let stop := eval cbv in (32 <=? k') in
          match stop with false => find_fresh_bit Hk k' end ].

Section PredicateMask.
Import Deck Umake.

Variable d : deck_info_t.

Lemma check_keeps_bits (acc : Z * Z) (c : list Z * Z) (k : Z) :
  Z.testbit (fst acc) k = true ->
  Z.testbit (fst (CHECK_FOR_BRACELET_SEQUENCE d acc c)) k = true.
Proof.
  destruct acc as [bits n], c as [vs b]. cbn [CHECK_FOR_BRACELET_SEQUENCE fst].
  intros H. destruct (Bit.bit_has_unique_subsequences _); cbn [fst]; [|exact H].
  rewrite Z.lor_spec, H. reflexivity.
Qed.

Lemma checks_keep_bits (cs : list (list Z * Z)) :
  forall acc k, Z.testbit (fst acc) k = true ->
    Z.testbit (fst (fold_left (CHECK_FOR_BRACELET_SEQUENCE d) cs acc)) k = true.
Proof.
  induction cs as [|c cs IH]; intros acc k H; [exact H|].
  cbn [fold_left]. apply IH, check_keeps_bits, H.
Qed.

Lemma checks_count_bits (cs : list (list Z * Z)) :
  forall acc, fresh_masks cs (fst acc) ->
    let acc' := fold_left (CHECK_FOR_BRACELET_SEQUENCE d) cs acc in
    popcount 32 (fst acc') - snd acc' = popcount 32 (fst acc) - snd acc /\
    snd acc <= snd acc' /\
    (forall k, 0 <= k -> Z.testbit (fst acc') k = true ->
       Z.testbit (fst acc) k = true \/ In (2 ^ k) (map snd cs)).
Proof.
  induction cs as [|c cs IH]; intros acc [Hnd Hall].
  - cbn. split; [reflexivity | split; [lia | intros k _ H; left; exact H]].
  - cbn [fold_left]. apply Forall_cons in Hall as [(k0 & Hk0 & Hc & Hb) Hall].
    cbn [map] in Hnd. apply List.NoDup_cons_iff in Hnd as [Hnotin Hnd].
    set (acc1 := CHECK_FOR_BRACELET_SEQUENCE d acc c).
    assert (H1 : popcount 32 (fst acc1) - snd acc1 = popcount 32 (fst acc) - snd acc
                 /\ snd acc <= snd acc1
                 /\ (forall k, 0 <= k -> Z.testbit (fst acc1) k = true ->
                       Z.testbit (fst acc) k = true \/ 2 ^ k = snd c)).
    { subst acc1. destruct acc as [bits n], c as [vs b]. cbn [snd fst] in *.
      cbn [CHECK_FOR_BRACELET_SEQUENCE].
      destruct (Bit.bit_has_unique_subsequences _); cbn [fst snd].
      - subst b. rewrite popcount_lor_pow2 by (lia || assumption).
        split; [lia | split; [lia|]]. intros k Hk Ht.
        rewrite testbit_lor_pow2 in Ht by lia. apply orb_true_iff in Ht as [Ht|Ht].
        + left; exact Ht.
        + right. apply Z.eqb_eq in Ht. subst k. reflexivity.
      - split; [reflexivity | split; [lia | intros k _ Ht; left; exact Ht]]. }
    destruct H1 as (Hp1 & Hn1 & Hs1).
    assert (Hfresh : fresh_masks cs (fst acc1)).
    { split; [exact Hnd|]. apply Forall_forall. intros c' Hin.
      rewrite Forall_forall in Hall. destruct (Hall c' Hin) as (k & Hk & Hc' & Hb').
      exists k. split; [exact Hk | split; [exact Hc'|]].
      destruct (Z.testbit (fst acc1) k) eqn:Ht; [exfalso | reflexivity].
      destruct (Hs1 k ltac:(lia) Ht) as [Hold|Heq]; [congruence|].
      apply Hnotin. rewrite <- Heq, <- Hc'. apply in_map, list_elem_of_In, Hin. }
    destruct (IH acc1 Hfresh) as (Hp2 & Hn2 & Hs2).
    split; [lia | split; [lia|]]. intros k Hk Ht.
    destruct (Hs2 k Hk Ht) as [Hmid|Hin]; [|right; right; exact Hin].
    destruct (Hs1 k Hk Hmid) as [Hold|Heq]; [left; exact Hold | right; left; symmetry; exact Heq].
Qed.

Lemma fresh_consecutive : fresh_masks consecutive_checks (Z.lor 0 input_sequence_bits).
Proof.
  split.
  - cbn. repeat (constructor; [cbn; intuition discriminate|]). constructor.
  - repeat (constructor; [find_mask_bit 0|]). constructor.
Qed.

Lemma fresh_special (bits : Z) :
  (forall k, 0 <= k -> Z.testbit bits k = true ->
     Z.testbit (Z.lor 0 input_sequence_bits) k = true \/ In (2 ^ k) (map snd consecutive_checks)) ->
  fresh_masks special_checks bits.
Proof.
  intros Hsub. split.
  - cbn. repeat (constructor; [cbn; intuition discriminate|]). constructor.
  - assert (Hk : forall k, 17 <= k < 26 -> Z.testbit bits k = false).
    { intros k Hk. destruct (Z.testbit bits k) eqn:Ht; [exfalso | reflexivity].
      assert (Hc : k = 17 \/ k = 18 \/ k = 19 \/ k = 20 \/ k = 21 \/ k = 22
                   \/ k = 23 \/ k = 24 \/ k = 25) by lia.
      destruct (Hsub k ltac:(lia) Ht) as [H|H];
        repeat (destruct Hc as [->|Hc]; [cbn in H; intuition discriminate|]);
        subst k; cbn in H; intuition discriminate. }
    repeat (constructor; [find_fresh_bit Hk 17|]). constructor.
Qed.

(** The mask holds the seven input bits plus one bit per passed check. *)
Lemma test_deck_bits_count :
  let r := test_deck_for_special_sequences d in
  popcount 32 (fst r) = 7 + sequence_count (snd r) /\ 0 <= sequence_count (snd r).
Proof.
  cbn zeta. unfold test_deck_for_special_sequences.
  pose proof (checks_count_bits consecutive_checks (Z.lor 0 input_sequence_bits, 0)
                fresh_consecutive) as H1.
  cbn zeta in H1. cbn [fst snd] in H1.
  set (acc1 := fold_left (CHECK_FOR_BRACELET_SEQUENCE d) consecutive_checks
                 (Z.lor 0 input_sequence_bits, 0)) in *.
  destruct H1 as (Hp1 & Hn1 & Hs1).
  change (popcount 32 (Z.lor 0 input_sequence_bits)) with 7 in Hp1.
  destruct (find_all_sequences_flag d); cbn [fst snd sequence_count set_sequence_count].
  - pose proof (checks_count_bits special_checks acc1 (fresh_special _ Hs1)) as H2.
    cbn zeta in H2. destruct H2 as (Hp2 & Hn2 & _). lia.
  - lia.
Qed.
End PredicateMask.

(** C9. Whatever the deck holds, the mask returned by
    [test_deck_for_special_sequences] has the seven input bits SEQ_A6,
    SEQ_A7, SEQ_4T, SEQ_EV, SEQ_HD, SEQ_CD and SEQ_HC set; so the mask is
    never zero and the predicate count is at least 7. *)
Theorem test_deck_guaranteed_bits (d : Deck.deck_info_t) :
  let bits := fst (Umake.test_deck_for_special_sequences d) in
  Forall (fun b => Z.land bits b = b)
    [Seq.SEQ_A6; Seq.SEQ_A7; Seq.SEQ_4T; Seq.SEQ_EV; Seq.SEQ_HD; Seq.SEQ_CD; Seq.SEQ_HC]
  /\ bits <> 0
  /\ 7 <= Bit.bit_count_set_bits bits.
Proof.
  cbn zeta.
  assert (Hkeep : forall k, Z.testbit (Z.lor 0 Umake.input_sequence_bits) k = true ->
            Z.testbit (fst (Umake.test_deck_for_special_sequences d)) k = true).
  { intros k Hk. unfold Umake.test_deck_for_special_sequences.
    destruct (Deck.find_all_sequences_flag d); cbn [fst];
      repeat apply checks_keep_bits; exact Hk. }
  assert (Hland : forall b k0, b = 2 ^ k0 -> 0 <= k0 ->
            Z.testbit (Z.lor 0 Umake.input_sequence_bits) k0 = true ->
            Z.land (fst (Umake.test_deck_for_special_sequences d)) b = b).
  { intros b k0 -> Hk0 Hb. apply Z.bits_inj'. intros n Hn.
    rewrite Z.land_spec, Z.pow2_bits_eqb by lia.
    destruct (Z.eqb_spec k0 n) as [<-|Hne]; [rewrite (Hkeep _ Hb); reflexivity|].
    apply andb_false_r. }
  split; [|split].
  - repeat (constructor;
            [first [ solve [apply (Hland _ 0); (reflexivity || lia)]
                   | solve [apply (Hland _ 1); (reflexivity || lia)]
                   | solve [apply (Hland _ 7); (reflexivity || lia)]
                   | solve [apply (Hland _ 13); (reflexivity || lia)]
                   | solve [apply (Hland _ 14); (reflexivity || lia)]
                   | solve [apply (Hland _ 15); (reflexivity || lia)]
                   | solve [apply (Hland _ 16); (reflexivity || lia)] ]|]).
    constructor.
  - intros H0. specialize (Hkeep 0 eq_refl). rewrite H0 in Hkeep. discriminate.
  - rewrite bit_count_set_bits_popcount.
    change 7 with (popcount 32 (Z.lor 0 Umake.input_sequence_bits)).
    apply popcount_mono. intros k _ Hk. apply Hkeep, Hk.
Qed.

(** ** The sample block *)

Lemma sample_block_converts : Umake.convert_block Sample.block = Sample.bundle.
Proof. vm_compute. reflexivity. Qed.

Lemma sample_deck_0_is_realization_0 :
  match Umake.prepare (Umake.initial_deck_info false) Sample.bundle with
  | (d, Some a) =>
      Umake.fill_deck a 0 (Deck.temp_deck_array d) = Deck.temp_deck_array Sample.deck_info_0
  | (_, None) => False
  end.
Proof. vm_compute. reflexivity. Qed.

(** ** The spread score *)

(** C5 (evaluation at the failing input). On realization 0 of the sample
    block the nine at position 0 and the nine at position 46 are six places
    apart around the end of the deck, a pair the specification charges 1;
    [deck_get_dup_count_score] takes the branch [last_value_position > 46]
    only from position 47 on and charges nothing. *)
Theorem dup_count_score_misses_wrap_pair :
  SpreadSpec.value_at Sample.deck_0 0 = 9 /\
  SpreadSpec.value_at Sample.deck_0 46 = 9 /\
  SpreadSpec.occurrences Sample.deck_0 9 = [0; 12; 41; 46] /\
  Deck.deck_get_dup_count_score Sample.deck_info_0 = 65388 /\
  SpreadSpec.spec_dup_count_score Sample.deck_0 = 65387.
Proof. vm_compute. repeat split; reflexivity. Qed.

(** ** Validation of a candidate block *)

(** The test that guards the realizer does not look at the HC sequence. *)
Lemma sequences_rejected_ignores_hc (q : Umake.seq_info_t) (hc' : Z) :
  Umake.sequences_rejected
    {| Umake.red_seq := Umake.red_seq q; Umake.cd_seq := Umake.cd_seq q;
       Umake.hc_seq := hc'; Umake.odd_seq := Umake.odd_seq q;
       Umake.c7k_seq := Umake.c7k_seq q; Umake.c8k_seq := Umake.c8k_seq q;
       Umake.c4t_seq := Umake.c4t_seq q;
       Umake.subsequence_mask := Umake.subsequence_mask q;
       Umake.n_bits_max := Umake.n_bits_max q |}
  = Umake.sequences_rejected q.
Proof. reflexivity. Qed.

(** C6 (evaluation at the failing input). A block whose HC line is 52 zeros
    fails bracelet validation on that sequence, yet the realizer does not
    exit: it goes on to [find_best_deck_order] with the block. *)
Theorem invalid_hc_is_realized (d : Deck.deck_info_t) :
  Bit.bit_has_unique_subsequences
    (Umake.hc_seq (Umake.convert_block Sample.block_bad_hc)) = false /\
  Umake.process_block d Sample.block_bad_hc
  = Umake.Realized (Umake.find_best_deck_order d (Umake.convert_block Sample.block_bad_hc)).
Proof.
  split; [vm_compute; reflexivity|].
  unfold Umake.process_block.
  replace (Umake.sequences_rejected (Umake.convert_block Sample.block_bad_hc)) with false
    by (vm_compute; reflexivity).
  reflexivity.
Qed.

(** ** The main loop of the compound search *)

Section MainLoop.
Import F64 Usearch.

Lemma f64_next_exhausted (h : f64_seq_s) :
  count h <= seq_index h -> f64_next h = (0, h).
Proof.
  intros H. unfold f64_next.
  replace (seq_index h <? count h) with false by (symmetry; apply Z.ltb_ge; exact H).
  reflexivity.
Qed.

(** Whatever the do-while hands over is not the end marker. *)
Lemma next_red_nonzero (fuel : nat) :
  forall h red h', next_red fuel h = Some (red, h') ->
    (red =? 0) = false /\ has_long_uniform_subsequence red = false.
Proof.
  induction fuel as [|fuel IH]; intros h red h' H; [discriminate|].
  cbn [next_red] in H. destruct (f64_next h) as [v h1].
  destruct (has_long_uniform_subsequence v || (v =? 0)) eqn:Hc.
  - apply (IH _ _ _ H).
  - injection H as <- <-. apply orb_false_iff in Hc. tauto.
Qed.

(** C7 (the loop at the end of the cache). Once the red handle is
    exhausted, [f64_next] returns 0 for ever and the do-while that fetches
    the next red sequence repeats on every 0: no amount of fuel gets out of
    it, so the test [red_sequence == 0] after it is never reached. *)
Theorem next_red_spins_at_end_of_cache (fuel : nat) (h : f64_seq_s) :
  count h <= seq_index h -> next_red fuel h = None.
Proof.
  intros H. induction fuel as [|fuel IH]; [reflexivity|].
  cbn [next_red]. rewrite (f64_next_exhausted h H).
  rewrite Z.eqb_refl, orb_true_r. exact IH.
Qed.

Lemma main_loop_never_exits (fuel : nat) (args : ProgramArgument_T) :
  forall t, snd (main_loop fuel args t) = Running.
Proof.
  induction fuel as [|fuel IH]; intros t; [reflexivity|].
  cbn [main_loop].
  destruct (next_red (S fuel) _) as [[red h]|] eqn:Hn; [|reflexivity].
  destruct (next_red_nonzero _ _ _ _ Hn) as [Hz _].
  cbn [dbn_red_handle with_seq_set with_handles seq_set red_sequence
       set_red_sequence with_suits] in *.
  rewrite Hz. apply IH.
Qed.

(** The search never leaves its main loop: whatever the cache files hold
    and however long it runs, it is still running. *)
Theorem ultimate_search_never_exits (fuel : nat) (args : ProgramArgument_T)
    (files : string -> option (list Z)) (out : list ultimate_struct_t) (status : run_status) :
  ultimate_search_main fuel args files = Some (out, status) -> status = Running.
Proof.
  unfold ultimate_search_main.
  destruct (files (dbn_suit_file_name args)) as [sw|]; [|discriminate].
  destruct (files (dbn_value_file_name args)) as [vw|]; [|discriminate].
  match goal with |- context [main_loop fuel args ?t] =>
    pose proof (main_loop_never_exits fuel args t) as H;
    destruct (main_loop fuel args t) as [t' st] end.
  cbn [snd] in H. intros Heq. injection Heq as _ <-. exact H.
Qed.
End MainLoop.

(** ** The long-uniform-run filter *)

Lemma testbit_not64 (x k : Z) : 0 <= k < 64 -> Z.testbit (not64 x) k = negb (Z.testbit x k).
Proof. intros Hk. unfold not64. rewrite testbit_u64, Z.lnot_spec by lia. reflexivity. Qed.

Lemma land_not64_63 (w : Z) : Z.land (not64 w) 63 = 63 - Z.land w 63.
Proof.
  assert (H : Z.land (not64 w) 63 = Z.land (Z.lnot (Z.land w 63)) 63).
  { apply Z.bits_inj'. intros n Hn. rewrite !testbit_land_63 by lia.
    destruct (Z.ltb_spec n 6); [|rewrite !andb_false_r; reflexivity].
    rewrite testbit_not64, Z.lnot_spec, testbit_land_63 by lia.
    replace (n <? 6) with true by (symmetry; apply Z.ltb_lt; lia).
    rewrite !andb_true_r. reflexivity. }
  rewrite H. pose proof (land_63_range w) as Hr. set (a := Z.land w 63) in *.
  unfold Z.lnot. change 63 with (Z.ones 6) at 1. rewrite Z.land_ones by lia.
  change (2 ^ 6) with 64. symmetry. apply Z.mod_unique with (q := -1); lia.
Qed.

Lemma uniform_loop_spec (n : nat) :
  forall wseq,
    Usearch.uniform_loop n wseq = false <->
    (forall w, w ∈ slid_windows wseq n -> w <> 0 /\ w <> 63).
Proof.
  induction n as [|n IH]; intros wseq.
  - simpl. split; [intros _ w Hw; inversion Hw | reflexivity].
  - rewrite slid_windows_succ. cbn [Usearch.uniform_loop].
    change 0x3F with 63. rewrite land_not64_63.
    pose proof (land_63_range wseq) as Hr. set (w0 := Z.land wseq 63) in *.
    destruct (Z.eqb_spec w0 63) as [H63|H63]; cbn [orb].
    + split; [discriminate|]. intros H.
      destruct (H w0) as [_ Hc]; [apply elem_of_cons; left; reflexivity | contradiction].
    + destruct (Z.eqb_spec (63 - w0) 63) as [H0|H0].
      * split; [discriminate|]. intros H.
        destruct (H w0) as [Hc _]; [apply elem_of_cons; left; reflexivity | lia].
      * rewrite IH. split.
        -- intros H w Hw. apply elem_of_cons in Hw as [->|Hw]; [lia | apply H, Hw].
        -- intros H w Hw. apply H, elem_of_cons. right. exact Hw.
Qed.

Lemma testbit_wrap_all (s k : Z) :
  0 <= s < 2 ^ 52 -> 0 <= k < 57 ->
  Z.testbit (Z.lor s (u64 (Z.shiftl s 52))) k = Z.testbit s (k mod 52).
Proof.
  intros Hs Hk. rewrite Z.lor_spec, testbit_u64 by lia.
  rewrite Z.shiftl_spec by lia.
  destruct (Z.ltb_spec k 52) as [Hlt|Hge].
  - rewrite (Z.testbit_neg_r _ (k - 52)) by lia.
    rewrite Z.mod_small by lia. apply orb_false_r.
  - rewrite (testbit_above 52 s k) by lia.
    replace (k mod 52) with (k - 52)
      by (apply Z.mod_unique with (q := 1); lia).
    reflexivity.
Qed.

(** [has_long_uniform_subsequence] is false exactly when no cyclic window
    is all zeros or all ones. *)
Lemma has_long_uniform_subsequence_spec (s : Z) :
  0 <= s < 2 ^ 52 ->
  (Usearch.has_long_uniform_subsequence s = false <-> no_uniform_window s).
Proof.
  intros Hs. unfold Usearch.has_long_uniform_subsequence.
  rewrite uniform_loop_spec.
  rewrite (slid_windows_cyclic s) by (intros k Hk; apply testbit_wrap_all; assumption).
  unfold no_uniform_window. split.
  - intros H i Hi. apply H, list_elem_of_In, in_map, in_seq. lia.
  - intros H w Hw. apply list_elem_of_In, in_map_iff in Hw as (i & <- & Hi).
    apply in_seq in Hi. apply H. lia.
Qed.

(** ** Red sequences of the emitted blocks *)

Section EmittedRed.
Import F64 Usearch.

Lemma for_loop_preserves {S R : Type} (Q : S -> Prop) (QR : R -> Prop)
    (body : Z -> S -> flow S R) :
  (forall k s, Q s -> match body k s with Continue s' => Q s' | Return r => QR r end) ->
  forall n from s, Q s ->
    match for_loop n from body s with Continue s' => Q s' | Return r => QR r end.
Proof.
  intros Hb. induction n as [|n IH]; intros from s Hs; [exact Hs|].
  cbn [for_loop]. specialize (Hb from s Hs).
  destruct (body from s) as [s'|r]; [apply IH, Hb | exact Hb].
Qed.

Lemma same_red_refl (s : ultimate_struct_t) : same_red s s.
Proof. split; reflexivity. Qed.

Lemma same_red_trans (s1 s2 s3 : ultimate_struct_t) :
  same_red s1 s2 -> same_red s2 s3 -> same_red s1 s3.
Proof. unfold same_red. intros [] []. split; congruence. Qed.

Lemma search_for_c8k_same_red (s : ultimate_struct_t) :
  same_red s (snd (search_for_c8k_sequence s)).
Proof.
  unfold search_for_c8k_sequence.
  match goal with |- context [for_loop ?n ?f ?b s] =>
    assert (H : match for_loop n f b s with
                | Continue s' => same_red s s' | Return r => same_red s r end) end.
  { repeat (apply for_loop_preserves;
              [intros ? ? ? | first [assumption | apply same_red_refl]]).
    destruct (Bit.bit_has_unique_subsequences _); [|assumption].
    match goal with H : same_red s ?x |- _ => destruct H as [? ?] end.
    destruct (_ && _); split; cbn; assumption. }
  destruct (for_loop _ _ _ s); exact H.
Qed.

Lemma search_for_c4t_same_red (s : ultimate_struct_t) :
  same_red s (snd (search_for_c4t_sequence s)).
Proof.
  unfold search_for_c4t_sequence. cbv zeta.
  match goal with |- context [for_loop ?n ?f ?b s] =>
    assert (H : match for_loop n f b s with
                | Continue s' => same_red s s' | Return r => same_red s r end) end.
  { repeat (apply for_loop_preserves;
              [intros ? ? ? | first [assumption | apply same_red_refl]]).
    match goal with H : same_red s ?x |- _ => destruct H as [? ?] end.
    destruct (Bit.bit_has_unique_subsequences _); split; cbn; assumption. }
  destruct (for_loop _ _ _ s); exact H.
Qed.

Lemma search_inv_same_red (t : search_t) (s : ultimate_struct_t) :
  search_inv t -> same_red (seq_set t) s -> search_inv (with_seq_set t s).
Proof.
  intros (Hr & Hm & Ho) [H1 H2]. unfold search_inv. cbn. rewrite H1, H2. tauto.
Qed.

Lemma search_inv_emit (t : search_t) : search_inv t -> search_inv (emit t).
Proof.
  intros (Hr & Hm & Ho & Hw). unfold search_inv. cbn [emit seq_set output dbn_red_handle].
  split; [exact Hr | split; [exact Hm | split; [|exact Hw]]].
  apply Forall_app. split; [exact Ho | constructor; [exact Hr | constructor]].
Qed.

Lemma c7k_loop_inv (n : nat) (args : ProgramArgument_T) :
  forall t, search_inv t -> search_inv (c7k_loop n args t).
Proof.
  induction n as [|n IH]; intros t Ht; [exact Ht|].
  cbn [c7k_loop]. destruct (f64_next (dbn_c7k_handle t)) as [v h].
  set (t1 := with_seq_set _ _).
  assert (Ht1 : search_inv t1).
  { subst t1. destruct Ht as (Hr & Hm & Ho). unfold search_inv. cbn. tauto. }
  clearbody t1.
  destruct (v =? 0); [exact Ht1|].
  destruct (negb (is_valid_c7k_sequence _)); [apply IH, Ht1|].
  destruct (negb (is_valid_deck_sequence _)); [apply IH, Ht1|].
  set (r8 := if c8k_sequence_flag args then _ else _).
  assert (H8 : same_red (seq_set t1) (snd r8)).
  { subst r8. destruct (c8k_sequence_flag args);
      [apply search_for_c8k_same_red | apply same_red_refl]. }
  destruct r8 as [ok8 s8]. cbn [snd] in H8.
  pose proof (search_inv_same_red _ _ Ht1 H8) as Ht2.
  set (t2 := with_seq_set t1 s8) in *. clearbody t2.
  destruct (negb ok8); [apply IH, Ht2|].
  set (r4 := if c4t_sequence_flag args then _ else _).
  assert (H4 : same_red (seq_set t2) (snd r4)).
  { subst r4. destruct (c4t_sequence_flag args);
      [apply search_for_c4t_same_red | apply same_red_refl]. }
  destruct r4 as [ok4 s4]. cbn [snd] in H4.
  pose proof (search_inv_same_red _ _ Ht2 H4) as Ht3.
  destruct (negb ok4); apply IH; [exact Ht3 | apply search_inv_emit, Ht3].
Qed.

Lemma odd_loop_inv (n : nat) (args : ProgramArgument_T) :
  forall t, search_inv t -> search_inv (odd_loop n args t).
Proof.
  induction n as [|n IH]; intros t Ht; [exact Ht|].
  cbn [odd_loop]. destruct (f64_next (dbn_odd_handle t)) as [v h].
  set (t1 := with_seq_set _ _).
  assert (Ht1 : search_inv t1).
  { subst t1. destruct Ht as (Hr & Hm & Ho). unfold search_inv. cbn. tauto. }
  clearbody t1.
  destruct (v =? 0); [exact Ht1|].
  destruct (negb (is_valid_odd_sequence _)); [apply IH, Ht1|].
  apply IH, c7k_loop_inv.
  destruct Ht1 as (Hr & Hm & Ho). unfold search_inv. cbn. tauto.
Qed.

(** Rebuilding the red sequence from the heart and diamond bits gives the
    red sequence back. *)
Lemma suit_rebuild_red (red cd : Z) :
  0 <= red < 2 ^ 52 ->
  let m := 2 ^ 52 - 1 in
  let inv_red := Z.land (not64 red) m in
  let inv_cd := Z.land (not64 cd) m in
  let spade := Z.land inv_red inv_cd in
  let club := Z.land inv_red cd in
  let heart := Z.land red inv_cd in
  let diamond := Z.land (not64 (Z.lor (Z.lor spade heart) club)) m in
  Z.lor heart diamond = red.
Proof.
  intros Hr. cbv zeta. change (2 ^ 52 - 1) with (Z.ones 52).
  apply Z.bits_inj'. intros n Hn.
  rewrite !Z.lor_spec, !Z.land_spec, Z.testbit_ones_nonneg by lia.
  destruct (Z.ltb_spec n 52) as [Hlt|Hge].
  - rewrite !testbit_not64 by lia.
    rewrite !Z.lor_spec, !Z.land_spec, Z.testbit_ones_nonneg by lia.
    rewrite !testbit_not64 by lia.
    replace (n <? 52) with true by (symmetry; apply Z.ltb_lt; lia).
    destruct (Z.testbit red n), (Z.testbit cd n); reflexivity.
  - rewrite (testbit_above 52 red n) by lia. rewrite !andb_false_r. reflexivity.
Qed.

Lemma make_suit_sequences_same_red (s : ultimate_struct_t) :
  0 <= red_sequence s < 2 ^ 52 -> sequence_mask s = 2 ^ 52 - 1 ->
  same_red s (fst (make_suit_sequences s)).
Proof.
  intros Hr Hm. unfold make_suit_sequences.
  repeat match goal with
         | |- context [if negb ?c then _ else _] =>
             destruct (negb c); [split; reflexivity|]
         end.
  split; [|reflexivity]. cbn. rewrite Hm. apply suit_rebuild_red, Hr.
Qed.

Lemma f64_next_in_range (h : f64_seq_s) :
  words_in_range h ->
  0 <= fst (f64_next h) < 2 ^ 52 /\ words_in_range (snd (f64_next h)).
Proof.
  intros Hw. unfold f64_next. destruct (seq_index h <? count h); cbn [fst snd].
  - split; [|exact Hw]. unfold aget. destruct (seq_index h <? 0); [lia|].
    destruct (nth_in_or_default (Z.to_nat (seq_index h)) (sequence h) 0) as [Hin|Heq];
      [|rewrite Heq; lia].
    unfold words_in_range in Hw. rewrite Forall_forall in Hw.
    apply Hw, list_elem_of_In, Hin.
  - split; [lia | exact Hw].
Qed.

Lemma f64_skip_in_range (n : nat) : forall h, words_in_range h -> words_in_range (f64_skip n h).
Proof.
  induction n as [|n IH]; intros h Hw; [exact Hw|].
  cbn [f64_skip]. apply IH, f64_next_in_range, Hw.
Qed.

Lemma next_red_in_range (fuel : nat) :
  forall h red h', words_in_range h -> next_red fuel h = Some (red, h') ->
    red_admitted red /\ words_in_range h'.
Proof.
  induction fuel as [|fuel IH]; intros h red h' Hw H; [discriminate|].
  cbn [next_red] in H. pose proof (f64_next_in_range h Hw) as [Hv Hw1].
  destruct (f64_next h) as [v h1]. cbn [fst snd] in *.
  destruct (has_long_uniform_subsequence v || (v =? 0)) eqn:Hc.
  - apply (IH _ _ _ Hw1 H).
  - injection H as <- <-. apply orb_false_iff in Hc as [Hc _].
    split; [split; assumption | exact Hw1].
Qed.

Lemma cd_loop_inv (n : nat) (args : ProgramArgument_T) :
  forall t, search_inv t -> search_inv (cd_loop n args t).
Proof.
  induction n as [|n IH]; intros t Ht; [exact Ht|].
  cbn [cd_loop]. destruct (f64_next (dbn_cd_handle t)) as [v h].
  set (t1 := with_seq_set _ _).
  assert (Ht1 : search_inv t1).
  { subst t1. destruct Ht as (Hr & Hm & Ho). unfold search_inv. cbn. tauto. }
  clearbody t1.
  destruct (v =? 0); [exact Ht1|].
  destruct (negb (is_valid_suit_seq_overlap _ _ _)); [apply IH, Ht1|].
  pose proof (make_suit_sequences_same_red (seq_set t1)) as Hs.
  destruct Ht1 as (Hr & Hm & Ho). specialize (Hs (proj1 Hr) Hm).
  destruct (make_suit_sequences (seq_set t1)) as [s found]. cbn [fst] in Hs.
  assert (Ht2 : search_inv (with_seq_set t1 s))
    by (apply search_inv_same_red; [unfold search_inv; tauto | exact Hs]).
  destruct (negb found); [apply IH, Ht2|].
  apply IH, odd_loop_inv.
  destruct Ht2 as (Hr2 & Hm2 & Ho2). unfold search_inv. cbn. tauto.
Qed.

Lemma main_loop_inv (fuel : nat) (args : ProgramArgument_T) :
  forall t,
    words_in_range (dbn_red_handle t) ->
    sequence_mask (seq_set t) = 2 ^ 52 - 1 ->
    all_red_admitted (output t) ->
    all_red_admitted (output (fst (main_loop fuel args t))).
Proof.
  induction fuel as [|fuel IH]; intros t Hw Hm Ho; [exact Ho|].
  cbn [main_loop].
  destruct (next_red (S fuel) _) as [[red h]|] eqn:Hn; [|exact Ho].
  cbn [dbn_red_handle with_seq_set] in Hn.
  destruct (next_red_in_range _ _ _ _ Hw Hn) as [Hred Hw'].
  destruct (red =? 0); [exact Ho|].
  match goal with |- context [cd_loop ?n args ?t0] =>
    assert (Hi : search_inv (cd_loop n args t0))
      by (apply cd_loop_inv; unfold search_inv; cbn; tauto)
  end.
  destruct Hi as (_ & Hm' & Ho' & Hw''). apply IH; assumption.
Qed.

(** C10. Every red (HD) sequence that the compound search writes into a
    candidate block passed the long-uniform-run filter of the main loop: it
    has no cyclic length-6 window of all zeros or all ones. The filter does
    not depend on the program arguments (in particular not on the suitshort
    and valshort flags, which only choose the cache files), and the claim
    holds for any cache of 52-bit words. *)
Theorem emitted_red_has_no_uniform_run (fuel : nat) (args : ProgramArgument_T)
    (files : string -> option (list Z))
    (out : list ultimate_struct_t) (status : run_status) (b : ultimate_struct_t) :
  (forall name words, files name = Some words -> Forall (fun v => 0 <= v < 2 ^ 52) words) ->
  ultimate_search_main fuel args files = Some (out, status) ->
  In b out ->
  has_long_uniform_subsequence (red_sequence b) = false /\ no_uniform_window (red_sequence b).
Proof.
  intros Hfiles Hrun Hb. unfold ultimate_search_main in Hrun.
  destruct (files (dbn_suit_file_name args)) as [sw|] eqn:Hs; [|discriminate].
  destruct (files (dbn_value_file_name args)) as [vw|]; [|discriminate].
  match type of Hrun with context [main_loop fuel args ?t] =>
    pose proof (main_loop_inv fuel args t) as H;
    destruct (main_loop fuel args t) as [t' st] end.
  cbn [fst dbn_red_handle seq_set output] in H. injection Hrun as <- _.
  assert (Hout : all_red_admitted (output t')).
  { apply H.
    - specialize (Hfiles _ _ Hs).
      destruct (0 <? red_start_count args); [apply f64_skip_in_range|]; exact Hfiles.
    - reflexivity.
    - constructor. }
  unfold all_red_admitted in Hout. rewrite Forall_forall in Hout.
  destruct (Hout b (proj2 (list_elem_of_In _ _) Hb)) as [Hr Hu].
  split; [exact Hu | apply has_long_uniform_subsequence_spec; assumption].
Qed.
End EmittedRed.

(** ** The primitive generator *)

Section Generator.

Variable k : Z.
Variable strict : bool.

(** The window at bit offset [i] of a word whose six bits from there on are
    the cyclic bits of [s] from position [p] on. *)
Lemma slid_window_at (s q : Z) (i p : nat) :
  (forall j : nat, (j < 6)%nat ->
     Z.testbit q (Z.of_nat (i + j)) = seq_bit s (p + j)) ->
  Z.land (Z.shiftr q (Z.of_nat i)) 63 = cyclic_window s p.
Proof.
  intros Hq. apply Z.bits_inj'. intros n Hn.
  rewrite testbit_land_63, Z.shiftr_spec by lia.
  rewrite <- (Z2Nat.id n) by lia. set (m := Z.to_nat n).
  unfold cyclic_window. rewrite testbit_bits_to_Z.
  destruct (Nat.lt_ge_cases m 6) as [Hm|Hm].
  - replace (Z.of_nat m <? 6) with true by (symmetry; apply Z.ltb_lt; lia).
    rewrite andb_true_r.
    replace (Z.of_nat m + Z.of_nat i) with (Z.of_nat (i + m)) by lia. rewrite Hq by exact Hm.
    rewrite (nth_indep _ false (seq_bit s (p + 0))) by (rewrite length_map, length_seq; exact Hm).
    rewrite (map_nth (fun j => seq_bit s (p + j)) (seq 0 6) 0%nat).
    rewrite seq_nth by exact Hm. reflexivity.
  - replace (Z.of_nat m <? 6) with false by (symmetry; apply Z.ltb_ge; lia).
    rewrite andb_false_r. symmetry. apply nth_overflow.
    rewrite length_map, length_seq. exact Hm.
Qed.

(** The 47 windows that lie inside a complete value. *)
Lemma inner_windows (v : Z) :
  slid_windows v 47 = map (cyclic_window v) (seq 0 47).
Proof.
  unfold slid_windows. apply map_ext_in. intros i Hi. apply in_seq in Hi.
  apply slid_window_at. intros j Hj. unfold seq_bit.
  rewrite Nat.mod_small by lia. reflexivity.
Qed.

(** The 5 windows that the generator reads off its wrapped word. *)
Lemma wrap_windows (v : Z) :
  0 <= v < 2 ^ 52 ->
  slid_windows (Z.lor (u64 (Z.shiftl v 5)) (Z.shiftr v 47)) 5
  = map (cyclic_window v) (seq 47 5).
Proof.
  intros Hv. unfold slid_windows.
  change (seq 47 5) with (map (fun i => (47 + i)%nat) (seq 0 5)).
  rewrite map_map.
  apply map_ext_in. intros i Hi. apply in_seq in Hi.
  apply slid_window_at. intros j Hj. unfold seq_bit.
  rewrite Z.lor_spec, testbit_u64 by lia.
  rewrite Z.shiftl_spec, Z.shiftr_spec by lia.
  destruct (Nat.lt_ge_cases (i + j) 5) as [Hlt|Hge].
  - rewrite (Z.testbit_neg_r _ (Z.of_nat (i + j) - 5)) by lia. cbn [orb].
    rewrite Nat.mod_small by lia. f_equal. lia.
  - rewrite (testbit_above 52 v (Z.of_nat (i + j) + 47)) by lia. rewrite orb_false_r.
    f_equal. rewrite nat_mod_52.
    apply Z.mod_unique with (q := 1); lia.
Qed.

Lemma windows_distinct_split (v : Z) :
  windows_distinct v <->
  NoDup (map (cyclic_window v) (seq 0 47) ++ map (cyclic_window v) (seq 47 5)).
Proof.
  unfold windows_distinct. rewrite <- NoDup_map_seq_pairwise.
  rewrite <- map_app, <- seq_app. reflexivity.
Qed.

Lemma store_marks_cons (store w : Z) (ws : list Z) :
  0 <= w -> store_marks store ws -> store_marks (Z.lor store (2 ^ w)) (w :: ws).
Proof.
  intros Hw Hs n Hn. rewrite testbit_lor_pow2, orb_true_iff, elem_of_cons by lia.
  rewrite (Hs n Hn), Z.eqb_eq. split; intros [H|H]; auto.
Qed.

Lemma pow2_eqb (a b : Z) : 0 <= a -> 0 <= b -> (2 ^ a =? 2 ^ b) = (a =? b).
Proof.
  intros Ha Hb. destruct (Z.eqb_spec a b) as [->|Hne]; [apply Z.eqb_refl|].
  apply Z.eqb_neq. intros H. apply Hne. apply (Z.pow_inj_r 2); lia.
Qed.

(** One test of a sub-sequence: the presence vector gains the code, and the
    flag says whether the code was new (and, when required, not uniform). *)
Lemma test_subsequence_spec (d : Dbn.dbn_de_bruijn_s) (word store : Z) (ws : list Z) :
  dbn_ok k strict d -> store_marks store ws ->
  let w := Z.land word 63 in
  let r := Dbn.test_subsequence d word store in
  store_marks (snd r) (w :: ws) /\
  (fst r = true <-> (w ∉ ws) /\ (strict = true -> w <> 0 /\ w <> 63)).
Proof.
  intros (_ & _ & Hmask & Hz & Ho & _ & Hst & _) Hs. cbv zeta.
  unfold Dbn.test_subsequence. rewrite Hmask, Hz, Ho, Hst.
  pose proof (land_63_range word) as Hr. set (w := Z.land word 63) in *.
  rewrite one_bit_u64, land_pow2_eqb by lia. cbn [fst snd].
  split; [apply store_marks_cons; [lia | exact Hs]|].
  change 1 with (2 ^ 0) at 1. rewrite !pow2_eqb by lia.
  assert (Hin : Z.testbit store w = true <-> w ∈ ws) by (apply Hs; lia).
  destruct (Z.testbit store w); cbn [negb].
  - rewrite andb_false_r. split; [discriminate|]. intros [Hn _]. exfalso. apply Hn, Hin. reflexivity.
  - rewrite andb_true_r. destruct strict.
    + rewrite andb_true_iff, !negb_true_iff, !Z.eqb_neq. split.
      * intros [H0 H63]. split; [|intros _; split; assumption].
        intros Hc. apply Hin in Hc. discriminate.
      * intros [_ H]. destruct (H eq_refl). split; assumption.
    + split; [|reflexivity]. intros _. split; [|discriminate].
      intros Hc. apply Hin in Hc. discriminate.
Qed.

Lemma wrap_loop_false (n : nat) (d : Dbn.dbn_de_bruijn_s) (temp store : Z) :
  Dbn.wrap_loop n d false temp store = false.
Proof. destruct n; reflexivity. Qed.

Lemma wrap_loop_spec (d : Dbn.dbn_de_bruijn_s) (n : nat) :
  dbn_ok k strict d ->
  forall temp store ws, store_marks store ws ->
    (Dbn.wrap_loop n d true temp store = true <->
     NoDup (slid_windows temp n) /\
     (forall w, w ∈ slid_windows temp n -> w ∉ ws) /\
     not_uniform strict (slid_windows temp n)).
Proof.
  intros Hd. induction n as [|n IH]; intros temp store ws Hs.
  - simpl. split; [|reflexivity]. intros _.
    split; [constructor | split; [intros w Hw; inversion Hw | intros _ w Hw; inversion Hw]].
  - rewrite slid_windows_succ. cbn [Dbn.wrap_loop].
    pose proof (test_subsequence_spec d temp store ws Hd Hs) as [Hs' Hf]. cbv zeta in Hs', Hf.
    destruct (Dbn.test_subsequence d temp store) as [flag store']. cbn [fst snd] in *.
    set (w0 := Z.land temp 63) in *. rewrite NoDup_cons. unfold not_uniform.
    destruct flag.
    + destruct (proj1 Hf eq_refl) as [Hnew Hu]. rewrite (IH _ _ _ Hs'). split.
      * intros (Hnd & Hfresh & Hnu). split; [split; [|exact Hnd]|split].
        -- intros Hin. apply (Hfresh _ Hin). apply elem_of_cons. left. reflexivity.
        -- intros w Hw. apply elem_of_cons in Hw as [->|Hw]; [exact Hnew|].
           intros Hc. apply (Hfresh _ Hw). apply elem_of_cons. right. exact Hc.
        -- intros Hst w Hw. apply elem_of_cons in Hw as [->|Hw]; [apply Hu, Hst|].
           apply (Hnu Hst), Hw.
      * intros ((Hnotin & Hnd) & Hfresh & Hnu). split; [exact Hnd | split].
        -- intros w Hw Hc. apply elem_of_cons in Hc as [->|Hc]; [contradiction|].
           apply (Hfresh w); [apply elem_of_cons; right; exact Hw | exact Hc].
        -- intros Hst w Hw. apply (Hnu Hst), elem_of_cons. right. exact Hw.
    + rewrite wrap_loop_false. split; [discriminate|].
      intros (_ & Hfresh & Hnu). apply Hf. split.
      * apply Hfresh, elem_of_cons. left. reflexivity.
      * intros Hst. apply (Hnu Hst), elem_of_cons. left. reflexivity.
Qed.

Lemma next_value (v b L : Z) :
  0 <= L < 52 -> 0 <= v < 2 ^ L -> b = 0 \/ b = 1 ->
  u64 (u64 (Z.shiftl v 1) + b) = 2 * v + b /\
  0 <= 2 * v + b < 2 ^ (L + 1) /\
  Z.shiftr (2 * v + b) 1 = v.
Proof.
  intros HL Hv Hb.
  assert (H51 : 2 ^ L <= 2 ^ 51) by (apply Z.pow_le_mono_r; lia).
  change (2 ^ 51) with 2251799813685248 in H51.
  rewrite Z.shiftl_mul_pow2 by lia. change (2 ^ 1) with 2.
  unfold u64. change (2 ^ 64) with 18446744073709551616.
  rewrite (Z.mod_small (v * 2)) by lia. rewrite Z.mod_small by lia.
  rewrite Z.pow_add_r by lia. change (2 ^ 1) with 2.
  split; [lia | split; [lia|]].
  rewrite Z.shiftr_div_pow2 by lia. change (2 ^ 1) with 2.
  symmetry. apply Z.div_unique with (r := b); lia.
Qed.

Lemma popcount_next (v b L : Z) :
  0 <= L -> b = 0 \/ b = 1 ->
  popcount (Z.to_nat (L + 1)) (2 * v + b) = popcount (Z.to_nat L) v + b.
Proof.
  intros HL Hb. replace (Z.to_nat (L + 1)) with (S (Z.to_nat L)) by lia.
  destruct Hb as [-> | ->].
  - rewrite (popcount_succ _ v false). simpl Z.b2z. lia.
  - rewrite (popcount_succ _ v true). simpl Z.b2z. lia.
Qed.

(** The move pushed for the next bit [b] describes the extended value. *)
Lemma child_ok (d : Dbn.dbn_de_bruijn_s) (m : Dbn.dbn_move_t) (flag : bool) (store b : Z) :
  dbn_ok k strict d ->
  0 <= Dbn.length m < 52 ->
  0 <= Dbn.value m < 2 ^ Dbn.length m ->
  Dbn.bit m = 0 \/ Dbn.bit m = 1 ->
  Dbn.set_bit_count m = popcount (Z.to_nat (Dbn.length m)) (Dbn.value m) ->
  store_marks (Dbn.subseq_bit_store m) (prefix_windows m) ->
  NoDup (prefix_windows m) ->
  not_uniform strict (prefix_windows m) ->
  (if 6 <=? Dbn.length m + 1
   then Dbn.test_subsequence d (2 * Dbn.value m + Dbn.bit m) (Dbn.subseq_bit_store m)
   else (true, Dbn.subseq_bit_store m)) = (flag, store) ->
  flag = true ->
  b = 0 \/ b = 1 ->
  let m' := {| Dbn.subseq_bit_store := store;
               Dbn.value := 2 * Dbn.value m + Dbn.bit m;
               Dbn.length := Dbn.length m + 1;
               Dbn.set_bit_count := Dbn.set_bit_count m + Dbn.bit m;
               Dbn.bit := b |} in
  0 <= Dbn.value m' < 2 ^ Dbn.length m' /\
  Dbn.set_bit_count m' = popcount (Z.to_nat (Dbn.length m')) (Dbn.value m') /\
  store_marks store (prefix_windows m') /\
  NoDup (prefix_windows m') /\
  not_uniform strict (prefix_windows m').
Proof.
  intros Hd HL Hv Hbit Hcnt Hst Hnd Hnu Htest Hflag Hb. cbv zeta. cbn [Dbn.value Dbn.length Dbn.set_bit_count].
  destruct (next_value _ _ _ HL Hv Hbit) as (_ & Hv' & Hshr).
  split; [exact Hv' | split; [rewrite popcount_next by lia; lia|]].
  unfold prefix_windows in *. cbn [Dbn.value Dbn.length].
  destruct (Z.leb_spec 6 (Dbn.length m + 1)) as [H6|H6].
  - replace (Z.to_nat (Dbn.length m + 1 - 5)) with (S (Z.to_nat (Dbn.length m - 5))) by lia.
    rewrite slid_windows_succ, Hshr.
    pose proof (test_subsequence_spec d (2 * Dbn.value m + Dbn.bit m) _ _ Hd Hst) as [Hs' Hf].
    cbv zeta in Hs', Hf. rewrite Htest in Hs', Hf. cbn [fst snd] in Hs', Hf.
    destruct (proj1 Hf Hflag) as [Hnew Hu].
    split; [exact Hs' | split; [apply NoDup_cons; split; assumption|]].
    intros Hstrict w Hw. apply elem_of_cons in Hw as [->|Hw]; [apply Hu, Hstrict|].
    apply (Hnu Hstrict), Hw.
  - injection Htest as _ <-.
    replace (Z.to_nat (Dbn.length m + 1 - 5)) with 0%nat by lia.
    replace (Z.to_nat (Dbn.length m - 5)) with 0%nat in * by lia.
    split; [exact Hst | split; [exact Hnd | exact Hnu]].
Qed.

Lemma dbn_ok_set_stack (d : Dbn.dbn_de_bruijn_s) (stack : list Dbn.dbn_move_t) :
  dbn_ok k strict d -> Forall (move_ok strict) stack -> dbn_ok k strict (Dbn.set_stack d stack).
Proof. intros (?&?&?&?&?&?&?&_) Hs. unfold dbn_ok. cbn. tauto. Qed.

(** One round of the search keeps the stack faithful, and what it emits is
    a primitive as promised. *)
Lemma dbn_step_ok (d : Dbn.dbn_de_bruijn_s) (m : Dbn.dbn_move_t) (rest : list Dbn.dbn_move_t) :
  dbn_ok k strict d -> Dbn.bit_obj_stack d = m :: rest ->
  match Dbn.dbn_step d m rest with
  | Dbn.Emitted v d' => primitive_ok k strict v /\ dbn_ok k strict d'
  | Dbn.Stepped d' => dbn_ok k strict d'
  end.
Proof.
  intros Hd Hstack.
  assert (Hall : Forall (move_ok strict) (m :: rest))
    by (rewrite <- Hstack; apply Hd).
  apply Forall_cons in Hall as [Hm Hrest].
  pose proof (dbn_ok_set_stack d rest Hd Hrest) as Hd'.
  destruct Hd as (Hn & Hsub & Hmask & Hz & Ho & Hk & Hst & _).
  unfold Dbn.dbn_step.
  set (d' := Dbn.set_stack d rest) in *.
  replace (Dbn.n_one_bits d') with k by (symmetry; apply Hd').
  replace (Dbn.n_sub_sequence_bit_count d') with 6 by (symmetry; apply Hd').
  replace (Dbn.n_bits_max d') with 52 by (symmetry; apply Hd').
  destruct (negb (k =? 0) && (k <? Dbn.set_bit_count m + Dbn.bit m)); [exact Hd'|].
  destruct Hm as [Hlong | (HL & Hv & Hbit & Hcnt & Hsm & Hnd & Hnu)].
  - (* a move past the length of a sequence is never completed *)
    destruct (if 6 <=? Dbn.length m + 1 then _ else _) as [flag store'].
    destruct (negb flag); [exact Hd'|].
    replace (Dbn.length m + 1 =? 52) with false by (symmetry; apply Z.eqb_neq; lia).
    cbn [andb]. apply dbn_ok_set_stack; [exact Hd'|].
    repeat (apply Forall_cons; split; [left; cbn; lia|]). exact Hrest.
  - destruct (next_value _ _ _ HL Hv Hbit) as (Hval & Hv' & _). rewrite Hval.
    destruct (if 6 <=? Dbn.length m + 1 then _ else _) as [flag store'] eqn:Htest.
    destruct flag; cbn [negb]; [|exact Hd'].
    pose proof (fun b Hb => child_ok d' m true store' b Hd' HL Hv Hbit Hcnt Hsm Hnd Hnu
                              Htest eq_refl Hb) as Hchild.
    cbv zeta in Hchild. cbn [Dbn.value Dbn.length Dbn.set_bit_count] in Hchild.
    destruct ((Dbn.length m + 1 =? 52) && _) eqn:Hc.
    + (* the sequence is complete: the wrapped sub-sequences decide *)
      apply andb_true_iff in Hc as [HL52 Hpop]. apply Z.eqb_eq in HL52.
      destruct (Hchild 0 (or_introl eq_refl)) as (_ & Hcnt' & Hsm' & Hnd' & Hnu').
      unfold prefix_windows in Hsm', Hnd', Hnu'. cbn [Dbn.value Dbn.length] in Hsm', Hnd', Hnu'.
      rewrite HL52 in *. change (Z.to_nat (52 - 5)) with 47%nat in *.
      change (6 - 1) with 5. change (52 - 5) with 47. change (Z.to_nat 5) with 5%nat.
      set (v := 2 * Dbn.value m + Dbn.bit m) in *.
      pose proof (wrap_loop_spec d' 5 Hd' (Z.lor (u64 (Z.shiftl v 5)) (Z.shiftr v 47))
                    store' _ Hsm') as Hw.
      destruct (Dbn.wrap_loop 5 d' true _ store'); [|exact Hd'].
      destruct (proj1 Hw eq_refl) as (Hwnd & Hwfresh & Hwnu).
      rewrite wrap_windows in Hwnd, Hwfresh, Hwnu by exact Hv'.
      rewrite inner_windows in Hnd', Hnu', Hwfresh.
      split; [|exact Hd']. split; [exact Hv' | split; [|split]].
      * apply windows_distinct_split, NoDup_app.
        split; [exact Hnd' | split; [|exact Hwnd]].
        intros w Hin Hin'. apply (Hwfresh w Hin' Hin).
      * intros Hk0. change 52%nat with (Z.to_nat 52). rewrite <- Hcnt'.
        apply orb_true_iff in Hpop as [Hp|Hp]; [apply Z.eqb_eq in Hp; contradiction|].
        apply Z.eqb_eq in Hp. exact Hp.
      * intros Hstrict i Hi.
        destruct (Nat.lt_ge_cases i 47) as [Hlt|Hge].
        -- apply (Hnu' Hstrict), list_elem_of_In, in_map, in_seq. lia.
        -- apply (Hwnu Hstrict), list_elem_of_In, in_map, in_seq. lia.
    + (* both continuations are pushed *)
      apply dbn_ok_set_stack; [exact Hd'|].
      assert (Hpush : forall b, b = 0 \/ b = 1 ->
                move_ok strict
                  {| Dbn.subseq_bit_store := store';
                     Dbn.value := 2 * Dbn.value m + Dbn.bit m;
                     Dbn.length := Dbn.length m + 1;
                     Dbn.set_bit_count := Dbn.set_bit_count m + Dbn.bit m;
                     Dbn.bit := b |}).
      { intros b Hb. destruct (Z.le_gt_cases 52 (Dbn.length m + 1)) as [Hge|Hlt].
        - left. exact Hge.
        - right. cbn [Dbn.value Dbn.length Dbn.set_bit_count Dbn.bit Dbn.subseq_bit_store].
          destruct (Hchild b Hb) as (H1 & H2 & H3 & H4 & H5).
          split; [lia | split; [exact H1 | split; [exact Hb | split; [exact H2|]]]].
          split; [exact H3 | split; [exact H4 | exact H5]]. }
      apply Forall_cons; split; [|apply Forall_cons; split; [|exact Hrest]];
        apply Hpush; destruct (Dbn.length m + 1 <? 6); lia.
Qed.

Lemma dbn_next_ok (fuel : nat) :
  forall d v d', dbn_ok k strict d -> Dbn.dbn_next fuel d = Some (v, d') ->
    dbn_ok k strict d' /\ (v <> 0 -> primitive_ok k strict v).
Proof.
  induction fuel as [|fuel IH]; intros d v d' Hd Hn.
  - cbn [Dbn.dbn_next] in Hn. destruct (Dbn.bit_obj_stack d); [|discriminate].
    injection Hn as <- <-. split; [exact Hd | intros H; contradiction].
  - cbn [Dbn.dbn_next] in Hn. destruct (Dbn.bit_obj_stack d) as [|m rest] eqn:Hs.
    + injection Hn as <- <-. split; [exact Hd | intros H; contradiction].
    + pose proof (dbn_step_ok d m rest Hd Hs) as Hstep.
      destruct (Dbn.dbn_step d m rest) as [r d1|d1].
      * injection Hn as <- <-. destruct Hstep. split; [assumption | intros _; assumption].
      * apply (IH _ _ _ Hstep Hn).
Qed.

Lemma initial_move_ok (b : Z) :
  b = 0 \/ b = 1 ->
  move_ok strict
    {| Dbn.subseq_bit_store := 0; Dbn.value := 0; Dbn.length := 0;
       Dbn.set_bit_count := 0; Dbn.bit := b |}.
Proof.
  intros Hb. right. unfold prefix_windows. cbn [Dbn.value Dbn.length Dbn.set_bit_count
    Dbn.bit Dbn.subseq_bit_store].
  change (Z.to_nat (0 - 5)) with 0%nat. change (slid_windows 0 0) with (@nil Z).
  split; [lia | split; [cbn; lia | split; [exact Hb | split; [reflexivity|]]]].
  split; [|split; [constructor | intros _ w Hc; inversion Hc]].
  intros w Hw. rewrite Z.bits_0. split; [discriminate | intros Hc; inversion Hc].
Qed.

Lemma dbn_make_ok (d : Dbn.dbn_de_bruijn_s) :
  Dbn.dbn_make 52 k strict = Some d -> dbn_ok k strict d.
Proof.
  unfold Dbn.dbn_make. change (64 <? 52) with false. cbv iota.
  change (Dbn.dbn_get_log_base_2_rounded_up 52) with 6.
  intros H. injection H as <-. unfold dbn_ok.
  cbn [Dbn.dbn_reset Dbn.set_stack Dbn.n_bits_max Dbn.n_sub_sequence_bit_count
       Dbn.subseq_mask Dbn.all_subseq_bits_are_zeros_bit Dbn.all_subseq_bits_are_ones_bit
       Dbn.n_one_bits Dbn.subseq_not_all_the_same_bits Dbn.bit_obj_stack].
  repeat (split; [reflexivity|]).
  apply Forall_cons; split; [apply initial_move_ok; left; reflexivity|].
  apply Forall_cons; split; [apply initial_move_ok; right; reflexivity|].
  apply Forall_nil. exact I.
Qed.

Lemma after_calls_ok (d0 d : Dbn.dbn_de_bruijn_s) :
  dbn_ok k strict d0 -> Dbn.after_calls d0 d -> dbn_ok k strict d.
Proof.
  intros H0 Hc. induction Hc as [|d fuel r d' _ IH Hn]; [exact H0|].
  apply (dbn_next_ok _ _ _ _ IH Hn).
Qed.
End Generator.

(** *** Every bracelet-valid sequence is reached when no population is asked *)

Section Completeness.

Variable strict : bool.
Variable v : Z.
Hypothesis v_range : 0 <= v < 2 ^ 52.
Hypothesis v_distinct : windows_distinct v.
Hypothesis v_not_uniform : strict = true -> no_uniform_window v.

(** The window read at bit offset [i] of [v], for an offset inside [v]. *)
Lemma inner_window (i : nat) :
  (i <= 46)%nat -> Z.land (Z.shiftr v (Z.of_nat i)) 63 = cyclic_window v i.
Proof.
  intros Hi. apply slid_window_at. intros j Hj. unfold seq_bit.
  rewrite Nat.mod_small by lia. reflexivity.
Qed.

Lemma prefix_windows_of_cover (m : Dbn.dbn_move_t) (w : Z) :
  0 <= Dbn.length m < 52 ->
  Dbn.value m = Z.shiftr v (52 - Dbn.length m) ->
  w ∈ prefix_windows m ->
  exists i : nat, (Z.to_nat (52 - Dbn.length m) <= i <= 46)%nat /\ w = cyclic_window v i.
Proof.
  intros HL Hval Hw. unfold prefix_windows, slid_windows in Hw.
  apply list_elem_of_In, in_map_iff in Hw as (j & <- & Hj). apply in_seq in Hj.
  exists (Z.to_nat (52 - Dbn.length m) + j)%nat. split; [lia|].
  rewrite <- inner_window by lia. rewrite Hval, Z.shiftr_shiftr by lia.
  do 2 f_equal. lia.
Qed.

Lemma shiftr_step (n : Z) :
  0 <= n ->
  Z.shiftr v n = 2 * Z.shiftr v (n + 1) + Z.b2z (Z.testbit v n).
Proof.
  intros Hn. rewrite (Z.testbit_spec' v n) by lia.
  rewrite !Z.shiftr_div_pow2 by lia.
  rewrite Z.pow_add_r by lia. change (2 ^ 1) with 2.
  rewrite <- Z.div_div by lia.
  pose proof (Z.div_mod (v / 2 ^ n) 2 ltac:(lia)) as H. lia.
Qed.

Lemma covers_value (m : Dbn.dbn_move_t) :
  0 <= Dbn.length m < 52 -> Dbn.bit m = 0 \/ Dbn.bit m = 1 ->
  covers m v -> Dbn.value m = Z.shiftr v (52 - Dbn.length m).
Proof.
  unfold covers. intros HL Hb Hc.
  rewrite (shiftr_step (51 - Dbn.length m)) in Hc by lia.
  replace (51 - Dbn.length m + 1) with (52 - Dbn.length m) in Hc by lia.
  destruct (Z.testbit v (51 - Dbn.length m)); simpl Z.b2z in Hc; lia.
Qed.

Lemma move_weight_pos (m : Dbn.dbn_move_t) : 0 <= Dbn.length m < 52 -> 1 <= move_weight m.
Proof.
  intros HL. unfold move_weight.
  assert (2 ^ 1 <= 2 ^ (52 - Dbn.length m)) by (apply Z.pow_le_mono_r; lia).
  change (2 ^ 1) with 2 in *. lia.
Qed.

Lemma stack_weight_nonneg (stack : list Dbn.dbn_move_t) :
  Forall (fun m => 0 <= Dbn.length m < 52) stack -> 0 <= stack_weight stack.
Proof.
  induction stack as [|m rest IH]; intros H; cbn [stack_weight]; [lia|].
  apply Forall_cons in H as [Hm Hrest]. pose proof (move_weight_pos m Hm).
  specialize (IH Hrest). lia.
Qed.

(** One round, seen from a sequence [v] that is still to come. *)
Lemma dbn_step_complete (d : Dbn.dbn_de_bruijn_s) (m : Dbn.dbn_move_t)
    (rest : list Dbn.dbn_move_t) :
  dbn_ok 0 strict d -> short_stack d -> Dbn.bit_obj_stack d = m :: rest ->
  match Dbn.dbn_step d m rest with
  | Dbn.Emitted x d' =>
      Dbn.bit_obj_stack d' = rest /\ (covers m v -> x = v)
  | Dbn.Stepped d' =>
      short_stack d' /\
      stack_weight (Dbn.bit_obj_stack d') < stack_weight (m :: rest) /\
      (forall c, c ∈ rest -> c ∈ Dbn.bit_obj_stack d') /\
      (covers m v -> exists c, c ∈ Dbn.bit_obj_stack d' /\ covers c v)
  end.
Proof.
  intros Hd Hshort Hstack.
  assert (Hall : Forall (move_ok strict) (m :: rest)) by (rewrite <- Hstack; apply Hd).
  apply Forall_cons in Hall as [Hm Hrest].
  unfold short_stack in Hshort. rewrite Hstack in Hshort.
  apply Forall_cons in Hshort as [HL Hshort].
  pose proof (dbn_ok_set_stack 0 strict d rest Hd Hrest) as Hd'.
  pose proof (move_weight_pos m HL) as Hpos.
  destruct Hm as [Hlong | (_ & Hv & Hbit & Hcnt & Hsm & Hnd & Hnu)]; [lia|].
  unfold Dbn.dbn_step.
  set (d' := Dbn.set_stack d rest) in *.
  replace (Dbn.n_one_bits d') with 0 by (symmetry; apply Hd').
  replace (Dbn.n_sub_sequence_bit_count d') with 6 by (symmetry; apply Hd').
  replace (Dbn.n_bits_max d') with 52 by (symmetry; apply Hd').
  change (negb (0 =? 0) && _) with false. cbv iota.
  destruct (next_value _ _ _ HL Hv Hbit) as (Hval & Hv' & Hshr). rewrite Hval.
  set (v' := 2 * Dbn.value m + Dbn.bit m) in *.
  assert (Hrest_case : short_stack d' /\
            stack_weight (Dbn.bit_obj_stack d') < stack_weight (m :: rest) /\
            (forall c, c ∈ rest -> c ∈ Dbn.bit_obj_stack d')).
  { subst d'. unfold short_stack. cbn [Dbn.set_stack Dbn.bit_obj_stack stack_weight].
    split; [exact Hshort | split; [lia | auto]]. }
  destruct (if 6 <=? Dbn.length m + 1 then _ else _) as [flag store'] eqn:Htest.
  assert (Hflag : covers m v -> flag = true).
  { intros Hc. destruct (Z.leb_spec 6 (Dbn.length m + 1)) as [H6|H6];
      [|injection Htest as <- _; reflexivity].
    pose proof (test_subsequence_spec 0 strict d' v' _ _ Hd' Hsm) as [_ Hf].
    cbv zeta in Hf. rewrite Htest in Hf. cbn [fst] in Hf. apply Hf.
    unfold covers in Hc. fold v' in Hc. rewrite <- Hc.
    replace (51 - Dbn.length m) with (Z.of_nat (Z.to_nat (51 - Dbn.length m))) by lia.
    rewrite inner_window by lia. split.
    - intros Hin.
      destruct (prefix_windows_of_cover m _ HL (covers_value m HL Hbit Hc) Hin)
        as (i & Hi & Heq).
      apply (v_distinct (Z.to_nat (51 - Dbn.length m)) i); [lia | lia | lia | exact Heq].
    - intros Hs. apply (v_not_uniform Hs). lia. }
  destruct flag; cbn [negb].
  2:{ destruct Hrest_case as (H1 & H2 & H3). split; [exact H1 | split; [exact H2 | split; [exact H3|]]].
      intros Hc. specialize (Hflag Hc). discriminate. }
  pose proof (fun b Hb => child_ok 0 strict d' m true store' b Hd' HL Hv Hbit Hcnt Hsm Hnd Hnu
                            Htest eq_refl Hb) as Hchild.
  cbv zeta in Hchild. cbn [Dbn.value Dbn.length Dbn.set_bit_count] in Hchild. fold v' in Hchild.
  change ((0 =? 0) || _) with true. rewrite andb_true_r.
  destruct (Z.eqb_spec (Dbn.length m + 1) 52) as [HL52|HL52].
  - (* complete *)
    destruct (Hchild 0 (or_introl eq_refl)) as (_ & _ & Hsm' & _ & _).
    unfold prefix_windows in Hsm'. cbn [Dbn.value Dbn.length] in Hsm'.
    rewrite HL52 in Hsm'. change (Z.to_nat (52 - 5)) with 47%nat in Hsm'.
    change (6 - 1) with 5. change (52 - 5) with 47. change (Z.to_nat 5) with 5%nat.
    pose proof (wrap_loop_spec 0 strict d' 5 Hd' (Z.lor (u64 (Z.shiftl v' 5)) (Z.shiftr v' 47))
                  store' _ Hsm') as Hw.
    assert (Hcv : covers m v -> v' = v).
    { unfold covers. fold v'. intros <-. replace (51 - Dbn.length m) with 0 by lia.
      symmetry. apply Z.shiftr_0_r. }
    destruct (Dbn.wrap_loop 5 d' true _ store').
    + split; [reflexivity | exact Hcv].
    + destruct Hrest_case as (H1 & H2 & H3).
      split; [exact H1 | split; [exact H2 | split; [exact H3|]]].
      intros Hc. exfalso. specialize (Hcv Hc). rewrite Hcv in Hw.
      assert (Hgoal : false = true); [|discriminate]. apply Hw.
      rewrite wrap_windows, inner_windows by exact v_range.
      apply windows_distinct_split, NoDup_app in v_distinct as (Hn1 & Hdisj & Hn2).
      split; [exact Hn2 | split].
      * intros w Hin Hin'. apply (Hdisj w Hin' Hin).
      * intros Hs w Hin. apply list_elem_of_In, in_map_iff in Hin as (i & <- & Hi).
        apply in_seq in Hi. apply (v_not_uniform Hs). lia.
  - (* both continuations are pushed *)
    assert (Hlt : Dbn.length m + 1 < 52) by lia.
    split; [|split; [|split]].
    + unfold short_stack. cbn [Dbn.set_stack Dbn.bit_obj_stack].
      repeat (apply Forall_cons; split; [cbn [Dbn.length]; lia|]). exact Hshort.
    + cbn [Dbn.set_stack Dbn.bit_obj_stack stack_weight]. unfold move_weight. cbn [Dbn.length].
      replace (52 - Dbn.length m) with (52 - (Dbn.length m + 1) + 1) by lia.
      rewrite (Z.pow_add_r 2 (52 - (Dbn.length m + 1)) 1) by lia. change (2 ^ 1) with 2.
      lia.
    + intros c Hc. cbn [Dbn.set_stack Dbn.bit_obj_stack].
      apply elem_of_cons. right. apply elem_of_cons. right. exact Hc.
    + intros Hc. unfold covers in Hc. fold v' in Hc.
      pose proof (shiftr_step (50 - Dbn.length m) ltac:(lia)) as Hs.
      replace (50 - Dbn.length m + 1) with (51 - Dbn.length m) in Hs by lia. rewrite Hc in Hs.
      cbn [Dbn.set_stack Dbn.bit_obj_stack].
      set (b0 := if Dbn.length m + 1 <? 6 then 1 else 0).
      assert (Hb0 : b0 = 0 \/ b0 = 1) by (subst b0; destruct (_ <? _); lia).
      destruct (Z.eq_dec (Z.b2z (Z.testbit v (50 - Dbn.length m))) b0) as [He|He].
      * eexists. split; [apply elem_of_cons; right; apply elem_of_cons; left; reflexivity|].
        unfold covers. cbn [Dbn.value Dbn.length Dbn.bit].
        replace (51 - (Dbn.length m + 1)) with (50 - Dbn.length m) by lia. lia.
      * eexists. split; [apply elem_of_cons; left; reflexivity|].
        unfold covers. cbn [Dbn.value Dbn.length Dbn.bit].
        replace (51 - (Dbn.length m + 1)) with (50 - Dbn.length m) by lia.
        destruct (Z.testbit v (50 - Dbn.length m)); simpl Z.b2z in *; lia.
Qed.

Lemma after_calls_trans (a b c : Dbn.dbn_de_bruijn_s) :
  Dbn.after_calls a b -> Dbn.after_calls b c -> Dbn.after_calls a c.
Proof.
  intros Hab Hbc. induction Hbc as [|d fuel r d' _ IH Hn]; [exact Hab|].
  apply (Dbn.after_call a d fuel r d' IH Hn).
Qed.

Lemma dbn_next_after_step (d d' : Dbn.dbn_de_bruijn_s) (m : Dbn.dbn_move_t)
    (rest : list Dbn.dbn_move_t) (fuel : nat) :
  Dbn.bit_obj_stack d = m :: rest -> Dbn.dbn_step d m rest = Dbn.Stepped d' ->
  Dbn.dbn_next (S fuel) d = Dbn.dbn_next fuel d'.
Proof. intros Hs Hstep. cbn [Dbn.dbn_next]. rewrite Hs, Hstep. reflexivity. Qed.

Lemma after_calls_after_step (d d' d1 : Dbn.dbn_de_bruijn_s) (m : Dbn.dbn_move_t)
    (rest : list Dbn.dbn_move_t) :
  Dbn.bit_obj_stack d = m :: rest -> Dbn.dbn_step d m rest = Dbn.Stepped d' ->
  Dbn.after_calls d' d1 -> d1 = d' \/ Dbn.after_calls d d1.
Proof.
  intros Hs Hstep Hc. induction Hc as [|dm fuel r d1 _ IH Hn]; [left; reflexivity|].
  right. destruct IH as [-> | IH].
  - apply (Dbn.after_call d d (S fuel) r d1 (Dbn.after_none d)).
    rewrite (dbn_next_after_step d d' m rest fuel Hs Hstep). exact Hn.
  - apply (Dbn.after_call d dm fuel r d1 IH Hn).
Qed.

(** From a stack that still covers [v], some later call returns [v]. *)
Lemma dbn_reaches (n : nat) :
  forall d,
    stack_weight (Dbn.bit_obj_stack d) < Z.of_nat n ->
    dbn_ok 0 strict d -> short_stack d ->
    (exists c, c ∈ Dbn.bit_obj_stack d /\ covers c v) ->
    exists d1 fuel d2, Dbn.after_calls d d1 /\ Dbn.dbn_next fuel d1 = Some (v, d2).
Proof.
  induction n as [|n IH]; intros d Hw Hd Hshort (c & Hin & Hcov).
  - pose proof (stack_weight_nonneg _ Hshort). lia.
  - destruct (Dbn.bit_obj_stack d) as [|m rest] eqn:Hs; [inversion Hin|].
    pose proof (dbn_step_ok 0 strict d m rest Hd Hs) as Hok.
    pose proof (dbn_step_complete d m rest Hd Hshort Hs) as Hcomp.
    assert (Hshort' : Forall (fun m => 0 <= Dbn.length m < 52) (m :: rest))
      by (rewrite <- Hs; exact Hshort).
    apply Forall_cons in Hshort' as [HLm Hshort_rest].
    destruct (Dbn.dbn_step d m rest) as [x d'|d'] eqn:Hstep.
    + destruct Hok as [_ Hd'], Hcomp as [Hrest Hx].
      assert (Hcall : Dbn.dbn_next 1 d = Some (x, d'))
        by (cbn [Dbn.dbn_next]; rewrite Hs, Hstep; reflexivity).
      destruct (Z.eq_dec x v) as [->|Hne].
      * exists d, 1%nat, d'. split; [constructor | exact Hcall].
      * assert (Hin' : c ∈ rest).
        { apply elem_of_cons in Hin as [->|Hin]; [|exact Hin]. elim Hne. apply Hx, Hcov. }
        destruct (IH d') as (d1 & fuel & d2 & Hc1 & Hn1).
        -- rewrite Hrest. cbn [stack_weight] in Hw. pose proof (move_weight_pos m HLm). lia.
        -- exact Hd'.
        -- unfold short_stack. rewrite Hrest. exact Hshort_rest.
        -- exists c. rewrite Hrest. split; assumption.
        -- exists d1, fuel, d2. split; [|exact Hn1].
           apply (after_calls_trans d d' d1); [|exact Hc1].
           apply (Dbn.after_call d d 1 x d' (Dbn.after_none d) Hcall).
    + destruct Hcomp as (Hs' & Hw' & Hkeep & Hc').
      destruct (IH d') as (d1 & fuel & d2 & Hc1 & Hn1).
      * cbn [stack_weight] in Hw, Hw'. lia.
      * exact Hok.
      * exact Hs'.
      * apply elem_of_cons in Hin as [->|Hin]; [apply Hc', Hcov|].
        exists c. split; [apply Hkeep, Hin | exact Hcov].
      * destruct (after_calls_after_step d d' d1 m rest Hs Hstep Hc1) as [->|Hc].
        -- exists d, (S fuel), d2. split; [constructor|].
           rewrite (dbn_next_after_step d d' m rest fuel Hs Hstep). exact Hn1.
        -- exists d1, fuel, d2. split; assumption.
Qed.

Lemma dbn_make_reaches (d0 : Dbn.dbn_de_bruijn_s) :
  Dbn.dbn_make 52 0 strict = Some d0 ->
  exists d fuel d', Dbn.after_calls d0 d /\ Dbn.dbn_next fuel d = Some (v, d').
Proof.
  intros Hmake. pose proof (dbn_make_ok 0 strict d0 Hmake) as Hd.
  assert (Hstack : Dbn.bit_obj_stack d0 =
            [ {| Dbn.subseq_bit_store := 0; Dbn.value := 0; Dbn.length := 0;
                 Dbn.set_bit_count := 0; Dbn.bit := 0 |};
              {| Dbn.subseq_bit_store := 0; Dbn.value := 0; Dbn.length := 0;
                 Dbn.set_bit_count := 0; Dbn.bit := 1 |} ]).
  { unfold Dbn.dbn_make in Hmake. change (64 <? 52) with false in Hmake.
    cbv iota in Hmake. injection Hmake as <-. reflexivity. }
  assert (Hshort : short_stack d0).
  { unfold short_stack. rewrite Hstack.
    repeat (apply Forall_cons; split; [cbn; lia|]). apply Forall_nil. exact I. }
  apply (dbn_reaches (Z.to_nat (stack_weight (Dbn.bit_obj_stack d0)) + 1) d0);
    [pose proof (stack_weight_nonneg _ Hshort); lia | exact Hd | exact Hshort |].
  rewrite Hstack.
  assert (Htop : Z.shiftr v 51 = 0 \/ Z.shiftr v 51 = 1).
  { rewrite Z.shiftr_div_pow2 by lia.
    assert (0 <= v / 2 ^ 51 < 2); [|lia]. split.
    - apply Z.div_pos; lia.
    - apply Z.div_lt_upper_bound; [lia|]. change (2 ^ 51 * 2) with (2 ^ 52). lia. }
  destruct Htop as [H|H].
  - eexists. split; [apply elem_of_cons; left; reflexivity|].
    unfold covers. cbn [Dbn.value Dbn.length Dbn.bit]. rewrite Z.sub_0_r, H. reflexivity.
  - eexists. split; [apply elem_of_cons; right; apply elem_of_cons; left; reflexivity|].
    unfold covers. cbn [Dbn.value Dbn.length Dbn.bit]. rewrite Z.sub_0_r, H. reflexivity.
Qed.
End Completeness.

(** C4. For sequence length 52 and target population [k]: every nonzero
    value returned by [dbn_next], at any point of the enumeration, is a
    52-bit word whose 52 cyclic length-6 windows are pairwise distinct (the
    5 wrapped ones included); when [k] is not zero its population is exactly
    [k]; under DBN_REQUIRE_BITS_NOT_ALL_THE_SAME none of its windows is all
    zeros or all ones. And when [k = 0] no population is excluded: every
    such sequence, whatever its population, is returned by some call. *)
Theorem dbn_next_emits_primitives (k : Z) (strict : bool) (d0 : Dbn.dbn_de_bruijn_s) :
  Dbn.dbn_make 52 k strict = Some d0 ->
  (forall d fuel v d',
     Dbn.after_calls d0 d -> Dbn.dbn_next fuel d = Some (v, d') -> v <> 0 ->
     primitive_ok k strict v) /\
  (k = 0 ->
   forall v, primitive_ok 0 strict v ->
     exists d fuel d', Dbn.after_calls d0 d /\ Dbn.dbn_next fuel d = Some (v, d')).
Proof.
  intros Hmake. split.
  - intros d fuel v d' Hcalls Hnext Hv.
    pose proof (after_calls_ok k strict d0 d (dbn_make_ok k strict d0 Hmake) Hcalls) as Hd.
    apply (dbn_next_ok k strict fuel d v d' Hd Hnext), Hv.
  - intros -> v (Hr & Hdist & _ & Hu).
    apply (dbn_make_reaches strict v Hr Hdist Hu d0 Hmake).
Qed.

(** * The best realization *)

Section Scores.
Import Deck Umake.

Lemma penalty_range (x : Z) : 0 <= penalty x <= 32.
Proof.
  unfold penalty. destruct x as [|p|p]; try lia.
  do 3 (destruct p as [p|p|]; try lia).
Qed.

Lemma dup_all_cards_bound (temp : list Z) (l : list Z) :
  forall st, let st' := fold_left (dup_all_cards temp) l st in
    dup_count st <= dup_count st' <= dup_count st + 32 * Z.of_nat (length l).
Proof.
  induction l as [|i l IH]; intros st; cbn zeta; [cbn; lia|].
  cbn [fold_left length]. specialize (IH (dup_all_cards temp st i)). cbn zeta in IH.
  assert (H : dup_count st <= dup_count (dup_all_cards temp st i) <= dup_count st + 32).
  { unfold dup_all_cards. destruct (0 <=? _); cbn [dup_count]; [|lia].
    pose proof (penalty_range (i - aget (last_value_position_array st)
                                      (Z.land (aget temp i) 15 - 1))). lia. }
  lia.
Qed.

Lemma dup_first_five_bound (temp : list Z) (l : list Z) :
  forall st, let st' := fold_left (dup_first_five temp) l st in
    dup_count st <= dup_count st' <= dup_count st + 32 * Z.of_nat (length l).
Proof.
  induction l as [|i l IH]; intros st; cbn zeta; [cbn; lia|].
  cbn [fold_left length]. specialize (IH (dup_first_five temp st i)). cbn zeta in IH.
  assert (H : dup_count st <= dup_count (dup_first_five temp st i) <= dup_count st + 32).
  { unfold dup_first_five. cbn [dup_count].
    match goal with |- context [penalty ?x] => pose proof (penalty_range x) end. lia. }
  lia.
Qed.

Lemma upto_length (n : Z) : 0 <= n -> Z.of_nat (length (upto n)) = n.
Proof. intros H. unfold upto. rewrite length_map, length_seq. lia. Qed.

Lemma dup_count_range (d : deck_info_t) :
  deck_length d = 52 -> 0 <= dup_count_of d <= 1824.
Proof.
  intros Hlen. unfold dup_count_of. cbn zeta. rewrite Hlen.
  match goal with
  | |- context [fold_left (dup_first_five ?t) ?l (fold_left (dup_all_cards ?t) ?l0 ?s)] =>
      pose proof (dup_all_cards_bound t l0 s) as H1;
      pose proof (dup_first_five_bound t l (fold_left (dup_all_cards t) l0 s)) as H2
  end.
  cbn zeta in H1, H2. rewrite upto_length in H1, H2 by lia. cbn [dup_count] in H1. lia.
Qed.

Lemma lor_shiftl_16 (p s : Z) :
  0 <= s < 2 ^ 16 -> Z.lor (Z.shiftl p 16) s = p * 65536 + s.
Proof.
  intros Hs. rewrite Z.or_to_plus.
  - rewrite Z.shiftl_mul_pow2 by lia. reflexivity.
  - apply Z.bits_inj'. intros n Hn. rewrite Z.land_spec, Z.bits_0.
    destruct (Z.ltb_spec n 16).
    + rewrite Z.shiftl_spec_low by lia. reflexivity.
    + rewrite (testbit_above 16 s n) by lia. apply andb_false_r.
Qed.

Lemma test_deck_fields (d : deck_info_t) :
  let r := snd (test_deck_for_special_sequences d) in
  temp_deck_array r = temp_deck_array d /\
  deck_length r = deck_length d /\
  find_all_sequences_flag r = find_all_sequences_flag d /\
  deck_array r = deck_array d.
Proof.
  unfold test_deck_for_special_sequences. cbv zeta.
  cbn [snd set_sequence_count temp_deck_array deck_length find_all_sequences_flag deck_array].
  auto.
Qed.

Lemma dup_count_score_fields (d d' : deck_info_t) :
  temp_deck_array d = temp_deck_array d' -> deck_length d = deck_length d' ->
  deck_get_dup_count_score d = deck_get_dup_count_score d'.
Proof.
  intros Ht Hl. unfold deck_get_dup_count_score, dup_count_of. rewrite Ht, Hl. reflexivity.
Qed.

Lemma dup_count_score_test (d : deck_info_t) :
  deck_get_dup_count_score (snd (test_deck_for_special_sequences d))
  = deck_get_dup_count_score d.
Proof.
  destruct (test_deck_fields d) as (Ht & Hl & _). apply dup_count_score_fields; assumption.
Qed.

Lemma get_deck_score_eq (d : deck_info_t) :
  get_deck_score d
  = (Z.lor (Z.shiftl (Bit.bit_count_set_bits (fst (test_deck_for_special_sequences d))) 16)
           (deck_get_dup_count_score (snd (test_deck_for_special_sequences d))),
     snd (test_deck_for_special_sequences d)).
Proof. unfold get_deck_score. destruct (test_deck_for_special_sequences d). reflexivity. Qed.

(** The score is the predicate count in the high half and the spread score
    in the low half. *)
Lemma get_deck_score_split (d : deck_info_t) :
  deck_length d = 52 ->
  fst (get_deck_score d)
  = (7 + sequence_count (snd (test_deck_for_special_sequences d))) * 65536
    + deck_get_dup_count_score d
  /\ 0 <= deck_get_dup_count_score d < 65536.
Proof.
  intros Hlen. rewrite get_deck_score_eq. cbn [fst].
  pose proof (test_deck_bits_count d) as [Hp Hc]. cbn zeta in Hp, Hc.
  pose proof (dup_count_range d Hlen) as Hd.
  rewrite dup_count_score_test, bit_count_set_bits_popcount, Hp.
  unfold deck_get_dup_count_score in *. split; [|lia].
  apply lor_shiftl_16. lia.
Qed.

Lemma fold_left_pointwise {A B : Type} (f g : A -> B -> A) (l : list B) :
  (forall x y, f x y = g x y) -> forall x, fold_left f l x = fold_left g l x.
Proof.
  intros H. induction l as [|y l IH]; intros x; [reflexivity|].
  cbn [fold_left]. rewrite H. apply IH.
Qed.

Lemma deck_get_sequence_same_view (d d' : deck_info_t) (vs : list Z) (n : Z) :
  same_view d d' ->
  deck_get_sequence_from_deck vs n d = deck_get_sequence_from_deck vs n d'.
Proof.
  intros (Ht & Hl & _). unfold deck_get_sequence_from_deck. rewrite Ht, Hl. reflexivity.
Qed.

Lemma test_deck_same_view (d d' : deck_info_t) :
  same_view d d' ->
  fst (test_deck_for_special_sequences d) = fst (test_deck_for_special_sequences d') /\
  sequence_count (snd (test_deck_for_special_sequences d))
  = sequence_count (snd (test_deck_for_special_sequences d')).
Proof.
  intros Hv. unfold test_deck_for_special_sequences.
  cbn [fst snd sequence_count set_sequence_count].
  assert (Hc : forall acc c, CHECK_FOR_BRACELET_SEQUENCE d acc c
                             = CHECK_FOR_BRACELET_SEQUENCE d' acc c).
  { intros [bits n] [vs b]. cbn [CHECK_FOR_BRACELET_SEQUENCE].
    rewrite (deck_get_sequence_same_view d d' vs _ Hv). reflexivity. }
  rewrite !(fold_left_pointwise _ _ _ Hc).
  destruct Hv as (_ & _ & ->). split; reflexivity.
Qed.

Lemma dup_count_same_view (d d' : deck_info_t) :
  same_view d d' -> deck_get_dup_count_score d = deck_get_dup_count_score d'.
Proof.
  intros (Ht & Hl & _). unfold deck_get_dup_count_score, dup_count_of.
  rewrite Ht, Hl. reflexivity.
Qed.

Lemma get_deck_score_same_view (d d' : deck_info_t) :
  same_view d d' -> fst (get_deck_score d) = fst (get_deck_score d').
Proof.
  intros Hv. rewrite !get_deck_score_eq. cbn [fst].
  destruct (test_deck_same_view d d' Hv) as [-> _].
  rewrite !dup_count_score_test, (dup_count_same_view d d' Hv). reflexivity.
Qed.

Lemma test_deck_nonzero (d : deck_info_t) :
  nonzero (fst (test_deck_for_special_sequences d)) = true.
Proof.
  pose proof (test_deck_bits_count d) as [Hp Hc]. cbn zeta in Hp, Hc.
  unfold nonzero. destruct (Z.eqb_spec (fst (test_deck_for_special_sequences d)) 0) as [E|E];
    [|reflexivity].
  rewrite E, popcount_zero in Hp. lia.
Qed.

End Scores.

(** ** Filling the ambiguous cells *)

Section Fill.
Import Deck Umake.

Lemma land_1_cases (y : Z) : Z.land y 1 = 0 \/ Z.land y 1 = 1.
Proof.
  change 1 with (Z.ones 1) at 1 2. rewrite Z.land_ones by lia.
  pose proof (Z.mod_pos_bound y (2 ^ 1) ltac:(lia)). change (2 ^ 1) with 2 in *. lia.
Qed.

Lemma fill_deck_writes (a : ambiguity_t) (i : Z) (t : list Z) :
  fill_deck a i t = apply_writes (fill_writes a i) t.
Proof.
  unfold fill_deck, fill_writes, apply_writes. revert t.
  induction fill_order as [|e l IH]; intros t; [reflexivity|].
  cbn [fold_left flat_map]. rewrite fold_left_app, <- IH. f_equal.
  destruct e as [[[k suit] low] high]. reflexivity.
Qed.

Lemma entry_writes_positions (a : ambiguity_t) (i : Z) (e : nat * Z * Z * Z) (p : Z) :
  In p (map fst (entry_writes a i e)) <-> In p (entry_positions a e).
Proof.
  destruct e as [[[k suit] low] high]. unfold entry_writes, entry_positions.
  cbn [fst snd map In].
  destruct (land_1_cases (Z.shiftr i (Z.of_nat k))) as [-> | ->]; cbn; tauto.
Qed.

Lemma fill_writes_positions (a : ambiguity_t) (i : Z) (p : Z) :
  In p (map fst (fill_writes a i)) <-> In p (flat_map (entry_positions a) fill_order).
Proof.
  unfold fill_writes. induction fill_order as [|e l IH]; [reflexivity|].
  cbn [flat_map]. rewrite map_app, !in_app_iff, IH, entry_writes_positions. reflexivity.
Qed.

Lemma aset_length (t : list Z) (p v : Z) : length (aset t p v) = length t.
Proof. unfold aset. destruct (p <? 0); [reflexivity | apply length_insert]. Qed.

Lemma nth_aset_ne (t : list Z) (p v : Z) (n : nat) :
  p <> Z.of_nat n -> nth n (aset t p v) 0 = nth n t 0.
Proof.
  intros H. unfold aset. destruct (Z.ltb_spec p 0); [reflexivity|].
  rewrite !nth_lookup, list_lookup_insert_ne by lia. reflexivity.
Qed.

Lemma nth_aset_eq (t : list Z) (p v : Z) (n : nat) :
  p = Z.of_nat n -> (n < length t)%nat -> nth n (aset t p v) 0 = v.
Proof.
  intros -> H. unfold aset. destruct (Z.ltb_spec (Z.of_nat n) 0); [lia|].
  rewrite Nat2Z.id, nth_lookup, list_lookup_insert_eq by exact H. reflexivity.
Qed.

Lemma apply_writes_length (ws : list (Z * Z)) :
  forall t, length (apply_writes ws t) = length t.
Proof.
  induction ws as [|w ws IH]; intros t; [reflexivity|].
  unfold apply_writes in *. cbn [fold_left]. rewrite IH. apply aset_length.
Qed.

Lemma apply_writes_outside (ws : list (Z * Z)) :
  forall t, agree_outside (fun p => In p (map fst ws)) (apply_writes ws t) t.
Proof.
  induction ws as [|w ws IH]; intros t.
  - split; [reflexivity | intros; reflexivity].
  - split; [apply apply_writes_length|]. intros n Hn Hout.
    change (apply_writes (w :: ws) t) with (apply_writes ws (aset t (fst w) (snd w))).
    destruct (IH (aset t (fst w) (snd w))) as [_ H].
    rewrite H.
    + apply nth_aset_ne. intros E. apply Hout. left. exact E.
    + change (apply_writes (w :: ws) t) with (apply_writes ws (aset t (fst w) (snd w))) in Hn.
      exact Hn.
    + intros Hin. apply Hout. right. exact Hin.
Qed.

Lemma apply_writes_agree (ws : list (Z * Z)) :
  forall t t', agree_outside (fun p => In p (map fst ws)) t t' ->
    apply_writes ws t = apply_writes ws t'.
Proof.
  induction ws as [|w ws IH]; intros t t' [Hlen H].
  - cbn. apply (nth_ext _ _ 0 0 Hlen). intros n Hn. apply H; [exact Hn | intros []].
  - change (apply_writes (w :: ws) t) with (apply_writes ws (aset t (fst w) (snd w))).
    change (apply_writes (w :: ws) t') with (apply_writes ws (aset t' (fst w) (snd w))).
    apply IH. split; [rewrite !aset_length; exact Hlen|].
    intros n Hn Hout. rewrite aset_length in Hn.
    destruct (Z.eq_dec (fst w) (Z.of_nat n)) as [E|E].
    + rewrite !nth_aset_eq by (assumption || lia). reflexivity.
    + rewrite !nth_aset_ne by exact E. apply H; [exact Hn|].
      intros [E'|Hin]; [exact (E E') | exact (Hout Hin)].
Qed.

(** A realization overwrites all traces of the one built before it. *)
Lemma fill_deck_idem (a : ambiguity_t) (i j : Z) (t : list Z) :
  fill_deck a i (fill_deck a j t) = fill_deck a i t.
Proof.
  rewrite !fill_deck_writes. apply apply_writes_agree.
  destruct (apply_writes_outside (fill_writes a j) t) as [Hlen H].
  split; [exact Hlen|]. intros n Hn Hout. apply H; [exact Hn|].
  intros Hin. apply Hout. apply fill_writes_positions. apply fill_writes_positions in Hin.
  exact Hin.
Qed.

End Fill.

(** ** The realization loop *)

Section BestDeck.
Import Deck Umake.

Lemma upto_succ (n : nat) : upto (Z.of_nat (S n)) = upto (Z.of_nat n) ++ [Z.of_nat n].
Proof.
  unfold upto. rewrite !Nat2Z.id, seq_S, map_app. reflexivity.
Qed.

Lemma copy_loop (f : Z -> Z) (n : nat) :
  forall deck, (n <= length deck)%nat ->
    let deck' := fold_left (fun deck j => aset deck j (f j)) (upto (Z.of_nat n)) deck in
    length deck' = length deck /\
    forall j, (j < n)%nat -> nth j deck' 0 = f (Z.of_nat j).
Proof.
  induction n as [|n IH]; intros deck Hn; cbn zeta.
  - split; [reflexivity | intros; lia].
  - rewrite upto_succ, fold_left_app. cbn [fold_left].
    destruct (IH deck ltac:(lia)) as [Hl Hj]. cbn zeta in Hl, Hj.
    split; [rewrite aset_length; exact Hl|].
    intros j Hlt. destruct (Nat.eq_dec j n) as [->|Hne].
    + apply nth_aset_eq; [reflexivity | lia].
    + rewrite nth_aset_ne by lia. apply Hj. lia.
Qed.

Lemma copy_deck_spec (d : deck_info_t) (n : nat) :
  (n <= length (deck_array d))%nat ->
  let d' := copy_deck d (Z.of_nat n) in
  temp_deck_array d' = temp_deck_array d /\
  deck_length d' = deck_length d /\
  find_all_sequences_flag d' = find_all_sequences_flag d /\
  length (deck_array d') = length (deck_array d) /\
  forall j, 0 <= j < Z.of_nat n -> aget (deck_array d') j = aget (temp_deck_array d) j.
Proof.
  intros Hn. cbn zeta. unfold copy_deck.
  cbn [temp_deck_array deck_length find_all_sequences_flag deck_array set_deck_array].
  destruct (copy_loop (aget (temp_deck_array d)) n (deck_array d) Hn) as [Hl Hj].
  cbn zeta in Hl, Hj. repeat split; try reflexivity; [exact Hl|].
  intros j Hr. unfold aget at 1. destruct (Z.ltb_spec j 0); [lia|].
  rewrite Hj by lia. rewrite Z2Nat.id by lia. reflexivity.
Qed.

Lemma realization_step_eq (a : ambiguity_t) (q : seq_info_t) (st : search_state) (i : Z) :
  realization_step a q st i =
  let d1 := set_temp_deck_array (info st) (fill_deck a i (temp_deck_array (info st))) in
  let bits := fst (test_deck_for_special_sequences d1) in
  let d2 := snd (test_deck_for_special_sequences d1) in
  if maximum_sequence_count st <=? sequence_count d2 then
    let best := if first_sequence_found st then TINY_DECK_SCORE else best_score st in
    let score := fst (get_deck_score d2) in
    let d3 := snd (get_deck_score d2) in
    if best <? score then
      {| info := copy_deck d3 (deck_length d3);
         best_score := score;
         best_sequence_type_bits := bits;
         maximum_sequence_count := sequence_count d2;
         first_sequence_found := false |}
    else
      {| info := d3;
         best_score := best;
         best_sequence_type_bits := best_sequence_type_bits st;
         maximum_sequence_count := sequence_count d2;
         first_sequence_found := false |}
  else
    {| info := d2;
       best_score := best_score st;
       best_sequence_type_bits := best_sequence_type_bits st;
       maximum_sequence_count := maximum_sequence_count st;
       first_sequence_found := first_sequence_found st |}.
Proof.
  unfold realization_step. cbn zeta.
  pose proof (test_deck_nonzero
    (set_temp_deck_array (info st) (fill_deck a i (temp_deck_array (info st))))) as Hnz.
  destruct (test_deck_for_special_sequences _) as [bits d2]. cbn [fst snd] in *.
  rewrite Hnz. destruct (get_deck_score d2). reflexivity.
Qed.

Lemma realization_score_split (d : deck_info_t) (a : ambiguity_t) (i : Z) :
  deck_length d = 52 ->
  exists spread, 0 <= spread < 65536 /\
    realization_score d a i = (7 + realization_count d a i) * 65536 + spread.
Proof.
  intros Hlen. unfold realization_score, realization_count.
  destruct (get_deck_score_split (realization_view d a i) Hlen) as [He Hr].
  eexists. split; [exact Hr | exact He].
Qed.

Lemma realization_count_nonneg (d : deck_info_t) (a : ambiguity_t) (i : Z) :
  0 <= realization_count d a i.
Proof. apply (test_deck_bits_count (realization_view d a i)). Qed.

Variables (d : deck_info_t) (a : ambiguity_t) (q : seq_info_t).
Hypothesis Hlen : deck_length d = 52.
Hypothesis Harr : (52 <= length (deck_array d))%nat.

Lemma score_order (i j : Z) :
  realization_count d a i < realization_count d a j ->
  realization_score d a i < realization_score d a j.
Proof.
  intros H.
  destruct (realization_score_split d a i Hlen) as (si & Hsi & ->).
  destruct (realization_score_split d a j Hlen) as (sj & Hsj & ->). lia.
Qed.

Lemma realization_step_inv (n : nat) (st : search_state) :
  loop_inv d a n st ->
  loop_inv d a (S n) (realization_step a q st (Z.of_nat n)) /\
  first_sequence_found (realization_step a q st (Z.of_nat n)) = false.
Proof.
  intros (Hfill & Hl & Hf & Hla & Hbest).
  rewrite realization_step_eq. cbn zeta.
  set (d1 := set_temp_deck_array (info st)
               (fill_deck a (Z.of_nat n) (temp_deck_array (info st)))).
  assert (Hv1 : same_view d1 (realization_view d a (Z.of_nat n))).
  { unfold same_view, d1, realization_view.
    cbn [temp_deck_array deck_length find_all_sequences_flag set_temp_deck_array].
    rewrite Hfill, Hl, Hf. auto. }
  destruct (test_deck_same_view _ _ Hv1) as [Hbits Hcount].
  change (fst (test_deck_for_special_sequences (realization_view d a (Z.of_nat n))))
    with (realization_bits d a (Z.of_nat n)) in Hbits.
  change (sequence_count
            (snd (test_deck_for_special_sequences (realization_view d a (Z.of_nat n)))))
    with (realization_count d a (Z.of_nat n)) in Hcount.
  destruct (test_deck_fields d1) as (Ht2 & Hl2 & Hf2 & Ha2).
  destruct Hv1 as (Ht1 & Hl1 & Hf1).
  cbn [temp_deck_array deck_length find_all_sequences_flag realization_view
       set_temp_deck_array] in Ht1, Hl1, Hf1.
  change (deck_array d1) with (deck_array (info st)) in Ha2.
  rewrite Ht1 in Ht2. rewrite Hl1, Hlen in Hl2. rewrite Hf1 in Hf2.
  generalize dependent (snd (test_deck_for_special_sequences d1)). intros d2 Hcount Ht2 Hl2 Hf2 Ha2.
  generalize dependent (fst (test_deck_for_special_sequences d1)). intros bits Hbits.
  clear Ht1 Hl1 Hf1. clearbody d1.
  assert (Hv2 : same_view d2 (realization_view d a (Z.of_nat n))).
  { unfold same_view, realization_view.
    cbn [temp_deck_array deck_length find_all_sequences_flag set_temp_deck_array].
    rewrite Ht2, Hl2, Hf2, Hlen. repeat split; reflexivity. }
  assert (Hscore : fst (get_deck_score d2) = realization_score d a (Z.of_nat n))
    by exact (get_deck_score_same_view _ _ Hv2).
  assert (E3 : snd (get_deck_score d2) = snd (test_deck_for_special_sequences d2)).
  { rewrite get_deck_score_eq. reflexivity. }
  destruct (test_deck_fields d2) as (Ht3 & Hl3 & Hf3 & Ha3). rewrite <- E3 in Ht3, Hl3, Hf3, Ha3.
  clear E3.
  generalize dependent (snd (get_deck_score d2)). intros d3 Ht3 Hl3 Hf3 Ha3.
  rewrite Ht2 in Ht3. rewrite Hl2 in Hl3. rewrite Hf2 in Hf3. rewrite Ha2 in Ha3.
  rewrite Hcount, Hscore, Hbits.
  pose proof (realization_count_nonneg d a (Z.of_nat n)) as Hcn.
  destruct (realization_score_split d a (Z.of_nat n) Hlen) as (sn & Hsn & Hsplit).
  destruct (Z.leb_spec (maximum_sequence_count st) (realization_count d a (Z.of_nat n)))
    as [Hgate|Hgate].
  - match goal with |- context [?b <? ?s] => destruct (Z.ltb_spec b s) as [Hlt|Hge] end.
    + (* a new best *)
      split; [|reflexivity].
      destruct (copy_deck_spec d3 52) as (Hct & Hcl & Hcf & Hca & Hcj).
      { rewrite Ha3, Hla. exact Harr. }
      change (Z.of_nat 52) with 52 in *. rewrite Hl3.
      unfold loop_inv. cbn [info first_sequence_found].
      rewrite Hct, Hcl, Hcf, Hca, Ht3, Hl3, Hf3, Ha3, Hla, Hlen.
      split; [intros i; apply fill_deck_idem|]. repeat split.
      exists n. unfold best_so_far.
      cbn [best_score best_sequence_type_bits maximum_sequence_count info].
      repeat split; try lia.
      * intros j Hj. rewrite Hcj by lia. rewrite Ht3. reflexivity.
      * intros j Hj. destruct (Nat.eq_dec j n) as [->|Hne]; [lia|].
        destruct (first_sequence_found st); [destruct Hbest; lia|].
        destruct Hbest as (b & Hb & Hbs & _ & _ & _ & Hmax & _).
        specialize (Hmax j ltac:(lia)). lia.
      * intros j Hj.
        destruct (first_sequence_found st); [destruct Hbest; lia|].
        destruct Hbest as (b & Hb & Hbs & _ & _ & _ & Hmax & _).
        specialize (Hmax j ltac:(lia)). lia.
    + (* not better than the stored best *)
      split; [|reflexivity].
      unfold loop_inv. cbn [info first_sequence_found].
      rewrite Ht3, Hl3, Hf3, Ha3, Hlen.
      split; [intros i; apply fill_deck_idem|]. repeat split; [exact Hla|].
      destruct (first_sequence_found st) eqn:Hfirst.
      { unfold TINY_DECK_SCORE in Hge. lia. }
      destruct Hbest as (b & Hb & Hbs & Hbb & Hbm & Hbd & Hmax & Hfst).
      exists b. unfold best_so_far.
      cbn [best_score best_sequence_type_bits maximum_sequence_count info].
      rewrite Ha3.
      destruct (realization_score_split d a (Z.of_nat b) Hlen) as (sb & Hsb & Hsplitb).
      repeat split; try assumption; try lia.
      intros j Hj. destruct (Nat.eq_dec j n) as [->|Hne]; [lia|]. apply Hmax. lia.
  - (* fewer checks passed than the stored maximum *)
    cbn [first_sequence_found].
    destruct (first_sequence_found st) eqn:Hfirst; [destruct Hbest; lia|].
    split; [|reflexivity].
    unfold loop_inv. cbn [info first_sequence_found].
    rewrite Ht2, Hl2, Hf2, Ha2, Hlen.
    split; [intros i; apply fill_deck_idem|]. repeat split; [exact Hla|].
    destruct Hbest as (b & Hb & Hbs & Hbb & Hbm & Hbd & Hmax & Hfst).
    exists b. unfold best_so_far.
    cbn [best_score best_sequence_type_bits maximum_sequence_count info].
    rewrite Ha2.
    repeat split; try assumption; try lia.
    intros j Hj. destruct (Nat.eq_dec j n) as [->|Hne]; [|apply Hmax; lia].
    apply Z.lt_le_incl, score_order. lia.
Qed.

Lemma realization_loop_inv (n : nat) :
  let st := fold_left (realization_step a q) (upto (Z.of_nat n)) (initial_search_state d) in
  loop_inv d a n st /\ (n <> 0%nat -> first_sequence_found st = false).
Proof.
  induction n as [|n IH]; cbn zeta.
  - split; [|intros H; contradiction].
    unfold loop_inv. cbn. repeat split; reflexivity.
  - rewrite upto_succ, fold_left_app. cbn [fold_left].
    destruct IH as [IH _]. destruct (realization_step_inv n _ IH) as [Hinv Hfirst].
    split; [exact Hinv | intros _; exact Hfirst].
Qed.

Lemma realization_loop_best (N : Z) :
  0 < N ->
  let st := fold_left (realization_step a q) (upto N) (initial_search_state d) in
  exists best, 0 <= best < N /\
    best_score st = realization_score d a best /\
    best_sequence_type_bits st = realization_bits d a best /\
    (forall j, 0 <= j < 52 ->
       aget (deck_array (info st)) j = aget (fill_deck a best (temp_deck_array d)) j) /\
    (forall j, 0 <= j < N -> realization_score d a j <= realization_score d a best) /\
    (forall j, 0 <= j < best -> realization_score d a j < realization_score d a best).
Proof.
  intros HN. cbn zeta.
  destruct (realization_loop_inv (Z.to_nat N)) as [Hinv Hfirst].
  cbn zeta in Hinv, Hfirst. rewrite Z2Nat.id in Hinv, Hfirst by lia.
  set (st := fold_left (realization_step a q) (upto N) (initial_search_state d)) in *.
  clearbody st.
  destruct Hinv as (_ & _ & _ & _ & Hbest). rewrite Hfirst in Hbest by lia.
  destruct Hbest as (b & Hb & Hbs & Hbb & _ & Hbd & Hmax & Hfst).
  exists (Z.of_nat b).
  split; [lia|]. split; [exact Hbs|]. split; [exact Hbb|]. split; [exact Hbd|]. split.
  - intros j Hj. specialize (Hmax (Z.to_nat j) ltac:(lia)).
    rewrite Z2Nat.id in Hmax by lia. exact Hmax.
  - intros j Hj. specialize (Hfst (Z.to_nat j) ltac:(lia)).
    rewrite Z2Nat.id in Hfst by lia. exact Hfst.
Qed.

End BestDeck.

Section Prepare.
Import Deck Umake.

Lemma memset_zero_length (array : list Z) (n : Z) : length (memset_zero array n) = length array.
Proof.
  unfold memset_zero. rewrite length_app, length_replicate, length_drop. lia.
Qed.

Lemma prepare_fields (d0 d : deck_info_t) (q : seq_info_t) (x : option ambiguity_t) :
  prepare d0 q = (d, x) ->
  deck_length d = deck_length d0 /\
  find_all_sequences_flag d = find_all_sequences_flag d0 /\
  length (deck_array d) = length (deck_array d0).
Proof.
  unfold prepare. cbv zeta.
  cbn [temp_deck_array deck_array deck_length find_all_sequences_flag
       set_temp_deck_array set_deck_array].
  intros H.
  assert (E : d = set_temp_deck_array
                    (set_temp_deck_array
                       (set_deck_array d0 (memset_zero (deck_array d0) (n_bits_max q)))
                       (memset_zero (temp_deck_array d0) (n_bits_max q)))
                    (get_deck_possibilities
                       (memset_zero (temp_deck_array d0) (n_bits_max q)) q)).
  { destruct (deck_is_value_in_array _ _ _); [congruence|].
    destruct (existsb _ _); congruence. }
  rewrite E.
  cbn [temp_deck_array deck_array deck_length find_all_sequences_flag
       set_temp_deck_array set_deck_array].
  rewrite memset_zero_length. repeat split; reflexivity.
Qed.

Lemma find_best_deck_order_eq (d0 d : deck_info_t) (q : seq_info_t) (a : ambiguity_t) :
  prepare d0 q = (d, Some a) ->
  find_best_deck_order d0 q
  = let st := fold_left (realization_step a q) (upto 65536) (initial_search_state d) in
    set_results (info st) (best_score st) (best_sequence_type_bits st).
Proof.
  intros H. unfold find_best_deck_order. rewrite H. reflexivity.
Qed.

Lemma set_results_fields (d : deck_info_t) (score bits : Z) :
  deck_score (set_results d score bits) = score /\
  sequence_type_bits (set_results d score bits) = bits /\
  deck_array (set_results d score bits) = deck_array d.
Proof. repeat split; reflexivity. Qed.

End Prepare.

(** C3. [find_best_deck_order] hands back, in [deck_array], [deck_score]
    and [sequence_type_bits], the realization of maximal score among all
    65536, and among those of maximal score the one with the smallest
    index: the first realization replaces the initial best of
    [TINY_DECK_SCORE], later ones only when strictly better. Every score
    carries the number of predicate bits in its high half and the spread
    score in its low half. *)
Theorem find_best_deck_order_keeps_first_maximum
    (d0 d : Deck.deck_info_t) (q : Umake.seq_info_t) (a : Umake.ambiguity_t) :
  Deck.deck_length d0 = 52 ->
  (52 <= length (Deck.deck_array d0))%nat ->
  Umake.prepare d0 q = (d, Some a) ->
  let r := Umake.find_best_deck_order d0 q in
  exists best, 0 <= best < 65536 /\
    Deck.deck_score r = realization_score d a best /\
    Deck.sequence_type_bits r = realization_bits d a best /\
    (forall j, 0 <= j < 52 ->
       aget (Deck.deck_array r) j
       = aget (Umake.fill_deck a best (Deck.temp_deck_array d)) j) /\
    (forall j, 0 <= j < 65536 -> realization_score d a j <= realization_score d a best) /\
    (forall j, 0 <= j < best -> realization_score d a j < realization_score d a best) /\
    (forall j, realization_score d a j
               = popcount 32 (realization_bits d a j) * 65536
                 + Deck.deck_get_dup_count_score (realization_view d a j)
               /\ 0 <= Deck.deck_get_dup_count_score (realization_view d a j) < 65536) /\
    Umake.TINY_DECK_SCORE < realization_score d a 0.
Proof.
  intros Hlen0 Harr0 Hprep r.
  destruct (prepare_fields _ _ _ _ Hprep) as (Hlen & _ & Harr).
  rewrite Hlen0 in Hlen. rewrite <- Harr in Harr0.
  assert (Hsplit : forall j, realization_score d a j
               = popcount 32 (realization_bits d a j) * 65536
                 + Deck.deck_get_dup_count_score (realization_view d a j)
               /\ 0 <= Deck.deck_get_dup_count_score (realization_view d a j) < 65536).
  { intros j. unfold realization_score, realization_bits.
    destruct (get_deck_score_split (realization_view d a j) Hlen) as [He Hr].
    destruct (test_deck_bits_count (realization_view d a j)) as [Hp _]. cbn zeta in Hp.
    rewrite Hp. split; [exact He | exact Hr]. }
  pose proof (find_best_deck_order_eq _ _ _ _ Hprep) as Er. fold r in Er.
  pose proof (realization_loop_best d a q Hlen Harr0 65536 ltac:(lia)) as H.
  revert Er H.
  generalize (fold_left (Umake.realization_step a q) (upto 65536)
                (Umake.initial_search_state d)).
  intros st Er H. cbv zeta in Er, H.
  destruct (set_results_fields (Umake.info st) (Umake.best_score st)
              (Umake.best_sequence_type_bits st)) as (E1 & E2 & E3).
  rewrite <- Er in E1, E2, E3. clearbody r. clear Er.
  destruct H as (best & Hb & Hbs & Hbb & Hbd & Hmax & Hfst).
  exists best. rewrite E1, E2, E3.
  split; [exact Hb|]. split; [exact Hbs|]. split; [exact Hbb|]. split; [exact Hbd|].
  split; [exact Hmax|]. split; [exact Hfst|]. split; [exact Hsplit|].
  destruct (Hsplit 0) as [-> Hr].
  pose proof (test_deck_bits_count (realization_view d a 0)) as [Hp Hc]. cbn zeta in Hp, Hc.
  unfold realization_bits. rewrite Hp. unfold Umake.TINY_DECK_SCORE. lia.
Qed.

Lemma find_best_deck_order_keeps_first_maximum_witness :
  let d0 := Umake.initial_deck_info false in
  let d := Sample.partial_deck in
  let a := Sample.ambiguity in
  let q := Sample.bundle in
  Deck.deck_length d0 = 52 /\
  (52 <= length (Deck.deck_array d0))%nat /\
  Umake.prepare d0 q = (d, Some a) /\
  exists best, 0 <= best < 65536 /\
    Deck.deck_score (Umake.find_best_deck_order d0 q) = realization_score d a best /\
    (forall j, 0 <= j < 65536 -> realization_score d a j <= realization_score d a best).
Proof.
  cbv zeta.
  assert (H1 : Deck.deck_length (Umake.initial_deck_info false) = 52) by reflexivity.
  assert (H2 : (52 <= length (Deck.deck_array (Umake.initial_deck_info false)))%nat)
    by (vm_compute; lia).
  assert (H3 : Umake.prepare (Umake.initial_deck_info false) Sample.bundle
               = (Sample.partial_deck, Some Sample.ambiguity))
    by (vm_compute; reflexivity).
  split; [exact H1|]. split; [exact H2|]. split; [exact H3|].
  destruct (find_best_deck_order_keeps_first_maximum _ _ _ _ H1 H2 H3)
    as (best & Hb & Hs & _ & _ & Hmax & _).
  exists best. split; [exact Hb|]. split; [exact Hs | exact Hmax].
Defined.

(** * The realized deck *)

Section Scan.
Import Deck Umake.

Lemma aget_aset_ne (t : list Z) (p v p' : Z) : p <> p' -> aget (aset t p v) p' = aget t p'.
Proof.
  intros H. unfold aget. destruct (Z.ltb_spec p' 0); [reflexivity|].
  apply nth_aset_ne. lia.
Qed.

Lemma aget_aset_eq (t : list Z) (p v : Z) :
  0 <= p < Z.of_nat (length t) -> aget (aset t p v) p = v.
Proof.
  intros H. unfold aget. destruct (Z.ltb_spec p 0); [lia|].
  apply nth_aset_eq; lia.
Qed.

Lemma nth_insert_eq {A : Type} (l : list A) (k : nat) (x dflt : A) :
  (k < length l)%nat -> nth k (<[k := x]> l) dflt = x.
Proof. intros H. rewrite nth_lookup, list_lookup_insert_eq by exact H. reflexivity. Qed.

Lemma nth_insert_ne {A : Type} (l : list A) (k k' : nat) (x dflt : A) :
  k <> k' -> nth k' (<[k := x]> l) dflt = nth k' l dflt.
Proof. intros H. rewrite !nth_lookup, list_lookup_insert_ne by exact H. reflexivity. Qed.

Lemma value_class_range (v : Z) (m : nat) : value_class v = Some m -> (m < 4)%nat.
Proof.
  unfold value_class. intros H.
  repeat match type of H with
         | (if ?c then _ else _) = _ => destruct c
         end; inversion H; lia.
Qed.

Lemma suit_class_range (s : Z) : (suit_class s < 4)%nat.
Proof.
  unfold suit_class.
  repeat match goal with |- context [if ?c then _ else _] => destruct c end; lia.
Qed.

Lemma slot_ok_mono (temp : list Z) (n : Z) (a : ambiguity_t) (k : nat) :
  slot_ok temp n a k -> slot_ok temp (n + 1) a k.
Proof.
  unfold slot_ok. cbn zeta. intros (Hl & Hc & H0 & H1).
  split; [exact Hl|]. split; [exact Hc|]. split.
  - intros H. destruct (H0 H) as [Hr Hk]. split; [lia | exact Hk].
  - intros H. destruct (H1 H) as (Hr & Hk & Hlt). split; [lia | split; assumption].
Qed.

Lemma index_step_inv (temp : list Z) (n : Z) (a : ambiguity_t) :
  0 <= n -> scan_inv temp n a -> scan_inv temp (n + 1) (index_step temp a n).
Proof.
  intros Hn (Hla & Hlc & Hslots). unfold index_step. cbv zeta.
  destruct (value_class (Z.land (aget temp n) 255)) as [m|] eqn:Hv.
  2:{ split; [exact Hla|]. split; [exact Hlc|]. intros k Hk. apply slot_ok_mono, Hslots, Hk. }
  pose proof (value_class_range _ _ Hv) as Hm.
  pose proof (suit_class_range (Z.shiftr (aget temp n) 8)) as Hs.
  set (k0 := (4 * suit_class (Z.shiftr (aget temp n) 8) + m)%nat) in *.
  assert (Hk0 : (k0 < 16)%nat) by (subst k0; lia).
  assert (Hclass : cell_class (aget temp n) = Some k0).
  { unfold cell_class. change 0xFF with 255. rewrite Hv. reflexivity. }
  split; [cbn [index_arrays]; rewrite length_insert; exact Hla|].
  split; [cbn [counters]; rewrite length_insert; exact Hlc|].
  intros k Hk. unfold slot_ok. cbn [index_arrays counters]. cbv zeta.
  destruct (Nat.eq_dec k0 k) as [<-|Hne].
  - rewrite !nth_insert_eq by lia.
    destruct (Hslots k0 Hk0) as (Hl & Hc & H0 & H1). cbv zeta in Hl, Hc, H0, H1.
    set (arr := nth k0 (index_arrays a) []) in *.
    set (cnt := nth k0 (counters a) 0) in *.
    split; [rewrite aset_length; exact Hl|]. split; [lia|]. split.
    + intros _. destruct (Z.eq_dec cnt 0) as [E|E].
      * rewrite E, aget_aset_eq by lia. split; [lia | exact Hclass].
      * rewrite aget_aset_ne by lia. destruct (H0 ltac:(lia)) as [Hr Hc0].
        split; [lia | exact Hc0].
    + intros Hgt. destruct (Z.eq_dec cnt 1) as [E|E].
      * rewrite E, aget_aset_eq by lia. rewrite aget_aset_ne by lia.
        destruct (H0 ltac:(lia)) as [Hr _]. split; [lia | split; [exact Hclass | lia]].
      * rewrite !aget_aset_ne by lia. destruct (H1 ltac:(lia)) as (Hr & Hc1 & Hlt).
        split; [lia | split; assumption].
  - rewrite !nth_insert_ne by exact Hne. apply (slot_ok_mono temp n a k), Hslots, Hk.
Qed.

Lemma scan_inv_initial (temp : list Z) : scan_inv temp 0 no_ambiguity.
Proof.
  split; [reflexivity|]. split; [reflexivity|]. intros k Hk.
  do 16 (destruct k as [|k];
    [unfold slot_ok; cbn -[Z.lt Z.le aget cell_class]; repeat split; intros; lia|]). lia.
Qed.

Lemma scan_loop (temp : list Z) (n : nat) :
  scan_inv temp (Z.of_nat n) (fold_left (index_step temp) (upto (Z.of_nat n)) no_ambiguity).
Proof.
  induction n as [|n IH]; [apply scan_inv_initial|].
  rewrite upto_succ, fold_left_app. cbn [fold_left].
  replace (Z.of_nat (S n)) with (Z.of_nat n + 1) by lia.
  apply index_step_inv; [lia | exact IH].
Qed.

Lemma get_deck_possibilities_length (deck : list Z) (q : seq_info_t) :
  length (get_deck_possibilities deck q) = length deck.
Proof.
  unfold get_deck_possibilities. generalize (upto (n_bits_max q)). intros l. revert deck.
  induction l as [|x l IH]; intros deck; [reflexivity|].
  cbn [fold_left]. rewrite IH. apply aset_length.
Qed.

Lemma prepare_scan (d0 d : deck_info_t) (q : seq_info_t) (a : ambiguity_t) :
  n_bits_max q = 52 ->
  prepare d0 q = (d, Some a) ->
  length (temp_deck_array d) = length (temp_deck_array d0) /\
  forall k, (k < 16)%nat -> slot_filled (temp_deck_array d) a k.
Proof.
  intros Hq. unfold prepare. cbv zeta. rewrite Hq.
  cbn [temp_deck_array deck_array set_temp_deck_array set_deck_array].
  set (temp := get_deck_possibilities (memset_zero (temp_deck_array d0) 52) q).
  destruct (deck_is_value_in_array 0 temp 52); [discriminate|].
  remember (fold_left (index_step temp) (upto 52) no_ambiguity) as a' eqn:Ea.
  destruct (existsb _ _) eqn:Hex; [discriminate|].
  remember (set_temp_deck_array
              (set_temp_deck_array
                 (set_deck_array d0 (memset_zero (deck_array d0) 52))
                 (memset_zero (temp_deck_array d0) 52)) temp) as d' eqn:Ed.
  intros H.
  assert (Hd : d' = d) by congruence.
  assert (Ha : a' = a) by congruence.
  clear H. subst d a. rewrite Ed.
  cbn [temp_deck_array set_temp_deck_array]. clear Ed d'.
  split.
  { unfold temp. rewrite get_deck_possibilities_length. apply memset_zero_length. }
  pose proof (scan_loop temp (Z.to_nat 52)) as Hinv.
  rewrite Z2Nat.id in Hinv by lia. rewrite <- Ea in Hinv. clear Ea.
  destruct Hinv as (Hla & Hlc & Hslots).
  intros k Hk. destruct (Hslots k Hk) as (Hl & Hc & H0 & H1). cbv zeta in Hl, Hc, H0, H1.
  rename a' into a.
  assert (Hcnt : nth k (counters a) 0 = 2).
  { destruct (Z.eq_dec (nth k (counters a) 0) 2) as [E|E]; [exact E | exfalso].
    assert (Hin : In (nth k (counters a) 0) (counters a)) by (apply nth_In; lia).
    assert (Ht : existsb (fun n => negb (n =? 2)) (counters a) = true).
    { apply existsb_exists. eexists. split; [exact Hin|].
      apply negb_true_iff, Z.eqb_neq, E. }
    congruence. }
  rewrite Hcnt in H0, H1.
  destruct (H0 ltac:(lia)) as [Hr0 Hc0]. destruct (H1 ltac:(lia)) as (Hr1 & Hc1 & Hlt).
  unfold slot_filled. cbv zeta. repeat split; try assumption; lia.
Qed.

End Scan.

(** * Further properties of the helpers *)

(** ** bit_utilities.c *)

(** X1. [bit_count_set_bits] returns the number of one bits among the low
    32 bits of its argument. *)
Theorem bit_count_set_bits_counts_ones (v : Z) :
  Bit.bit_count_set_bits v = popcount 32 v /\ 0 <= Bit.bit_count_set_bits v <= 32.
Proof.
  rewrite bit_count_set_bits_popcount. split; [reflexivity|].
  pose proof (popcount_nonneg 32 v). lia.
Qed.

Lemma list_ascii_of_string_app (a b : string) :
  list_ascii_of_string (a ++ b) = list_ascii_of_string a ++ list_ascii_of_string b.
Proof. induction a as [|c a IH]; [reflexivity|]. cbn. rewrite IH. reflexivity. Qed.

Lemma parse_skips_blank (c : ascii) (b : list ascii) :
  c = " "%char \/ c = "009"%char ->
  forall (a : list ascii) (seq : Z),
    Bit.bit_get_integer_seq_from seq (a ++ c :: b) = Bit.bit_get_integer_seq_from seq (a ++ b).
Proof.
  intros Hc. induction a as [|x a IH]; intros seq.
  - destruct Hc as [-> | ->]; reflexivity.
  - cbn [app Bit.bit_get_integer_seq_from].
    destruct (_ || _)%bool; [apply IH|]. destruct (_ || _)%bool; [reflexivity|]. apply IH.
Qed.

Lemma parse_stops (c : ascii) (b : list ascii) :
  c = "000"%char \/ c = "010"%char ->
  forall (a : list ascii) (seq : Z),
    Bit.bit_get_integer_seq_from seq (a ++ c :: b) = Bit.bit_get_integer_seq_from seq a.
Proof.
  intros Hc. induction a as [|x a IH]; intros seq.
  - destruct Hc as [-> | ->]; reflexivity.
  - cbn [app Bit.bit_get_integer_seq_from].
    destruct (_ || _)%bool; [apply IH|]. destruct (_ || _)%bool; [reflexivity|]. apply IH.
Qed.

(** X2. [bit_get_integer_seq] ignores blanks and tabs wherever they stand,
    and nothing after the first newline or NUL character is read. *)
Theorem bit_get_integer_seq_blanks_and_end (a b : string) :
  Bit.bit_get_integer_seq (a ++ String " " b) = Bit.bit_get_integer_seq (a ++ b) /\
  Bit.bit_get_integer_seq (a ++ String "009" b) = Bit.bit_get_integer_seq (a ++ b) /\
  Bit.bit_get_integer_seq (a ++ String "010" b) = Bit.bit_get_integer_seq a /\
  Bit.bit_get_integer_seq (a ++ String "000" b) = Bit.bit_get_integer_seq a.
Proof.
  unfold Bit.bit_get_integer_seq. rewrite !list_ascii_of_string_app. cbn [list_ascii_of_string].
  repeat split.
  - apply parse_skips_blank. left; reflexivity.
  - apply parse_skips_blank. right; reflexivity.
  - apply parse_stops. right; reflexivity.
  - apply parse_stops. left; reflexivity.
Qed.

Lemma lor_double_1 (a : Z) : Z.lor (2 * a) 1 = 2 * a + 1.
Proof.
  rewrite Z.or_to_plus; [reflexivity|].
  apply Z.bits_inj'. intros n Hn. rewrite Z.land_spec, Z.bits_0.
  destruct (Z.eq_dec n 0) as [->|Hne].
  - rewrite Z.testbit_even_0. reflexivity.
  - change 1 with (2 ^ 0). rewrite Z.pow2_bits_false by lia. apply andb_false_r.
Qed.

Lemma shiftr_bit (s n : Z) :
  0 <= n -> Z.shiftr s n = 2 * Z.shiftr s (n + 1) + Z.b2z (Z.testbit s n).
Proof.
  intros Hn. rewrite (Z.testbit_spec' s n) by lia.
  rewrite !Z.shiftr_div_pow2 by lia.
  rewrite Z.pow_add_r by lia. change (2 ^ 1) with 2.
  rewrite <- Z.div_div by lia.
  pose proof (Z.div_mod (s / 2 ^ n) 2 ltac:(lia)) as H. lia.
Qed.

Lemma text_loop_parse (s L : Z) :
  1 <= L <= 64 -> 0 <= s < 2 ^ L ->
  forall n : nat, Z.of_nat n <= L ->
    Bit.bit_get_integer_seq_from (Z.shiftr s (Z.of_nat n))
      (UsearchText.text_loop n (u64 (Z.shiftl s (L - Z.of_nat n))) (2 ^ (L - 1))) = s.
Proof.
  intros HL Hs. induction n as [|n IH]; intros Hn.
  - cbn. apply Z.shiftr_0_r.
  - cbn [UsearchText.text_loop].
    assert (Hbit : (Z.land (u64 (Z.shiftl s (L - Z.of_nat (S n)))) (2 ^ (L - 1)) =? 0)
                   = negb (Z.testbit s (Z.of_nat n))).
    { rewrite land_pow2_eqb by lia. f_equal.
      rewrite testbit_u64 by lia. rewrite Z.shiftl_spec by lia. f_equal. lia. }
    assert (Hnext : u64 (Z.shiftl (u64 (Z.shiftl s (L - Z.of_nat (S n)))) 1)
                    = u64 (Z.shiftl s (L - Z.of_nat n))).
    { unfold u64. rewrite !Z.shiftl_mul_pow2 by lia.
      rewrite Z.mul_mod_idemp_l by lia. rewrite <- Z.mul_assoc, <- Z.pow_add_r by lia.
      f_equal. f_equal. f_equal. lia. }
    assert (Hacc : 0 <= Z.shiftr s (Z.of_nat (S n)) < 2 ^ 63).
    { rewrite Z.shiftr_div_pow2 by lia. split.
      - apply Z.div_pos; lia.
      - apply Z.div_lt_upper_bound; [lia|].
        assert (2 ^ L <= 2 ^ 64) by (apply Z.pow_le_mono_r; lia).
        assert (2 ^ 1 <= 2 ^ Z.of_nat (S n)) by (apply Z.pow_le_mono_r; lia).
        change (2 ^ 1) with 2 in *. change (2 ^ 64) with (2 * 2 ^ 63) in *. nia. }
    assert (Hshift : u64 (Z.shiftl (Z.shiftr s (Z.of_nat (S n))) 1)
                     = 2 * Z.shiftr s (Z.of_nat (S n))).
    { rewrite Z.shiftl_mul_pow2 by lia. change (2 ^ 1) with 2.
      rewrite u64_small; lia. }
    rewrite Hnext, Hbit.
    pose proof (shiftr_bit s (Z.of_nat n) ltac:(lia)) as Hstep.
    replace (Z.of_nat n + 1) with (Z.of_nat (S n)) in Hstep by lia.
    destruct (Z.testbit s (Z.of_nat n)); cbn [negb Z.b2z] in *;
      cbn [Bit.bit_get_integer_seq_from Ascii.eqb Bool.eqb orb andb];
      rewrite Hshift; [rewrite lor_double_1|];
      match goal with
      | |- Bit.bit_get_integer_seq_from ?a _ = _ =>
          replace a with (Z.shiftr s (Z.of_nat n)) by lia
      end; apply IH; lia.
Qed.

(** ** ultimate_search.c: display_sequence *)

(** X3. The digits that [display_sequence] writes for a sequence of
    [length] bits are read back by [bit_get_integer_seq] as the same
    integer. *)
Theorem display_sequence_round_trip (s length : Z) :
  1 <= length <= 64 -> 0 <= s < 2 ^ length ->
  Bit.bit_get_integer_seq (string_of_list_ascii (UsearchText.text_array s length)) = s.
Proof.
  intros HL Hs. unfold Bit.bit_get_integer_seq, UsearchText.text_array.
  rewrite list_ascii_of_string_of_list_ascii.
  pose proof (text_loop_parse s length HL Hs (Z.to_nat length) ltac:(lia)) as H.
  rewrite Z2Nat.id in H by lia.
  rewrite Z.sub_diag, Z.shiftl_0_r in H.
  rewrite Z.shiftr_div_pow2, Z.div_small in H by lia.
  rewrite one_bit_u64 by lia.
  rewrite u64_small in H; [exact H|].
  assert (2 ^ length <= 2 ^ 64) by (apply Z.pow_le_mono_r; lia). lia.
Qed.

Lemma display_sequence_round_trip_witness :
  1 <= 52 <= 64 /\ 0 <= Sample.red < 2 ^ 52 /\
  Bit.bit_get_integer_seq (string_of_list_ascii (UsearchText.text_array Sample.red 52))
  = Sample.red.
Proof.
  assert (H1 : 1 <= 52 <= 64) by lia.
  assert (H2 : 0 <= Sample.red < 2 ^ 52) by (unfold Sample.red; lia).
  split; [exact H1|]. split; [exact H2|].
  exact (display_sequence_round_trip Sample.red 52 H1 H2).
Defined.

(** ** bit_utilities.c: bit_display_integer_sequence *)

Lemma digit_loop_length (n : nat) : forall bit_mask sequence,
  length (BitText.digit_loop n bit_mask sequence) = n.
Proof. induction n as [|n IH]; intros; cbn; [reflexivity | rewrite IH; reflexivity]. Qed.

Lemma digit_loop_nth (seq : Z) (n : nat) :
  forall (k : Z) (j : nat), (j < n)%nat -> Z.of_nat n <= k + 1 ->
    nth j (BitText.digit_loop n (2 ^ k) seq) "0"%char
    = if Z.testbit seq (k - Z.of_nat j) then "1"%char else "0"%char.
Proof.
  induction n as [|n IH]; intros k j Hj Hk; [lia|].
  cbn [BitText.digit_loop]. destruct j as [|j].
  - cbn [nth]. rewrite Z.land_comm, land_pow2_eqb by lia.
    rewrite Z.sub_0_r. destruct (Z.testbit seq k); reflexivity.
  - cbn [nth].
    assert (Hs : Z.shiftr (2 ^ k) 1 = 2 ^ (k - 1)).
    { rewrite Z.shiftr_div_pow2 by lia. change (2 ^ 1) with 2.
      replace k with (k - 1 + 1) at 1 by lia. rewrite Z.pow_add_r by lia.
      change (2 ^ 1) with 2. rewrite Z.div_mul by lia. reflexivity. }
    rewrite Hs, IH by lia.
    replace (k - 1 - Z.of_nat j) with (k - Z.of_nat (S j)) by lia. reflexivity.
Qed.

(** X4. With 52-bit sequences, digit [j] of the line printed by
    [bit_display_integer_sequence] is the bit of deck position
    [(j + first_bit_index) mod 52] (bit [51 - p] belongs to position [p]):
    the sequence is shown rotated like the deck that is cut at
    [first_bit_index]. *)
Theorem bit_display_rotates_sequence (seq first_bit_index : Z) (j : nat) :
  0 <= first_bit_index < 52 -> (j < 52)%nat ->
  length (BitText.display_digits seq first_bit_index 52) = 52%nat /\
  nth j (BitText.display_digits seq first_bit_index 52) "0"%char
  = if Z.testbit seq (51 - (Z.of_nat j + first_bit_index) mod 52)
    then "1"%char else "0"%char.
Proof.
  intros Hf Hj. unfold BitText.display_digits. cbv zeta.
  rewrite !one_bit_u64 by lia. split.
  - rewrite length_app, !digit_loop_length. lia.
  - destruct (Nat.lt_ge_cases j (Z.to_nat (52 - first_bit_index))) as [Hlt|Hge].
    + rewrite app_nth1 by (rewrite digit_loop_length; exact Hlt).
      rewrite digit_loop_nth by lia.
      rewrite Z.mod_small by lia.
      replace (52 - (first_bit_index + 1) - Z.of_nat j)
        with (51 - (Z.of_nat j + first_bit_index)) by lia. reflexivity.
    + rewrite app_nth2 by (rewrite digit_loop_length; exact Hge).
      rewrite digit_loop_length, digit_loop_nth by lia.
      replace ((Z.of_nat j + first_bit_index) mod 52)
        with (Z.of_nat j + first_bit_index - 52).
      * replace (51 - Z.of_nat (j - Z.to_nat (52 - first_bit_index)))
          with (51 - (Z.of_nat j + first_bit_index - 52)) by lia. reflexivity.
      * apply Z.mod_unique with (q := 1); lia.
Qed.

Lemma bit_display_rotates_sequence_witness :
  0 <= 3 < 52 /\ (50 < 52)%nat /\
  nth 50 (BitText.display_digits Sample.red 3 52) "0"%char
  = if Z.testbit Sample.red (51 - (Z.of_nat 50 + 3) mod 52) then "1"%char else "0"%char.
Proof.
  assert (H1 : 0 <= 3 < 52) by lia.
  assert (H2 : (50 < 52)%nat) by lia.
  split; [exact H1|]. split; [exact H2|].
  exact (proj2 (bit_display_rotates_sequence Sample.red 3 50 H1 H2)).
Defined.

(** ** deck_utilities.c *)

Section DeckSequence.
Import Deck.

Variable member : Z -> bool.

Lemma upto_nth (n : Z) (j : nat) : (j < Z.to_nat n)%nat -> nth j (upto n) 0 = Z.of_nat j.
Proof.
  intros H. unfold upto. rewrite (nth_indep _ 0 (Z.of_nat 0)) by (rewrite length_map, length_seq; lia).
  rewrite map_nth, seq_nth by lia. reflexivity.
Qed.

Lemma sequence_fold (l : list Z) :
  forall (acc a : Z),
    0 <= a -> a + Z.of_nat (length l) <= 64 -> 0 <= acc < 2 ^ a ->
    let r := fold_left
               (fun sequence i =>
                  let sequence := u64 (Z.shiftl sequence 1) in
                  if member i then Z.lor sequence 1 else sequence) l acc in
    0 <= r < 2 ^ (a + Z.of_nat (length l)) /\
    (forall k, 0 <= k -> Z.testbit r (Z.of_nat (length l) + k) = Z.testbit acc k) /\
    (forall j, (j < length l)%nat ->
       Z.testbit r (Z.of_nat (length l) - 1 - Z.of_nat j) = member (nth j l 0)).
Proof.
  induction l as [|x l IH]; intros acc a Ha Hlen Hacc; cbn zeta.
  - cbn [fold_left length]. rewrite Z.add_0_r. split; [exact Hacc|]. split.
    + intros k Hk. reflexivity.
    + intros j Hj. cbn in Hj. lia.
  - cbn [fold_left]. cbn [length] in Hlen.
    set (acc' := if member x then Z.lor (u64 (Z.shiftl acc 1)) 1 else u64 (Z.shiftl acc 1)).
    assert (Hpow : 2 ^ a <= 2 ^ 63) by (apply Z.pow_le_mono_r; lia).
    assert (Hsh : u64 (Z.shiftl acc 1) = 2 * acc).
    { rewrite Z.shiftl_mul_pow2 by lia. change (2 ^ 1) with 2.
      rewrite u64_small; [lia|]. change (2 ^ 64) with (2 * 2 ^ 63). lia. }
    assert (Hacc' : acc' = 2 * acc + Z.b2z (member x)).
    { unfold acc'. rewrite Hsh. destruct (member x); cbn [Z.b2z]; [apply lor_double_1 | lia]. }
    assert (Hr' : 0 <= acc' < 2 ^ (a + 1)).
    { rewrite Hacc', Z.pow_add_r by lia. change (2 ^ 1) with 2.
      destruct (member x); cbn [Z.b2z]; lia. }
    destruct (IH acc' (a + 1) ltac:(lia) ltac:(lia) Hr') as (Hrange & Hhigh & Hlow).
    cbn zeta in Hrange, Hhigh, Hlow. cbn [length].
    split; [|split].
    + replace (a + Z.of_nat (S (length l))) with (a + 1 + Z.of_nat (length l)) by lia.
      exact Hrange.
    + intros k Hk.
      replace (Z.of_nat (S (length l)) + k) with (Z.of_nat (length l) + (k + 1)) by lia.
      rewrite Hhigh by lia. rewrite Hacc'.
      replace (k + 1) with (Z.succ k) by lia.
      rewrite Z.testbit_succ_r by lia. reflexivity.
    + intros j Hj. destruct j as [|j].
      * cbn [nth].
        replace (Z.of_nat (S (length l)) - 1 - Z.of_nat 0) with (Z.of_nat (length l) + 0) by lia.
        rewrite Hhigh by lia. rewrite Hacc', Z.testbit_0_r. reflexivity.
      * cbn [nth].
        replace (Z.of_nat (S (length l)) - 1 - Z.of_nat (S j))
          with (Z.of_nat (length l) - 1 - Z.of_nat j) by lia.
        apply Hlow. lia.
Qed.

End DeckSequence.

(** X5. For a deck of at most 64 cards, [deck_get_sequence_from_deck]
    returns a word below [2 ^ deck_length] whose bit
    [deck_length - 1 - i] tells whether the value of card [i] (its low
    byte) is in the value array. *)
Theorem deck_get_sequence_from_deck_bits
    (value_array : list Z) (value_length : Z) (d : Deck.deck_info_t) (i : Z) :
  0 <= Deck.deck_length d <= 64 ->
  0 <= i < Deck.deck_length d ->
  0 <= Deck.deck_get_sequence_from_deck value_array value_length d
    < 2 ^ Deck.deck_length d /\
  Z.testbit (Deck.deck_get_sequence_from_deck value_array value_length d)
            (Deck.deck_length d - 1 - i)
  = Deck.deck_is_value_in_array (Z.land (aget (Deck.temp_deck_array d) i) 0xFF)
      value_array value_length.
Proof.
  intros HL Hi. unfold Deck.deck_get_sequence_from_deck.
  pose proof (sequence_fold
                (fun i => Deck.deck_is_value_in_array
                            (Z.land (aget (Deck.temp_deck_array d) i) 0xFF)
                            value_array value_length)
                (upto (Deck.deck_length d)) 0 0 ltac:(lia)) as H.
  rewrite upto_length in H by lia.
  specialize (H ltac:(lia) ltac:(lia)). cbn zeta in H.
  destruct H as (Hrange & _ & Hlow). split; [exact Hrange|].
  specialize (Hlow (Z.to_nat i)).
  rewrite upto_nth in Hlow by lia. rewrite Z2Nat.id in Hlow by lia.
  apply Hlow. apply Nat2Z.inj_lt. rewrite upto_length by lia. lia.
Qed.

Lemma deck_get_sequence_from_deck_bits_witness :
  0 <= Deck.deck_length Sample.deck_info_0 <= 64 /\
  0 <= 7 < Deck.deck_length Sample.deck_info_0 /\
  Z.testbit (Deck.deck_get_sequence_from_deck Umake.c27_value_array 6 Sample.deck_info_0)
            (Deck.deck_length Sample.deck_info_0 - 1 - 7)
  = Deck.deck_is_value_in_array
      (Z.land (aget (Deck.temp_deck_array Sample.deck_info_0) 7) 0xFF)
      Umake.c27_value_array 6.
Proof.
  assert (H1 : 0 <= Deck.deck_length Sample.deck_info_0 <= 64) by (vm_compute; split; discriminate).
  assert (H2 : 0 <= 7 < Deck.deck_length Sample.deck_info_0) by (vm_compute; split; [discriminate | reflexivity]).
  split; [exact H1|]. split; [exact H2|].
  exact (proj2 (deck_get_sequence_from_deck_bits Umake.c27_value_array 6
                  Sample.deck_info_0 7 H1 H2)).
Defined.

Section TopCard.
Import Deck DeckCut.

Variable d : deck_info_t.

Lemma top_card_loop (n : nat) :
  let nine := Z.shiftl SUIT_DIAMOND 8 + 9 in
  let r := fold_left
             (fun top_card_index i =>
                if aget (deck_array d) i =? nine
                then (i + 1) mod deck_length d
                else top_card_index)
             (upto (Z.of_nat n)) 0 in
  (r = 0 /\ forall i, 0 <= i < Z.of_nat n -> aget (deck_array d) i <> nine) \/
  (exists i, 0 <= i < Z.of_nat n /\ aget (deck_array d) i = nine /\
             r = (i + 1) mod deck_length d).
Proof.
  cbv zeta. induction n as [|n IH].
  - left. split; [reflexivity | intros i Hi; lia].
  - rewrite upto_succ, fold_left_app. cbn [fold_left].
    destruct (Z.eqb_spec (aget (deck_array d) (Z.of_nat n)) (Z.shiftl SUIT_DIAMOND 8 + 9))
      as [E|E].
    + right. exists (Z.of_nat n). split; [lia|]. split; [exact E | reflexivity].
    + destruct IH as [[Hr Hno]|(i & Hi & Hc & Hr)].
      * left. split; [exact Hr|]. intros i Hi.
        destruct (Z.eq_dec i (Z.of_nat n)) as [->|Hne]; [exact E | apply Hno; lia].
      * right. exists i. split; [lia|]. split; assumption.
Qed.

End TopCard.

(** X6. [deck_get_top_card_index] returns an index inside the deck; shown
    from that index by [deck_display_stack], the deck ends with the Nine of
    Diamonds whenever the deck holds one, and a deck without it is shown
    from index 0. *)
Theorem deck_get_top_card_index_cuts (d : Deck.deck_info_t) :
  0 < Deck.deck_length d ->
  let nine := Z.shiftl Deck.SUIT_DIAMOND 8 + 9 in
  let top := DeckCut.deck_get_top_card_index d in
  0 <= top < Deck.deck_length d /\
  ((exists i, 0 <= i < Deck.deck_length d /\ aget (Deck.deck_array d) i = nine) ->
   DeckCut.displayed_card d top (Deck.deck_length d - 1) = nine) /\
  ((forall i, 0 <= i < Deck.deck_length d -> aget (Deck.deck_array d) i <> nine) ->
   top = 0).
Proof.
  intros HL. cbv zeta.
  pose proof (top_card_loop d (Z.to_nat (Deck.deck_length d))) as H. cbv zeta in H.
  rewrite Z2Nat.id in H by lia.
  change (fold_left _ (upto (Deck.deck_length d)) 0)
    with (DeckCut.deck_get_top_card_index d) in H.
  destruct H as [[Hr Hno]|(i & Hi & Hc & Hr)].
  - rewrite Hr. split; [lia|]. split; [|intros _; reflexivity].
    intros (i & Hi & Hc). destruct (Hno i Hi Hc).
  - rewrite Hr. split; [apply Z.mod_pos_bound; lia|]. split.
    + intros _. unfold DeckCut.displayed_card.
      rewrite Z.add_mod_idemp_r by lia.
      replace (Deck.deck_length d - 1 + (i + 1)) with (i + 1 * Deck.deck_length d) by lia.
      rewrite Z.mod_add, Z.mod_small by lia. exact Hc.
    + intros Hno. destruct (Hno i Hi Hc).
Qed.

Lemma deck_get_top_card_index_cuts_witness :
  let d := Umake.set_deck_array Sample.deck_info_0 Sample.deck_0 in
  0 < Deck.deck_length d /\
  0 <= DeckCut.deck_get_top_card_index d < Deck.deck_length d.
Proof.
  cbv zeta.
  assert (H : 0 < Deck.deck_length (Umake.set_deck_array Sample.deck_info_0 Sample.deck_0))
    by reflexivity.
  split; [exact H|].
  exact (proj1 (deck_get_top_card_index_cuts _ H)).
Defined.

(** ** f64_seq.c: reading a handle *)

Section Reader.
Import F64.

Lemma f64_skip_reads (n : nat) :
  forall h, 0 <= seq_index h ->
    let h' := f64_skip n h in
    sequence h' = sequence h /\ count h' = count h /\
    seq_index h' = Z.max (seq_index h) (Z.min (seq_index h + Z.of_nat n) (count h)).
Proof.
  induction n as [|n IH]; intros h Hi; cbn zeta.
  - cbn [f64_skip]. repeat split; lia.
  - cbn [f64_skip]. unfold f64_next.
    destruct (Z.ltb_spec (seq_index h) (count h)) as [Hlt|Hge]; cbn [snd].
    + destruct (IH {| sequence := sequence h; count := count h;
                      seq_index := seq_index h + 1 |}) as (Hs & Hc & Hx);
        [cbn; lia|]. cbn [sequence count seq_index] in Hs, Hc, Hx.
      split; [exact Hs|]. split; [exact Hc|]. rewrite Hx. lia.
    + destruct (IH h Hi) as (Hs & Hc & Hx).
      split; [exact Hs|]. split; [exact Hc|]. rewrite Hx. lia.
Qed.

End Reader.

(** X7. After [f64_reset], the call number [n] (counted from 0) of
    [f64_next] returns word [n] of the loaded array while [n] is below
    [count], and 0 from then on; the cursor stops at [count]. What was read
    before the reset does not matter. *)
Theorem f64_reset_then_next (h : F64.f64_seq_s) (n : nat) :
  0 <= F64.count h ->
  let h' := F64.f64_skip n (F64.f64_reset h) in
  F64.seq_index h' = Z.min (Z.of_nat n) (F64.count h) /\
  fst (F64.f64_next h')
  = if Z.of_nat n <? F64.count h then aget (F64.sequence h) (Z.of_nat n) else 0.
Proof.
  intros Hc. cbv zeta.
  destruct (f64_skip_reads n (F64.f64_reset h)) as (Hs & Hk & Hx); [cbn; lia|].
  cbn [F64.f64_reset F64.sequence F64.count F64.seq_index] in Hs, Hk, Hx.
  split; [lia|].
  unfold F64.f64_next. rewrite Hs, Hk, Hx.
  destruct (Z.ltb_spec (Z.of_nat n) (F64.count h)) as [Hlt|Hge].
  - replace (Z.max 0 (Z.min (0 + Z.of_nat n) (F64.count h))) with (Z.of_nat n) by lia.
    destruct (Z.ltb_spec (Z.of_nat n) (F64.count h)); [reflexivity | lia].
  - replace (Z.max 0 (Z.min (0 + Z.of_nat n) (F64.count h))) with (F64.count h) by lia.
    rewrite Z.ltb_irrefl. reflexivity.
Qed.

Lemma f64_reset_then_next_witness :
  let h := F64.f64_skip 5 (F64.f64_make [Sample.red; Sample.cd; 0]) in
  0 <= F64.count h /\
  fst (F64.f64_next (F64.f64_skip 1 (F64.f64_reset h)))
  = if Z.of_nat 1 <? F64.count h then aget (F64.sequence h) (Z.of_nat 1) else 0.
Proof.
  cbv zeta.
  assert (H : 0 <= F64.count (F64.f64_skip 5 (F64.f64_make [Sample.red; Sample.cd; 0])))
    by (vm_compute; discriminate).
  split; [exact H|].
  exact (proj2 (f64_reset_then_next _ 1 H)).
Defined.

(** ** dbn_de_bruijn.c: powers of two *)


Lemma smear_step (x m y : Z) :
  0 < m -> smeared x m y -> smeared x (2 * m) (Z.lor y (Z.shiftr y m)).
Proof.
  intros Hm H i Hi. rewrite Z.lor_spec, Z.shiftr_spec by lia.
  rewrite orb_true_iff, (H i Hi), (H (i + m)) by lia. split.
  - intros [(d & Hd & Hb)|(d & Hd & Hb)].
    + exists d. split; [lia | exact Hb].
    + exists (m + d). split; [lia|]. rewrite Z.add_assoc. exact Hb.
  - intros (d & Hd & Hb). destruct (Z.lt_ge_cases d m) as [Hlt|Hge].
    + left. exists d. split; [lia | exact Hb].
    + right. exists (d - m). split; [lia|].
      replace (i + m + (d - m)) with (i + d) by lia. exact Hb.
Qed.

Lemma smeared_ones (x y : Z) :
  0 < x < 2 ^ 32 -> 0 <= y -> smeared x 32 y -> y = Z.ones (Z.log2 x + 1).
Proof.
  intros Hx Hy H.
  pose proof (Z.log2_nonneg x) as Hl0.
  assert (Hl : Z.log2 x < 32) by (apply Z.log2_lt_pow2; lia).
  apply Z.bits_inj'. intros i Hi.
  destruct (Z.lt_ge_cases i (Z.log2 x + 1)) as [Hlt|Hge].
  - rewrite Z.ones_spec_low by lia. apply H; [exact Hi|].
    exists (Z.log2 x - i). split; [lia|].
    replace (i + (Z.log2 x - i)) with (Z.log2 x) by lia. apply Z.bit_log2. lia.
  - rewrite Z.ones_spec_high by lia.
    destruct (Z.testbit y i) eqn:Hb; [exfalso | reflexivity].
    apply (H i Hi) in Hb. destruct Hb as (d & Hd & Hb).
    rewrite Z.bits_above_log2 in Hb by lia. discriminate.
Qed.

Lemma popcount_ones (k : Z) (n : nat) :
  0 <= k -> popcount n (Z.ones k) = Z.min (Z.of_nat n) k.
Proof.
  intros Hk. induction n as [|n IH]; [cbn; lia|].
  cbn [popcount]. rewrite IH.
  destruct (Z.lt_ge_cases (Z.of_nat n) k) as [Hlt|Hge].
  - rewrite Z.ones_spec_low by lia. cbn [Z.b2z]. lia.
  - rewrite Z.ones_spec_high by lia. cbn [Z.b2z]. lia.
Qed.

Lemma smear_32 (x : Z) :
  0 <= x ->
  let y1 := Z.lor x (Z.shiftr x 1) in
  let y2 := Z.lor y1 (Z.shiftr y1 2) in
  let y3 := Z.lor y2 (Z.shiftr y2 4) in
  let y4 := Z.lor y3 (Z.shiftr y3 8) in
  let y5 := Z.lor y4 (Z.shiftr y4 16) in
  0 <= y5 /\ smeared x 32 y5.
Proof.
  intros Hx. cbv zeta. split.
  - repeat (apply Z.lor_nonneg; split; [|apply Z.shiftr_nonneg]); exact Hx || idtac.
    all: repeat (apply Z.lor_nonneg; split; [|apply Z.shiftr_nonneg]); exact Hx.
  - assert (H1 : smeared x 1 x).
    { intros i Hi. split.
      - intros Hb. exists 0. split; [lia|]. rewrite Z.add_0_r. exact Hb.
      - intros (d & Hd & Hb). replace d with 0 in Hb by lia. rewrite Z.add_0_r in Hb. exact Hb. }
    apply (smear_step x 1) in H1; [|lia]. apply (smear_step x 2) in H1; [|lia].
    apply (smear_step x 4) in H1; [|lia]. apply (smear_step x 8) in H1; [|lia].
    apply (smear_step x 16) in H1; [|lia]. exact H1.
Qed.

Lemma next_power_of_two_ones (v : Z) :
  2 <= v <= 2 ^ 32 ->
  let x := v - 1 in
  let y1 := Z.lor x (Z.shiftr x 1) in
  let y2 := Z.lor y1 (Z.shiftr y1 2) in
  let y3 := Z.lor y2 (Z.shiftr y2 4) in
  let y4 := Z.lor y3 (Z.shiftr y3 8) in
  let y5 := Z.lor y4 (Z.shiftr y4 16) in
  y5 = Z.ones (Z.log2 (v - 1) + 1).
Proof.
  intros Hv. cbv zeta.
  destruct (smear_32 (v - 1) ltac:(lia)) as [Hy Hs]. cbv zeta in Hy, Hs.
  apply smeared_ones; [lia | exact Hy | exact Hs].
Qed.

Lemma log_base_2_spec (value : Z) :
  1 <= value <= 2 ^ 31 ->
  let k := Dbn.dbn_get_log_base_2_rounded_up value in
  0 <= k <= 31 /\
  Dbn.dbn_get_next_power_of_two value = 2 ^ k /\
  value <= 2 ^ k < 2 * value.
Proof.
  intros Hv. cbv zeta.
  assert (Hp : exists k, 0 <= k <= 31 /\ Dbn.dbn_get_next_power_of_two value = 2 ^ k
                         /\ value <= 2 ^ k < 2 * value).
  { destruct (Z.eq_dec value 1) as [->|Hne].
    - exists 0. split; [lia|]. split; [reflexivity | cbn; lia].
    - unfold Dbn.dbn_get_next_power_of_two. cbv zeta.
      replace (u32 (value - 1)) with (value - 1)
        by (unfold u32; rewrite Z.mod_small; lia).
      pose proof (next_power_of_two_ones value ltac:(lia)) as H. cbv zeta in H.
      rewrite H. clear H.
      pose proof (Z.log2_spec (value - 1) ltac:(lia)) as [Hlo Hhi].
      assert (Hl : Z.log2 (value - 1) < 31) by (apply Z.log2_lt_pow2; lia).
      pose proof (Z.log2_nonneg (value - 1)) as Hl0.
      exists (Z.log2 (value - 1) + 1). split; [lia|].
      set (L := Z.log2 (value - 1)) in *.
      replace (Z.succ L) with (L + 1) in Hhi by lia.
      assert (HP : 2 ^ (L + 1) = 2 * 2 ^ L).
      { rewrite Z.pow_add_r by lia. change (2 ^ 1) with 2. lia. }
      assert (Hpow : 2 ^ (L + 1) <= 2 ^ 31) by (apply Z.pow_le_mono_r; lia).
      rewrite Z.ones_equiv. unfold u32.
      replace (Z.pred (2 ^ (L + 1)) + 1) with (2 ^ (L + 1)) by lia.
      rewrite Z.mod_small by lia. split; [reflexivity | lia]. }
  destruct Hp as (k & Hk & Hp & Hr).
  unfold Dbn.dbn_get_log_base_2_rounded_up. cbv zeta. rewrite Hp.
  rewrite bit_count_set_bits_popcount.
  replace (2 ^ k - 1) with (Z.ones k) by (rewrite Z.ones_equiv; lia).
  rewrite popcount_ones by lia.
  replace (Z.min (Z.of_nat 32) k) with k by lia.
  split; [exact Hk|]. split; [reflexivity | exact Hr].
Qed.

(** X8. For [1 <= value <= 2 ^ 31], [dbn_get_next_power_of_two] returns the
    least power of two that is at least [value], and
    [dbn_get_log_base_2_rounded_up] returns its exponent. *)
Theorem dbn_next_power_of_two_correct (value : Z) :
  1 <= value <= 2 ^ 31 ->
  let k := Dbn.dbn_get_log_base_2_rounded_up value in
  0 <= k <= 31 /\
  Dbn.dbn_get_next_power_of_two value = 2 ^ k /\
  value <= 2 ^ k < 2 * value.
Proof. exact (log_base_2_spec value). Qed.

Lemma dbn_next_power_of_two_correct_witness :
  1 <= 52 <= 2 ^ 31 /\
  Dbn.dbn_get_next_power_of_two 52 = 2 ^ Dbn.dbn_get_log_base_2_rounded_up 52.
Proof.
  assert (H : 1 <= 52 <= 2 ^ 31) by lia.
  split; [exact H|].
  exact (proj1 (proj2 (dbn_next_power_of_two_correct 52 H))).
Defined.

(** X9. Outside that range, for 0 and for values above [2 ^ 31], the
    32-bit arithmetic of [dbn_get_next_power_of_two] wraps: the result is 0,
    and [dbn_get_log_base_2_rounded_up] returns 32. *)
Theorem dbn_next_power_of_two_wraps (value : Z) :
  value = 0 \/ 2 ^ 31 < value < 2 ^ 32 ->
  Dbn.dbn_get_next_power_of_two value = 0 /\
  Dbn.dbn_get_log_base_2_rounded_up value = 32.
Proof.
  intros Hv.
  assert (Hp : Dbn.dbn_get_next_power_of_two value = 0).
  { destruct Hv as [->|Hv]; [reflexivity|].
    unfold Dbn.dbn_get_next_power_of_two. cbv zeta.
    replace (u32 (value - 1)) with (value - 1)
      by (unfold u32; rewrite Z.mod_small; lia).
    pose proof (next_power_of_two_ones value ltac:(lia)) as H. cbv zeta in H.
    rewrite H. clear H.
    assert (Hl : Z.log2 (value - 1) = 31).
    { apply Z.log2_unique; [lia|]. change (2 ^ Z.succ 31) with (2 ^ 32). lia. }
    rewrite Hl. reflexivity. }
  split; [exact Hp|].
  unfold Dbn.dbn_get_log_base_2_rounded_up. cbv zeta. rewrite Hp. reflexivity.
Qed.

Lemma dbn_next_power_of_two_wraps_witness :
  (2 ^ 31 + 1 = 0 \/ 2 ^ 31 < 2 ^ 31 + 1 < 2 ^ 32) /\
  Dbn.dbn_get_next_power_of_two (2 ^ 31 + 1) = 0.
Proof.
  assert (H : 2 ^ 31 + 1 = 0 \/ 2 ^ 31 < 2 ^ 31 + 1 < 2 ^ 32) by (right; lia).
  split; [exact H|].
  exact (proj1 (dbn_next_power_of_two_wraps _ H)).
Defined.

(** ** dbn_de_bruijn.c: the move stack *)

Section StackDepth.
Import Dbn.

Lemma depth_ok_set_stack (d : dbn_de_bruijn_s) (stack : list dbn_move_t) :
  depth_ok d -> stack_shape (n_sub_sequence_bit_count d) stack ->
  depth_ok (set_stack d stack).
Proof. intros (Hn & Hm & _) Hs. split; [exact Hn|]. split; [exact Hm | exact Hs]. Qed.

Lemma test_subsequence_marks (d : dbn_de_bruijn_s) (word store : Z) :
  0 <= n_sub_sequence_bit_count d <= 6 ->
  subseq_mask d = Z.ones (n_sub_sequence_bit_count d) ->
  fst (test_subsequence d word store) = true ->
  popcount 64 (snd (test_subsequence d word store)) = popcount 64 store + 1.
Proof.
  intros Hn Hmask. unfold test_subsequence. cbv zeta. cbn [fst snd].
  set (idx := Z.land word (subseq_mask d)).
  assert (Hidx : 0 <= idx < 64).
  { unfold idx. rewrite Hmask, Z.land_ones by lia.
    pose proof (Z.mod_pos_bound word (2 ^ n_sub_sequence_bit_count d) ltac:(lia)).
    assert (2 ^ n_sub_sequence_bit_count d <= 2 ^ 6) by (apply Z.pow_le_mono_r; lia).
    change (2 ^ 6) with 64 in *. lia. }
  rewrite one_bit_u64 by exact Hidx.
  rewrite land_pow2_eqb by lia.
  destruct (Z.testbit store idx) eqn:Hb; cbn [negb].
  - rewrite andb_false_r. discriminate.
  - intros _. apply popcount_lor_pow2; [lia | exact Hb].
Qed.

Lemma dbn_step_depth (d : dbn_de_bruijn_s) (m : dbn_move_t) (rest : list dbn_move_t) :
  depth_ok d -> bit_obj_stack d = m :: rest ->
  match dbn_step d m rest with
  | Emitted _ d' => depth_ok d'
  | Stepped d' => depth_ok d'
  end.
Proof.
  intros Hd Hstack.
  destruct Hd as (Hn & Hmask & Hshape). rewrite Hstack in Hshape.
  destruct Hshape as (Hdeep & Hlen & Hrest).
  assert (Hd1 : depth_ok (set_stack d rest)).
  { split; [exact Hn|]. split; [exact Hmask | exact Hrest]. }
  unfold dbn_step. cbv zeta.
  set (d1 := set_stack d rest) in *.
  destruct (negb (n_one_bits d1 =? 0) && _); [exact Hd1|].
  destruct (if n_sub_sequence_bit_count d1 <=? length m + 1 then _ else _)
    as [flag store'] eqn:Htest.
  destruct flag; cbn [negb]; [|exact Hd1].
  destruct ((length m + 1 =? n_bits_max d1) && _).
  - destruct (wrap_loop _ _ _ _ _); exact Hd1.
  - assert (Hstore : length m + 1 <= n_sub_sequence_bit_count d + popcount 64 store').
    { change (n_sub_sequence_bit_count d1) with (n_sub_sequence_bit_count d) in Htest.
      destruct (Z.leb_spec (n_sub_sequence_bit_count d) (length m + 1)) as [Hle|Hgt].
      - pose proof (test_subsequence_marks d1
                      (u64 (u64 (Z.shiftl (value m) 1) + bit m)) (subseq_bit_store m)
                      Hn Hmask) as Hmarks.
        rewrite Htest in Hmarks. cbn [fst snd] in Hmarks.
        rewrite (Hmarks eq_refl). lia.
      - injection Htest as <-. pose proof (popcount_nonneg 64 (subseq_bit_store m)). lia. }
    apply depth_ok_set_stack; [exact Hd1|].
    change (n_sub_sequence_bit_count d1) with (n_sub_sequence_bit_count d).
    cbn [stack_shape Dbn.length subseq_bit_store List.length].
    cbn [List.length] in Hdeep.
    repeat split; try lia; exact Hrest.
Qed.

Lemma after_rounds_depth (d0 d : dbn_de_bruijn_s) :
  depth_ok d0 -> after_rounds d0 d -> depth_ok d.
Proof.
  intros H0 Hr. induction Hr as [|d m rest v d' _ IH Hs Hstep|d m rest d' _ IH Hs Hstep].
  - exact H0.
  - pose proof (dbn_step_depth d m rest IH Hs) as H. rewrite Hstep in H. exact H.
  - pose proof (dbn_step_depth d m rest IH Hs) as H. rewrite Hstep in H. exact H.
Qed.

Lemma dbn_make_depth (n k : Z) (strict : bool) (d0 : dbn_de_bruijn_s) :
  1 <= n -> dbn_make n k strict = Some d0 -> depth_ok d0.
Proof.
  intros Hn. unfold dbn_make.
  destruct (Z.ltb_spec 64 n) as [|Hle]; [discriminate|].
  destruct (log_base_2_spec n ltac:(lia)) as (Hk & _ & Hr). cbv zeta in Hk, Hr.
  revert Hk Hr. generalize (dbn_get_log_base_2_rounded_up n). intros L Hk Hr.
  cbv zeta. intros H. injection H as <-.
  assert (HL : L <= 6).
  { destruct (Z.le_gt_cases L 6) as [|Hgt]; [assumption | exfalso].
    assert (2 ^ 7 <= 2 ^ L) by (apply Z.pow_le_mono_r; lia).
    change (2 ^ 7) with 128 in *. lia. }
  split; [|split].
  - cbn. lia.
  - cbn [dbn_reset set_stack n_sub_sequence_bit_count subseq_mask].
    rewrite one_bit_u64 by lia. rewrite Z.ones_equiv. lia.
  - cbn [dbn_reset set_stack n_sub_sequence_bit_count bit_obj_stack
         stack_shape Dbn.length subseq_bit_store List.length].
    rewrite popcount_zero. repeat split; lia.
Qed.

Lemma stack_shape_depth (n_sub : Z) (stack : list dbn_move_t) :
  0 <= n_sub -> stack_shape n_sub stack -> Z.of_nat (List.length stack) <= n_sub + 66.
Proof.
  intros Hn. destruct stack as [|m rest].
  - intros _. cbn [List.length]. lia.
  - cbn [stack_shape]. intros (Hdeep & Hlen & _).
    pose proof (popcount_nonneg 64 (subseq_bit_store m)). cbn [List.length]. lia.
Qed.

End StackDepth.

(** X10. The move stack of a generator made for sequences of 1 to 64 bits
    never holds more than 72 moves, whatever the population target and the
    strict flag, so the 8192 slots allocated by [dbn_make] are never
    overrun (the source leaves the overflow test commented out). *)
Theorem dbn_stack_never_overflows
    (n k : Z) (strict : bool) (d0 d : Dbn.dbn_de_bruijn_s) :
  1 <= n ->
  Dbn.dbn_make n k strict = Some d0 ->
  after_rounds d0 d ->
  Z.of_nat (length (Dbn.bit_obj_stack d)) <= 72 /\ 72 < Dbn.BIT_OBJECT_STACK_SIZE.
Proof.
  intros Hn Hmake Hr. split; [|reflexivity].
  pose proof (after_rounds_depth d0 d (dbn_make_depth n k strict d0 Hn Hmake) Hr)
    as (Hsub & _ & Hshape).
  pose proof (stack_shape_depth _ _ (proj1 Hsub) Hshape). lia.
Qed.

Lemma dbn_stack_never_overflows_witness :
  1 <= 52 /\
  Dbn.dbn_make 52 26 false = Some Sample.generator /\
  after_rounds Sample.generator Sample.generator /\
  Z.of_nat (length (Dbn.bit_obj_stack Sample.generator)) <= 72.
Proof.
  assert (H1 : 1 <= 52) by lia.
  assert (H2 : Dbn.dbn_make 52 26 false = Some Sample.generator) by reflexivity.
  assert (H3 : after_rounds Sample.generator Sample.generator) by constructor.
  split; [exact H1|]. split; [exact H2|]. split; [exact H3|].
  exact (proj1 (dbn_stack_never_overflows 52 26 false _ _ H1 H2 H3)).
Defined.

Section Reset.
Import Dbn.

Lemma dbn_step_keeps_fields (d : dbn_de_bruijn_s) (m : dbn_move_t) (rest : list dbn_move_t) :
  match dbn_step d m rest with
  | Emitted _ d' => dbn_reset d' = dbn_reset d
  | Stepped d' => dbn_reset d' = dbn_reset d
  end.
Proof.
  unfold dbn_step. cbv zeta.
  destruct (negb _ && _); [reflexivity|].
  destruct (if _ <=? _ then _ else _) as [flag store'].
  destruct (negb flag); [reflexivity|].
  destruct (_ && _); [|reflexivity].
  destruct (wrap_loop _ _ _ _ _); reflexivity.
Qed.

Lemma after_rounds_reset (d0 d : dbn_de_bruijn_s) :
  after_rounds d0 d -> dbn_reset d = dbn_reset d0.
Proof.
  intros Hr. induction Hr as [|d m rest v d' _ IH Hs Hstep|d m rest d' _ IH Hs Hstep].
  - reflexivity.
  - pose proof (dbn_step_keeps_fields d m rest) as H. rewrite Hstep in H. congruence.
  - pose proof (dbn_step_keeps_fields d m rest) as H. rewrite Hstep in H. congruence.
Qed.

Lemma dbn_next_rounds (fuel : nat) :
  forall d v d', dbn_next fuel d = Some (v, d') -> after_rounds d d'.
Proof.
  induction fuel as [|fuel IH]; intros d v d' H.
  - cbn in H. destruct (bit_obj_stack d); [|discriminate].
    injection H as _ <-. constructor.
  - cbn [dbn_next] in H. destruct (bit_obj_stack d) as [|m rest] eqn:Hs.
    + injection H as _ <-. constructor.
    + destruct (dbn_step d m rest) as [v1 d1|d1] eqn:Hstep.
      * injection H as _ <-. eapply rounds_emitted; [constructor | exact Hs | exact Hstep].
      * specialize (IH d1 v d' H).
        assert (H1 : after_rounds d d1)
          by (eapply rounds_stepped; [constructor | exact Hs | exact Hstep]).
        clear - IH H1. induction IH.
        -- exact H1.
        -- eapply rounds_emitted; eassumption.
        -- eapply rounds_stepped; eassumption.
Qed.

Lemma after_calls_rounds (d0 d : dbn_de_bruijn_s) : after_calls d0 d -> after_rounds d0 d.
Proof.
  intros Hc. induction Hc as [|d fuel v d' _ IH Hnext]; [constructor|].
  pose proof (dbn_next_rounds fuel d v d' Hnext) as Hr.
  clear - IH Hr. induction Hr.
  - exact IH.
  - eapply rounds_emitted; eassumption.
  - eapply rounds_stepped; eassumption.
Qed.

Lemma dbn_reset_idem (d : dbn_de_bruijn_s) : dbn_reset (dbn_reset d) = dbn_reset d.
Proof. reflexivity. Qed.

End Reset.

(** X11. [dbn_reset] after any number of [dbn_next] calls puts the
    generator back into the state [dbn_make] built: the calls that follow
    return what the first calls returned. *)
Theorem dbn_reset_restarts
    (n k : Z) (strict : bool) (d0 d : Dbn.dbn_de_bruijn_s) (fuel : nat) :
  Dbn.dbn_make n k strict = Some d0 ->
  Dbn.after_calls d0 d ->
  Dbn.dbn_reset d = d0 /\
  Dbn.dbn_next fuel (Dbn.dbn_reset d) = Dbn.dbn_next fuel d0.
Proof.
  intros Hmake Hc.
  assert (H0 : Dbn.dbn_reset d0 = d0).
  { unfold Dbn.dbn_make in Hmake. destruct (64 <? n); [discriminate|].
    injection Hmake as <-. apply dbn_reset_idem. }
  assert (H : Dbn.dbn_reset d = d0).
  { rewrite (after_rounds_reset d0 d (after_calls_rounds d0 d Hc)). exact H0. }
  split; [exact H | rewrite H; reflexivity].
Qed.

Lemma dbn_reset_restarts_witness :
  Dbn.dbn_make 52 26 false = Some Sample.generator /\
  Dbn.after_calls Sample.generator Sample.generator /\
  Dbn.dbn_reset Sample.generator = Sample.generator.
Proof.
  assert (H1 : Dbn.dbn_make 52 26 false = Some Sample.generator) by reflexivity.
  assert (H2 : Dbn.after_calls Sample.generator Sample.generator) by constructor.
  split; [exact H1|]. split; [exact H2|].
  exact (proj1 (dbn_reset_restarts 52 26 false _ _ 0 H1 H2)).
Defined.

Section Termination.
Import Dbn.

Lemma round_weight_pos (n_sub : Z) (m : dbn_move_t) :
  n_sub <= 6 -> 0 <= Dbn.length m <= n_sub + popcount 64 (subseq_bit_store m) ->
  1 <= round_weight m.
Proof.
  intros Hn Hl. pose proof (popcount_nonneg 64 (subseq_bit_store m)).
  unfold round_weight.
  assert (2 ^ 1 <= 2 ^ (71 - Dbn.length m)) by (apply Z.pow_le_mono_r; lia).
  change (2 ^ 1) with 2 in *. lia.
Qed.

Lemma rounds_left_nonneg (n_sub : Z) (stack : list dbn_move_t) :
  n_sub <= 6 -> stack_shape n_sub stack -> 0 <= rounds_left stack.
Proof.
  intros Hn. induction stack as [|m rest IH]; cbn [rounds_left stack_shape]; [lia|].
  intros (_ & Hl & Hrest). pose proof (round_weight_pos n_sub m Hn Hl). specialize (IH Hrest). lia.
Qed.

Lemma dbn_step_weight (d : dbn_de_bruijn_s) (m : dbn_move_t) (rest : list dbn_move_t) :
  depth_ok d -> bit_obj_stack d = m :: rest ->
  match dbn_step d m rest with
  | Emitted _ d' => True
  | Stepped d' => rounds_left (bit_obj_stack d') < rounds_left (bit_obj_stack d)
  end.
Proof.
  intros Hd Hstack.
  pose proof (dbn_step_depth d m rest Hd Hstack) as Hnext.
  destruct Hd as (Hn & Hmask & Hshape). rewrite Hstack in Hshape |- *.
  destruct Hshape as (Hdeep & Hlen & Hrest).
  pose proof (round_weight_pos _ m (proj2 Hn) Hlen) as Hw.
  revert Hnext. unfold dbn_step. cbv zeta.
  destruct (negb _ && _); [intros _; cbn [set_stack bit_obj_stack rounds_left]; lia|].
  destruct (if _ <=? _ then _ else _) as [flag store'].
  destruct (negb flag); [intros _; cbn [set_stack bit_obj_stack rounds_left]; lia|].
  destruct (_ && _).
  - destruct (wrap_loop _ _ _ _ _); intros _;
      [exact I | cbn [set_stack bit_obj_stack rounds_left]; lia].
  - intros (Hn' & _ & Hshape').
    cbn [set_stack bit_obj_stack n_sub_sequence_bit_count stack_shape
         Dbn.length subseq_bit_store] in Hshape', Hn'.
    destruct Hshape' as (_ & Hlen' & _).
    pose proof (popcount_nonneg 64 store').
    cbn [set_stack bit_obj_stack rounds_left]. unfold round_weight in *.
    cbn [Dbn.length].
    replace (71 - Dbn.length m) with (71 - (Dbn.length m + 1) + 1) by lia.
    rewrite Z.pow_add_r by lia. change (2 ^ 1) with 2.
    assert (0 < 2 ^ (71 - (Dbn.length m + 1))) by (apply Z.pow_pos_nonneg; lia).
    lia.
Qed.

Lemma dbn_next_enough_fuel (w : nat) :
  forall d, depth_ok d -> rounds_left (bit_obj_stack d) <= Z.of_nat w ->
    exists v d', dbn_next (S w) d = Some (v, d').
Proof.
  induction w as [|w IH]; intros d Hd Hw.
  - cbn [dbn_next]. destruct (bit_obj_stack d) as [|m rest] eqn:Hs; [eauto|].
    pose proof (dbn_step_weight d m rest Hd Hs) as Hlt.
    pose proof (dbn_step_depth d m rest Hd Hs) as Hnext.
    destruct (dbn_step d m rest) as [v d1|d1]; [eauto|].
    rewrite Hs in Hlt. exfalso.
    destruct Hnext as (Hn1 & _ & Hshape1).
    pose proof (rounds_left_nonneg _ _ (proj2 Hn1) Hshape1). lia.
  - cbn [dbn_next]. destruct (bit_obj_stack d) as [|m rest] eqn:Hs; [eauto|].
    pose proof (dbn_step_weight d m rest Hd Hs) as Hlt.
    pose proof (dbn_step_depth d m rest Hd Hs) as Hnext.
    destruct (dbn_step d m rest) as [v d1|d1]; [eauto|].
    rewrite Hs in Hlt. apply IH; [exact Hnext | lia].
Qed.

End Termination.

(** X12. Every call of [dbn_next] returns: on a generator made for
    sequences of 1 to 64 bits the search loop ends after finitely many
    rounds, for every population target and either setting of the strict
    flag. *)
Theorem dbn_next_returns (n k : Z) (strict : bool) (d0 d : Dbn.dbn_de_bruijn_s) :
  1 <= n ->
  Dbn.dbn_make n k strict = Some d0 ->
  after_rounds d0 d ->
  exists fuel v d', Dbn.dbn_next fuel d = Some (v, d').
Proof.
  intros Hn Hmake Hr.
  pose proof (after_rounds_depth d0 d (dbn_make_depth n k strict d0 Hn Hmake) Hr) as Hd.
  assert (H0 : 0 <= rounds_left (Dbn.bit_obj_stack d)).
  { destruct Hd as (Hsub & _ & Hshape). exact (rounds_left_nonneg _ _ (proj2 Hsub) Hshape). }
  exists (S (Z.to_nat (rounds_left (Dbn.bit_obj_stack d)))).
  apply dbn_next_enough_fuel; [exact Hd | lia].
Qed.

Lemma dbn_next_returns_witness :
  1 <= 52 /\
  Dbn.dbn_make 52 26 false = Some Sample.generator /\
  after_rounds Sample.generator Sample.generator /\
  exists fuel v d', Dbn.dbn_next fuel Sample.generator = Some (v, d').
Proof.
  assert (H1 : 1 <= 52) by lia.
  assert (H2 : Dbn.dbn_make 52 26 false = Some Sample.generator) by reflexivity.
  assert (H3 : after_rounds Sample.generator Sample.generator) by constructor.
  split; [exact H1|]. split; [exact H2|]. split; [exact H3|].
  exact (dbn_next_returns 52 26 false _ _ H1 H2 H3).
Defined.

(** ** ultimate_search.c: the overlap tests *)

Section Overlap.
Import Usearch.

Lemma popcount_u64 (x : Z) : popcount 64 (u64 x) = popcount 64 x.
Proof. apply popcount_ext. intros k Hk. apply testbit_u64. lia. Qed.

Lemma count_set_bits_64_loop_spec (max_bit_count : Z) (fuel : nat) :
  forall v c, 0 <= v < 2 ^ 64 -> (Z.to_nat (popcount 64 v) <= fuel)%nat ->
    c <= max_bit_count ->
    count_set_bits_64_loop fuel v c max_bit_count
    = Z.min (c + popcount 64 v) (max_bit_count + 1).
Proof.
  induction fuel as [|fuel IH]; intros v c Hv Hf Hc.
  - cbn [count_set_bits_64_loop].
    destruct (Z.eq_dec v 0) as [->|Hne]; [rewrite popcount_zero; lia|].
    destruct (popcount_clear_lowest 64 v ltac:(lia)) as [H1 _].
    pose proof (popcount_nonneg 64 (Z.land v (v - 1))). lia.
  - cbn [count_set_bits_64_loop]. destruct (Z.eqb_spec v 0) as [->|Hne].
    + rewrite popcount_zero. lia.
    + destruct (popcount_clear_lowest 64 v ltac:(lia)) as [H1 H2].
      pose proof (popcount_nonneg 64 (Z.land v (v - 1))).
      destruct (Z.ltb_spec max_bit_count (c + 1)); [lia|].
      rewrite IH by lia. lia.
Qed.

Lemma count_set_bits_64_spec (value max_bit_count : Z) :
  0 <= max_bit_count ->
  count_set_bits_64 value max_bit_count = Z.min (popcount 64 value) (max_bit_count + 1).
Proof.
  intros Hm. unfold count_set_bits_64.
  pose proof (popcount_nonneg 64 (u64 value)).
  rewrite count_set_bits_64_loop_spec.
  - rewrite popcount_u64. reflexivity.
  - unfold u64. apply Z.mod_pos_bound. lia.
  - lia.
  - exact Hm.
Qed.

Lemma count_is (value n : Z) :
  0 <= n -> (count_set_bits_64 value n =? n) = (popcount 64 value =? n).
Proof.
  intros Hn. rewrite count_set_bits_64_spec by exact Hn.
  destruct (Z.eqb_spec (popcount 64 value) n) as [E|E].
  - apply Z.eqb_eq. lia.
  - apply Z.eqb_neq. lia.
Qed.

Lemma count_is_below (value n m : Z) :
  0 <= m < n -> (count_set_bits_64 value n =? m) = (popcount 64 value =? m).
Proof.
  intros Hn. rewrite count_set_bits_64_spec by lia.
  destruct (Z.eqb_spec (popcount 64 value) m) as [E|E].
  - apply Z.eqb_eq. lia.
  - apply Z.eqb_neq. lia.
Qed.

End Overlap.

(** X13. [count_set_bits_64] counts the one bits of a 64-bit word but stops
    one past [max_bit_count]: it returns the smaller of the population count
    and [max_bit_count + 1]. *)
Theorem count_set_bits_64_saturates (value max_bit_count : Z) :
  0 <= max_bit_count ->
  Usearch.count_set_bits_64 value max_bit_count
  = Z.min (popcount 64 value) (max_bit_count + 1).
Proof. exact (count_set_bits_64_spec value max_bit_count). Qed.

Lemma count_set_bits_64_saturates_witness :
  0 <= 13 /\
  Usearch.count_set_bits_64 Sample.red 13 = Z.min (popcount 64 Sample.red) (13 + 1).
Proof.
  assert (H : 0 <= 13) by lia.
  split; [exact H|]. exact (count_set_bits_64_saturates Sample.red 13 H).
Defined.

(** X14. [is_valid_suit_seq_overlap] accepts exactly the pairs for which
    each of the four bit combinations (one-one, zero-zero, zero-one and
    one-zero, the zeros taken inside the mask) occurs at 13 positions; its
    test that the two sequences differ never decides anything. *)
Theorem is_valid_suit_seq_overlap_counts (seq0 seq1 sequence_mask : Z) :
  Usearch.is_valid_suit_seq_overlap seq0 seq1 sequence_mask = true <->
  popcount 64 (Z.land seq0 seq1) = 13 /\
  popcount 64 (Z.land (Z.land (not64 seq0) sequence_mask)
                      (Z.land (not64 seq1) sequence_mask)) = 13 /\
  popcount 64 (Z.land (Z.land (not64 seq0) sequence_mask) seq1) = 13 /\
  popcount 64 (Z.land seq0 (Z.land (not64 seq1) sequence_mask)) = 13.
Proof.
  unfold Usearch.is_valid_suit_seq_overlap. cbv zeta.
  unfold Usearch.NUMBER_OF_CARDS_IN_A_SUIT. rewrite !count_is by lia.
  split.
  - destruct (Z.eqb_spec (popcount 64 (Z.land seq0 seq1)) 13) as [E1|]; [|discriminate].
    destruct (negb (seq0 =? seq1)); [|discriminate]. cbn [andb].
    destruct (Z.eqb_spec (popcount 64 (Z.land (Z.land (not64 seq0) sequence_mask)
                                              (Z.land (not64 seq1) sequence_mask))) 13)
      as [E2|]; [|discriminate].
    destruct (Z.eqb_spec (popcount 64 (Z.land (Z.land (not64 seq0) sequence_mask) seq1)) 13)
      as [E3|]; [|discriminate].
    intros E4. apply Z.eqb_eq in E4. auto.
  - intros (E1 & E2 & E3 & E4). rewrite E1, E2, E3, E4. cbn.
    destruct (Z.eqb_spec seq0 seq1) as [E|]; [exfalso | reflexivity].
    subst seq1.
    assert (H0 : popcount 64 (Z.land seq0 (Z.land (not64 seq0) sequence_mask)) = 0).
    { rewrite <- (popcount_zero 64). apply popcount_ext. intros k Hk.
      rewrite !Z.land_spec, testbit_not64, Z.bits_0 by lia.
      destruct (Z.testbit seq0 k); reflexivity. }
    lia.
Qed.

(** X15. [is_valid_odd_sequence] accepts exactly when every suit has 6
    positions outside the odd sequence (inside the mask) and 7 positions in
    it; the early stop of the bit counter does not blur either count. *)
Theorem is_valid_odd_sequence_counts (s : Usearch.ultimate_struct_t) :
  Usearch.is_valid_odd_sequence s = true <->
  Forall
    (fun suit_bits =>
       popcount 64 (Z.land suit_bits
                      (Z.land (not64 (Usearch.odd_sequence s)) (Usearch.sequence_mask s))) = 6 /\
       popcount 64 (Z.land suit_bits (Usearch.odd_sequence s)) = 7)
    [Usearch.spade_bits s; Usearch.heart_bits s; Usearch.club_bits s; Usearch.diamond_bits s].
Proof.
  unfold Usearch.is_valid_odd_sequence. cbv zeta. rewrite !count_is by lia.
  rewrite !Forall_cons, Forall_nil. split.
  - intros H.
    repeat match type of H with
           | context [popcount 64 ?x =? ?n] =>
               destruct (Z.eqb_spec (popcount 64 x) n); [|cbn in H; discriminate H]
           end.
    repeat split; assumption.
  - intros H. decompose [and] H. clear H.
    repeat match goal with
           | E : popcount 64 _ = _ |- _ => rewrite E; clear E
           end.
    reflexivity.
Qed.

(** X16. [is_valid_c7k_sequence] accepts exactly when the 7K sequence
    shares 12 zero positions (inside the mask) with each of the odd, red,
    cd and hc sequences. *)
Theorem is_valid_c7k_sequence_counts (s : Usearch.ultimate_struct_t) :
  Usearch.is_valid_c7k_sequence s = true <->
  Forall
    (fun seq0 =>
       popcount 64 (Z.land (Z.land (not64 seq0) (Usearch.sequence_mask s))
                           (Z.land (not64 (Usearch.c7k_sequence s))
                                   (Usearch.sequence_mask s))) = 12)
    [Usearch.odd_sequence s; Usearch.red_sequence s; Usearch.cd_sequence s;
     Usearch.hc_sequence s].
Proof.
  unfold Usearch.is_valid_c7k_sequence, Usearch.get_overlap_counts. cbv zeta.
  unfold Usearch.NUMBER_OF_CARDS_IN_A_SUIT. rewrite !(count_is_below _ 13 12) by lia.
  rewrite !Forall_cons, Forall_nil. split.
  - intros H.
    repeat match type of H with
           | context [popcount 64 ?x =? ?n] =>
               destruct (Z.eqb_spec (popcount 64 x) n); [|cbn in H; discriminate H]
           end.
    repeat split; assumption.
  - intros H. decompose [and] H. clear H.
    repeat match goal with
           | E : popcount 64 _ = _ |- _ => rewrite E; clear E
           end.
    reflexivity.
Qed.

(** ** ultimate_search.c: the histogram of position codes *)

Section Histogram.
Import Usearch.

Lemma low_bit (x i : Z) : 0 <= i -> Z.land (Z.shiftr x i) 1 = Z.b2z (Z.testbit x i).
Proof.
  intros Hi. change 1 with (Z.ones 1). rewrite Z.land_ones by lia.
  change (2 ^ 1) with 2. rewrite <- Z.bit0_mod, Z.shiftr_spec by lia.
  rewrite Z.add_0_l. reflexivity.
Qed.

Lemma histogram_fold (f : Z -> Z) (l : list Z) :
  forall h, (forall i, In i l -> 0 <= f i < Z.of_nat (length h)) ->
    let h' := fold_left (fun h i => aset h (f i) (aget h (f i) + 1)) l h in
    length h' = length h /\
    forall c, aget h' c = aget h c + Z.of_nat (length (List.filter (fun i => f i =? c) l)).
Proof.
  induction l as [|x l IH]; intros h Hf; cbn zeta.
  - cbn. split; [reflexivity | intros; lia].
  - cbn [fold_left List.filter].
    assert (Hx : 0 <= f x < Z.of_nat (length h)) by (apply Hf; left; reflexivity).
    destruct (IH (aset h (f x) (aget h (f x) + 1))) as [Hl Hc].
    { intros i Hi. rewrite aset_length. apply Hf. right. exact Hi. }
    cbn zeta in Hl, Hc. rewrite aset_length in Hl. split; [exact Hl|].
    intros c. rewrite Hc. destruct (Z.eqb_spec (f x) c) as [<-|Hne].
    + rewrite aget_aset_eq by lia. cbn [length]. lia.
    + rewrite aget_aset_ne by exact Hne. lia.
Qed.

Lemma hit_count_array_spec (s : ultimate_struct_t) (c : Z) :
  0 <= c < 16 -> aget (hit_count_array_of s) c = code_count s c.
Proof.
  intros Hc. unfold hit_count_array_of, code_count.
  assert (Hbody : forall h i, In i (upto (n_bits_max s)) ->
            (let low (x : Z) := Z.land (Z.shiftr x i) 1 in
             let index := 0 + low (red_sequence s) in
             let index := Z.shiftl index 1 in
             let index := index + low (cd_sequence s) in
             let index := Z.shiftl index 1 in
             let index := index + low (odd_sequence s) in
             let index := Z.shiftl index 1 in
             let index := index + low (c7k_sequence s) in
             aset h index (aget h index + 1))
            = aset h (position_code s i) (aget h (position_code s i) + 1)).
  { intros h i Hi. cbv beta zeta.
    assert (H0 : 0 <= i).
    { unfold upto in Hi. apply in_map_iff in Hi as (k & <- & _). lia. }
    rewrite !low_bit by exact H0. rewrite !Z.shiftl_mul_pow2 by lia.
    change (2 ^ 1) with 2.
    replace (((0 + Z.b2z (Z.testbit (red_sequence s) i)) * 2
              + Z.b2z (Z.testbit (cd_sequence s) i)) * 2
             + Z.b2z (Z.testbit (odd_sequence s) i)) with
      (4 * Z.b2z (Z.testbit (red_sequence s) i) + 2 * Z.b2z (Z.testbit (cd_sequence s) i)
       + Z.b2z (Z.testbit (odd_sequence s) i)) by lia.
    replace ((4 * Z.b2z (Z.testbit (red_sequence s) i)
              + 2 * Z.b2z (Z.testbit (cd_sequence s) i)
              + Z.b2z (Z.testbit (odd_sequence s) i)) * 2
             + Z.b2z (Z.testbit (c7k_sequence s) i))
      with (position_code s i) by (unfold position_code; lia).
    reflexivity. }
  assert (Hfold : forall l h, (forall i, In i l -> In i (upto (n_bits_max s))) ->
            fold_left
              (fun hit_count_array shift =>
                 let low (x : Z) := Z.land (Z.shiftr x shift) 1 in
                 let index := 0 + low (red_sequence s) in
                 let index := Z.shiftl index 1 in
                 let index := index + low (cd_sequence s) in
                 let index := Z.shiftl index 1 in
                 let index := index + low (odd_sequence s) in
                 let index := Z.shiftl index 1 in
                 let index := index + low (c7k_sequence s) in
                 aset hit_count_array index (aget hit_count_array index + 1)) l h
            = fold_left (fun h i => aset h (position_code s i)
                                      (aget h (position_code s i) + 1)) l h).
  { induction l as [|x l IH]; intros h Hin; [reflexivity|].
    cbn [fold_left]. rewrite <- Hbody by (apply Hin; left; reflexivity).
    apply IH. intros i Hi. apply Hin. right. exact Hi. }
  rewrite Hfold by auto.
  destruct (histogram_fold (position_code s) (upto (n_bits_max s)) (replicate 16 0))
    as [_ Hcount].
  { intros i _. unfold position_code. cbn [length replicate].
    destruct (Z.testbit (red_sequence s) i), (Z.testbit (cd_sequence s) i),
             (Z.testbit (odd_sequence s) i), (Z.testbit (c7k_sequence s) i); cbn; lia. }
  cbn zeta in Hcount. rewrite Hcount.
  assert (H0 : aget (replicate 16 0) c = 0).
  { assert (Hcases : c = 0 \/ c = 1 \/ c = 2 \/ c = 3 \/ c = 4 \/ c = 5 \/ c = 6 \/ c = 7
                     \/ c = 8 \/ c = 9 \/ c = 10 \/ c = 11 \/ c = 12 \/ c = 13 \/ c = 14
                     \/ c = 15) by lia.
    repeat (destruct Hcases as [->|Hcases]; [reflexivity|]). subst c. reflexivity. }
  rewrite H0. lia.
Qed.

End Histogram.

(** X17. [is_valid_deck_sequence] accepts exactly when, over the positions
    below [n_bits_max], each of the sixteen (red, cd, odd, 7K) codes occurs
    three times, and four times where the odd and the 7K bit are both set. *)
Theorem is_valid_deck_sequence_histogram (s : Usearch.ultimate_struct_t) :
  Usearch.is_valid_deck_sequence s = true <->
  forall c, 0 <= c < 16 -> code_count s c = if c mod 4 =? 3 then 4 else 3.
Proof.
  unfold Usearch.is_valid_deck_sequence. cbv zeta.
  rewrite !hit_count_array_spec by lia. split.
  - intros H. rewrite !andb_true_iff, !Z.eqb_eq in H.
    intros c Hc.
    assert (Hcases : c = 0 \/ c = 1 \/ c = 2 \/ c = 3 \/ c = 4 \/ c = 5 \/ c = 6 \/ c = 7
                     \/ c = 8 \/ c = 9 \/ c = 10 \/ c = 11 \/ c = 12 \/ c = 13 \/ c = 14
                     \/ c = 15) by lia.
    decompose [and] H. clear H.
    repeat (destruct Hcases as [->|Hcases]; [cbn; assumption|]). subst c. cbn. assumption.
  - intros H.
    rewrite (H 0), (H 1), (H 2), (H 3), (H 4), (H 5), (H 6), (H 7), (H 8), (H 9),
            (H 10), (H 11), (H 12), (H 13), (H 14), (H 15) by lia.
    reflexivity.
Qed.

(** ** ultimate_search.c: the 8K solver *)

Section Solver8K.
Import Usearch.

Lemma for_loop_search {S R : Type} (same : S -> Prop) (Good : Z -> R -> Prop)
    (Bad : Z -> Prop) (body : Z -> S -> flow S R) (n : nat) :
  forall from s, same s ->
    (forall k s1, same s1 -> from <= k < from + Z.of_nat n ->
       match body k s1 with
       | Return r => Good k r
       | Continue s2 => same s2 /\ Bad k
       end) ->
    match for_loop n from body s with
    | Return r => exists k, from <= k < from + Z.of_nat n /\ Good k r
    | Continue s' => same s' /\ forall k, from <= k < from + Z.of_nat n -> Bad k
    end.
Proof.
  induction n as [|n IH]; intros from s Hs Hb.
  - cbn [for_loop]. split; [exact Hs | intros k Hk; lia].
  - cbn [for_loop]. pose proof (Hb from s Hs ltac:(lia)) as H0.
    destruct (body from s) as [s2|r].
    + destruct H0 as [Hs2 Hbad].
      specialize (IH (from + 1) s2 Hs2).
      assert (Hb' : forall k s1, same s1 -> from + 1 <= k < from + 1 + Z.of_nat n ->
                      match body k s1 with
                      | Return r => Good k r
                      | Continue s3 => same s3 /\ Bad k
                      end) by (intros k s1 H1 Hk; apply Hb; [exact H1 | lia]).
      specialize (IH Hb').
      destruct (for_loop n (from + 1) body s2) as [s'|r].
      * destruct IH as [Hs' Hall]. split; [exact Hs'|].
        intros k Hk. destruct (Z.eq_dec k from) as [->|Hne]; [exact Hbad | apply Hall; lia].
      * destruct IH as (k & Hk & Hg). exists k. split; [lia | exact Hg].
    + exists from. split; [lia | exact H0].
Qed.

Lemma same_but_c8k_refl (s : ultimate_struct_t) : same_but_c8k s s.
Proof. exists (c8k_sequence s). destruct s. reflexivity. Qed.

Lemma aget_in (l : list Z) (k : Z) : 0 <= k < Z.of_nat (length l) -> In (aget l k) l.
Proof.
  intros Hk. unfold aget. destruct (Z.ltb_spec k 0); [lia|]. apply nth_In. lia.
Qed.

Lemma in_aget (l : list Z) (b : Z) :
  In b l -> exists k, 0 <= k < Z.of_nat (length l) /\ aget l k = b.
Proof.
  intros Hin. destruct (In_nth l b 0 Hin) as (n & Hn & Hb).
  exists (Z.of_nat n). split; [lia|]. unfold aget.
  destruct (Z.ltb_spec (Z.of_nat n) 0); [lia|]. rewrite Nat2Z.id. exact Hb.
Qed.

Lemma c8k_body (s s1 : ultimate_struct_t) (sb hb cb db : Z) :
  same_but_c8k s s1 ->
  match
    (let temp := c7k_sequence s1 in
     let temp := u64 (temp - sb) in
     let temp := u64 (temp - hb) in
     let temp := u64 (temp - cb) in
     let temp := u64 (temp - db) in
     if Bit.bit_has_unique_subsequences temp then
       let s2 := set_c8k_sequence s1 temp in
       if sevens_apart_flag s2 && negb (c7k_c8k_diff_valid s2) then Continue s2
       else Return (set_c7k_c8k_diff s2 (Z.lxor (c7k_sequence s2) (c8k_sequence s2)))
     else Continue s1)
  with
  | Return r =>
      c8k_accepted s (c8k_candidate s sb hb cb db) /\
      r = set_c7k_c8k_diff (set_c8k_sequence s (c8k_candidate s sb hb cb db))
            (Z.lxor (c7k_sequence s) (c8k_candidate s sb hb cb db))
  | Continue s2 => same_but_c8k s s2 /\ ~ c8k_accepted s (c8k_candidate s sb hb cb db)
  end.
Proof.
  intros (x & ->). cbv zeta.
  change (c7k_sequence (set_c8k_sequence s x)) with (c7k_sequence s).
  fold (c8k_candidate s sb hb cb db).
  set (temp := c8k_candidate s sb hb cb db).
  change (set_c8k_sequence (set_c8k_sequence s x) temp) with (set_c8k_sequence s temp).
  change (sevens_apart_flag (set_c8k_sequence s temp)) with (sevens_apart_flag s).
  change (c7k_sequence (set_c8k_sequence s temp)) with (c7k_sequence s).
  change (c8k_sequence (set_c8k_sequence s temp)) with temp.
  unfold c8k_accepted.
  destruct (Bit.bit_has_unique_subsequences temp) eqn:Hu.
  - destruct (sevens_apart_flag s) eqn:Hf; cbn [andb].
    + destruct (c7k_c8k_diff_valid (set_c8k_sequence s temp)) eqn:Hd; cbn [negb].
      * split; [split; [reflexivity | intros _; reflexivity] | reflexivity].
      * split; [exists temp; reflexivity|]. intros [_ H]. specialize (H eq_refl). discriminate.
    + split; [split; [reflexivity | intros H; discriminate] | reflexivity].
  - split; [exists x; reflexivity|]. intros [H _]. discriminate.
Qed.

Lemma search_for_c8k_spec (s : ultimate_struct_t) :
  match search_for_c8k_sequence s with
  | (true, s') =>
      exists sb hb cb db,
        In sb (odd_high_bit_array s 0) /\ In hb (odd_high_bit_array s 2) /\
        In cb (odd_high_bit_array s 1) /\ In db (odd_high_bit_array s 3) /\
        c8k_accepted s (c8k_candidate s sb hb cb db) /\
        s' = set_c7k_c8k_diff (set_c8k_sequence s (c8k_candidate s sb hb cb db))
               (Z.lxor (c7k_sequence s) (c8k_candidate s sb hb cb db))
  | (false, s') =>
      same_but_c8k s s' /\
      forall sb hb cb db,
        In sb (odd_high_bit_array s 0) -> In hb (odd_high_bit_array s 2) ->
        In cb (odd_high_bit_array s 1) -> In db (odd_high_bit_array s 3) ->
        ~ c8k_accepted s (c8k_candidate s sb hb cb db)
  end.
Proof.
  unfold search_for_c8k_sequence. cbv zeta.
  set (sa := odd_high_bit_array s 0). set (ca := odd_high_bit_array s 1).
  set (ha := odd_high_bit_array s 2). set (da := odd_high_bit_array s 3).
  pose (result sb hb cb db :=
          set_c7k_c8k_diff (set_c8k_sequence s (c8k_candidate s sb hb cb db))
            (Z.lxor (c7k_sequence s) (c8k_candidate s sb hb cb db))).
  pose (good sb hb cb db r :=
          c8k_accepted s (c8k_candidate s sb hb cb db) /\ r = result sb hb cb db).
  pose (bad sb hb cb db := ~ c8k_accepted s (c8k_candidate s sb hb cb db)).
  match goal with |- context [for_loop ?n ?f ?b s] =>
    pose proof (for_loop_search (same_but_c8k s)
      (fun si r => exists h c d,
           0 <= h < Z.of_nat (length ha) /\ 0 <= c < Z.of_nat (length ca) /\
           0 <= d < Z.of_nat (length da) /\
           good (aget sa si) (aget ha h) (aget ca c) (aget da d) r)
      (fun si => forall h c d,
           0 <= h < Z.of_nat (length ha) -> 0 <= c < Z.of_nat (length ca) ->
           0 <= d < Z.of_nat (length da) ->
           bad (aget sa si) (aget ha h) (aget ca c) (aget da d))
      b n f s (same_but_c8k_refl s)) as H
  end.
  match type of H with ?A -> _ => assert (Hb : A) end.
  { intros si s1 Hs1 Hsi.
    pose proof (for_loop_search (same_but_c8k s)
      (fun h r => exists c d,
           0 <= c < Z.of_nat (length ca) /\ 0 <= d < Z.of_nat (length da) /\
           good (aget sa si) (aget ha h) (aget ca c) (aget da d) r)
      (fun h => forall c d,
           0 <= c < Z.of_nat (length ca) -> 0 <= d < Z.of_nat (length da) ->
           bad (aget sa si) (aget ha h) (aget ca c) (aget da d))) as H2.
    match goal with |- match for_loop ?n ?f ?b s1 with _ => _ end =>
      specialize (H2 b n f s1 Hs1) end.
    match type of H2 with ?A -> _ => assert (Hb2 : A) end.
    { intros h s2 Hs2 Hh.
      pose proof (for_loop_search (same_but_c8k s)
        (fun c r => exists d,
             0 <= d < Z.of_nat (length da) /\
             good (aget sa si) (aget ha h) (aget ca c) (aget da d) r)
        (fun c => forall d,
             0 <= d < Z.of_nat (length da) ->
             bad (aget sa si) (aget ha h) (aget ca c) (aget da d))) as H3.
      match goal with |- match for_loop ?n ?f ?b s2 with _ => _ end =>
        specialize (H3 b n f s2 Hs2) end.
      match type of H3 with ?A -> _ => assert (Hb3 : A) end.
      { intros c s3 Hs3 Hc.
        pose proof (for_loop_search (same_but_c8k s)
          (fun d r => good (aget sa si) (aget ha h) (aget ca c) (aget da d) r)
          (fun d => bad (aget sa si) (aget ha h) (aget ca c) (aget da d))) as H4.
        match goal with |- match for_loop ?n ?f ?b s3 with _ => _ end =>
          specialize (H4 b n f s3 Hs3) end.
        match type of H4 with ?A -> _ => assert (Hb4 : A) end.
        { intros d s4 Hs4 Hd.
          exact (c8k_body s s4 (aget sa si) (aget ha h) (aget ca c) (aget da d) Hs4). }
        specialize (H4 Hb4).
        destruct (for_loop _ _ _ s3) as [s'|r].
        - destruct H4 as [Hs' Hall]. split; [exact Hs'|].
          intros d Hd. apply Hall. lia.
        - destruct H4 as (d & Hd & Hg). exists d. split; [lia | exact Hg]. }
      specialize (H3 Hb3).
      destruct (for_loop _ _ _ s2) as [s'|r].
      - destruct H3 as [Hs' Hall]. split; [exact Hs'|].
        intros c d Hc Hd. apply Hall; lia.
      - destruct H3 as (c & Hc & d & Hd & Hg). exists c, d.
        split; [lia|]. split; [lia | exact Hg]. }
    specialize (H2 Hb2).
    destruct (for_loop _ _ _ s1) as [s'|r].
    - destruct H2 as [Hs' Hall]. split; [exact Hs'|].
      intros h c d Hh Hc Hd. apply Hall; lia.
    - destruct H2 as (h & Hh & c & d & Hc & Hd & Hg). exists h, c, d.
      split; [lia|]. split; [lia|]. split; [lia | exact Hg]. }
  specialize (H Hb). clear Hb.
  destruct (for_loop _ _ _ s) as [s'|r].
  - destruct H as [Hs' Hall]. split; [exact Hs'|].
    intros sb hb cb db Hsb Hhb Hcb Hdb.
    destruct (in_aget _ _ Hsb) as (si & Hsi & <-).
    destruct (in_aget _ _ Hhb) as (h & Hh & <-).
    destruct (in_aget _ _ Hcb) as (c & Hc & <-).
    destruct (in_aget _ _ Hdb) as (d & Hd & <-).
    apply (Hall si ltac:(lia) h c d); assumption.
  - destruct H as (si & Hsi & h & c & d & Hh & Hc & Hd & Hacc & Hr).
    exists (aget sa si), (aget ha h), (aget ca c), (aget da d).
    repeat (split; [apply aget_in; lia|]). split; [exact Hacc | exact Hr].
Qed.

End Solver8K.

(** X18. [search_for_c8k_sequence] tries every choice of one bit from each
    of the four arrays of odd 7K positions: when it returns TRUE the
    structure holds an accepted candidate and its difference from the 7K
    sequence, and when it returns FALSE no choice is accepted and nothing
    but [c8k_sequence] has changed. *)
Theorem search_for_c8k_sequence_exhaustive (s : Usearch.ultimate_struct_t) :
  match Usearch.search_for_c8k_sequence s with
  | (true, s') =>
      exists sb hb cb db,
        In sb (Usearch.odd_high_bit_array s 0) /\ In hb (Usearch.odd_high_bit_array s 2) /\
        In cb (Usearch.odd_high_bit_array s 1) /\ In db (Usearch.odd_high_bit_array s 3) /\
        c8k_accepted s (c8k_candidate s sb hb cb db) /\
        s' = Usearch.set_c7k_c8k_diff
               (Usearch.set_c8k_sequence s (c8k_candidate s sb hb cb db))
               (Z.lxor (Usearch.c7k_sequence s) (c8k_candidate s sb hb cb db))
  | (false, s') =>
      same_but_c8k s s' /\
      forall sb hb cb db,
        In sb (Usearch.odd_high_bit_array s 0) -> In hb (Usearch.odd_high_bit_array s 2) ->
        In cb (Usearch.odd_high_bit_array s 1) -> In db (Usearch.odd_high_bit_array s 3) ->
        ~ c8k_accepted s (c8k_candidate s sb hb cb db)
  end.
Proof. exact (search_for_c8k_spec s). Qed.

Section ClearedBits.
Import Usearch.

Lemma odd_high_bit_in (s : ultimate_struct_t) (suit b : Z) :
  n_bits_max s <= 64 -> In b (odd_high_bit_array s suit) ->
  exists i, 0 <= i < n_bits_max s /\ b = 2 ^ i /\
            Z.testbit (c7k_sequence s) i = true /\
            Z.testbit (odd_sequence s) i = true /\
            suit_of s (2 ^ i) = suit.
Proof.
  intros Hn Hin. unfold odd_high_bit_array in Hin.
  apply filter_In in Hin as [Hpos Hcond].
  unfold position_bits in Hpos. apply in_map_iff in Hpos as (i & Hb & Hi).
  unfold upto in Hi. apply in_map_iff in Hi as (k & <- & Hk). apply in_seq in Hk.
  assert (Hr : 0 <= Z.of_nat k < n_bits_max s) by lia.
  rewrite one_bit_u64 in Hb by lia. subst b.
  exists (Z.of_nat k). split; [exact Hr|]. split; [reflexivity|].
  apply andb_true_iff in Hcond as [Hcond Hsuit].
  apply andb_true_iff in Hcond as [H7 Hodd].
  unfold nonzero in H7, Hodd. rewrite land_pow2_eqb, negb_involutive in H7, Hodd by lia.
  apply Z.eqb_eq in Hsuit. auto.
Qed.

Lemma clear_bit_spec (x i : Z) :
  0 <= x < 2 ^ 64 -> 0 <= i < 64 -> Z.testbit x i = true ->
  0 <= x - 2 ^ i < 2 ^ 64 /\
  (forall j, 0 <= j -> Z.testbit (x - 2 ^ i) j = Z.testbit x j && negb (j =? i)) /\
  popcount 64 (x - 2 ^ i) = popcount 64 x - 1.
Proof.
  intros Hx Hi Hb.
  assert (E : x - 2 ^ i = Z.ldiff x (2 ^ i)).
  { apply Z.sub_nocarry_ldiff. apply Z.bits_inj'. intros j Hj.
    rewrite Z.ldiff_spec, Z.bits_0, Z.pow2_bits_eqb by lia.
    destruct (Z.eqb_spec i j) as [<-|Hne]; [rewrite Hb|]; reflexivity. }
  assert (Hbits : forall j, 0 <= j ->
            Z.testbit (x - 2 ^ i) j = Z.testbit x j && negb (j =? i)).
  { intros j Hj. rewrite E, Z.ldiff_spec, Z.pow2_bits_eqb by lia.
    rewrite (Z.eqb_sym i j). reflexivity. }
  assert (Hp : 0 < 2 ^ i) by (apply Z.pow_pos_nonneg; lia).
  split; [|split; [exact Hbits|]].
  - split; [|lia]. rewrite E. apply Z.ldiff_nonneg. left. lia.
  - assert (H1 : popcount 64 (Z.lor (x - 2 ^ i) (2 ^ i)) = popcount 64 (x - 2 ^ i) + 1).
    { apply popcount_lor_pow2; [lia|]. rewrite Hbits, Z.eqb_refl by lia. apply andb_false_r. }
    assert (H2 : popcount 64 (Z.lor (x - 2 ^ i) (2 ^ i)) = popcount 64 x).
    { apply popcount_ext. intros j Hj.
      rewrite Z.lor_spec, Hbits, Z.pow2_bits_eqb by lia. rewrite (Z.eqb_sym i j).
      destruct (Z.eqb_spec j i) as [->|Hne]; [rewrite Hb; reflexivity|].
      cbn [negb]. rewrite andb_true_r, orb_false_r. reflexivity. }
    lia.
Qed.

Lemma suit_positions_differ (s : ultimate_struct_t) (i j suit_i suit_j : Z) :
  suit_of s (2 ^ i) = suit_i -> suit_of s (2 ^ j) = suit_j -> suit_i <> suit_j -> i <> j.
Proof. intros Hi Hj Hne ->. congruence. Qed.

Lemma search_for_c8k_cleared (s s' : ultimate_struct_t) :
  n_bits_max s <= 64 -> 0 <= c7k_sequence s < 2 ^ 64 ->
  search_for_c8k_sequence s = (true, s') ->
  exists i_s i_h i_c i_d,
    Forall (fun p => 0 <= fst p < n_bits_max s /\
                     Z.testbit (c7k_sequence s) (fst p) = true /\
                     Z.testbit (odd_sequence s) (fst p) = true /\
                     suit_of s (2 ^ fst p) = snd p)
           [(i_s, 0); (i_h, 2); (i_c, 1); (i_d, 3)] /\
    (forall j, 0 <= j ->
       Z.testbit (c8k_sequence s') j
       = Z.testbit (c7k_sequence s) j && negb (existsb (Z.eqb j) [i_s; i_h; i_c; i_d])) /\
    (forall j, 0 <= j ->
       Z.testbit (c7k_c8k_diff s') j = existsb (Z.eqb j) [i_s; i_h; i_c; i_d]) /\
    popcount 64 (c8k_sequence s') = popcount 64 (c7k_sequence s) - 4 /\
    Bit.bit_has_unique_subsequences (c8k_sequence s') = true.
Proof.
  intros Hn H7 Hsearch.
  pose proof (search_for_c8k_spec s) as Hspec. rewrite Hsearch in Hspec.
  destruct Hspec as (sb & hb & cb & db & Hsb & Hhb & Hcb & Hdb & [Hu _] & ->).
  destruct (odd_high_bit_in s 0 sb Hn Hsb) as (a & Ha & -> & Ha7 & Hao & Has).
  destruct (odd_high_bit_in s 2 hb Hn Hhb) as (b & Hb & -> & Hb7 & Hbo & Hbs).
  destruct (odd_high_bit_in s 1 cb Hn Hcb) as (c & Hc & -> & Hc7 & Hco & Hcs).
  destruct (odd_high_bit_in s 3 db Hn Hdb) as (d & Hd & -> & Hd7 & Hdo & Hds).
  assert (Hab : a <> b) by (eapply suit_positions_differ; [exact Has | exact Hbs | lia]).
  assert (Hac : a <> c) by (eapply suit_positions_differ; [exact Has | exact Hcs | lia]).
  assert (Had : a <> d) by (eapply suit_positions_differ; [exact Has | exact Hds | lia]).
  assert (Hbc : b <> c) by (eapply suit_positions_differ; [exact Hbs | exact Hcs | lia]).
  assert (Hbd : b <> d) by (eapply suit_positions_differ; [exact Hbs | exact Hds | lia]).
  assert (Hcd : c <> d) by (eapply suit_positions_differ; [exact Hcs | exact Hds | lia]).
  set (x0 := c7k_sequence s) in *.
  destruct (clear_bit_spec x0 a H7 ltac:(lia) Ha7) as (R1 & B1 & P1).
  assert (T1 : Z.testbit (x0 - 2 ^ a) b = true).
  { rewrite B1 by lia. rewrite Hb7. destruct (Z.eqb_spec b a); [lia | reflexivity]. }
  destruct (clear_bit_spec _ b R1 ltac:(lia) T1) as (R2 & B2 & P2).
  assert (T2 : Z.testbit (x0 - 2 ^ a - 2 ^ b) c = true).
  { rewrite B2, B1 by lia. rewrite Hc7.
    destruct (Z.eqb_spec c a); [lia|]. destruct (Z.eqb_spec c b); [lia | reflexivity]. }
  destruct (clear_bit_spec _ c R2 ltac:(lia) T2) as (R3 & B3 & P3).
  assert (T3 : Z.testbit (x0 - 2 ^ a - 2 ^ b - 2 ^ c) d = true).
  { rewrite B3, B2, B1 by lia. rewrite Hd7.
    destruct (Z.eqb_spec d a); [lia|]. destruct (Z.eqb_spec d b); [lia|].
    destruct (Z.eqb_spec d c); [lia | reflexivity]. }
  destruct (clear_bit_spec _ d R3 ltac:(lia) T3) as (R4 & B4 & P4).
  assert (Ecand : c8k_candidate s (2 ^ a) (2 ^ b) (2 ^ c) (2 ^ d)
                  = x0 - 2 ^ a - 2 ^ b - 2 ^ c - 2 ^ d).
  { unfold c8k_candidate. fold x0.
    rewrite (u64_small (x0 - 2 ^ a)) by exact R1.
    rewrite (u64_small (x0 - 2 ^ a - 2 ^ b)) by exact R2.
    rewrite (u64_small (x0 - 2 ^ a - 2 ^ b - 2 ^ c)) by exact R3.
    apply u64_small. exact R4. }
  rewrite Ecand in *.
  set (x4 := x0 - 2 ^ a - 2 ^ b - 2 ^ c - 2 ^ d) in *.
  assert (Hbits : forall j, 0 <= j ->
            Z.testbit x4 j = Z.testbit x0 j && negb (existsb (Z.eqb j) [a; b; c; d])).
  { intros j Hj. unfold x4. rewrite B4, B3, B2, B1 by lia. cbn [existsb].
    destruct (Z.testbit x0 j), (j =? a), (j =? b), (j =? c), (j =? d); reflexivity. }
  exists a, b, c, d.
  split.
  { repeat (apply Forall_cons; split; [cbn [fst snd]; auto|]). apply Forall_nil. exact I. }
  change (c8k_sequence (set_c7k_c8k_diff (set_c8k_sequence s x4) (Z.lxor x0 x4))) with x4.
  change (c7k_c8k_diff (set_c7k_c8k_diff (set_c8k_sequence s x4) (Z.lxor x0 x4)))
    with (Z.lxor x0 x4).
  split; [exact Hbits|]. split; [|split; [lia | exact Hu]].
  intros j Hj. rewrite Z.lxor_spec, Hbits by lia. cbn [existsb].
  destruct (Z.eqb_spec j a) as [->|]; [rewrite Ha7; reflexivity|].
  destruct (Z.eqb_spec j b) as [->|]; [rewrite Hb7; reflexivity|].
  destruct (Z.eqb_spec j c) as [->|]; [rewrite Hc7; reflexivity|].
  destruct (Z.eqb_spec j d) as [->|]; [rewrite Hd7; reflexivity|].
  cbn. rewrite andb_true_r. apply xorb_nilpotent.
Qed.

End ClearedBits.

(** X19. When [search_for_c8k_sequence] succeeds on a 64-bit 7K sequence,
    the 8K sequence is the 7K sequence with four one bits cleared: one
    position of each suit (spades, hearts, clubs, diamonds), each an odd
    position of the 7K sequence. [c7k_c8k_diff] holds exactly these four
    bits, the population drops by 4, and the 8K sequence passes the
    bracelet test. *)
Theorem search_for_c8k_clears_one_bit_per_suit (s s' : Usearch.ultimate_struct_t) :
  Usearch.n_bits_max s <= 64 -> 0 <= Usearch.c7k_sequence s < 2 ^ 64 ->
  Usearch.search_for_c8k_sequence s = (true, s') ->
  exists i_s i_h i_c i_d,
    Forall (fun p => 0 <= fst p < Usearch.n_bits_max s /\
                     Z.testbit (Usearch.c7k_sequence s) (fst p) = true /\
                     Z.testbit (Usearch.odd_sequence s) (fst p) = true /\
                     Usearch.suit_of s (2 ^ fst p) = snd p)
           [(i_s, 0); (i_h, 2); (i_c, 1); (i_d, 3)] /\
    (forall j, 0 <= j ->
       Z.testbit (Usearch.c8k_sequence s') j
       = Z.testbit (Usearch.c7k_sequence s) j
         && negb (existsb (Z.eqb j) [i_s; i_h; i_c; i_d])) /\
    (forall j, 0 <= j ->
       Z.testbit (Usearch.c7k_c8k_diff s') j = existsb (Z.eqb j) [i_s; i_h; i_c; i_d]) /\
    popcount 64 (Usearch.c8k_sequence s') = popcount 64 (Usearch.c7k_sequence s) - 4 /\
    Bit.bit_has_unique_subsequences (Usearch.c8k_sequence s') = true.
Proof. exact (search_for_c8k_cleared s s'). Qed.

Lemma search_for_c8k_clears_one_bit_per_suit_witness :
  Usearch.n_bits_max Sample.seq_set <= 64 /\
  0 <= Usearch.c7k_sequence Sample.seq_set < 2 ^ 64 /\
  Usearch.search_for_c8k_sequence Sample.seq_set = (true, Sample.seq_set_8k) /\
  popcount 64 (Usearch.c8k_sequence Sample.seq_set_8k)
  = popcount 64 (Usearch.c7k_sequence Sample.seq_set) - 4.
Proof.
  assert (H1 : Usearch.n_bits_max Sample.seq_set <= 64) by (vm_compute; discriminate).
  assert (H2 : 0 <= Usearch.c7k_sequence Sample.seq_set < 2 ^ 64)
    by (vm_compute; split; [discriminate | reflexivity]).
  assert (H3 : Usearch.search_for_c8k_sequence Sample.seq_set = (true, Sample.seq_set_8k))
    by (vm_compute; reflexivity).
  split; [exact H1|]. split; [exact H2|]. split; [exact H3|].
  destruct (search_for_c8k_clears_one_bit_per_suit _ _ H1 H2 H3)
    as (a & b & c & d & _ & _ & _ & Hp & _).
  exact Hp.
Defined.

(** ** ultimate_search.c: what every written bundle has passed *)

Section EmittedBundles.
Import Usearch F64.

Lemma with_values_id (s : ultimate_struct_t) :
  with_values s (odd_sequence s) (c7k_sequence s) (c8k_sequence s) (c4t_sequence s)
    (c7k_c8k_diff s) = s.
Proof. destruct s. reflexivity. Qed.

Lemma same_c7k_refl (s : ultimate_struct_t) : same_c7k s s.
Proof. exists (c8k_sequence s), (c4t_sequence s), (c7k_c8k_diff s). symmetry. apply with_values_id. Qed.

Lemma same_c7k_trans (s1 s2 s3 : ultimate_struct_t) :
  same_c7k s1 s2 -> same_c7k s2 s3 -> same_c7k s1 s3.
Proof. intros (a & b & c & ->) (a' & b' & c' & ->). exists a', b', c'. reflexivity. Qed.

Lemma same_c7k_odd (s s' : ultimate_struct_t) : same_c7k s s' -> same_odd s s'.
Proof. intros (a & b & c & ->). exists (c7k_sequence s), a, b, c. reflexivity. Qed.

Lemma same_odd_suits (s s' : ultimate_struct_t) : same_odd s s' -> same_suits s s'.
Proof. intros (a & b & c & d & ->). exists (odd_sequence s), a, b, c, d. reflexivity. Qed.

Lemma suits_tested_fields (s s' : ultimate_struct_t) :
  hc_sequence s' = hc_sequence s -> red_sequence s' = red_sequence s ->
  cd_sequence s' = cd_sequence s -> club_bits s' = club_bits s ->
  heart_bits s' = heart_bits s -> diamond_bits s' = diamond_bits s ->
  suits_tested s -> suits_tested s'.
Proof.
  intros H1 H2 H3 H4 H5 H6 H. unfold suits_tested. rewrite H1, H2, H3, H4, H5, H6. exact H.
Qed.

Lemma is_valid_odd_sequence_fields (s s' : ultimate_struct_t) :
  odd_sequence s' = odd_sequence s -> sequence_mask s' = sequence_mask s ->
  spade_bits s' = spade_bits s -> heart_bits s' = heart_bits s ->
  club_bits s' = club_bits s -> diamond_bits s' = diamond_bits s ->
  is_valid_odd_sequence s' = is_valid_odd_sequence s.
Proof.
  intros H1 H2 H3 H4 H5 H6. unfold is_valid_odd_sequence.
  rewrite H1, H2, H3, H4, H5, H6. reflexivity.
Qed.

Lemma is_valid_c7k_sequence_fields (s s' : ultimate_struct_t) :
  odd_sequence s' = odd_sequence s -> sequence_mask s' = sequence_mask s ->
  red_sequence s' = red_sequence s -> cd_sequence s' = cd_sequence s ->
  hc_sequence s' = hc_sequence s -> c7k_sequence s' = c7k_sequence s ->
  is_valid_c7k_sequence s' = is_valid_c7k_sequence s.
Proof.
  intros H1 H2 H3 H4 H5 H6. unfold is_valid_c7k_sequence.
  rewrite H1, H2, H3, H4, H5, H6. reflexivity.
Qed.

Lemma is_valid_deck_sequence_fields (s s' : ultimate_struct_t) :
  odd_sequence s' = odd_sequence s -> n_bits_max s' = n_bits_max s ->
  red_sequence s' = red_sequence s -> cd_sequence s' = cd_sequence s ->
  c7k_sequence s' = c7k_sequence s ->
  is_valid_deck_sequence s' = is_valid_deck_sequence s.
Proof.
  intros H1 H2 H3 H4 H5. unfold is_valid_deck_sequence, hit_count_array_of.
  rewrite H1, H2, H3, H4, H5. reflexivity.
Qed.

Lemma suits_tested_same (s s' : ultimate_struct_t) :
  same_suits s s' -> suits_tested s -> suits_tested s'.
Proof.
  intros (a & b & c & d & e & ->). apply suits_tested_fields; reflexivity.
Qed.

Lemma odd_tested_same (s s' : ultimate_struct_t) :
  same_odd s s' -> odd_tested s -> odd_tested s'.
Proof.
  intros (a & b & c & d & ->) [Hs Ho]. split.
  - revert Hs. apply suits_tested_fields; reflexivity.
  - rewrite <- Ho. apply is_valid_odd_sequence_fields; reflexivity.
Qed.

Lemma c7k_tests_same (s s' : ultimate_struct_t) :
  same_c7k s s' ->
  is_valid_c7k_sequence s' = is_valid_c7k_sequence s /\
  is_valid_deck_sequence s' = is_valid_deck_sequence s.
Proof.
  intros (a & b & c & ->). split.
  - apply is_valid_c7k_sequence_fields; reflexivity.
  - apply is_valid_deck_sequence_fields; reflexivity.
Qed.

Lemma search_for_c8k_result (s : ultimate_struct_t) :
  same_c7k s (snd (search_for_c8k_sequence s)) /\
  (fst (search_for_c8k_sequence s) = true ->
   Bit.bit_has_unique_subsequences (c8k_sequence (snd (search_for_c8k_sequence s))) = true /\
   c7k_c8k_diff (snd (search_for_c8k_sequence s))
   = Z.lxor (c7k_sequence (snd (search_for_c8k_sequence s)))
            (c8k_sequence (snd (search_for_c8k_sequence s)))).
Proof.
  pose proof (search_for_c8k_spec s) as H.
  destruct (search_for_c8k_sequence s) as [[|] s']; cbn [fst snd].
  - destruct H as (sb & hb & cb & db & _ & _ & _ & _ & [Hu _] & ->). split.
    + eexists _, (c4t_sequence s), _. reflexivity.
    + intros _. split; [exact Hu | reflexivity].
  - destruct H as [(x & ->) _]. split; [|discriminate].
    exists x, (c4t_sequence s), (c7k_c8k_diff s). reflexivity.
Qed.

Lemma search_for_c4t_result (s : ultimate_struct_t) :
  match search_for_c4t_sequence s with
  | (true, s') =>
      exists temp, s' = set_c4t_sequence s temp /\
                   Bit.bit_has_unique_subsequences temp = true
  | (false, s') => s' = s
  end.
Proof.
  unfold search_for_c4t_sequence. cbv zeta.
  match goal with |- context [for_loop ?n ?f ?b s] =>
    assert (H : match for_loop n f b s with
                | Continue s' => s' = s
                | Return r => exists temp, r = set_c4t_sequence s temp /\
                                           Bit.bit_has_unique_subsequences temp = true
                end) end.
  { repeat (apply for_loop_preserves; [intros ? ? ? | first [assumption | reflexivity]]).
    match goal with H : ?x = s |- _ => rewrite H end.
    destruct (Bit.bit_has_unique_subsequences _) eqn:Hu; [|reflexivity].
    eexists. split; [reflexivity | exact Hu]. }
  destruct (for_loop _ _ _ s); exact H.
Qed.

Lemma make_suit_sequences_tested (s s' : ultimate_struct_t) :
  make_suit_sequences s = (s', true) -> suits_tested s'.
Proof.
  unfold make_suit_sequences. cbv zeta.
  repeat match goal with
         | |- context [if negb (count_set_bits_64 ?x ?n =? ?m) then _ else _] =>
             destruct (negb (count_set_bits_64 x n =? m)); [discriminate|]
         end.
  match goal with
  | |- context [if negb (Bit.bit_has_unique_subsequences ?x) then _ else _] =>
      destruct (Bit.bit_has_unique_subsequences x) eqn:Hu; cbn [negb]; [|discriminate]
  end.
  intros H. injection H as <-. unfold suits_tested.
  cbn [hc_sequence red_sequence cd_sequence club_bits heart_bits diamond_bits
       set_hc_sequence set_red_sequence set_cd_sequence set_diamond_bits set_heart_bits
       set_club_bits set_spade_bits with_suits] in *.
  split; [exact Hu|]. repeat split; reflexivity.
Qed.

Lemma c7k_loop_tested (n : nat) (args : ProgramArgument_T) :
  forall t, odd_tested (seq_set t) -> output_tested args t ->
    odd_tested (seq_set (c7k_loop n args t)) /\ output_tested args (c7k_loop n args t).
Proof.
  induction n as [|n IH]; intros t Ht Ho; [split; assumption|].
  cbn [c7k_loop]. destruct (f64_next (dbn_c7k_handle t)) as [v h].
  set (t1 := with_seq_set _ _).
  assert (Ht1 : odd_tested (seq_set t1)).
  { subst t1. cbn [seq_set with_seq_set with_handles].
    apply (odd_tested_same (seq_set t)); [|exact Ht].
    exists v, (c8k_sequence (seq_set t)), (c4t_sequence (seq_set t)),
      (c7k_c8k_diff (seq_set t)). reflexivity. }
  assert (Ho1 : output_tested args t1) by exact Ho.
  clearbody t1.
  destruct (v =? 0); [split; assumption|].
  destruct (is_valid_c7k_sequence (seq_set t1)) eqn:H7; cbn [negb]; [|apply IH; assumption].
  destruct (is_valid_deck_sequence (seq_set t1)) eqn:Hd; cbn [negb]; [|apply IH; assumption].
  set (r8 := if c8k_sequence_flag args then _ else _).
  assert (H8 : same_c7k (seq_set t1) (snd r8) /\
               (fst r8 = true -> c8k_sequence_flag args = true ->
                Bit.bit_has_unique_subsequences (c8k_sequence (snd r8)) = true /\
                c7k_c8k_diff (snd r8) = Z.lxor (c7k_sequence (snd r8)) (c8k_sequence (snd r8)))).
  { subst r8. destruct (c8k_sequence_flag args).
    - destruct (search_for_c8k_result (seq_set t1)) as [Hs Hr]. split; [exact Hs|].
      intros Hok _. apply Hr, Hok.
    - cbn [fst snd]. split; [apply same_c7k_refl | intros _ H; discriminate]. }
  destruct r8 as [ok8 s8]. cbn [fst snd] in H8. destruct H8 as [Hs8 Hr8].
  set (t2 := with_seq_set t1 s8).
  assert (Ht2 : odd_tested (seq_set t2))
    by (apply (odd_tested_same (seq_set t1)); [apply same_c7k_odd, Hs8 | exact Ht1]).
  assert (Ho2 : output_tested args t2) by exact Ho1.
  destruct ok8; cbn [negb]; [|apply IH; assumption].
  specialize (Hr8 eq_refl).
  set (r4 := if c4t_sequence_flag args then _ else _).
  assert (H4 : same_c7k s8 (snd r4) /\
               c8k_sequence (snd r4) = c8k_sequence s8 /\
               c7k_c8k_diff (snd r4) = c7k_c8k_diff s8 /\
               (fst r4 = true -> c4t_sequence_flag args = true ->
                Bit.bit_has_unique_subsequences (c4t_sequence (snd r4)) = true)).
  { subst r4. cbn [seq_set t2 with_seq_set]. destruct (c4t_sequence_flag args).
    - pose proof (search_for_c4t_result s8) as H.
      destruct (search_for_c4t_sequence s8) as [[|] s4]; cbn [fst snd].
      + destruct H as (temp & -> & Hu). split; [|split; [reflexivity|split; [reflexivity|]]].
        * exists (c8k_sequence s8), temp, (c7k_c8k_diff s8). reflexivity.
        * intros _ _. exact Hu.
      + subst s4. split; [apply same_c7k_refl|].
        split; [reflexivity | split; [reflexivity | intros H; discriminate]].
    - cbn [fst snd]. split; [apply same_c7k_refl|].
      split; [reflexivity | split; [reflexivity | intros _ H; discriminate]]. }
  destruct r4 as [ok4 s4]. cbn [fst snd] in H4. destruct H4 as (Hs4 & Hc8 & Hdf & Hr4).
  set (t3 := with_seq_set t2 s4).
  assert (Hs14 : same_c7k (seq_set t1) s4) by (eapply same_c7k_trans; eassumption).
  assert (Ht3 : odd_tested (seq_set t3))
    by (apply (odd_tested_same (seq_set t1)); [apply same_c7k_odd, Hs14 | exact Ht1]).
  assert (Ho3 : output_tested args t3) by exact Ho2.
  destruct ok4; cbn [negb]; [|apply IH; assumption].
  apply IH; [exact Ht3|].
  unfold output_tested. cbn [emit output]. apply Forall_app. split; [exact Ho3|].
  apply Forall_cons. split; [|apply Forall_nil; exact I].
  change (seq_set t3) with s4.
  destruct (c7k_tests_same _ _ Hs14) as [E7 Ed].
  destruct Hs4 as (a & b & c & E4).
  assert (E47 : c7k_sequence s4 = c7k_sequence s8) by (rewrite E4; reflexivity).
  unfold bundle_tested. split; [exact Ht3|].
  split; [congruence|]. split; [congruence|]. split.
  - intros Hf. destruct (Hr8 Hf) as [Hu Hx]. rewrite Hc8, Hdf, E47. split; assumption.
  - intros Hf. apply Hr4; [reflexivity | exact Hf].
Qed.

Lemma odd_loop_tested (n : nat) (args : ProgramArgument_T) :
  forall t, suits_tested (seq_set t) -> output_tested args t ->
    suits_tested (seq_set (odd_loop n args t)) /\ output_tested args (odd_loop n args t).
Proof.
  induction n as [|n IH]; intros t Ht Ho; [split; assumption|].
  cbn [odd_loop]. destruct (f64_next (dbn_odd_handle t)) as [v h].
  set (t1 := with_seq_set _ _).
  assert (Ht1 : suits_tested (seq_set t1)).
  { subst t1. cbn [seq_set with_seq_set with_handles].
    apply (suits_tested_same (seq_set t)); [|exact Ht].
    exists v, (c7k_sequence (seq_set t)), (c8k_sequence (seq_set t)),
      (c4t_sequence (seq_set t)), (c7k_c8k_diff (seq_set t)). reflexivity. }
  assert (Ho1 : output_tested args t1) by exact Ho.
  clearbody t1.
  destruct (v =? 0); [split; assumption|].
  destruct (is_valid_odd_sequence (seq_set t1)) eqn:Hodd; cbn [negb]; [|apply IH; assumption].
  match goal with |- context [c7k_loop ?m args ?t0] =>
    destruct (c7k_loop_tested m args t0) as [[Hs _] Hout]
  end.
  - cbn [seq_set with_starts with_handles]. split; [exact Ht1 | exact Hodd].
  - exact Ho1.
  - apply IH; assumption.
Qed.

Lemma cd_loop_tested (n : nat) (args : ProgramArgument_T) :
  forall t, output_tested args t -> output_tested args (cd_loop n args t).
Proof.
  induction n as [|n IH]; intros t Ho; [exact Ho|].
  cbn [cd_loop]. destruct (f64_next (dbn_cd_handle t)) as [v h].
  set (t1 := with_seq_set _ _).
  assert (Ho1 : output_tested args t1) by exact Ho.
  clearbody t1.
  destruct (v =? 0); [exact Ho1|].
  destruct (negb (is_valid_suit_seq_overlap _ _ _)); [apply IH, Ho1|].
  destruct (make_suit_sequences (seq_set t1)) as [s found] eqn:Hmake.
  assert (Ho2 : output_tested args (with_seq_set t1 s)) by exact Ho1.
  destruct found; cbn [negb]; [|apply IH, Ho2].
  apply IH.
  match goal with |- context [odd_loop ?m args ?t0] =>
    destruct (odd_loop_tested m args t0) as [_ Hout]
  end.
  - cbn [seq_set with_starts with_handles with_seq_set].
    apply (make_suit_sequences_tested _ _ Hmake).
  - exact Ho2.
  - exact Hout.
Qed.

Lemma main_loop_tested (fuel : nat) (args : ProgramArgument_T) :
  forall t, output_tested args t -> output_tested args (fst (main_loop fuel args t)).
Proof.
  induction fuel as [|fuel IH]; intros t Ho; [exact Ho|].
  cbn [main_loop].
  destruct (next_red (S fuel) _) as [[red h]|]; [|exact Ho].
  destruct (red =? 0); [exact Ho|].
  apply IH, cd_loop_tested. exact Ho.
Qed.

End EmittedBundles.

(** X20. Every bundle that the compound search writes has passed all the
    tests of the search loops, on the very values that are written: its HC
    sequence is the union of the club and heart bits and passes the
    bracelet test, its red and cd sequences are the unions of their two
    suits, and [is_valid_odd_sequence], [is_valid_c7k_sequence] and
    [is_valid_deck_sequence] accept it; with the 8K option its 8K sequence
    passes the bracelet test and [c7k_c8k_diff] is the difference of the 7K
    and 8K sequences, and with the 4T option its 4T sequence passes the
    bracelet test. *)
Theorem emitted_bundles_passed_all_tests (fuel : nat) (args : Usearch.ProgramArgument_T)
    (files : string -> option (list Z))
    (out : list Usearch.ultimate_struct_t) (status : Usearch.run_status)
    (b : Usearch.ultimate_struct_t) :
  Usearch.ultimate_search_main fuel args files = Some (out, status) ->
  In b out ->
  bundle_tested args b.
Proof.
  intros Hrun Hb. unfold Usearch.ultimate_search_main in Hrun.
  destruct (files (Usearch.dbn_suit_file_name args)) as [sw|]; [|discriminate].
  destruct (files (Usearch.dbn_value_file_name args)) as [vw|]; [|discriminate].
  match type of Hrun with context [Usearch.main_loop fuel args ?t] =>
    pose proof (main_loop_tested fuel args t) as H;
    destruct (Usearch.main_loop fuel args t) as [t' st] end.
  cbn [fst] in H. injection Hrun as <- _.
  assert (Hout : output_tested args t') by (apply H; apply Forall_nil; exact I).
  unfold output_tested in Hout. rewrite Forall_forall in Hout.
  apply Hout, list_elem_of_In, Hb.
Qed.

Lemma emitted_bundles_passed_all_tests_witness :
  Usearch.ultimate_search_main 1 Sample.search_args Sample.search_files
  = Some (Sample.search_output, Usearch.Running) /\
  In Sample.search_bundle Sample.search_output /\
  bundle_tested Sample.search_args Sample.search_bundle.
Proof.
  assert (H1 : Usearch.ultimate_search_main 1 Sample.search_args Sample.search_files
               = Some (Sample.search_output, Usearch.Running)) by (vm_compute; reflexivity).
  assert (H2 : In Sample.search_bundle Sample.search_output) by (left; reflexivity).
  split; [exact H1|]. split; [exact H2|].
  exact (emitted_bundles_passed_all_tests 1 _ _ _ _ _ H1 H2).
Defined.

Section SevensApart.

Import Usearch.

Variable s : ultimate_struct_t.
Hypothesis Hn : n_bits_max s = 52.
Hypothesis Hl : subsequence_length s = 6.
Hypothesis Hm : subsequence_mask s = 63.

(** A word whose lowest set bit is bit [t]. *)
Lemma lowest_bit_even (t r : Z) :
  0 < t -> Z.land (2 ^ t * (2 * r + 1)) 1 = 0 /\
           Z.shiftr (2 ^ t * (2 * r + 1)) 1 = 2 ^ (t - 1) * (2 * r + 1).
Proof.
  intros Ht. replace t with (t - 1 + 1) at 1 2 by lia.
  rewrite Z.pow_add_r by lia. change (2 ^ 1) with 2.
  change 1 with (Z.ones 1) at 3. rewrite Z.land_ones by lia. change (2 ^ 1) with 2.
  rewrite Z.shiftr_div_pow2 by lia. change (2 ^ 1) with 2.
  split.
  - replace (2 ^ (t - 1) * 2 * (2 * r + 1)) with (2 ^ (t - 1) * (2 * r + 1) * 2) by ring.
    apply Z.mod_mul. lia.
  - replace (2 ^ (t - 1) * 2 * (2 * r + 1)) with (2 ^ (t - 1) * (2 * r + 1) * 2) by ring.
    apply Z.div_mul. lia.
Qed.

Lemma scan_bits_spec (t : nat) :
  forall (fuel : nat) (r i found : Z),
    (t < fuel)%nat -> 0 <= r < 2 ^ 63 -> i + Z.of_nat t < 52 ->
    scan_bits fuel s (2 ^ Z.of_nat t * (2 * r + 1)) i found
    = if r mod 32 =? 0 then ScanAt r (i + Z.of_nat t + 1) (found + 1) else ScanFail.
Proof.
  induction t as [|t IH]; intros fuel r i found Hf Hr Hi.
  - destruct fuel as [|fuel]; [lia|]. cbn [scan_bits]. rewrite Hn, Hm.
    destruct (Z.ltb_spec i 52) as [_|Hge]; [|lia].
    change (2 ^ Z.of_nat 0) with 1. rewrite Z.mul_1_l.
    assert (Hodd : Z.land (2 * r + 1) 1 = 1).
    { change 1 with (Z.ones 1) at 2. rewrite Z.land_ones by lia. change (2 ^ 1) with 2.
      rewrite Z.add_comm, Z.mul_comm, Z.mod_add by lia. reflexivity. }
    rewrite Hodd. cbn [Z.eqb Pos.eqb].
    replace (2 * r + 1 - 1) with (2 * r) by lia.
    unfold u64. rewrite (Z.mod_small (2 * r)) by lia.
    assert (Hmask : Z.land (2 * r) 63 = 2 * (r mod 32)).
    { change 63 with (Z.ones 6). rewrite Z.land_ones by lia.
      change (2 ^ 6) with (2 * 32). rewrite Z.mul_mod_distr_l by lia. reflexivity. }
    unfold nonzero. rewrite Hmask.
    rewrite Z.shiftr_div_pow2 by lia. change (2 ^ 1) with 2.
    rewrite (Z.mul_comm 2 r), Z.div_mul by lia.
    pose proof (Z.mod_pos_bound r 32 ltac:(lia)) as Hb.
    destruct (Z.eqb_spec (r mod 32) 0) as [H0|H0].
    + rewrite H0. cbn. f_equal; lia.
    + destruct (Z.eqb_spec (2 * (r mod 32)) 0) as [H1|H1]; [lia|]. reflexivity.
  - destruct fuel as [|fuel]; [lia|]. cbn [scan_bits]. rewrite Hn.
    destruct (Z.ltb_spec i 52) as [_|Hge]; [|lia].
    destruct (lowest_bit_even (Z.of_nat (S t)) r ltac:(lia)) as [He Hs].
    rewrite He, Hs. cbn [Z.eqb].
    replace (Z.of_nat (S t) - 1) with (Z.of_nat t) by lia.
    rewrite (IH fuel r (i + 1) found) by lia.
    replace (i + 1 + Z.of_nat t + 1) with (i + Z.of_nat (S t) + 1) by lia. reflexivity.
Qed.

Lemma scan_groups_spec (fuel : nat) :
  forall (t r i found : Z),
    0 <= t < 6 * Z.of_nat fuel -> 0 <= r < 2 ^ 63 -> i + t < 52 ->
    scan_groups fuel s (2 ^ t * (2 * r + 1)) i found
    = if r mod 32 =? 0 then ScanAt r (i + t + 1) (found + 1) else ScanFail.
Proof.
  induction fuel as [|fuel IH]; intros t r i found Ht Hr Hi; [lia|].
  cbn [scan_groups]. rewrite Hn, Hm, Hl.
  destruct (Z.ltb_spec i 52) as [_|Hge]; [|lia].
  destruct (Z.lt_ge_cases t 6) as [Hlt|Hge].
  - assert (Hnz : nonzero (Z.land (2 ^ t * (2 * r + 1)) 63) = true).
    { unfold nonzero. destruct (Z.eqb_spec (Z.land (2 ^ t * (2 * r + 1)) 63) 0) as [H0|H0];
        [|reflexivity].
      exfalso. assert (Hb : Z.testbit (Z.land (2 ^ t * (2 * r + 1)) 63) t = false)
        by (rewrite H0; apply Z.bits_0).
      rewrite Z.land_spec in Hb.
      rewrite Z.mul_comm, Z.mul_pow2_bits, Z.sub_diag in Hb by lia.
      rewrite Z.add_comm, Z.mul_comm in Hb.
      change (1 + r * 2) with (1 + r * 2) in Hb.
      replace (1 + r * 2) with (2 * r + 1) in Hb by lia.
      rewrite Z.testbit_odd_0 in Hb.
      change 63 with (Z.ones 6) in Hb. rewrite Z.ones_spec_low in Hb by lia.
      discriminate Hb. }
    rewrite Hnz. replace t with (Z.of_nat (Z.to_nat t)) by lia.
    rewrite scan_bits_spec by lia. reflexivity.
  - assert (Hz : nonzero (Z.land (2 ^ t * (2 * r + 1)) 63) = false).
    { unfold nonzero. change 63 with (Z.ones 6). rewrite Z.land_ones by lia.
      replace t with (t - 6 + 6) by lia. rewrite Z.pow_add_r by lia.
      replace (2 ^ (t - 6) * 2 ^ 6 * (2 * r + 1)) with (2 ^ (t - 6) * (2 * r + 1) * 2 ^ 6) by ring.
      rewrite Z.mod_mul by lia. reflexivity. }
    rewrite Hz.
    assert (Hsh : Z.shiftr (2 ^ t * (2 * r + 1)) 6 = 2 ^ (t - 6) * (2 * r + 1)).
    { rewrite Z.shiftr_div_pow2 by lia.
      replace t with (t - 6 + 6) at 1 by lia. rewrite Z.pow_add_r by lia.
      replace (2 ^ (t - 6) * 2 ^ 6 * (2 * r + 1)) with (2 ^ (t - 6) * (2 * r + 1) * 2 ^ 6) by ring.
      apply Z.div_mul. lia. }
    rewrite Hsh, (IH (t - 6) r (i + 6) found) by lia.
    replace (i + 6 + (t - 6) + 1) with (i + t + 1) by lia. reflexivity.
Qed.

(** One round of the outer loop on a word whose lowest set bit is [t]. *)
Lemma diff_round (fuel : nat) (t r i found first last : Z) :
  0 <= t < 52 -> 0 <= r < 2 ^ 63 -> i + t < 52 -> found < 4 ->
  diff_loop (S fuel) s (2 ^ t * (2 * r + 1)) i found first last
  = if r mod 32 =? 0 then
      if 52 <=? i + t + 1 then first_last_apart s first last
      else if i + t - last <? 6 then false
      else diff_loop fuel s r (i + t + 1) (found + 1)
             (if first =? -1 then i + t else first) (i + t)
    else false.
Proof.
  intros Ht Hr Hi Hf. cbn [diff_loop].
  destruct (Z.ltb_spec found 4) as [_|Hge]; [|lia].
  rewrite scan_groups_spec by (cbn; lia).
  destruct (r mod 32 =? 0); [|reflexivity].
  rewrite Hn, Hl. replace (i + t + 1 - 1) with (i + t) by lia. reflexivity.
Qed.

(** The five bits above a set bit are clear exactly when the next set bit
    is at least six positions away. *)
Lemma gap_clear (g r : Z) :
  1 <= g -> 0 <= r -> ((2 ^ (g - 1) * (2 * r + 1)) mod 32 =? 0) = (6 <=? g).
Proof.
  intros Hg Hr. destruct (Z.leb_spec 6 g) as [H6|H6].
  - replace (g - 1) with (g - 6 + 5) by lia. rewrite Z.pow_add_r by lia.
    replace (2 ^ (g - 6) * 2 ^ 5 * (2 * r + 1)) with (2 ^ (g - 6) * (2 * r + 1) * 32) by ring.
    rewrite Z.mod_mul by lia. reflexivity.
  - destruct (Z.eqb_spec ((2 ^ (g - 1) * (2 * r + 1)) mod 32) 0) as [H0|H0]; [|reflexivity].
    exfalso.
    assert (Hb : Z.testbit ((2 ^ (g - 1) * (2 * r + 1)) mod 2 ^ 5) (g - 1) = false)
      by (change (2 ^ 5) with 32; rewrite H0; apply Z.bits_0).
    rewrite Z.mod_pow2_bits_low in Hb by lia.
    rewrite Z.mul_comm, Z.mul_pow2_bits, Z.sub_diag in Hb by lia.
    rewrite Z.testbit_odd_0 in Hb. discriminate Hb.
Qed.

Lemma diff_valid_gaps (p1 g1 g2 g3 : Z) :
  0 <= p1 -> 1 <= g1 -> 1 <= g2 -> 1 <= g3 -> p1 + g1 + g2 + g3 < 52 ->
  Z.lxor (c7k_sequence s) (c8k_sequence s)
    = 2 ^ p1 * (2 * (2 ^ (g1 - 1) * (2 * (2 ^ (g2 - 1) * (2 * (2 ^ (g3 - 1) * (2 * 0 + 1)) + 1)) + 1)) + 1) ->
  c7k_c8k_diff_valid s
  = (6 <=? g1) && (6 <=? g2) && (6 <=? g3)
    && ((p1 + g1 + g2 + g3 =? 51) || (6 <=? 52 - (g1 + g2 + g3))).
Proof.
  intros H1 Hg1 Hg2 Hg3 H4 Hdiff. unfold c7k_c8k_diff_valid. rewrite Hdiff.
  set (r3 := 2 ^ (g3 - 1) * (2 * 0 + 1)).
  set (r2 := 2 ^ (g2 - 1) * (2 * r3 + 1)).
  set (r1 := 2 ^ (g1 - 1) * (2 * r2 + 1)).
  assert (B3 : 0 <= r3 < 2 ^ g3).
  { unfold r3. rewrite Z.mul_1_r. split; [apply Z.pow_nonneg; lia|].
    apply Z.pow_lt_mono_r; lia. }
  assert (P : forall g r b, 1 <= g -> 0 <= b -> 0 <= r < 2 ^ b ->
              0 <= 2 ^ (g - 1) * (2 * r + 1) < 2 ^ (g + b)).
  { intros g r b Hg Hb Hr. split; [apply Z.mul_nonneg_nonneg; [apply Z.pow_nonneg|]; lia|].
    replace (g + b) with (g - 1 + (b + 1)) by lia. rewrite Z.pow_add_r by lia.
    apply Z.mul_lt_mono_pos_l; [apply Z.pow_pos_nonneg; lia|].
    rewrite Z.pow_add_r by lia. change (2 ^ 1) with 2. lia. }
  assert (B2 : 0 <= r2 < 2 ^ (g2 + g3)) by (apply P; lia).
  assert (B1 : 0 <= r1 < 2 ^ (g1 + (g2 + g3))) by (apply P; lia).
  assert (M : forall b, 0 <= b <= 63 -> 2 ^ b <= 2 ^ 63)
    by (intros b Hb; apply Z.pow_le_mono_r; lia).
  pose proof (M (g1 + (g2 + g3)) ltac:(lia)) as M1.
  pose proof (M (g2 + g3) ltac:(lia)) as M2.
  pose proof (M g3 ltac:(lia)) as M3.
  rewrite diff_round by lia.
  unfold r1 at 1. rewrite gap_clear by lia.
  destruct (Z.leb_spec 6 g1) as [G1|G1]; [|reflexivity].
  cbn [andb]. rewrite Z.add_0_l.
  destruct (Z.leb_spec 52 (p1 + 1)) as [?|_]; [lia|].
  destruct (Z.ltb_spec (p1 - -1000) 6) as [?|_]; [lia|].
  change (-1 =? -1) with true. cbv iota.
  unfold r1. replace (p1 + 1) with (p1 + 1) by lia.
  rewrite diff_round by lia.
  unfold r2 at 1. rewrite gap_clear by lia.
  destruct (Z.leb_spec 6 g2) as [G2|G2]; [|reflexivity].
  cbn [andb].
  destruct (Z.leb_spec 52 (p1 + 1 + (g1 - 1) + 1)) as [?|_]; [lia|].
  destruct (Z.ltb_spec (p1 + 1 + (g1 - 1) - p1) 6) as [?|_]; [lia|].
  destruct (Z.eqb_spec p1 (-1)) as [?|_]; [lia|].
  unfold r2. rewrite diff_round by lia.
  unfold r3 at 1. rewrite gap_clear by lia.
  destruct (Z.leb_spec 6 g3) as [G3|G3]; [|reflexivity].
  cbn [andb].
  destruct (Z.leb_spec 52 (p1 + 1 + (g1 - 1) + 1 + (g2 - 1) + 1)) as [?|_]; [lia|].
  destruct (Z.ltb_spec (p1 + 1 + (g1 - 1) + 1 + (g2 - 1) - (p1 + 1 + (g1 - 1))) 6) as [?|_]; [lia|].
  destruct (Z.eqb_spec p1 (-1)) as [?|_]; [lia|].
  unfold r3. rewrite diff_round by lia.
  change (0 mod 32 =? 0) with true. cbv iota.
  unfold first_last_apart. rewrite Hn, Hl.
  destruct (Z.leb_spec 52 (p1 + 1 + (g1 - 1) + 1 + (g2 - 1) + 1 + (g3 - 1) + 1)) as [E|E].
  - destruct (Z.eqb_spec (p1 + g1 + g2 + g3) 51) as [_|?]; [|lia].
    cbn [orb]. destruct (Z.ltb_spec (52 + p1 - (p1 + 1 + (g1 - 1) + 1 + (g2 - 1))) 6); [lia|].
    reflexivity.
  - destruct (Z.eqb_spec (p1 + g1 + g2 + g3) 51) as [?|_]; [lia|].
    cbn [orb].
    destruct (Z.ltb_spec (p1 + 1 + (g1 - 1) + 1 + (g2 - 1) + 1 + (g3 - 1)
                          - (p1 + 1 + (g1 - 1) + 1 + (g2 - 1))) 6) as [?|_]; [lia|].
    destruct (Z.eqb_spec p1 (-1)) as [?|_]; [lia|].
    cbn [diff_loop].
    destruct (Z.ltb_spec (0 + 1 + 1 + 1 + 1) 4) as [?|_]; [lia|].
    unfold first_last_apart. rewrite Hn, Hl.
    destruct (Z.ltb_spec (52 + p1 - (p1 + 1 + (g1 - 1) + 1 + (g2 - 1) + 1 + (g3 - 1))) 6);
      destruct (Z.leb_spec 6 (52 - (g1 + g2 + g3))); try lia; reflexivity.
Qed.

End SevensApart.

(** X21. With the lengths the search sets (52 positions, windows of 6),
    [c7k_c8k_diff_valid] on two sequences that differ in exactly the four
    positions [p1 < p2 < p3 < p4] answers TRUE exactly when neighbouring
    positions are at least six apart and, unless [p4] is the last position
    51, also [p1] and [p4] across the wrap. When [p4 = 51] the loop leaves
    before recording it, and the wrap test then compares [p1] with [p3]
    and always succeeds. *)
Theorem c7k_c8k_diff_valid_four_positions (s : Usearch.ultimate_struct_t) (p1 p2 p3 p4 : Z) :
  Usearch.n_bits_max s = 52 ->
  Usearch.subsequence_length s = 6 ->
  Usearch.subsequence_mask s = 63 ->
  0 <= p1 -> p1 < p2 -> p2 < p3 -> p3 < p4 -> p4 < 52 ->
  Z.lxor (Usearch.c7k_sequence s) (Usearch.c8k_sequence s)
    = 2 ^ p1 + 2 ^ p2 + 2 ^ p3 + 2 ^ p4 ->
  Usearch.c7k_c8k_diff_valid s
  = (6 <=? p2 - p1) && (6 <=? p3 - p2) && (6 <=? p4 - p3)
    && ((p4 =? 51) || (6 <=? 52 + p1 - p4)).
Proof.
  intros Hn Hl Hm H1 H2 H3 H4 H5 Hdiff.
  rewrite (diff_valid_gaps s Hn Hl Hm p1 (p2 - p1) (p3 - p2) (p4 - p3)) by
    (try lia; rewrite Hdiff;
     replace p4 with (p1 + (1 + ((p2 - p1 - 1) + (1 + ((p3 - p2 - 1) + (1 + (p4 - p3 - 1))))))) at 1 by lia;
     replace p3 with (p1 + (1 + ((p2 - p1 - 1) + (1 + (p3 - p2 - 1))))) at 1 by lia;
     replace p2 with (p1 + (1 + (p2 - p1 - 1))) at 1 by lia;
     rewrite !Z.pow_add_r by lia; change (2 ^ 1) with 2; ring).
  replace (p1 + (p2 - p1) + (p3 - p2) + (p4 - p3)) with p4 by lia.
  replace (52 - (p2 - p1 + (p3 - p2) + (p4 - p3))) with (52 + p1 - p4) by lia.
  reflexivity.
Qed.

Lemma c7k_c8k_diff_valid_four_positions_witness :
  Usearch.c7k_c8k_diff_valid Sample.seq_set_8k = false /\
  Usearch.c7k_c8k_diff_valid
    (Usearch.set_c8k_sequence Sample.seq_set
       (Z.lxor (Usearch.c7k_sequence Sample.seq_set) (2 ^ 0 + 2 ^ 17 + 2 ^ 34 + 2 ^ 51)))
  = true.
Proof.
  split.
  - rewrite (c7k_c8k_diff_valid_four_positions Sample.seq_set_8k 9 12 16 21);
      [reflexivity | reflexivity | reflexivity | reflexivity | lia | lia | lia | lia | lia
      | vm_compute; reflexivity].
  - rewrite (c7k_c8k_diff_valid_four_positions _ 0 17 34 51);
      [reflexivity | reflexivity | reflexivity | reflexivity | lia | lia | lia | lia | lia
      | vm_compute; reflexivity].
Defined.

(** * The cache file written by dbn_file_creator *)

Section CreatorFile.

Variable k : Z.
Variable strict : bool.

Lemma windows_distinct_nonzero (v : Z) : windows_distinct v -> v <> 0.
Proof.
  intros H ->. apply (H 0%nat 1%nat); [lia | lia | lia | reflexivity].
Qed.

(** Zero comes back from the empty stack only. *)
Lemma dbn_next_zero (fuel : nat) :
  forall d d', dbn_ok k strict d -> Dbn.dbn_next fuel d = Some (0, d') ->
    Dbn.bit_obj_stack d' = [].
Proof.
  induction fuel as [|fuel IH]; intros d d' Hd Hn.
  - cbn [Dbn.dbn_next] in Hn. destruct (Dbn.bit_obj_stack d) eqn:Hs; [|discriminate].
    injection Hn as <-. exact Hs.
  - cbn [Dbn.dbn_next] in Hn. destruct (Dbn.bit_obj_stack d) as [|m rest] eqn:Hs.
    + injection Hn as <-. exact Hs.
    + pose proof (dbn_step_ok k strict d m rest Hd Hs) as Hstep.
      destruct (Dbn.dbn_step d m rest) as [r d1|d1].
      * injection Hn as -> <-. destruct Hstep as [(_ & Hw & _) _].
        elim (windows_distinct_nonzero 0 Hw). reflexivity.
      * apply (IH _ _ Hstep Hn).
Qed.

Lemma write_loop_sound (calls fuel : nat) :
  forall d file0 file,
    dbn_ok k strict d -> Creator.write_loop calls fuel d file0 = Some file ->
    exists words,
      file = file0 ++ words ++ [0] /\
      Forall (fun w => w <> 0 /\ primitive_ok k strict w) words.
Proof.
  induction calls as [|calls IH]; intros d file0 file Hd Hw; [discriminate|].
  cbn [Creator.write_loop] in Hw.
  destruct (Dbn.dbn_next fuel d) as [[x d']|] eqn:Hn; [|discriminate].
  destruct (dbn_next_ok k strict fuel d x d' Hd Hn) as [Hd' Hx].
  cbv zeta in Hw. destruct (Z.eqb_spec x 0) as [->|Hne].
  - injection Hw as <-. exists []. split; [reflexivity | apply Forall_nil; exact I].
  - destruct (IH d' (file0 ++ [x]) file Hd' Hw) as (words & -> & Hall).
    exists (x :: words). split; [rewrite <- app_assoc; reflexivity|].
    apply Forall_cons. split; [split; [exact Hne | exact (Hx Hne)] | exact Hall].
Qed.

End CreatorFile.

Section CreatorComplete.

Variable strict : bool.
Variable v : Z.
Hypothesis v_range : 0 <= v < 2 ^ 52.
Hypothesis v_distinct : windows_distinct v.
Hypothesis v_not_uniform : strict = true -> no_uniform_window v.

(** A call of [dbn_next] returns [v] or leaves it pending. *)
Lemma dbn_next_cover (fuel : nat) :
  forall d x d',
    dbn_ok 0 strict d -> short_stack d -> Dbn.dbn_next fuel d = Some (x, d') ->
    short_stack d' /\ (pending v d -> x = v \/ pending v d').
Proof.
  induction fuel as [|fuel IH]; intros d x d' Hd Hshort Hn.
  - cbn [Dbn.dbn_next] in Hn. destruct (Dbn.bit_obj_stack d) eqn:Hs; [|discriminate].
    injection Hn as <- <-. split; [exact Hshort | intros H; right; exact H].
  - cbn [Dbn.dbn_next] in Hn. destruct (Dbn.bit_obj_stack d) as [|m rest] eqn:Hs.
    + injection Hn as <- <-. split; [exact Hshort | intros H; right; exact H].
    + pose proof (dbn_step_ok 0 strict d m rest Hd Hs) as Hok.
      pose proof (dbn_step_complete strict v v_range v_distinct v_not_uniform
                    d m rest Hd Hshort Hs) as Hcomp.
      assert (Hshort' : Forall (fun m => 0 <= Dbn.length m < 52) (m :: rest))
        by (rewrite <- Hs; exact Hshort).
      apply Forall_cons in Hshort' as [HLm Hshort_rest].
      assert (Hpend : pending v d -> covers m v \/ exists c, c ∈ rest /\ covers c v).
      { intros (c & Hin & Hcov). rewrite Hs in Hin.
        apply elem_of_cons in Hin as [->|Hin]; [left; exact Hcov|].
        right. exists c. split; assumption. }
      destruct (Dbn.dbn_step d m rest) as [r d1|d1].
      * injection Hn as <- <-. destruct Hcomp as [Hrest Hx]. split.
        -- unfold short_stack. rewrite Hrest. exact Hshort_rest.
        -- intros Hp. destruct (Hpend Hp) as [Hc|Hc]; [left; apply Hx, Hc|].
           right. unfold pending. rewrite Hrest. exact Hc.
      * destruct Hcomp as (Hs' & _ & Hkeep & Hc').
        destruct (IH d1 x d' Hok Hs' Hn) as [Hsd' Hp']. split; [exact Hsd'|].
        intros Hp. apply Hp'. destruct (Hpend Hp) as [Hc|(c & Hin & Hcov)].
        -- apply Hc', Hc.
        -- exists c. split; [apply Hkeep, Hin | exact Hcov].
Qed.

Lemma write_loop_complete (calls fuel : nat) :
  forall d file0 file,
    dbn_ok 0 strict d -> short_stack d ->
    Creator.write_loop calls fuel d file0 = Some file ->
    pending v d ->
    exists words, file = file0 ++ words ++ [0] /\ In v words.
Proof.
  induction calls as [|calls IH]; intros d file0 file Hd Hshort Hw Hp; [discriminate|].
  cbn [Creator.write_loop] in Hw.
  destruct (Dbn.dbn_next fuel d) as [[x d']|] eqn:Hn; [|discriminate].
  destruct (dbn_next_ok 0 strict fuel d x d' Hd Hn) as [Hd' _].
  destruct (dbn_next_cover fuel d x d' Hd Hshort Hn) as [Hshort' Hcov].
  cbv zeta in Hw. destruct (Z.eqb_spec x 0) as [->|Hne].
  - exfalso. destruct (Hcov Hp) as [H0|(c & Hin & _)].
    + apply (windows_distinct_nonzero v v_distinct). symmetry. exact H0.
    + rewrite (dbn_next_zero 0 strict fuel d d' Hd Hn) in Hin. inversion Hin.
  - destruct (Hcov Hp) as [->|Hp'].
    + destruct (write_loop_sound 0 strict calls fuel d' (file0 ++ [v]) file Hd' Hw)
        as (words & -> & _).
      exists (v :: words). split; [rewrite <- app_assoc; reflexivity | left; reflexivity].
    + destruct (IH d' (file0 ++ [x]) file Hd' Hshort' Hw Hp') as (words & -> & Hin).
      exists (x :: words). split; [rewrite <- app_assoc; reflexivity | right; exact Hin].
Qed.

(** Every sequence is pending when the generator is made. *)
Lemma dbn_make_pending (d0 : Dbn.dbn_de_bruijn_s) :
  Dbn.dbn_make 52 0 strict = Some d0 -> short_stack d0 /\ pending v d0.
Proof.
  intros Hmake.
  assert (Hstack : Dbn.bit_obj_stack d0 =
            [ {| Dbn.subseq_bit_store := 0; Dbn.value := 0; Dbn.length := 0;
                 Dbn.set_bit_count := 0; Dbn.bit := 0 |};
              {| Dbn.subseq_bit_store := 0; Dbn.value := 0; Dbn.length := 0;
                 Dbn.set_bit_count := 0; Dbn.bit := 1 |} ]).
  { unfold Dbn.dbn_make in Hmake. change (64 <? 52) with false in Hmake.
    cbv iota in Hmake. injection Hmake as <-. reflexivity. }
  split.
  - unfold short_stack. rewrite Hstack.
    repeat (apply Forall_cons; split; [cbn; lia|]). apply Forall_nil. exact I.
  - unfold pending. rewrite Hstack.
    assert (Htop : Z.shiftr v 51 = 0 \/ Z.shiftr v 51 = 1).
    { rewrite Z.shiftr_div_pow2 by lia.
      assert (0 <= v / 2 ^ 51 < 2); [|lia]. split.
      - apply Z.div_pos; lia.
      - apply Z.div_lt_upper_bound; [lia|]. change (2 ^ 51 * 2) with (2 ^ 52). lia. }
    destruct Htop as [H|H].
    + eexists. split; [apply elem_of_cons; left; reflexivity|].
      unfold covers. cbn [Dbn.value Dbn.length Dbn.bit]. rewrite Z.sub_0_r, H. reflexivity.
    + eexists. split; [apply elem_of_cons; right; apply elem_of_cons; left; reflexivity|].
      unfold covers. cbn [Dbn.value Dbn.length Dbn.bit]. rewrite Z.sub_0_r, H. reflexivity.
Qed.

End CreatorComplete.

(** X22. For sequences of length 52, a run of [dbn_file_creator_main]
    that completes writes the emitted primitives followed by a single 0:
    every word before the final 0 is nonzero, bracelet-valid, has the
    requested population when one is requested and has no uniform window
    under the short option, so the first 0 of the file is its end marker.
    When no population is requested, every bracelet-valid sequence (without
    uniform window under the short option) is in the file. *)
Theorem dbn_file_creator_writes_all_primitives (calls fuel : nat) (can_create : bool)
    (args : Creator.program_arguments_t) (status : Z) (name : string) (file : list Z) :
  Creator.bit_count args = 52 ->
  Creator.dbn_file_creator_main calls fuel can_create args = Some (status, Some (name, file)) ->
  let k := u32 (Creator.one_count args) in
  let strict := Creator.not_all_bits_the_same args in
  exists words,
    file = words ++ [0] /\
    Forall (fun w => w <> 0 /\ primitive_ok k strict w) words /\
    (k = 0 -> forall v, primitive_ok 0 strict v -> In v words).
Proof.
  intros Hbits Hrun k strict. unfold Creator.dbn_file_creator_main in Hrun.
  rewrite Hbits in Hrun. change (u32 52) with 52 in Hrun.
  assert (Hflag : (if Creator.not_all_bits_the_same args
                   then Dbn.DBN_REQUIRE_BITS_NOT_ALL_THE_SAME
                   else Dbn.DBN_ALLOW_ALL_BITS_THE_SAME) = strict)
    by (unfold strict; destruct (Creator.not_all_bits_the_same args); reflexivity).
  cbv zeta in Hrun. rewrite Hflag in Hrun. fold k in Hrun.
  destruct (Dbn.dbn_make 52 k strict) as [d0|] eqn:Hmake; [|discriminate].
  destruct can_create; [|discriminate].
  destruct (Creator.write_loop calls fuel d0 []) as [f|] eqn:Hloop; [|discriminate].
  injection Hrun as _ _ <-.
  pose proof (dbn_make_ok k strict d0 Hmake) as Hd.
  destruct (write_loop_sound k strict calls fuel d0 [] f Hd Hloop) as (words & Hf & Hall).
  exists words. split; [exact Hf|]. split; [exact Hall|].
  intros Hk v (Hr & Hdist & _ & Hu). revert Hmake Hd Hloop. rewrite Hk. intros Hmake Hd Hloop.
  destruct (dbn_make_pending strict v Hr d0 Hmake) as [Hshort Hp].
  destruct (write_loop_complete strict v Hr Hdist Hu calls fuel d0 [] f Hd Hshort Hloop Hp)
    as (words' & Hf' & Hin).
  rewrite Hf in Hf'. cbn [app] in Hf'. apply app_inv_tail in Hf'. rewrite Hf'. exact Hin.
Qed.

Lemma dbn_file_creator_writes_all_primitives_witness :
  exists words,
    [0] = words ++ [0] /\
    Forall (fun w => w <> 0 /\ primitive_ok 1 false w) words /\
    (1 = 0 -> forall v, primitive_ok 0 false v -> In v words).
Proof.
  apply (dbn_file_creator_writes_all_primitives 1 200 true
           {| Creator.bit_count := 52; Creator.one_count := 1;
              Creator.not_all_bits_the_same := false |} 0 "dbn_52_1.bin" [0]);
    [reflexivity | vm_compute; reflexivity].
Defined.

(** X23. For sequences of length 52, [dbn_next] returns 0 only when the
    search is exhausted: the move stack is then empty, and every later call
    returns 0 again and leaves the generator as it is. No emitted sequence
    is 0, so a reader can take the first 0 for the end of the enumeration. *)
Theorem dbn_next_zero_is_final (k : Z) (strict : bool) (d0 d d' : Dbn.dbn_de_bruijn_s)
    (fuel : nat) :
  Dbn.dbn_make 52 k strict = Some d0 ->
  Dbn.after_calls d0 d ->
  Dbn.dbn_next fuel d = Some (0, d') ->
  Dbn.bit_obj_stack d' = [] /\
  forall fuel' : nat, Dbn.dbn_next fuel' d' = Some (0, d').
Proof.
  intros Hmake Hcalls Hn.
  pose proof (after_calls_ok k strict d0 d (dbn_make_ok k strict d0 Hmake) Hcalls) as Hd.
  pose proof (dbn_next_zero k strict fuel d d' Hd Hn) as Hs.
  split; [exact Hs|].
  intros fuel'. destruct fuel'; cbn [Dbn.dbn_next]; rewrite Hs; reflexivity.
Qed.

Lemma dbn_next_zero_is_final_witness :
  exists d0 d',
    Dbn.dbn_make 52 1 false = Some d0 /\
    Dbn.dbn_next 200 d0 = Some (0, d') /\
    Dbn.bit_obj_stack d' = [] /\
    forall fuel' : nat, Dbn.dbn_next fuel' d' = Some (0, d').
Proof.
  destruct (Dbn.dbn_make 52 1 false) as [d0|] eqn:Hmake; [|discriminate Hmake].
  destruct (Dbn.dbn_next 200 d0) as [[x d']|] eqn:Hn.
  - exists d0, d'. split; [reflexivity|].
    assert (Hx : x = 0).
    { revert Hn. injection Hmake as <-. vm_compute. intros H. injection H as <- _. reflexivity. }
    subst x. split; [exact Hn|].
    apply (dbn_next_zero_is_final 1 false d0 d0 d' 200 Hmake (Dbn.after_none d0) Hn).
  - exfalso. revert Hn. injection Hmake as <-. vm_compute. discriminate.
Defined.

(** * The bundles the realizer accepts *)

Section Acceptance.
Import Deck Umake.

Lemma class_positions_succ (temp : list Z) (n : nat) (k : nat) :
  class_positions temp (Z.of_nat (S n)) k
  = class_positions temp (Z.of_nat n) k
    ++ (if in_class k (aget temp (Z.of_nat n)) then [Z.of_nat n] else []).
Proof.
  unfold class_positions. rewrite upto_succ, List.filter_app. cbn [List.filter].
  destruct (in_class k (aget temp (Z.of_nat n))); reflexivity.
Qed.

Lemma index_step_count (temp : list Z) (n : nat) (a : ambiguity_t) :
  count_inv temp (Z.of_nat n) a ->
  count_inv temp (Z.of_nat (S n)) (index_step temp a (Z.of_nat n)).
Proof.
  intros (Hla & Hlc & Hslots). unfold index_step. cbv zeta.
  destruct (value_class (Z.land (aget temp (Z.of_nat n)) 255)) as [m|] eqn:Hv.
  2:{ split; [exact Hla|]. split; [exact Hlc|]. intros k Hk.
      rewrite class_positions_succ. unfold in_class, cell_class.
      change 0xFF with 255. rewrite Hv, app_nil_r. apply Hslots, Hk. }
  pose proof (value_class_range _ _ Hv) as Hm.
  pose proof (suit_class_range (Z.shiftr (aget temp (Z.of_nat n)) 8)) as Hs.
  set (k0 := (4 * suit_class (Z.shiftr (aget temp (Z.of_nat n)) 8) + m)%nat).
  assert (Hk0 : (k0 < 16)%nat) by (unfold k0; lia).
  assert (Hclass : cell_class (aget temp (Z.of_nat n)) = Some k0)
    by (unfold cell_class; change 0xFF with 255; rewrite Hv; reflexivity).
  unfold count_inv. cbn [index_arrays counters].
  split; [rewrite length_insert; exact Hla|].
  split; [rewrite length_insert; exact Hlc|].
  intros k Hk. cbv zeta. rewrite class_positions_succ. unfold in_class at 1 2 3.
  rewrite Hclass. destruct (Hslots k Hk) as (Hl & Hc & Ha). cbv zeta in Hl, Hc, Ha.
  destruct (Nat.eqb_spec k0 k) as [<-|Hne].
  - rewrite !nth_insert_eq by lia. rewrite length_app. cbn [length].
    split; [rewrite aset_length; exact Hl|].
    split; [lia|].
    intros j Hj Hjl. rewrite Hc.
    destruct (Nat.eq_dec j (length (class_positions temp (Z.of_nat n) k0))) as [->|Hjn].
    + rewrite aget_aset_eq by lia. rewrite nth_middle. reflexivity.
    + rewrite aget_aset_ne by lia. rewrite app_nth1 by lia. apply Ha; lia.
  - rewrite !nth_insert_ne by exact Hne. rewrite app_nil_r.
    split; [exact Hl|]. split; [exact Hc | exact Ha].
Qed.

Lemma count_inv_initial (temp : list Z) : count_inv temp 0 no_ambiguity.
Proof.
  split; [reflexivity|]. split; [reflexivity|]. intros k Hk.
  cbv zeta. change (class_positions temp 0 k) with (@nil Z). cbn [length].
  do 16 (destruct k as [|k];
    [split; [reflexivity|]; split; [reflexivity|]; intros; lia|]). lia.
Qed.

Lemma count_loop (temp : list Z) (n : nat) :
  count_inv temp (Z.of_nat n) (fold_left (index_step temp) (upto (Z.of_nat n)) no_ambiguity).
Proof.
  induction n as [|n IH]; [apply count_inv_initial|].
  rewrite upto_succ, fold_left_app. cbn [fold_left].
  apply index_step_count, IH.
Qed.

Lemma value_in_array_spec (temp : list Z) :
  (52 <= length temp)%nat ->
  deck_is_value_in_array 0 temp 52 = false <-> forall p, 0 <= p < 52 -> aget temp p <> 0.
Proof.
  intros Hlen. unfold deck_is_value_in_array. split.
  - intros H p Hp E.
    assert (Ht : existsb (Z.eqb 0) (take (Z.to_nat 52) temp) = true); [|congruence].
    apply existsb_exists. exists 0. split; [|reflexivity].
    apply list_elem_of_In, elem_of_take. exists (Z.to_nat p). split; [|lia].
    unfold aget in E. destruct (Z.ltb_spec p 0); [lia|]. rewrite nth_lookup in E.
    destruct (temp !! Z.to_nat p) as [x|] eqn:Hx.
    + cbn in E. rewrite E. reflexivity.
    + apply lookup_ge_None in Hx. lia.
  - intros H. destruct (existsb _ _) eqn:Hex; [exfalso | reflexivity].
    apply existsb_exists in Hex as (x & Hin & Hx). apply Z.eqb_eq in Hx. subst x.
    apply list_elem_of_In, elem_of_take in Hin as (i & Hi & Hil).
    apply (H (Z.of_nat i)); [lia|]. unfold aget.
    destruct (Z.ltb_spec (Z.of_nat i) 0); [lia|].
    rewrite Nat2Z.id, nth_lookup, Hi. reflexivity.
Qed.

Lemma counters_all_two (a : ambiguity_t) :
  length (counters a) = 16%nat ->
  existsb (fun n => negb (n =? 2)) (counters a) = false <->
  forall k, (k < 16)%nat -> nth k (counters a) 0 = 2.
Proof.
  intros Hlc. split.
  - intros Hex k Hk.
    destruct (Z.eq_dec (nth k (counters a) 0) 2) as [E|E]; [exact E | exfalso].
    assert (Hin : In (nth k (counters a) 0) (counters a)) by (apply nth_In; lia).
    assert (Ht : existsb (fun n => negb (n =? 2)) (counters a) = true).
    { apply existsb_exists. eexists. split; [exact Hin|].
      apply negb_true_iff, Z.eqb_neq, E. }
    congruence.
  - intros H. destruct (existsb _ _) eqn:Hex; [exfalso | reflexivity].
    apply existsb_exists in Hex as (x & Hin & Hx).
    apply (In_nth _ _ 0) in Hin as (k & Hk & <-).
    rewrite (H k) in Hx by lia. discriminate Hx.
Qed.

Lemma prepare_accepts (d0 : deck_info_t) (q : seq_info_t) :
  n_bits_max q = 52 ->
  (52 <= length (temp_deck_array d0))%nat ->
  let r := prepare d0 q in
  let temp := temp_deck_array (fst r) in
  (snd r <> None <->
     (forall p, 0 <= p < 52 -> aget temp p <> 0) /\
     (forall k, (k < 16)%nat -> length (class_positions temp 52 k) = 2%nat)) /\
  (forall a, snd r = Some a -> forall k, (k < 16)%nat ->
     class_positions temp 52 k
     = [aget (nth k (index_arrays a) []) 0; aget (nth k (index_arrays a) []) 1]).
Proof.
  intros Hq Hlen. unfold prepare. cbv zeta. rewrite Hq.
  cbn [temp_deck_array deck_array set_temp_deck_array set_deck_array].
  set (temp := get_deck_possibilities (memset_zero (temp_deck_array d0) 52) q).
  assert (Hlt : (52 <= length temp)%nat)
    by (unfold temp; rewrite get_deck_possibilities_length, memset_zero_length; exact Hlen).
  pose proof (value_in_array_spec temp Hlt) as Hzero.
  pose proof (count_loop temp (Z.to_nat 52)) as Hinv.
  rewrite Z2Nat.id in Hinv by lia.
  remember (fold_left (index_step temp) (upto 52) no_ambiguity) as a' eqn:Ea. clear Ea.
  destruct Hinv as (Hla & Hlc & Hslots).
  pose proof (counters_all_two a' Hlc) as Htwo.
  remember (set_temp_deck_array
              (set_temp_deck_array
                 (set_deck_array d0 (memset_zero (deck_array d0) 52))
                 (memset_zero (temp_deck_array d0) 52)) temp) as d' eqn:Ed.
  assert (Htemp : temp_deck_array d' = temp) by (rewrite Ed; reflexivity).
  clear Ed.
  destruct (deck_is_value_in_array 0 temp 52) eqn:Hz; cbn [fst snd]; rewrite ?Htemp.
  { split; [|discriminate]. split; [intros H; elim H; reflexivity|].
    intros [H _]. apply Hzero in H. discriminate H. }
  destruct (existsb _ _) eqn:Hex; cbn [fst snd]; rewrite ?Htemp.
  { split; [|discriminate]. split; [intros H; elim H; reflexivity|].
    intros [_ H]. assert (Hf : true = false); [|discriminate Hf].
    apply Htwo. intros k Hk. destruct (Hslots k Hk) as (_ & Hc & _). cbv zeta in Hc.
    rewrite Hc, (H k Hk). reflexivity. }
  assert (Hcnt : forall k, (k < 16)%nat -> length (class_positions temp 52 k) = 2%nat).
  { intros k Hk. destruct (Hslots k Hk) as (_ & Hc & _). cbv zeta in Hc.
    pose proof (proj1 Htwo eq_refl k Hk) as H2. lia. }
  split.
  - split; [intros _ | discriminate].
    split; [apply Hzero; reflexivity | exact Hcnt].
  - intros a Ha k Hk. injection Ha as <-.
    destruct (Hslots k Hk) as (_ & _ & Hs). cbv zeta in Hs.
    pose proof (Hcnt k Hk) as Hl.
    pose proof (Hs 0%nat ltac:(lia) ltac:(lia)) as E0.
    pose proof (Hs 1%nat ltac:(lia) ltac:(lia)) as E1.
    change (Z.of_nat 0) with 0 in E0. change (Z.of_nat 1) with 1 in E1. rewrite E0, E1.
    destruct (class_positions temp 52 k) as [|x [|y [|z l]]]; try discriminate Hl.
    reflexivity.
Qed.

(** [memset] with a byte count of 52 clears 13 cells. *)
Lemma memset_zero_52 (array : list Z) (j : Z) :
  0 <= j < Z.of_nat (length array) ->
  aget (memset_zero array 52) j = if j <? 13 then 0 else aget array j.
Proof.
  intros Hj. unfold aget, memset_zero. destruct (Z.ltb_spec j 0); [lia|].
  change (Z.to_nat (52 / 4)) with 13%nat. rewrite !nth_lookup.
  destruct (Z.ltb_spec j 13) as [Hlt|Hge].
  - rewrite lookup_app_l by (rewrite length_replicate; lia).
    rewrite lookup_replicate_2 by lia. reflexivity.
  - rewrite lookup_app_r by (rewrite length_replicate; lia).
    rewrite length_replicate, lookup_drop. f_equal. f_equal. lia.
Qed.

Lemma find_best_deck_order_rejected (d0 : deck_info_t) (q : seq_info_t) :
  n_bits_max q = 52 ->
  snd (prepare d0 q) = None ->
  find_best_deck_order d0 q
  = set_results
      (set_temp_deck_array
         (set_temp_deck_array
            (set_deck_array d0 (memset_zero (deck_array d0) 52))
            (memset_zero (temp_deck_array d0) 52))
         (get_deck_possibilities (memset_zero (temp_deck_array d0) 52) q))
      TINY_DECK_SCORE 0.
Proof.
  intros Hq. unfold find_best_deck_order, prepare. cbv zeta. rewrite Hq.
  cbn [temp_deck_array set_temp_deck_array].
  destruct (deck_is_value_in_array 0 _ 52); [intros _; reflexivity|].
  destruct (existsb _ _); [intros _; reflexivity | discriminate].
Qed.

End Acceptance.

(** X24. [find_best_deck_order] goes on to realize a bundle exactly when no
    cell of the partial deck is 0 and each of the sixteen (marker, suit)
    classes occurs at exactly two of the 52 positions; the zero test
    compares whole cells, suit included. For an accepted bundle the index
    array of every class holds precisely the two positions of that class,
    the smaller one first. For a rejected bundle nothing is realized: the
    function hands back the score 0 and an empty predicate mask, and of
    [deck_array] only the first 13 cells are cleared (the byte count 52
    given to [memset] covers 13 ints); the later cells keep what they
    held. *)
Theorem find_best_deck_order_accepts (d0 : Deck.deck_info_t) (q : Umake.seq_info_t) :
  Umake.n_bits_max q = 52 ->
  (52 <= length (Deck.temp_deck_array d0))%nat ->
  let r := Umake.prepare d0 q in
  let temp := Deck.temp_deck_array (fst r) in
  (snd r <> None <->
     (forall p, 0 <= p < 52 -> aget temp p <> 0) /\
     (forall k, (k < 16)%nat -> length (class_positions temp 52 k) = 2%nat)) /\
  (forall a, snd r = Some a -> forall k, (k < 16)%nat ->
     class_positions temp 52 k
     = [aget (nth k (Umake.index_arrays a) []) 0; aget (nth k (Umake.index_arrays a) []) 1]) /\
  (snd r = None ->
     let out := Umake.find_best_deck_order d0 q in
     Deck.deck_score out = 0 /\
     Deck.sequence_type_bits out = 0 /\
     forall j, 0 <= j < Z.of_nat (length (Deck.deck_array d0)) ->
       aget (Deck.deck_array out) j = if j <? 13 then 0 else aget (Deck.deck_array d0) j).
Proof.
  intros Hq Hlen r temp.
  destruct (prepare_accepts d0 q Hq Hlen) as [Hiff Hpos].
  split; [exact Hiff|]. split; [exact Hpos|].
  intros Hnone out. unfold out.
  rewrite (find_best_deck_order_rejected d0 q Hq Hnone).
  cbn [Deck.deck_score Deck.sequence_type_bits Deck.deck_array Umake.set_results
       Umake.set_temp_deck_array Umake.set_deck_array].
  split; [reflexivity|]. split; [reflexivity|].
  intros j Hj. apply memset_zero_52, Hj.
Qed.

Lemma find_best_deck_order_accepts_witness :
  let d0 := Umake.initial_deck_info false in
  let r := Umake.prepare d0 Sample.bundle in
  let temp := Deck.temp_deck_array (fst r) in
  (snd r <> None <->
     (forall p, 0 <= p < 52 -> aget temp p <> 0) /\
     (forall k, (k < 16)%nat -> length (class_positions temp 52 k) = 2%nat)) /\
  (forall a, snd r = Some a -> forall k, (k < 16)%nat ->
     class_positions temp 52 k
     = [aget (nth k (Umake.index_arrays a) []) 0; aget (nth k (Umake.index_arrays a) []) 1]) /\
  (snd r = None ->
     let out := Umake.find_best_deck_order d0 Sample.bundle in
     Deck.deck_score out = 0 /\
     Deck.sequence_type_bits out = 0 /\
     forall j, 0 <= j < Z.of_nat (length (Deck.deck_array d0)) ->
       aget (Deck.deck_array out) j = if j <? 13 then 0 else aget (Deck.deck_array d0) j).
Proof.
  apply (find_best_deck_order_accepts (Umake.initial_deck_info false) Sample.bundle);
    [reflexivity | cbn; lia].
Defined.

(** * The candidate file: from the search to the realizer *)

Section ReadBack.
Import UmakeMain.

Lemma text_loop_digits (n : nat) :
  forall seq mask, all_digits (UsearchText.text_loop n seq mask)
                   /\ length (UsearchText.text_loop n seq mask) = n.
Proof.
  induction n as [|n IH]; intros seq mask; cbn [UsearchText.text_loop].
  - split; [apply Forall_nil; exact I | reflexivity].
  - destruct (IH (u64 (Z.shiftl seq 1)) mask) as [Hd Hl]. split.
    + apply Forall_cons. split; [|exact Hd].
      destruct (Z.land seq mask =? 0); [left | right]; reflexivity.
    + cbn [length]. rewrite Hl. reflexivity.
Qed.

Lemma before_digits (stop : ascii) (digits rest : list ascii) :
  stop <> "0"%char -> stop <> "1"%char -> all_digits digits ->
  before stop (digits ++ rest) = digits ++ before stop rest.
Proof.
  intros H0 H1 Hd. induction Hd as [|c digits Hc _ IH]; [reflexivity|].
  cbn [app before]. destruct (Ascii.eqb_spec c stop) as [->|_].
  - destruct Hc as [E|E]; [elim H0 | elim H1]; exact E.
  - rewrite IH. reflexivity.
Qed.

Lemma strstr_digits (c0 : ascii) (needle digits : list ascii) :
  c0 <> "0"%char -> c0 <> "1"%char -> all_digits digits ->
  strstr digits (c0 :: needle) = None.
Proof.
  intros H0 H1 Hd. induction Hd as [|c digits Hc _ IH]; [reflexivity|].
  cbn [strstr starts_with]. destruct (Ascii.eqb_spec c0 c) as [->|_].
  - destruct Hc as [E|E]; [elim H0 | elim H1]; exact E.
  - cbn [andb]. exact IH.
Qed.

Lemma skip_spaces_digits (digits : list ascii) :
  all_digits digits -> skip_spaces digits = digits.
Proof.
  intros Hd. destruct Hd as [|c digits Hc _]; [reflexivity|].
  cbn [skip_spaces]. destruct Hc as [-> | ->]; reflexivity.
Qed.

(** One line of [display_sequence], read by the loop. *)
Lemma read_display_line (skip : Z) (r : reader_t) (name : string) (v : Z) :
  In name [" 7K"; " 8K"; " 4T"; "ODD"; "RED"; " CD"; " HC"]%string ->
  read_line skip r (list_ascii_of_string (UsearchText.display_sequence name v 52))
  = store r (name_of (skip_spaces (list_ascii_of_string name))) (UsearchText.text_array v 52).
Proof.
  intros Hname. unfold UsearchText.display_sequence, UsearchText.text_array.
  destruct (text_loop_digits (Z.to_nat 52) v (u64 (Z.shiftl 1 (52 - 1)))) as [Hd _].
  revert Hd. generalize (UsearchText.text_loop (Z.to_nat 52) v (u64 (Z.shiftl 1 (52 - 1)))).
  intros digits Hd.
  rewrite !list_ascii_of_string_app, list_ascii_of_string_of_list_ascii.
  unfold read_line.
  assert (Hline : forall prefix,
            Forall (fun c => c <> "010"%char /\ c <> "000"%char) prefix ->
            before "010" (before "000" (prefix ++ digits ++ ["010"%char]))
            = prefix ++ digits).
  { intros prefix Hp. induction Hp as [|c prefix [Hc1 Hc2] _ IH].
    - cbn [app]. rewrite before_digits by (try discriminate; exact Hd).
      cbn [before Ascii.eqb Bool.eqb andb]. rewrite before_digits by (try discriminate; exact Hd).
      cbn. rewrite app_nil_r. reflexivity.
    - cbn [app before]. destruct (Ascii.eqb_spec c "000"); [contradiction|].
      cbn [before]. destruct (Ascii.eqb_spec c "010"); [contradiction|].
      rewrite IH. reflexivity. }
  assert (Hfound : strstr digits (list_ascii_of_string "Found") = None)
    by (apply strstr_digits; [discriminate | discriminate | exact Hd]).
  assert (Hcolon : strstr digits (list_ascii_of_string ":") = None)
    by (apply strstr_digits; [discriminate | discriminate | exact Hd]).
  assert (Hskip : skip_spaces digits = digits) by (apply skip_spaces_digits, Hd).
  cbn [list_ascii_of_string] in Hfound, Hcolon.
  cbn [In] in Hname.
  repeat (destruct Hname as [<-|Hname];
    [ rewrite app_assoc;
      change (list_ascii_of_string (String "010" EmptyString)) with ["010"%char];
      rewrite Hline
        by (cbn; repeat (apply Forall_cons; split; [split; discriminate|]);
            apply Forall_nil; exact I);
      cbn [list_ascii_of_string app strstr starts_with Ascii.eqb Bool.eqb andb];
      rewrite Hfound;
      cbn [tl skip_spaces Ascii.eqb Bool.eqb];
      rewrite Hskip; reflexivity
    | ]).
  contradiction.
Qed.

Lemma fgets_rest_length (n : nat) :
  forall stream, (length (snd (fgets_from n stream)) <= length stream)%nat.
Proof.
  induction n as [|n IH]; intros [|c rest]; cbn [fgets_from snd length]; try lia.
  destruct (Ascii.eqb c "010"); [cbn; lia|].
  specialize (IH rest). destruct (fgets_from n rest) as [line rest']. cbn [snd] in *. lia.
Qed.

Lemma file_lines_fuel (n : nat) :
  forall f1 f2 stream,
    (length stream <= n)%nat -> (length stream <= f1)%nat -> (length stream <= f2)%nat ->
    file_lines f1 stream = file_lines f2 stream.
Proof.
  induction n as [|n IH]; intros f1 f2 [|c rest] Hn H1 H2;
    try (destruct f1, f2; reflexivity); cbn [length] in *; try lia.
  destruct f1 as [|f1]; [lia|]. destruct f2 as [|f2]; [lia|].
  cbn [file_lines].
  pose proof (fgets_rest_length (MAX_CHARACTER_READ_COUNT - 1 - 1) rest) as Hr.
  change (MAX_CHARACTER_READ_COUNT - 1)%nat with (S (MAX_CHARACTER_READ_COUNT - 1 - 1)).
  cbn [fgets_from]. destruct (Ascii.eqb c "010").
  - f_equal. apply IH; lia.
  - destruct (fgets_from (MAX_CHARACTER_READ_COUNT - 1 - 1) rest) as [line rest'].
    cbn [snd] in Hr. f_equal. apply IH; lia.
Qed.

Lemma fgets_line (body rest : list ascii) (n : nat) :
  Forall (fun c => c <> "010"%char) body -> (length body < n)%nat ->
  fgets_from n (body ++ "010"%char :: rest) = (body ++ ["010"%char], rest).
Proof.
  intros Hb. revert n. induction Hb as [|c body Hc _ IH]; intros n Hn.
  - destruct n as [|n]; [cbn in Hn; lia|]. reflexivity.
  - destruct n as [|n]; [cbn in Hn; lia|]. cbn [app fgets_from].
    destruct (Ascii.eqb_spec c "010"); [contradiction|].
    rewrite IH by (cbn [length] in Hn; lia). reflexivity.
Qed.

(** A line shorter than the buffer is one buffer of the loop. *)
Lemma lines_of_line (body rest : list ascii) :
  Forall (fun c => c <> "010"%char) body -> (length body < 255)%nat ->
  lines_of (body ++ "010"%char :: rest) = (body ++ ["010"%char]) :: lines_of rest.
Proof.
  intros Hb Hl. unfold lines_of.
  destruct (length (body ++ "010"%char :: rest)) as [|fuel] eqn:Hf;
    [rewrite length_app in Hf; cbn in Hf; lia|].
  assert (Hne : exists c t, body ++ "010"%char :: rest = c :: t)
    by (destruct body; eexists; eexists; reflexivity).
  destruct Hne as (c & t & Hct). cbn [file_lines]. rewrite Hct, <- Hct.
  change (MAX_CHARACTER_READ_COUNT - 1)%nat with 255%nat.
  rewrite (fgets_line body rest 255 Hb Hl). f_equal.
  rewrite length_app in Hf. cbn [length] in Hf.
  apply (file_lines_fuel (length rest)); lia.
Qed.

Lemma display_sequence_line (name : string) (v : Z) (rest : list ascii) :
  In name [" 7K"; " 8K"; " 4T"; "ODD"; "RED"; " CD"; " HC"]%string ->
  lines_of (list_ascii_of_string (UsearchText.display_sequence name v 52) ++ rest)
  = list_ascii_of_string (UsearchText.display_sequence name v 52) :: lines_of rest.
Proof.
  intros Hname. unfold UsearchText.display_sequence, UsearchText.text_array.
  destruct (text_loop_digits (Z.to_nat 52) v (u64 (Z.shiftl 1 (52 - 1)))) as [Hd Hlen].
  revert Hd Hlen.
  generalize (UsearchText.text_loop (Z.to_nat 52) v (u64 (Z.shiftl 1 (52 - 1)))).
  intros digits Hd Hlen.
  rewrite !list_ascii_of_string_app, list_ascii_of_string_of_list_ascii.
  change (list_ascii_of_string (String "010" EmptyString)) with ["010"%char].
  rewrite !app_assoc. rewrite <- (app_assoc _ ["010"%char] rest). cbn [app].
  apply lines_of_line.
  - apply Forall_app. split.
    + cbn [In] in Hname.
      repeat (destruct Hname as [<-|Hname];
        [cbn; repeat (apply Forall_cons; split; [discriminate|]); apply Forall_nil; exact I|]).
      contradiction.
    + eapply Forall_impl; [exact Hd|]. intros c [-> | ->]; discriminate.
  - rewrite !length_app, Hlen. cbn [In] in Hname.
    repeat (destruct Hname as [<-|Hname]; [cbn; lia|]). contradiction.
Qed.

Lemma text_array_parse (v : Z) :
  0 <= v < 2 ^ 52 ->
  Bit.bit_get_integer_seq (string_of_list_ascii (UsearchText.text_array v 52)) = v.
Proof.
  intros Hv. unfold Bit.bit_get_integer_seq, UsearchText.text_array.
  rewrite list_ascii_of_string_of_list_ascii.
  pose proof (text_loop_parse v 52 ltac:(lia) Hv (Z.to_nat 52) ltac:(lia)) as H.
  rewrite Z2Nat.id in H by lia.
  rewrite Z.sub_diag, Z.shiftl_0_r in H.
  rewrite Z.shiftr_div_pow2, Z.div_small in H by lia.
  rewrite one_bit_u64 by lia.
  rewrite u64_small in H; [exact H | lia].
Qed.

Lemma text_array_length (v : Z) : length (UsearchText.text_array v 52) = 52%nat.
Proof. unfold UsearchText.text_array. apply text_loop_digits. Qed.

End ReadBack.

Section ReadBlock.
Import UmakeMain.

Lemma store_digits (r : reader_t) (name : list ascii) (v : Z) :
  (64 <=? length (UsearchText.text_array v 52))%nat = false.
Proof. rewrite text_array_length. reflexivity. Qed.

Lemma convert_written (red cd hc odd c7k c8k c4t : Z) :
  Forall (fun v => 0 <= v < 2 ^ 52) [red; cd; hc; odd; c7k; c8k; c4t] ->
  Umake.convert_block
    {| Umake.red_sequence_array := string_of_list_ascii (UsearchText.text_array red 52);
       Umake.cd_sequence_array := string_of_list_ascii (UsearchText.text_array cd 52);
       Umake.hc_sequence_array := string_of_list_ascii (UsearchText.text_array hc 52);
       Umake.odd_sequence_array := string_of_list_ascii (UsearchText.text_array odd 52);
       Umake.c7k_sequence_array := string_of_list_ascii (UsearchText.text_array c7k 52);
       Umake.c8k_sequence_array := string_of_list_ascii (UsearchText.text_array c8k 52);
       Umake.c4t_sequence_array := string_of_list_ascii (UsearchText.text_array c4t 52) |}
  = {| Umake.red_seq := red; Umake.cd_seq := cd; Umake.hc_seq := hc; Umake.odd_seq := odd;
       Umake.c7k_seq := c7k; Umake.c8k_seq := c8k; Umake.c4t_seq := c4t;
       Umake.subsequence_mask := Bit.SUBSEQUENCE_MASK;
       Umake.n_bits_max := Deck.N_BITS_MAX |}.
Proof.
  intros H. repeat (apply Forall_cons in H as [? H]).
  unfold Umake.convert_block.
  cbn [Umake.red_sequence_array Umake.cd_sequence_array Umake.hc_sequence_array
       Umake.odd_sequence_array Umake.c7k_sequence_array Umake.c8k_sequence_array
       Umake.c4t_sequence_array].
  rewrite !text_array_parse by assumption. reflexivity.
Qed.

(** The lines of a block, read up to its closing empty line. *)
Lemma read_block_lines (args : Usearch.ProgramArgument_T) (s : Usearch.ultimate_struct_t)
    (skip : Z) (r : reader_t) (rest : list ascii) :
  Usearch.n_bits_max s = 52 ->
  read_lines skip r (lines_of (list_ascii_of_string (display_bundle args s) ++ rest))
  = read_lines skip
      {| arrays :=
           {| red_sequence_array :=
                Some (string_of_list_ascii (UsearchText.text_array (Usearch.red_sequence s) 52));
              cd_sequence_array :=
                Some (string_of_list_ascii (UsearchText.text_array (Usearch.cd_sequence s) 52));
              hc_sequence_array :=
                Some (string_of_list_ascii (UsearchText.text_array (Usearch.hc_sequence s) 52));
              odd_sequence_array :=
                Some (string_of_list_ascii (UsearchText.text_array (Usearch.odd_sequence s) 52));
              c7k_sequence_array :=
                Some (string_of_list_ascii (UsearchText.text_array (Usearch.c7k_sequence s) 52));
              c8k_sequence_array :=
                if Usearch.c8k_sequence_flag args
                then Some (string_of_list_ascii
                             (UsearchText.text_array (Usearch.c8k_sequence s) 52))
                else c8k_sequence_array (arrays r);
              c4t_sequence_array :=
                if Usearch.c4t_sequence_flag args
                then Some (string_of_list_ascii
                             (UsearchText.text_array (Usearch.c4t_sequence s) 52))
                else c4t_sequence_array (arrays r) |};
         sequence_group_count := sequence_group_count r;
         deck_info := deck_info r |}
      (["010"%char] :: lines_of rest).
Proof.
  intros Hn. unfold display_bundle. cbv zeta. rewrite Hn.
  destruct (Usearch.c8k_sequence_flag args), (Usearch.c4t_sequence_flag args);
    rewrite !list_ascii_of_string_app; rewrite <- !app_assoc;
    change (list_ascii_of_string (String "010" EmptyString) ++ rest)
      with ([] ++ "010"%char :: rest);
    change (list_ascii_of_string EmptyString) with (@nil ascii); cbn [app];
    repeat (rewrite display_sequence_line by (cbn; tauto);
        cbn [read_lines];
        rewrite read_display_line by (cbn; tauto);
        match goal with
        | |- context [name_of ?x] =>
            let y := eval vm_compute in (name_of x) in change (name_of x) with y
        end;
        unfold store at 1; rewrite text_array_length;
        cbn [Nat.leb same_text string_of_list_ascii
             String.eqb Ascii.eqb Bool.eqb andb orb
             arrays sequence_group_count deck_info
             red_sequence_array cd_sequence_array hc_sequence_array odd_sequence_array
             c7k_sequence_array c8k_sequence_array c4t_sequence_array]);
    change ("010"%char :: rest) with ([] ++ "010"%char :: rest);
    rewrite lines_of_line by (try apply Forall_nil; try exact I; cbn; lia);
    reflexivity.
Qed.

(** The empty line that ends a group whose arrays are all written. *)
Lemma read_group_end (skip : Z) (r : reader_t) (t : Umake.block_text)
    (lines : list (list ascii)) :
  written (arrays r) = Some t ->
  skip < u32 (sequence_group_count r + 1) ->
  read_lines skip r (["010"%char] :: lines)
  = if Umake.sequences_rejected (Umake.convert_block t) then Exited (-1)
    else read_lines skip
           {| arrays := cleared_arrays;
              sequence_group_count := u32 (sequence_group_count r + 1);
              deck_info := Umake.find_best_deck_order (deck_info r) (Umake.convert_block t) |}
           lines.
Proof.
  intros Hw Hskip. cbn [read_lines]. unfold read_line at 1.
  cbn [before Ascii.eqb Bool.eqb andb list_ascii_of_string strstr starts_with].
  destruct (Z.ltb_spec skip (u32 (sequence_group_count r + 1))) as [_|Hge]; [|lia].
  rewrite Hw. unfold Umake.process_block. cbv zeta.
  destruct (Umake.sequences_rejected (Umake.convert_block t)); reflexivity.
Qed.

Lemma read_block (args : Usearch.ProgramArgument_T) (s : Usearch.ultimate_struct_t)
    (skip : Z) (r : reader_t) (rest : list ascii) :
  Usearch.c8k_sequence_flag args = true ->
  Usearch.c4t_sequence_flag args = true ->
  Usearch.n_bits_max s = 52 ->
  Forall (fun v => 0 <= v < 2 ^ 52)
    [Usearch.red_sequence s; Usearch.cd_sequence s; Usearch.hc_sequence s;
     Usearch.odd_sequence s; Usearch.c7k_sequence s; Usearch.c8k_sequence s;
     Usearch.c4t_sequence s] ->
  skip < u32 (sequence_group_count r + 1) ->
  read_lines skip r (lines_of (list_ascii_of_string (display_bundle args s) ++ rest))
  = if Umake.sequences_rejected (bundle_info s) then Exited (-1)
    else read_lines skip
           {| arrays := cleared_arrays;
              sequence_group_count := u32 (sequence_group_count r + 1);
              deck_info := Umake.find_best_deck_order (deck_info r) (bundle_info s) |}
           (lines_of rest).
Proof.
  intros H8 H4 Hn Hv Hskip. rewrite (read_block_lines args s skip r rest Hn), H8, H4.
  erewrite read_group_end; [| reflexivity | exact Hskip].
  cbn [sequence_group_count deck_info].
  rewrite (convert_written _ _ _ _ _ _ _ Hv). reflexivity.
Qed.

Lemma bit_get_integer_seq_empty : Bit.bit_get_integer_seq EmptyString = 0.
Proof. reflexivity. Qed.

Lemma zero_not_unique : Bit.bit_has_unique_subsequences 0 = false.
Proof. vm_compute. reflexivity. Qed.

Lemma read_short_block (args : Usearch.ProgramArgument_T) (s : Usearch.ultimate_struct_t)
    (skip : Z) (r : reader_t) (rest : list ascii) :
  Usearch.c8k_sequence_flag args = false \/ Usearch.c4t_sequence_flag args = false ->
  Usearch.n_bits_max s = 52 ->
  skip < u32 (sequence_group_count r + 1) ->
  (arrays r = cleared_arrays ->
   read_lines skip r (lines_of (list_ascii_of_string (display_bundle args s) ++ rest))
   = Exited (-1)) /\
  (arrays r = unwritten_arrays ->
   read_lines skip r (lines_of (list_ascii_of_string (display_bundle args s) ++ rest))
   = Undefined).
Proof.
  intros Hflag Hn Hskip. rewrite (read_block_lines args s skip r rest Hn). split; intros Ha.
  - rewrite Ha. cbn [c8k_sequence_array c4t_sequence_array cleared_arrays].
    destruct Hflag as [Hf|Hf]; rewrite Hf;
      destruct (Usearch.c8k_sequence_flag args), (Usearch.c4t_sequence_flag args);
      try discriminate Hf;
      (erewrite read_group_end; [| reflexivity | exact Hskip]);
      unfold Umake.sequences_rejected, Umake.convert_block;
      cbn [Umake.red_seq Umake.cd_seq Umake.odd_seq Umake.c7k_seq Umake.c8k_seq
           Umake.c4t_seq Umake.c8k_sequence_array Umake.c4t_sequence_array];
      rewrite bit_get_integer_seq_empty, zero_not_unique;
      cbn [negb]; rewrite ?orb_true_r; reflexivity.
  - rewrite Ha. cbn [c8k_sequence_array c4t_sequence_array unwritten_arrays].
    cbn [read_lines]. unfold read_line at 1.
    cbn [before Ascii.eqb Bool.eqb andb list_ascii_of_string strstr starts_with
         arrays sequence_group_count].
    destruct (Z.ltb_spec skip (u32 (sequence_group_count r + 1))) as [_|Hge]; [|lia].
    destruct Hflag as [Hf|Hf]; rewrite Hf;
      destruct (Usearch.c8k_sequence_flag args), (Usearch.c4t_sequence_flag args);
      try discriminate Hf; reflexivity.
Qed.

End ReadBlock.

(** X25. A block that the search prints for a bundle with the 8K and the 4T
    option is read back by the realizer as that bundle: after the seven
    lines and the empty line that ends the group, past the skip count, the
    reading loop validates and realizes exactly the seven sequences of the
    bundle, whatever the arrays held before, and goes on with cleared
    arrays; it exits with status -1 when one of the six validated
    sequences fails the bracelet test. *)
Theorem search_block_read_back (args : Usearch.ProgramArgument_T)
    (s : Usearch.ultimate_struct_t) (skip : Z) (r : UmakeMain.reader_t) (rest : list ascii) :
  Usearch.c8k_sequence_flag args = true ->
  Usearch.c4t_sequence_flag args = true ->
  Usearch.n_bits_max s = 52 ->
  Forall (fun v => 0 <= v < 2 ^ 52)
    [Usearch.red_sequence s; Usearch.cd_sequence s; Usearch.hc_sequence s;
     Usearch.odd_sequence s; Usearch.c7k_sequence s; Usearch.c8k_sequence s;
     Usearch.c4t_sequence s] ->
  skip < u32 (UmakeMain.sequence_group_count r + 1) ->
  UmakeMain.read_lines skip r
    (UmakeMain.lines_of (list_ascii_of_string (display_bundle args s) ++ rest))
  = if Umake.sequences_rejected (bundle_info s) then UmakeMain.Exited (-1)
    else UmakeMain.read_lines skip
           {| UmakeMain.arrays := UmakeMain.cleared_arrays;
              UmakeMain.sequence_group_count := u32 (UmakeMain.sequence_group_count r + 1);
              UmakeMain.deck_info :=
                Umake.find_best_deck_order (UmakeMain.deck_info r) (bundle_info s) |}
           (UmakeMain.lines_of rest).
Proof. exact (read_block args s skip r rest). Qed.

Lemma search_block_read_back_witness :
  let args :=
    {| Usearch.red_start_count := 0; Usearch.cd_start_count := 0;
       Usearch.odd_start_count := 0; Usearch.c7k_start_count := 0;
       Usearch.value_sequence_modifier_flag := false;
       Usearch.suit_sequence_modifier_flag := false;
       Usearch.c8k_sequence_flag := true; Usearch.arg_sevens_apart_flag := false;
       Usearch.c4t_sequence_flag := true |} in
  let s :=
    Usearch.with_values
      (Usearch.with_suits (Usearch.initial_seq_set args) Sample.red Sample.cd Sample.hc 0 0 0 0)
      Sample.odd Sample.c7k Sample.c8k Sample.c4t 0 in
  let r := UmakeMain.initial_reader false in
  UmakeMain.read_lines 0 r
    (UmakeMain.lines_of (list_ascii_of_string (display_bundle args s) ++ []))
  = if Umake.sequences_rejected (bundle_info s) then UmakeMain.Exited (-1)
    else UmakeMain.read_lines 0
           {| UmakeMain.arrays := UmakeMain.cleared_arrays;
              UmakeMain.sequence_group_count := u32 (UmakeMain.sequence_group_count r + 1);
              UmakeMain.deck_info :=
                Umake.find_best_deck_order (UmakeMain.deck_info r) (bundle_info s) |}
           (UmakeMain.lines_of []).
Proof.
  intros args s r.
  apply (search_block_read_back args s 0 r []);
    [reflexivity | reflexivity | reflexivity | | vm_compute; reflexivity].
  repeat (apply Forall_cons; split;
          [vm_compute; split; [intros H; discriminate H | reflexivity]|]).
  apply Forall_nil. exact I.
Defined.

(** X26. The realizer needs all seven lines of a group. A block that the
    search prints without the 8K or without the 4T option leaves the array
    of the missing sequence as it was: after an earlier group it is empty,
    the sequence converts to 0, which fails the bracelet test, and the
    reading loop exits with status -1; at the start of the file the array
    was never written and converting it has no defined behaviour. *)
Theorem block_without_8k_or_4t_is_not_realized (args : Usearch.ProgramArgument_T)
    (s : Usearch.ultimate_struct_t) (skip : Z) (r : UmakeMain.reader_t) (rest : list ascii) :
  Usearch.c8k_sequence_flag args = false \/ Usearch.c4t_sequence_flag args = false ->
  Usearch.n_bits_max s = 52 ->
  skip < u32 (UmakeMain.sequence_group_count r + 1) ->
  (UmakeMain.arrays r = UmakeMain.cleared_arrays ->
   UmakeMain.read_lines skip r
     (UmakeMain.lines_of (list_ascii_of_string (display_bundle args s) ++ rest))
   = UmakeMain.Exited (-1)) /\
  (UmakeMain.arrays r = UmakeMain.unwritten_arrays ->
   UmakeMain.read_lines skip r
     (UmakeMain.lines_of (list_ascii_of_string (display_bundle args s) ++ rest))
   = UmakeMain.Undefined).
Proof. exact (read_short_block args s skip r rest). Qed.

Lemma block_without_8k_or_4t_is_not_realized_witness :
  UmakeMain.umake_decks_main 0 false
    (Some (list_ascii_of_string (display_bundle Sample.search_args Sample.search_bundle) ++ []))
  = UmakeMain.Undefined.
Proof.
  unfold UmakeMain.umake_decks_main.
  apply (block_without_8k_or_4t_is_not_realized Sample.search_args Sample.search_bundle 0
           (UmakeMain.initial_reader false) []);
    [left; reflexivity | reflexivity | vm_compute; reflexivity | reflexivity].
Defined.
